(* ===== verification/_CoqProject ===== *)
-Q . S2P
Prelude.v
PyText.v
Json.v
StoreState.v
Prims.v
AuditLog.v
Tenants.v
Rbac.v
Users.v
Keys.v
Tokens.v
Ledger.v
Sql.v
Migrations.v
Schema.v
PgBase.v
PgTenants.v
PgUsers.v
PgTokens.v
PgLedger.v
PgSteps.v
PgProps.v
PgSingleUse.v
Crypto.v
Jwt.v
Jwks.v
Auth.v
StoreSteps.v
Invariants.v
RbacProps.v
KeyProps.v
TableProps.v
AuditProps.v
PgAudit.v
PgGaps.v
Sessions.v
AuthLemmas.v
AuthProps.v
TokenProps.v
StoreProps.v
JwksProps.v
Scenarios.v
Deps.v
MemberRoutes.v
RateLimit.v
JoinRoutes.v
RouteProps.v
Redis.v
Leases.v
Cache.v
CacheProps.v
Metrics.v
DataPlane.v
PlaneProps.v
Client.v
Webhook.v
TenantRoutes.v
AdminRoutes.v
PlaneRouteProps.v
Email.v
AuthRoutes.v
SecretRoutes.v
SecretProps.v
AuditRoutes.v
Config.v
Provision.v
Registration.v
Models.v
ProvisionProps.v
Oidc.v
OidcProps.v
Scim.v
ScimProps.v
App.v
Regex.v
Docs.v
Routing.v
Witnesses.v
SurfaceWitnesses.v
PgWitnesses.v
