(* ===== verification/Prelude.v ===== *)
(** * fusion-identity: a verification development

    fusion-identity is a multi-tenant identity service: tenants, users,
    memberships and roles; login with lockout and second factor, through a
    password or an identity provider; JWT access, refresh and session tokens
    with rotation and revocation; API keys with quotas and concurrency leases
    checked over gRPC; signup, provisioning and SCIM; application secrets and
    invites; webhooks; a hash-chained audit ledger. This library models the
    service (src/fusion_identity/) as executable definitions over its
    in-process store, its PostgreSQL store (db.py) as programs of SQL statements
    over the schema the migrations build, and the gateway's client, and proves
    the properties that make them correct.

    ** How the code is modelled

    - State. [StoreState.Store] is the record of the dicts, lists and counters
      of [InMemoryStore.__init__] (store.py); a dict is an association list in
      insertion order ([dget], [dset], [dpop], ...). [Jwks.KR] is a key ring
      with the file at its path, [RateLimit.Limiter] the login throttle. A
      handler runs over the parts it can touch: [JoinRoutes.App] (store and
      limiter), [DataPlane.Plane] (store and Redis), [Oidc.OidcApp] (with the
      login states and discovery documents the process keeps). [Sql.Db] holds
      the rows of the PostgreSQL tables and the sequences; a database with its
      catalog is a [Migrations.Cluster].
    - Effects. An operation is a function in the monad [M S A] below: state
      passing with exceptions as values, an exception keeping the changes made
      before it (Python does not roll back). [exn] has the exceptions the code
      raises; an [HTTPException] carries its status and detail. A method of
      PgStore awaits its statements, so it is a [PgBase.prog]: a tree of atomic
      actions, of what the code does with the answers, and of the advisory locks
      it takes. An action is a statement, or the writes of a transaction with its
      commit; what a transaction reads first are actions of their own.
    - Time and randomness. Clock readings and random draws are arguments. A
      time is an integer number of microseconds ([sec] converts seconds); an
      operation that reads the clock several times is given one reading. Token
      counts of the throttle are exact rationals. Integers are unbounded, as in
      Python.
    - Code outside the repository is a parameter: the classes [HashLib]
      (hashlib), [HmacLib] (hmac), [Argon2Lib] (argon2-cffi), [JwtLib] (PyJWT),
      [AeadLib] (HKDF and AES-GCM), [RsaLib] (PEM handling), [TotpLib] (pyotp),
      [RedisLib] (the Redis server), [IdpNet] (an identity provider and the
      check of its id tokens), [Asyncpg] (how the driver hands values over),
      [Prometheus] (prometheus_client), [Starlette] (the choice of the route of a
      request, and the routes of the application that fusion_core's create_app
      returns), [Unicode] (the classes of the characters beyond ASCII); as arguments the SMTP client ([Email.Smtp]), the
      receiver of webhooks ([Webhook.Endpoint]) and the port resolution of
      fusion_core. The documented behaviour a theorem relies on is a class of
      laws of its own ([HashLaws], [Argon2Laws], [JwtLaws], [AeadLaws],
      [RedisLaws], [AsyncpgLaws], [StarletteLaws]). Each class with laws has a stand-in instance that runs the
      definitions and satisfies the laws.
    - A Lua script is the sequence of Redis commands it sends, run at once, as
      the server does.
    - Recursion is structural on a list or text. The three counted recursions:
      [Jwks.to_bytes] runs on the bit length of its argument and each step
      consumes eight bits of it; [AuditRoutes.biz_pages] on the 20 pages
      the code itself allows; the webhook loop [Webhook._run] on the list of
      its ticks, and the theorem says how many empty the outbox.

    ** Files

    Foundations: [Prelude] (monad, dicts, tactics, hints), [PyText] (the string
    methods, [repr], [json.dumps], slicing and sorting the code uses), [Json]
    ([json.loads] and the text of [jsonb]), [Prims] (hashing primitives).

    Model of store.py: [StoreState] (constants and rows), [AuditLog], [Tenants],
    [Rbac], [Users], [Keys], [Tokens] (with invites and join requests),
    [Ledger], one definition per method under the method's name.

    Model of db.py and migrations: [Sql] (tables, constraints, row-level security
    and the statements the code sends), [Migrations] (migrations.py), [Schema]
    (the files under src/migrations/ and the catalog they build), [PgBase] (pool,
    tenant setting, row decoding), and the methods of PgStore under their names
    with the prefix [pg_]: [PgTenants], [PgUsers] (with roles and
    menus), [PgTokens] (with keys and application secrets), [PgLedger].

    Model of the services: [Crypto] (crypto.py), [Jwt] (jwt_utils.py), [Jwks]
    (jwks.py and its public route), [Auth] (auth.py: [AuthService],
    [bootstrap]), [RateLimit] (ratelimit.py), [Redis] (the commands and their
    laws), [Leases] (concurrency.py), [Cache] (cache.py), [DataPlane]
    (grpc_servicer.py, grpc_interceptor.py), [Webhook] (events.py), [Email]
    (email_sender.py), [Config] (config.py), [Metrics] (metrics_collector.py),
    [App] (app.py, routes/health.py, metrics.py), [Client]
    (client/identity_client.py, lease_guard.py).

    Model of the document checks (src/ci/validate_docs.py): [Regex] (texts as
    lists of code points, the pattern forms in use and a backtracking matcher with
    groups, proved exact for a declarative semantics), [Docs] (the validator).

    Model of the HTTP surface: [Routing] (the route table of the 22 routers and
    build_app with the guard of every route), [Deps] (the guards of deps.py), [MemberRoutes]
    (members.py, rbac.py), [JoinRoutes], [TenantRoutes] (tenants.py, quotas.py,
    api_keys.py), [AdminRoutes], [AuthRoutes] (auth.py, mfa.py), [SecretRoutes]
    (app_secrets.py, app_credentials.py, idps.py, departments.py, jwks.py),
    [AuditRoutes] (audit.py, usage.py), [Provision], [Registration], [Oidc],
    [Scim]; [Models] has the constraints of the request bodies (models.py). A
    handler is modelled with its guard, its error mapping, its audit
    entries and events; where its name is taken by the method it calls, it has
    the suffix [_route].

    Theory: [StoreSteps] turns the 55 state-changing store operations into a
    step function, defines [reachable] stores, and shows with the hint database
    [safe] that every method of the service acts through those operations, so
    an invariant of the operations is an invariant of the service. [Invariants]
    (tables without duplicate keys), [RbacProps] (every membership's role
    resolves; limits), [KeyProps] (secrets and the key index), [TableProps]
    (row identities; join requests; what later operations cannot undo),
    [AuthLemmas] (run equations of the service methods). [Leases] has
    the abstract counting semaphore and the relation that ties it to the
    server's sorted sets; [PlaneProps] and [Client] use it as the lease's
    meaning. For the PostgreSQL store, [Sql] says what each statement can
    do to the rows; [PgSteps] makes the 54 writing methods a transition
    system in which the actions of any number of workers interleave ([evolve]),
    with a class [Evolution] of the relations between databases that every
    action respects and the tactic [pg_keeps] that reduces a method to its
    statements. Where it matters what a call has read and which locks it holds,
    the same calls run as the threads of a pool ([pool_rel]): a thread waits for
    an advisory lock of another, workers can be lost at any point, and what the
    pool does to the database is a run of [evolve] ([pool_evolves]).

    ** What the theorems show

    - [AuthProps]: invariants under any interleaving of the service, the exact
      authorization predicate, soundness of login, lockout.
    - [TokenProps]: rotation with theft detection, revocation and its tenant
      boundary, logout, single-use tickets and reset tokens, password change.
    - [AuditProps] and [AuditLog]: the ledger verifies in every reachable store up
      to its cap and is tamper-evident; eviction at the cap breaks it; listing.
      A statement about SHA-256 names the texts that would have to collide.
    - [StoreProps]: API-key life cycle, tenant deletion with isolation of the
      others, application-secret rotation, final join decisions, event paging,
      usage figures.
    - [JwksProps]: key rotation across restarts and for live tokens, where the
      grace window really starts, the dual window of the key-encryption key,
      error containment of decryption.
    - [Scenarios]: from an empty store to a verified administrator token; two
      flows in which a revocation does not last.
    - [RouteProps]: the permission guard, the last-administrator rule and its
      gap, invites, self-service joining.
    - [RateLimit]: how many attempts the throttle of a process admits while it
      has room for the keys at hand, and how a flood of other keys undoes that;
      that it always lets up, that its memory is bounded.
    - [Leases]: the Redis scripts refine a counting semaphore with expiry on any
      history of calls; the limit is never passed; a lapsed lease is free again.
    - [CacheProps]: the login window admits exactly its limit, the bound on
      requests per minute and where it doubles, the daily quota, one-shot login
      states.
    - [PlaneProps]: what an admitted model call proves of its key, tenant and
      limits; a refused one leaves no lease; what the cache can answer.
    - [PlaneRouteProps]: handlers and data plane together: a revoked key stays
      refused whatever complete requests follow, and a quota change reaches the
      plane at once; a change of the tenant's status waits for the cache to lapse.
    - [SecretProps]: the re-encryption sweep loses no secret it
      can read; stored credentials round-trip, and the sweep passes them by.
    - [Webhook]: enough ticks empty the outbox whatever the endpoint answers,
      and no event is called delivered that was not accepted.
    - [AuthRoutes]: a password reset is effective; the reset request tells
      nothing of the account.
    - [AuditRoutes]: the paged scan of business events equals a filter.
    - [Config]: settings that load are well formed, secrets strong and apart.
    - [ProvisionProps]: all or nothing, replay by idempotency key, the
      failure of provisioning with a hook.
    - [ProvisionProps] also: a personal signup is shut at the login endpoint
      until its address is verified, whatever happens meanwhile; what the resend
      handler tells.
    - [OidcProps]: only members of the provider's tenant get in, with a fresh
      login state of that provider and under the name it vouched for; a login
      state is spent by its use, the in-process fallback is never read.
    - [ScimProps]: a SCIM request touches its tenant's memberships only;
      deletion bars the user.
    - [PgProps]: under any interleaving of workers row-level security keeps a
      worker of one tenant from the rows of the others; which tables it does not
      cover.
    - [PgSingleUse]: what one worker spends or revokes stays spent
      for all of them (tickets, invites, refresh families, revoked jtis); the
      answer under an idempotency key is the one every worker replays.
    - [Sessions]: the part of [StoreProto] (auth.py) on refresh tokens as an
      interface with its promise over a finite map; both stores keep it, so they
      agree up to the Python type of times, and a token is rotated at most once
      in either.
    - [PgAudit], [PgGaps]: thanks to its advisory lock the ledger of each tenant
      is one chain under any interleaving of statements; its verifier rejects it
      all the same; the calls of auth.py that fail or have no effect on PostgreSQL.
    - [Schema]: a run is idempotent, a failing run leaves a recorded prefix at
      which a later run resumes, and the twenty files build the schema.
    - [Client]: the lease guard frees its lease however its body ends; the
      client's calls need the service token in the channel.
    - [Models]: accepted bodies stay within the limits of the store; every
      password that is set has passed the policy.
    - [Metrics]: no metrics call raises.
    - [App]: the security headers; the gRPC guard knows no previous token; the
      stop closes the store whatever the other parts do.
    - [Routing]: what a stranger reaches behind the middlewares, the tenant of a
      path as a boundary over all routes, and that the order of registration does
      not matter.
    - [Docs]: a run with exit code 0 vouches for every document; front matter
      is parsed back as it was written.
    - [Witnesses], [SurfaceWitnesses], [PgWitnesses]: concrete runs at which the hypotheses of
      the theorems hold.

    ** What is not modelled

    What the routes of fusion_core's create_app do and its tenant middleware, the start over
    the PostgreSQL store and the uvicorn loop; the generated gRPC stubs, whose
    messages are records of [DataPlane]; response models, which are the records
    their handlers return. Logging has no effect on state and is left out, and so
    is the rendering of a row as JSON where the handler returns it whole. The
    handlers of the other files do not repeat the constraints of [Models], so
    their theorems hold for bodies pydantic would refuse too. The services and
    handlers run over the in-process store: requests run to completion one at a
    time, interleavings are sequences of whole operations of the store or of
    whole methods, as in the single event loop of the in-memory deployment,
    whose store methods never yield; a handler that awaits Redis, SMTP or a
    provider is still one step, so what a request in flight had read before
    another changed it is out of sight; [SurfaceWitnesses.in_flight_refills]
    shows by hand where that matters for a revoked key. A round trip to Redis
    fails before its command runs or not at all: a reply that is lost after the
    command has run is not modelled. Of PostgreSQL, a statement is one step;
    plans, indexes that are not unique, row locks (a transaction of the code
    writes in one step, and [FOR UPDATE] is only used under an advisory lock),
    grants and the size of values other than the integers the code binds are
    left out.

    What would come next: more of [StoreProto] as an interface both stores
    keep, so that the services run over either. *)
From Stdlib Require Export Ascii.
From stdpp Require Export strings pretty gmap prelude.
Set Default Proof Using "Type".
Open Scope Z_scope.

(** ** Exceptions and outcomes *)

(** The detail of an HTTP error: a text, or the tenant picker of the
    ambiguous login ([auth.py], [_resolve_login_tenant]). *)
Inductive detail : Type :=
  | DText (s : string)
  | DTenants (error : string) (tenants : list (string * option string)).

(** The exceptions of asyncpg, under the names of its classes. *)
Inductive pg_error : Type :=
  | UniqueViolationError
  | ForeignKeyViolationError
  | CheckViolationError
  | NotNullViolationError
  | InsufficientPrivilegeError
  | DataError
  | InvalidRowCountInLimitClauseError
  | UndefinedTableError
  | UndefinedColumnError
  | DuplicateObjectError.

(** The exceptions the modelled code raises. *)
Inductive exn : Type :=
  | PgError (e : pg_error)
  | StoreError (msg : string)
  | LeaseDenied (code : Z) (msg : string)
  | StoreConflict (msg : string)
  | HTTPException (status_code : Z) (d : detail)
  | JwtError (msg : string)
  | CryptoError (msg : string)
  | ConfigError (msg : string)
  | RuntimeError (msg : string)
  | ValueError (msg : string)
  | TypeError (msg : string)
  | KeyError (msg : string)
  | IndexError (msg : string)
  | AttributeError (msg : string)
  | EmailDeliveryError (msg : string)
  | OSError (msg : string).

Inductive res (A : Type) : Type :=
  | Ok (a : A)
  | Raise (e : exn).
Arguments Ok {A} a.
Arguments Raise {A} e.

#[export] Instance detail_eq_dec : EqDecision detail.
Proof. solve_decision. Defined.
#[export] Instance pg_error_eq_dec : EqDecision pg_error.
Proof. solve_decision. Defined.
#[export] Instance exn_eq_dec : EqDecision exn.
Proof. solve_decision. Defined.
#[export] Instance res_eq_dec {A} `{EqDecision A} : EqDecision (res A).
Proof. solve_decision. Defined.

Definition is_ok {A} (r : res A) : bool :=
  match r with Ok _ => true | Raise _ => false end.

(** ** The state-and-exception monad

    A handler of the program mutates the store it holds and may raise. An
    exception does not undo the mutations made before it, so the state is
    returned on both outcomes. *)
Definition M (S A : Type) : Type := S -> res A * S.

Definition ret {S A} (a : A) : M S A := fun s => (Ok a, s).
Definition raise {S A} (e : exn) : M S A := fun s => (Raise e, s).
Definition bind {S A B} (m : M S A) (k : A -> M S B) : M S B :=
  fun s => match m s with
           | (Ok a, s') => k a s'
           | (Raise e, s') => (Raise e, s')
           end.
(** Read a view of the state; replace the state. *)
Definition gets {S A} (f : S -> A) : M S A := fun s => (Ok (f s), s).
Definition modify {S} (f : S -> S) : M S unit := fun s => (Ok tt, f s).
(** [try: m  except: h], where [h] may decline by re-raising. *)
Definition catch {S A} (m : M S A) (h : exn -> M S A) : M S A :=
  fun s => match m s with
           | (Ok a, s') => (Ok a, s')
           | (Raise e, s') => h e s'
           end.
(** Lift a pure fallible computation. *)
Definition lift {S A} (r : res A) : M S A :=
  fun s => (r, s).

Declare Scope prog_scope.
Delimit Scope prog_scope with prog.
Notation "'let!' x := m 'in' k" := (bind m (fun x => k))
  (at level 10, x pattern, m at level 100, k at level 200) : prog_scope.
Notation "m ';;;' k" := (bind m (fun _ => k))
  (at level 199, right associativity) : prog_scope.
Open Scope prog_scope.

(** [for x in l: body x] *)
Fixpoint for_each {S A} (l : list A) (body : A -> M S unit) : M S unit :=
  match l with
  | [] => ret tt
  | x :: l' => body x ;;; for_each l' body
  end.

Section monad_lemmas.
Context {S A B : Type}.
Implicit Types (s : S) (m : M S A) (k : A -> M S B).

Lemma bind_ok m k s b s2 :
  bind m k s = (Ok b, s2) <->
  exists a s1, m s = (Ok a, s1) /\ k a s1 = (Ok b, s2).
Proof.
  unfold bind. destruct (m s) as [[a|e] s1]; split.
  - eauto.
  - intros (? & ? & [= <- <-] & ?). done.
  - done.
  - intros (? & ? & [=] & ?).
Qed.

Lemma bind_raise m k s e s2 :
  bind m k s = (Raise e, s2) <->
  m s = (Raise e, s2) \/ exists a s1, m s = (Ok a, s1) /\ k a s1 = (Raise e, s2).
Proof.
  unfold bind. destruct (m s) as [[a|e'] s1]; split.
  - intros H. right. eauto.
  - intros [[=]|(? & ? & [= <- <-] & ?)]. done.
  - intros [= <- <-]. by left.
  - intros [[= <- <-]|(? & ? & [=] & ?)]. done.
Qed.

Lemma ret_inv (a b : A) s s2 : ret a s = (Ok b, s2) <-> a = b /\ s = s2.
Proof. unfold ret. naive_solver. Qed.

Lemma bind_ret_l (a : A) k s : bind (ret a) k s = k a s.
Proof. done. Qed.

Lemma bind_gets (f : S -> A) k s : bind (gets f) k s = k (f s) s.
Proof. done. Qed.

Lemma bind_lift_ok (a : A) k s : bind (lift (Ok a)) k s = k a s.
Proof. done. Qed.

Lemma bind_eq_ok m k s a s1 : m s = (Ok a, s1) -> bind m k s = k a s1.
Proof. unfold bind. by intros ->. Qed.

Lemma bind_eq_raise m k s e s1 : m s = (Raise e, s1) -> bind m k s = (Raise e, s1).
Proof. unfold bind. by intros ->. Qed.
End monad_lemmas.

(** Break a run into the runs of its parts. [run_inv] decomposes hypotheses
    [m s = (Ok a, s')], closing the branches that raise. *)
Ltac run_inv_step :=
  match goal with
  | H : bind _ _ _ = (Ok _, _) |- _ =>
      let a := fresh "a" in let s := fresh "s" in
      let H1 := fresh "H" in let H2 := fresh "H" in
      apply bind_ok in H as (a & s & H1 & H2); cbn beta in H2
  | H : ret _ _ = (_, _) |- _ => unfold ret in H; simplify_eq
  | H : gets _ _ = (_, _) |- _ => unfold gets in H; simplify_eq
  | H : modify _ _ = (_, _) |- _ => unfold modify in H; simplify_eq
  | H : raise _ _ = (_, _) |- _ => unfold raise in H; simplify_eq
  | H : lift _ _ = (_, _) |- _ => unfold lift in H; simplify_eq
  | H : (if ?b then _ else _) _ = (Ok _, _) |- _ => destruct b eqn:?
  | H : (match ?x with _ => _ end) _ = (Ok _, _) |- _ => destruct x eqn:?
  | H : (Ok _, _) = (Ok _, _) |- _ => injection H as; subst
  | H : (Raise _, _) = (Ok _, _) |- _ => discriminate H
  end.
Ltac run_inv := repeat run_inv_step.

(** ** Python dicts

    A [dict] iterates in insertion order; assigning to an existing key keeps
    its position, popping removes it. An association list with those two
    operations models it; [dict_wf] (no key twice) holds of every dict. *)
Section dict.
Context {K V : Type} `{EqDecision K}.
Implicit Types (d : list (K * V)) (k : K) (v : V).

Fixpoint dget k d : option V :=
  match d with
  | [] => None
  | (k', v) :: d' => if decide (k = k') then Some v else dget k d'
  end.

(** [d[k] = v] *)
Fixpoint dset k v d : list (K * V) :=
  match d with
  | [] => [(k, v)]
  | (k', v') :: d' => if decide (k = k') then (k', v) :: d' else (k', v') :: dset k v d'
  end.

(** [d.pop(k, None)] *)
Definition dpop k d : list (K * V) := filter (fun kv => kv.1 <> k) d.

(** In-place mutation of the values, in iteration order. *)
Definition dmap (f : K -> V -> V) d : list (K * V) :=
  (fun kv => (kv.1, f kv.1 kv.2)) <$> d.

(** Mutation of the record stored under one key. *)
Definition dupd k (f : V -> V) d : list (K * V) :=
  match dget k d with
  | Some v => dset k (f v) d
  | None => d
  end.

Definition dvalues d : list V := d.*2.
Definition dkeys d : list K := d.*1.
Definition dmem k d : bool := match dget k d with Some _ => true | None => false end.

(** The first value in iteration order satisfying [P]. *)
Fixpoint dfind (P : V -> bool) d : option (K * V) :=
  match d with
  | [] => None
  | (k, v) :: d' => if P v then Some (k, v) else dfind P d'
  end.

Definition dict_wf d : Prop := NoDup (dkeys d).

Lemma dget_dset k k' v d :
  dget k' (dset k v d) = if decide (k' = k) then Some v else dget k' d.
Proof.
  induction d as [|[k1 v1] d IH]; simpl; [by repeat case_decide|].
  destruct (decide (k = k1)) as [->|?]; simpl; [by repeat case_decide|].
  rewrite IH. repeat case_decide; naive_solver.
Qed.

Lemma dget_dset_inv k k' v w d :
  dget k' (dset k v d) = Some w -> (k' = k /\ w = v) \/ (k' <> k /\ dget k' d = Some w).
Proof. rewrite dget_dset. case_decide; naive_solver. Qed.

Lemma dget_dset_eq k v d : dget k (dset k v d) = Some v.
Proof. rewrite dget_dset. by case_decide. Qed.
Lemma dget_dset_ne k k' v d : k' <> k -> dget k' (dset k v d) = dget k' d.
Proof. rewrite dget_dset. by case_decide. Qed.

Lemma dget_dpop k k' d :
  dget k' (dpop k d) = if decide (k' = k) then None else dget k' d.
Proof.
  unfold dpop. induction d as [|[k1 v1] d IH]; simpl; [by case_decide|].
  rewrite filter_cons. simpl. repeat (case_decide; simpl); naive_solver.
Qed.

Lemma dget_dpop_eq k d : dget k (dpop k d) = None.
Proof. rewrite dget_dpop. by case_decide. Qed.
Lemma dget_dpop_ne k k' d : k' <> k -> dget k' (dpop k d) = dget k' d.
Proof. rewrite dget_dpop. by case_decide. Qed.

Lemma dget_dmap f k d : dget k (dmap f d) = f k <$> dget k d.
Proof. induction d as [|[k1 v1] d IH]; simpl; [done|]. case_decide; naive_solver. Qed.

Lemma dget_dupd k k' f d :
  dget k' (dupd k f d) = if decide (k' = k) then f <$> dget k' d else dget k' d.
Proof.
  unfold dupd. destruct (dget k d) eqn:E; [rewrite dget_dset|];
    destruct (decide (k' = k)) as [->|]; rewrite ?E; done.
Qed.

Lemma dget_filter (P : K * V -> Prop) `{forall x, Decision (P x)} k d :
  dict_wf d ->
  dget k (filter P d) =
  match dget k d with
  | Some v => if decide (P (k, v)) then Some v else None
  | None => None
  end.
Proof.
  unfold dict_wf, dkeys. induction d as [|[k1 v1] d IH]; csimpl; [done|].
  intros [Hk1 Hd]%NoDup_cons. rewrite filter_cons.
  destruct (decide (P (k1, v1))) as [HP|HP]; simpl;
    destruct (decide (k = k1)) as [->|Hne]; try by rewrite IH.
  - by rewrite decide_True.
  - rewrite decide_False by done. rewrite IH by done.
    destruct (dget k1 d) as [v|] eqn:E; [|done]. exfalso. apply Hk1.
    clear -E. induction d as [|[k2 v2] d IH]; simpl in *; [done|].
    case_decide; subst; [left|right]; auto.
Qed.

Lemma dget_elem_of k v d : dget k d = Some v -> (k, v) ∈ d.
Proof.
  induction d as [|[k1 v1] d IH]; simpl; [done|]. case_decide.
  - intros [= ->]. subst. left.
  - intros. right. auto.
Qed.

Lemma dget_keys k d : is_Some (dget k d) <-> k ∈ dkeys d.
Proof.
  unfold dkeys. induction d as [|[k1 v1] d IH]; csimpl.
  - split; [by intros [? ?]|by intros ?%elem_of_nil].
  - rewrite elem_of_cons. case_decide; naive_solver.
Qed.

Lemma dget_None k d : dget k d = None <-> k ∉ dkeys d.
Proof. rewrite <- dget_keys, <- eq_None_not_Some. done. Qed.

Lemma elem_of_dget k v d : dict_wf d -> (k, v) ∈ d -> dget k d = Some v.
Proof.
  unfold dict_wf, dkeys. induction d as [|[k1 v1] d IH]; csimpl.
  - by intros _ ?%elem_of_nil.
  - intros [Hk Hd]%NoDup_cons [[= -> ->]|Hin]%elem_of_cons; [by rewrite decide_True|].
    rewrite decide_False; [auto|]. intros ->. apply Hk.
    apply list_elem_of_fmap. by exists (k1, v).
Qed.

Lemma elem_of_dget_iff k v d : dict_wf d -> (k, v) ∈ d <-> dget k d = Some v.
Proof. split; eauto using elem_of_dget, dget_elem_of. Qed.

Lemma elem_of_dvalues v d : dict_wf d -> v ∈ dvalues d <-> exists k, dget k d = Some v.
Proof.
  intros Hd. unfold dvalues. rewrite list_elem_of_fmap. split.
  - intros ([k v'] & -> & Hin). exists k. by apply elem_of_dget.
  - intros [k Hk]. exists (k, v). split; [done|]. by apply dget_elem_of.
Qed.

Lemma dkeys_dset k v d :
  dkeys (dset k v d) = if decide (k ∈ dkeys d) then dkeys d else dkeys d ++ [k].
Proof.
  unfold dkeys. induction d as [|[k1 v1] d IH]; csimpl; [done|].
  destruct (decide (k = k1)) as [->|Hne]; csimpl.
  - rewrite decide_True by left. done.
  - rewrite IH. repeat case_decide; set_solver.
Qed.

Lemma dkeys_dmap f d : dkeys (dmap f d) = dkeys d.
Proof. unfold dkeys, dmap. induction d as [|[]]; csimpl; congruence. Qed.

Lemma dict_wf_nil : dict_wf [].
Proof. apply NoDup_nil_2. Qed.

Lemma dict_wf_dset k v d : dict_wf d -> dict_wf (dset k v d).
Proof.
  unfold dict_wf. rewrite dkeys_dset. case_decide; [done|]. intros.
  apply NoDup_app. split_and!; [done|set_solver|apply NoDup_singleton].
Qed.

Lemma dict_wf_filter (P : K * V -> Prop) `{forall x, Decision (P x)} d :
  dict_wf d -> dict_wf (filter P d).
Proof.
  unfold dict_wf, dkeys. induction d as [|[k1 v1] d IH]; csimpl; [done|].
  intros [Hk Hd]%NoDup_cons. rewrite filter_cons. case_decide; csimpl; [|auto].
  apply NoDup_cons. split; [|auto]. intros ([k v] & -> & [_ Hin]%list_elem_of_filter)%list_elem_of_fmap.
  apply Hk, list_elem_of_fmap. by exists (k, v).
Qed.

Lemma dict_wf_dpop k d : dict_wf d -> dict_wf (dpop k d).
Proof. apply dict_wf_filter. Qed.

Lemma dict_wf_dmap f d : dict_wf d -> dict_wf (dmap f d).
Proof. unfold dict_wf. by rewrite dkeys_dmap. Qed.

Lemma dict_wf_dupd k f d : dict_wf d -> dict_wf (dupd k f d).
Proof. unfold dupd. destruct (dget k d); auto using dict_wf_dset. Qed.

Lemma dfind_Some P d k v : dfind P d = Some (k, v) -> P v = true /\ (k, v) ∈ d.
Proof.
  induction d as [|[k1 v1] d IH]; simpl; [done|]. destruct (P v1) eqn:E.
  - intros [= -> ->]. split; [done|left].
  - intros [? ?]%IH. split; [done|by right].
Qed.

Lemma dfind_None P d : dfind P d = None <-> forall k v, (k, v) ∈ d -> P v = false.
Proof.
  induction d as [|[k1 v1] d IH]; simpl; [split; [by intros _ ?? ?%elem_of_nil|done]|].
  destruct (P v1) eqn:E; [split; [done|intros H; specialize (H k1 v1 ltac:(left)); congruence]|].
  rewrite IH. split; [|intros H k v Hin; apply (H k v); by right].
  intros H k v [[= -> ->]|Hin]%elem_of_cons; eauto.
Qed.

(** The finite map a dict stands for; reading and writing agree with it. *)
Lemma dget_list_to_map `{Countable K} k d :
  dget k d = (list_to_map d : gmap K V) !! k.
Proof.
  induction d as [|[k1 v1] d IH]; csimpl; [by rewrite lookup_empty|].
  rewrite lookup_insert. repeat case_decide; congruence.
Qed.
End dict.

#[global] Arguments dict_wf {K V} d : simpl never.
#[global] Arguments dpop : simpl never.

(** Rewriting and well-formedness hints shared by the component files. *)
Create HintDb dict.
Create Rewrite HintDb dict.
#[export] Hint Resolve dict_wf_nil dict_wf_dset dict_wf_dpop dict_wf_dmap dict_wf_dupd
  dict_wf_filter : dict.
#[export] Hint Rewrite @dget_dset @dget_dpop @dget_dmap @dget_dupd : dict.
Ltac dict_simpl := autorewrite with dict in *; simpl in *.
