(* ===== verification/PyText.v ===== *)
(** * Text: the string operations and the JSON printer the program uses

    A Python [str] is modelled as a [string]: the sequence of its code points,
    each below 256 (Latin-1). The operations are the ones of [str], [re] and
    [json] that the modelled code calls, on that range. *)
From S2P Require Import Prelude.

Abbreviation chr := N_of_ascii.
Definition chars (s : string) : list ascii := String.list_ascii_of_string s.
Definition of_chars (l : list ascii) : string := String.string_of_list_ascii l.
Definition slen (s : string) : Z := Z.of_nat (String.length s).
Lemma length_of_chars l : String.length (of_chars l) = length l.
Proof. unfold of_chars. induction l as [|c l IH]; simpl; [done|]. by rewrite IH. Qed.
Lemma chars_of_chars l : chars (of_chars l) = l.
Proof. apply String.list_ascii_of_string_of_list_ascii. Qed.
Lemma of_chars_chars s : of_chars (chars s) = s.
Proof. apply String.string_of_list_ascii_of_string. Qed.

Lemma sapp_inj_len x y t u :
  String.length x = String.length y -> x +:+ t = y +:+ u -> x = y /\ t = u.
Proof.
  revert y. induction x as [|c x IH]; intros [|d y]; simpl; try done.
  intros [= Hl] [= -> [-> ->]%IH]; done.
Qed.

Lemma slen_app x y : String.length (x +:+ y) = (String.length x + String.length y)%nat.
Proof. induction x as [|c x IH]; simpl; [done|]. by rewrite IH. Qed.

Lemma sapp_inj_r x y t : x +:+ t = y +:+ t -> x = y.
Proof.
  intros E. apply (f_equal String.length) in E as L. rewrite !slen_app in L.
  destruct (sapp_inj_len x y t t); [lia|done|done].
Qed.

Definition newline : ascii := "010"%char.

(** Truth value of a [str], and of an [Optional[str]]. *)
Definition str_true (s : string) : bool := bool_decide (s <> "").
Definition opt_true (o : option string) : bool :=
  match o with Some s => str_true s | None => false end.
(** Truth value of an [Optional[float]]. *)
Definition time_true (o : option Z) : bool :=
  match o with Some t => bool_decide (t <> 0) | None => false end.

Definition in_range (lo hi : N) (c : ascii) : bool :=
  ((lo <=? chr c) && (chr c <=? hi))%N.
Definition is_digit := in_range 48 57.
Definition is_upper := in_range 65 90.
Definition is_lower := in_range 97 122.
(** [str.isspace] below 256. *)
Definition is_space (c : ascii) : bool :=
  in_range 9 13 c || in_range 28 32 c || (chr c =? 133)%N || (chr c =? 160)%N.

(** [str.lower] below 256: A-Z and the accented capitals, multiplication
    sign excepted. *)
Definition lower_char (c : ascii) : ascii :=
  if is_upper c || (in_range 192 222 c && negb (chr c =? 215)%N)
  then ascii_of_N (chr c + 32) else c.
Definition lower (s : string) : string := of_chars (lower_char <$> chars s).

Fixpoint lstrip_chars (l : list ascii) : list ascii :=
  match l with
  | c :: l' => if is_space c then lstrip_chars l' else l
  | [] => []
  end.
(** [str.strip()] *)
Definition strip (s : string) : string :=
  of_chars (reverse (lstrip_chars (reverse (lstrip_chars (chars s))))).

(** [s.startswith(p)], [s[n:]] and [s[:n]]. *)
Definition startswith (p s : string) : bool := String.prefix p s.
Lemma prefix_app p x : String.prefix p (p +:+ x) = true.
Proof. induction p as [|c p IH]; simpl; [by destruct x|]. by destruct (ascii_dec c c). Qed.
Definition sdrop (n : nat) (s : string) : string := of_chars (drop n (chars s)).
Definition stake (n : nat) (s : string) : string := of_chars (take n (chars s)).

(** [p in s] *)
Fixpoint contains (p s : string) : bool :=
  String.prefix p s || match s with
                       | EmptyString => false
                       | String _ s' => contains p s'
                       end.

Definition strip_final_newline (l : list ascii) : list ascii :=
  match reverse l with
  | c :: r => if decide (c = newline) then reverse r else l
  | [] => []
  end.

(** [re.compile(r"^[head][tail]{0,n}$").match(s)]: the [$] of [re] also
    matches before one final newline. *)
Definition re_ident (head tail : ascii -> bool) (n : nat) (s : string) : bool :=
  match chars s with
  | [] => false
  | c :: rest =>
      let body := strip_final_newline rest in
      head c && forallb tail body && (length body <=? n)%nat
  end.

(** [repr(s)] for [str]. *)
Definition hex_digit (n : N) : ascii :=
  if (n <? 10)%N then ascii_of_N (48 + n) else ascii_of_N (87 + n).
Definition hex2 (n : N) : list ascii := [hex_digit (n / 16); hex_digit (n mod 16)].
Definition repr_char (quote c : ascii) : list ascii :=
  let n := chr c in
  if decide (c = quote \/ c = "\"%char) then ["\"%char; c]
  else if (n =? 10)%N then ["\"%char; "n"%char]
  else if (n =? 13)%N then ["\"%char; "r"%char]
  else if (n =? 9)%N then ["\"%char; "t"%char]
  else if (n <? 32)%N || in_range 127 160 c || (n =? 173)%N
       then ["\"%char; "x"%char] ++ hex2 n
  else [c].
Definition py_repr (s : string) : string :=
  let l := chars s in
  let q := if decide ("'"%char ∈ l /\ "034"%char ∉ l) then "034"%char else "'"%char in
  of_chars ([q] ++ (l ≫= repr_char q) ++ [q]).

Fixpoint join (sep : string) (l : list string) : string :=
  match l with
  | [] => ""
  | [s] => s
  | s :: l' => s +:+ sep +:+ join sep l'
  end.

(** [l[:n]]: a negative bound counts from the end. *)
Definition py_take {A} (n : Z) (l : list A) : list A :=
  if decide (n < 0) then take (Z.to_nat (Z.of_nat (length l) + n)) l
  else take (Z.to_nat n) l.
(** [l[-n:]]: [l[0:]] when [n] is zero. *)
Definition py_last {A} (n : Z) (l : list A) : list A :=
  if decide (n <= 0) then drop (Z.to_nat (- n)) l
  else drop (length l - Z.to_nat n) l.

(** ** Stable sorting, as [sorted] and [list.sort] do it *)
Section sort.
Context {A : Type} (le : A -> A -> bool).

Fixpoint sort_insert (x : A) (l : list A) : list A :=
  match l with
  | [] => [x]
  | y :: l' => if le x y then x :: l else y :: sort_insert x l'
  end.
Fixpoint sort_by (l : list A) : list A :=
  match l with
  | [] => []
  | x :: l' => sort_insert x (sort_by l')
  end.

Lemma sort_insert_perm x l : sort_insert x l ≡ₚ x :: l.
Proof.
  induction l as [|y l IH]; simpl; [done|]. destruct (le x y); [done|].
  rewrite IH. apply Permutation_swap.
Qed.

Lemma sort_by_perm l : sort_by l ≡ₚ l.
Proof. induction l as [|x l IH]; simpl; [done|]. by rewrite sort_insert_perm, IH. Qed.

(** Sorting leaves a list that is already in order as it is. *)
Lemma sort_by_sorted l :
  (forall i x y, l !! i = Some x -> l !! S i = Some y -> le x y = true) ->
  sort_by l = l.
Proof.
  induction l as [|x l IH]; simpl; [done|]. intros H.
  rewrite IH by (intros i; apply (H (S i))).
  destruct l as [|y l]; simpl; [done|]. by rewrite (H 0%nat x y).
Qed.

Lemma sort_insert_last x l :
  (forall y, y ∈ l -> le x y = false) -> sort_insert x l = l ++ [x].
Proof.
  induction l as [|y l IH]; simpl; [done|]. intros H.
  rewrite (H y) by left. f_equal. apply IH. intros z Hz. apply H. by right.
Qed.

(** Sorting against a strict order of the list reverses it. *)
Lemma sort_by_reverse l :
  (forall i j x y, (i < j)%nat -> l !! i = Some x -> l !! j = Some y -> le x y = false) ->
  sort_by l = reverse l.
Proof.
  induction l as [|x l IH]; [done|]. intros H. simpl.
  rewrite IH by (intros i j y z Hij; apply (H (S i) (S j)); lia).
  rewrite reverse_cons. apply sort_insert_last. intros y Hy. rewrite elem_of_reverse in Hy.
  apply list_elem_of_lookup in Hy as [j Hj]. apply (H 0%nat (S j) x y); [lia|reflexivity|exact Hj].
Qed.
End sort.

(** ** JSON values and [json.dumps(v, sort_keys=True, separators=(",", ":"))]

    [JFloat us] is the float [us / 10^6]: every float the program serialises
    is a clock reading rounded to microseconds. *)
Inductive json : Type :=
  | JNull
  | JBool (b : bool)
  | JInt (z : Z)
  | JFloat (us : Z)
  | JStr (s : string)
  | JArr (l : list json)
  | JObj (kvs : list (string * json)).

Definition json_char (c : ascii) : list ascii :=
  let n := chr c in
  if (n =? 34)%N || (n =? 92)%N then ["\"%char; c]
  else if (n =? 8)%N then ["\"%char; "b"%char]
  else if (n =? 9)%N then ["\"%char; "t"%char]
  else if (n =? 10)%N then ["\"%char; "n"%char]
  else if (n =? 12)%N then ["\"%char; "f"%char]
  else if (n =? 13)%N then ["\"%char; "r"%char]
  else if in_range 32 126 c then [c]
  else ["\"%char; "u"%char; "0"%char; "0"%char] ++ hex2 n.
Definition json_string (s : string) : string :=
  of_chars (["034"%char] ++ (chars s ≫= json_char) ++ ["034"%char]).

Fixpoint strip_zeros (l : list ascii) : list ascii :=
  match l with
  | c :: l' => if decide (c = "0"%char) then strip_zeros l' else l
  | [] => []
  end.
Definition pad6 (n : Z) : list ascii :=
  let d := chars (pretty n) in replicate (6 - length d) "0"%char ++ d.
(** [repr] of the float [us / 10^6], for readings below 2^53 microseconds. *)
Definition float_repr (us : Z) : string :=
  let sign := if decide (us < 0) then "-" else "" in
  let frac := reverse (strip_zeros (reverse (pad6 (Z.abs us mod 1000000)))) in
  sign +:+ pretty (Z.abs us / 1000000) +:+ "." +:+
  (if decide (frac = []) then "0" else of_chars frac).

Fixpoint json_dumps (j : json) : string :=
  match j with
  | JNull => "null"
  | JBool true => "true"
  | JBool false => "false"
  | JInt z => pretty z
  | JFloat us => float_repr us
  | JStr s => json_string s
  | JArr l => "[" +:+ join "," (map json_dumps l) +:+ "]"
  | JObj kvs =>
      let printed := map (fun kv => match kv with (k, v) => (k, json_dumps v) end) kvs in
      "{" +:+
      join "," (map (fun kv => json_string kv.1 +:+ ":" +:+ kv.2)
                    (sort_by (fun a b => String.leb a.1 b.1) printed))
      +:+ "}"
  end.

Definition jopt (o : option string) : json :=
  match o with Some s => JStr s | None => JNull end.
Definition jlist (l : list string) : json := JArr (JStr <$> l).

Example dumps_check :
  json_dumps (JObj [("b", JInt 12); ("a", JArr [JNull; JFloat 1500000; JStr "x"])])
  = of_chars (chars "{" ++ ["034"%char; "a"%char; "034"%char] ++ chars ":[null,1.5,"
      ++ ["034"%char; "x"%char; "034"%char] ++ chars "]," ++ ["034"%char; "b"%char; "034"%char]
      ++ chars ":12}").
Proof. vm_compute. reflexivity. Qed.
Example lower_check : lower "Bob@EXAMPLE.com" = "bob@example.com".
Proof. reflexivity. Qed.
Example strip_check : strip "  a b  " = "a b".
Proof. reflexivity. Qed.
