(* ===== verification/Json.v ===== *)
(** * JSON texts: [json.loads] and what it reads back

    [json_loads] is [json.loads] (and the input of a [jsonb] column) on the
    texts the program handles: characters below 256, numbers with at most six
    decimals and no exponent. Both printers it meets are covered: [json.dumps]
    ([json_text]) and the text PostgreSQL prints for a [jsonb] value
    ([jsonb_text]). The round trip is [json_loads_text]. *)
From S2P Require Import Prelude PyText.

(** ** Induction and equality *)
Section json_induction.
Variable P : json -> Prop.
Hypotheses (Hnull : P JNull) (Hbool : forall b, P (JBool b)) (Hint : forall z, P (JInt z))
  (Hfloat : forall us, P (JFloat us)) (Hstr : forall s, P (JStr s))
  (Harr : forall l, Forall P l -> P (JArr l))
  (Hobj : forall kvs, Forall (fun kv => P kv.2) kvs -> P (JObj kvs)).

Fixpoint json_nested_ind (j : json) : P j :=
  match j with
  | JNull => Hnull
  | JBool b => Hbool b
  | JInt z => Hint z
  | JFloat us => Hfloat us
  | JStr s => Hstr s
  | JArr l => Harr l ((fix go (l : list json) : Forall P l :=
      match l with
      | [] => Forall_nil_2 P
      | x :: l' => Forall_cons_2 P x l' (json_nested_ind x) (go l')
      end) l)
  | JObj kvs => Hobj kvs ((fix go (kvs : list (string * json)) : Forall (fun kv => P kv.2) kvs :=
      match kvs with
      | [] => Forall_nil_2 _
      | (k, v) :: kvs' => Forall_cons_2 _ (k, v) kvs' (json_nested_ind v) (go kvs')
      end) kvs)
  end.
End json_induction.

(** Equality as a structural test. *)
Fixpoint json_eqb (a b : json) : bool :=
  match a, b with
  | JNull, JNull => true
  | JBool x, JBool y => bool_decide (x = y)
  | JInt x, JInt y => bool_decide (x = y)
  | JFloat x, JFloat y => bool_decide (x = y)
  | JStr x, JStr y => bool_decide (x = y)
  | JArr l, JArr m =>
      (fix go (l m : list json) : bool :=
         match l, m with
         | [], [] => true
         | x :: l', y :: m' => json_eqb x y && go l' m'
         | _, _ => false
         end) l m
  | JObj l, JObj m =>
      (fix go (l m : list (string * json)) : bool :=
         match l, m with
         | [], [] => true
         | (k, x) :: l', (k', y) :: m' => bool_decide (k = k') && json_eqb x y && go l' m'
         | _, _ => false
         end) l m
  | _, _ => false
  end.

Lemma json_eqb_spec a b : json_eqb a b = true <-> a = b.
Proof.
  revert b. induction a as [| | | | |l IH|l IH] using json_nested_ind; intros [| | | | |m|m];
    simpl; try (split; (done || congruence)); try (rewrite bool_decide_eq_true; naive_solver).
  - transitivity (l = m); [|naive_solver]. revert m.
    induction IH as [|x l Hx _ IH]; intros [|y m]; try (split; done).
    rewrite andb_true_iff, Hx, IH. naive_solver.
  - transitivity (l = m); [|naive_solver]. revert m.
    induction IH as [|[k x] l Hx _ IH]; intros [|[k' y] m]; try (split; done).
    rewrite !andb_true_iff, Hx, IH, bool_decide_eq_true. naive_solver.
Qed.

#[export] Instance json_eq_dec : EqDecision json.
Proof.
  intros a b. destruct (json_eqb a b) eqn:E; [left|right].
  - by apply json_eqb_spec.
  - intros H%json_eqb_spec. congruence.
Defined.

(** [json.dumps(v)]: insertion order, [", "] and [": "] as separators. *)
Fixpoint json_text (j : json) : string :=
  match j with
  | JArr l => "[" +:+ join ", " (map json_text l) +:+ "]"
  | JObj kvs =>
      "{" +:+ join ", " (map (fun kv => match kv with
                                        | (k, v) => json_string k +:+ ": " +:+ json_text v
                                        end) kvs) +:+ "}"
  | _ => json_dumps j
  end.

(** ** The parser *)

Definition json_space (c : ascii) : bool :=
  bool_decide (c ∈ [" "%char; "009"%char; "010"%char; "013"%char]).
Fixpoint skip_space (l : list ascii) : list ascii :=
  match l with
  | c :: l' => if json_space c then skip_space l' else l
  | [] => []
  end.

Definition hex_value (c : ascii) : option N :=
  if is_digit c then Some (chr c - 48)%N
  else if in_range 97 102 c then Some (chr c - 87)%N
  else if in_range 65 70 c then Some (chr c - 55)%N
  else None.

(** The escapes after a backslash; [\u] below 256. *)
Definition unescape (l : list ascii) : option (ascii * list ascii) :=
  match l with
  | c :: l' =>
      if bool_decide (c ∈ ["034"%char; "\"%char; "/"%char]) then Some (c, l')
      else if decide (c = "b"%char) then Some ("008"%char, l')
      else if decide (c = "f"%char) then Some ("012"%char, l')
      else if decide (c = "n"%char) then Some ("010"%char, l')
      else if decide (c = "r"%char) then Some ("013"%char, l')
      else if decide (c = "t"%char) then Some ("009"%char, l')
      else if decide (c = "u"%char) then
        match l' with
        | a :: b :: c :: d :: l'' =>
            match hex_value a, hex_value b, hex_value c, hex_value d with
            | Some 0%N, Some 0%N, Some x, Some y => Some (ascii_of_N (16 * x + y), l'')
            | _, _, _, _ => None
            end
        | _ => None
        end
      else None
  | [] => None
  end.

(** The characters of a string after its opening quote. [n] bounds their
    number. *)
Fixpoint parse_chars (n : nat) (l : list ascii) : option (list ascii * list ascii) :=
  match n with
  | O => None
  | S n =>
      match l with
      | [] => None
      | c :: l' =>
          if decide (c = "034"%char) then Some ([], l')
          else if decide (c = "\"%char) then
            match unescape l' with
            | Some (x, l'') => (fun r => (x :: r.1, r.2)) <$> parse_chars n l''
            | None => None
            end
          else if (chr c <? 32)%N then None
          else (fun r => (c :: r.1, r.2)) <$> parse_chars n l'
      end
  end.

(** A maximal run of digits, folded onto [acc]; its length. *)
Fixpoint parse_digits (acc : Z) (k : nat) (l : list ascii) : Z * nat * list ascii :=
  match l with
  | c :: l' => if is_digit c then parse_digits (10 * acc + (Z.of_N (chr c) - 48)) (S k) l'
               else (acc, k, l)
  | [] => (acc, k, [])
  end.

(** An integer part without leading zeros, then at most six decimals. *)
Definition parse_number (l : list ascii) : option (json * list ascii) :=
  let '(neg, l1) := match l with
                    | c :: l' => if decide (c = "-"%char) then (true, l') else (false, l)
                    | [] => (false, [])
                    end in
  let '(whole, k, l2) := parse_digits 0 0 l1 in
  let sign (z : Z) := if (neg : bool) then - z else z in
  if (k =? 0)%nat || ((2 <=? k)%nat && bool_decide (head l1 = Some "0"%char)) then None
  else match l2 with
       | c :: l3 =>
           if decide (c = "."%char) then
             let '(frac, d, l4) := parse_digits 0 0 l3 in
             if (d =? 0)%nat || (6 <? d)%nat then None
             else Some (JFloat (sign (whole * 1000000 + frac * 10 ^ (6 - Z.of_nat d))), l4)
           else Some (JInt (sign whole), l2)
       | [] => Some (JInt (sign whole), [])
       end.

Section elements.
Variable value : list ascii -> option (json * list ascii).

(** After a value: a comma and the next one, or the end of the array. *)
Fixpoint parse_elems (n : nat) (l : list ascii) : option (list json * list ascii) :=
  match n with
  | O => None
  | S n =>
      match value l with
      | None => None
      | Some (x, l1) =>
          match skip_space l1 with
          | c :: l2 =>
              if decide (c = "]"%char) then Some ([x], l2)
              else if decide (c = ","%char) then (fun r => (x :: r.1, r.2)) <$> parse_elems n l2
              else None
          | [] => None
          end
      end
  end.

Fixpoint parse_members (n : nat) (l : list ascii) : option (list (string * json) * list ascii) :=
  match n with
  | O => None
  | S n =>
      match skip_space l with
      | q :: l1 =>
          if decide (q = "034"%char) then
            match parse_chars (S (length l1)) l1 with
            | None => None
            | Some (k, l2) =>
                match skip_space l2 with
                | c :: l3 =>
                    if decide (c = ":"%char) then
                      match value l3 with
                      | None => None
                      | Some (x, l4) =>
                          match skip_space l4 with
                          | d :: l5 =>
                              if decide (d = "}"%char) then Some ([(of_chars k, x)], l5)
                              else if decide (d = ","%char)
                                   then (fun r => ((of_chars k, x) :: r.1, r.2)) <$> parse_members n l5
                                   else None
                          | [] => None
                          end
                      end
                    else None
                | [] => None
                end
            end
          else None
      | [] => None
      end
  end.
End elements.

Definition parse_literal (s : string) (j : json) (l : list ascii) : option (json * list ascii) :=
  if decide (take (length (chars s)) l = chars s) then Some (j, drop (length (chars s)) l) else None.

(** One value; [n] bounds its size. *)
Fixpoint parse_value (n : nat) (l : list ascii) : option (json * list ascii) :=
  match n with
  | O => None
  | S n =>
      match skip_space l with
      | [] => None
      | c :: l1 =>
          if decide (c = "034"%char) then
            (fun r => (JStr (of_chars r.1), r.2)) <$> parse_chars (S (length l1)) l1
          else if decide (c = "["%char) then
            match skip_space l1 with
            | d :: l2 => if decide (d = "]"%char) then Some (JArr [], l2)
                         else (fun r => (JArr r.1, r.2)) <$> parse_elems (parse_value n) n l1
            | [] => None
            end
          else if decide (c = "{"%char) then
            match skip_space l1 with
            | d :: l2 => if decide (d = "}"%char) then Some (JObj [], l2)
                         else (fun r => (JObj r.1, r.2)) <$> parse_members (parse_value n) n l1
            | [] => None
            end
          else if decide (c = "n"%char) then parse_literal "null" JNull (c :: l1)
          else if decide (c = "t"%char) then parse_literal "true" (JBool true) (c :: l1)
          else if decide (c = "f"%char) then parse_literal "false" (JBool false) (c :: l1)
          else parse_number (c :: l1)
      end
  end.

(** [json.loads(s)]: [None] is [JSONDecodeError]. *)
Definition json_loads (s : string) : option json :=
  match parse_value (S (String.length s)) (chars s) with
  | Some (j, l) => if decide (skip_space l = []) then Some j else None
  | None => None
  end.

(** ** The text of a [jsonb] value *)

(** [jsonb] keeps one member per key, the last, in order of key length, then
    of the key's bytes. *)
Definition jsonb_key_le (a b : string * json) : bool :=
  let n := String.length a.1 in let m := String.length b.1 in
  (n <? m)%nat || ((n =? m)%nat && String.leb a.1 b.1).
Fixpoint jsonb_norm (j : json) : json :=
  match j with
  | JArr l => JArr (map jsonb_norm l)
  | JObj kvs =>
      JObj (sort_by jsonb_key_le
              (foldl (fun d kv => dset kv.1 kv.2 d) []
                     (map (fun kv => match kv with (k, v) => (k, jsonb_norm v) end) kvs)))
  | _ => j
  end.

(** PostgreSQL escapes the two special characters and the control ones. *)
Definition jsonb_char (c : ascii) : list ascii :=
  if in_range 127 255 c then [c] else json_char c.

(** A printer over either way of escaping. *)
Section print.
Variable esc : ascii -> list ascii.

Definition print_str (s : string) : list ascii :=
  ["034"%char] ++ (chars s ≫= esc) ++ ["034"%char].
Fixpoint print_sep (l : list (list ascii)) : list ascii :=
  match l with
  | [] => []
  | [x] => x
  | x :: l' => x ++ chars ", " ++ print_sep l'
  end.
Fixpoint print_json (j : json) : list ascii :=
  match j with
  | JStr s => print_str s
  | JArr l => "["%char :: print_sep (map print_json l) ++ ["]"%char]
  | JObj kvs =>
      "{"%char :: print_sep (map (fun kv => match kv with
                                            | (k, v) => print_str k ++ chars ": " ++ print_json v
                                            end) kvs) ++ ["}"%char]
  | _ => chars (json_dumps j)
  end.
End print.

(** [value::text] of a [jsonb] column, which is what asyncpg hands over. *)
Definition jsonb_text (j : json) : string := of_chars (print_json jsonb_char (jsonb_norm j)).

Lemma chars_app x y : chars (x +:+ y) = chars x ++ chars y.
Proof. unfold chars. induction x as [|c x IH]; simpl; [done|]. by f_equal. Qed.

Lemma print_sep_cons x y l : print_sep (x :: y :: l) = x ++ chars ", " ++ print_sep (y :: l).
Proof. done. Qed.

Lemma skip_comma t : skip_space (","%char :: t) = ","%char :: t.
Proof. done. Qed.
Lemma skip_colon t : skip_space (chars ": " ++ t) = ":"%char :: [" "%char] ++ t.
Proof. done. Qed.

Lemma skip_other c t : json_space c = false -> skip_space (c :: t) = c :: t.
Proof. cbn [skip_space]. by intros ->. Qed.
Lemma sep_head c t l : exists t', print_sep ((c :: t) :: l) = c :: t'.
Proof. destruct l; cbn [print_sep]; eauto. Qed.

Lemma array_branch n c t :
  json_space c = false -> c <> "]"%char ->
  parse_value (S n) ("["%char :: c :: t)
  = (fun r => (JArr r.1, r.2)) <$> parse_elems (parse_value n) n (c :: t).
Proof.
  intros Hs Hc. cbn [parse_value]. rewrite skip_other by done. cbn iota.
  rewrite decide_False, decide_True, skip_other by done. cbn iota. by rewrite decide_False.
Qed.

Lemma object_branch n c t :
  json_space c = false -> c <> "}"%char ->
  parse_value (S n) ("{"%char :: c :: t)
  = (fun r => (JObj r.1, r.2)) <$> parse_members (parse_value n) n (c :: t).
Proof.
  intros Hs Hc. cbn [parse_value]. rewrite skip_other by done. cbn iota.
  rewrite decide_False, decide_False, decide_True, skip_other by done. cbn iota.
  by rewrite decide_False.
Qed.

Lemma chars_join l : chars (join ", " l) = print_sep (map chars l).
Proof.
  induction l as [|x [|y l] IH]; [done|done|].
  change (join ", " (x :: y :: l)) with (x +:+ ", " +:+ join ", " (y :: l)).
  rewrite !chars_app, IH. done.
Qed.

Lemma json_text_print j : chars (json_text j) = print_json json_char j.
Proof.
  induction j as [| | | | |l IH|l IH] using json_nested_ind; try done.
  - exact (chars_of_chars (print_str json_char _)).
  - cbn [json_text print_json]. rewrite !chars_app, chars_join, map_map. cbn [chars String.list_ascii_of_string app]. do 2 f_equal. f_equal.
    apply map_ext_in. by rewrite <- List.Forall_forall.
  - cbn [json_text print_json]. rewrite !chars_app, chars_join, map_map. cbn [chars String.list_ascii_of_string app]. do 2 f_equal. f_equal.
    apply map_ext_in. intros [k v] Hin. rewrite List.Forall_forall in IH.
    specialize (IH _ Hin). cbn [snd] in IH. rewrite !chars_app, <- IH. f_equal. exact (chars_of_chars (print_str json_char k)).
Qed.

(** ** Reading back *)

(** A text that does not begin like the continuation of a number. *)
Definition ends_number (l : list ascii) : Prop :=
  match l with [] => True | c :: _ => is_digit c = false /\ c <> "."%char end.

Lemma parse_digits_stop acc k l :
  ends_number l -> parse_digits acc k l = (acc, k, l).
Proof. destruct l as [|c l]; simpl; [done|]. by intros [-> _]. Qed.

(** The value of a run of digits, read from left to right. *)
Definition digits_val (ds : list ascii) : Z :=
  foldl (fun acc c => 10 * acc + (Z.of_N (chr c) - 48)) 0 ds.
Definition all_digits (ds : list ascii) : Prop := Forall (fun c => is_digit c = true) ds.

Lemma digits_val_snoc ds c : digits_val (ds ++ [c]) = 10 * digits_val ds + (Z.of_N (chr c) - 48).
Proof. unfold digits_val. by rewrite foldl_snoc. Qed.

Lemma digit_range c : is_digit c = true -> 0 <= Z.of_N (chr c) - 48 <= 9.
Proof. unfold is_digit, in_range. rewrite andb_true_iff, !N.leb_le. lia. Qed.

Lemma parse_digits_run ds l k :
  all_digits ds -> ends_number l \/ head l = Some "."%char ->
  parse_digits 0 k (ds ++ l) = (digits_val ds, (k + length ds)%nat, l).
Proof.
  intros Hds Hl. unfold digits_val. generalize 0. revert k.
  induction Hds as [|c ds Hc _ IH]; intros k acc; simpl.
  - rewrite Nat.add_0_r. destruct l as [|c l]; simpl in *; [done|].
    destruct Hl as [[-> _]|[= ->]]; done.
  - rewrite Hc, IH. do 2 f_equal. lia.
Qed.

Lemma digits_zeros_l n ds : digits_val (replicate n "0"%char ++ ds) = digits_val ds.
Proof. unfold digits_val. rewrite foldl_app. f_equal. by induction n. Qed.

Lemma digits_zeros_r n ds :
  digits_val (ds ++ replicate n "0"%char) = digits_val ds * 10 ^ Z.of_nat n.
Proof.
  induction n as [|n IH]; [rewrite app_nil_r; lia|].
  rewrite replicate_S_end, app_assoc, digits_val_snoc, IH, Nat2Z.inj_succ, Z.pow_succ_r by lia.
  change (Z.of_N (chr "0"%char)) with 48. lia.
Qed.

Lemma digits_lower c ds :
  all_digits (c :: ds) -> c <> "0"%char -> 10 ^ Z.of_nat (length ds) <= digits_val (c :: ds).
Proof.
  intros [Hc Hds]%Forall_cons Hne.
  assert (1 <= Z.of_N (chr c) - 48) as Hpos.
  { pose proof (digit_range c Hc). destruct (decide (Z.of_N (chr c) - 48 = 0)) as [E|]; [|lia].
    exfalso. apply Hne. rewrite <- (ascii_N_embedding c). by replace (chr c) with 48%N by lia. }
  induction ds as [|d ds IH] using rev_ind; [simpl; unfold digits_val; simpl; lia|].
  apply Forall_app in Hds as [Hds [Hd _]%Forall_cons].
  rewrite app_comm_cons, digits_val_snoc, length_app, Nat.add_comm. simpl length.
  pose proof (digit_range d Hd). specialize (IH Hds).
  change (1 + length ds)%nat with (S (length ds)).
  rewrite Nat2Z.inj_succ, Z.pow_succ_r by lia. lia.
Qed.

Lemma digit_char x : (x < 10)%N ->
  is_digit (pretty_N_char x) = true /\ Z.of_N (chr (pretty_N_char x)) - 48 = Z.of_N x.
Proof.
  intros Hx. assert (Forall (fun x => is_digit (pretty_N_char x) = true /\
    Z.of_N (chr (pretty_N_char x)) - 48 = Z.of_N x) (N.of_nat <$> seq 0 10)) as H
    by (repeat constructor).
  rewrite Forall_forall in H. apply H. apply list_elem_of_fmap. exists (N.to_nat x).
  rewrite N2Nat.id. split; [done|]. apply elem_of_seq. lia.
Qed.

(** The decimal text of a number: its digits, without a leading zero. *)
Lemma pretty_go_digits x s : (0 < x)%N -> exists c ds,
  chars (pretty_N_go x s) = (c :: ds) ++ chars s /\ all_digits (c :: ds) /\ c <> "0"%char /\
  digits_val (c :: ds) = Z.of_N x.
Proof.
  revert s. induction (N.lt_wf_0 x) as [x _ IH]. intros s Hx.
  destruct (digit_char (x mod 10)) as [Hd Hv]; [by apply N.mod_lt|].
  pose proof (N.div_mod x 10 ltac:(done)) as Hdm. rewrite pretty_N_go_step by done.
  destruct (decide (x / 10 = 0)%N) as [E|E].
  - rewrite E, pretty_N_go_0. exists (pretty_N_char (x mod 10)), [].
    split_and!; [done|by constructor| |unfold digits_val; simpl; lia].
    intros E0. rewrite E0 in Hv. change (Z.of_N (chr "0"%char)) with 48 in Hv. lia.
  - destruct (IH (x / 10)%N ltac:(apply N.div_lt; lia)
      (String (pretty_N_char (x mod 10)) s) ltac:(by apply N.neq_0_lt_0)) as (c & ds & E1 & Hds & Hc & Hval).
    exists c, (ds ++ [pretty_N_char (x mod 10)]). rewrite !app_comm_cons.
    split_and!; [|apply Forall_app; split; [done|by constructor]|done|].
    + rewrite E1. by rewrite <- app_assoc.
    + rewrite digits_val_snoc, Hval, Hv. lia.
Qed.

Lemma pretty_digits x : exists ds,
  chars (pretty x) = ds /\ all_digits ds /\ digits_val ds = Z.of_N x /\
  ((x = 0%N /\ ds = ["0"%char]) \/ (exists c ds', ds = c :: ds' /\ c <> "0"%char)).
Proof.
  unfold pretty, pretty_N. destruct (decide (x = 0%N)) as [->|Hx].
  - exists ["0"%char]. split_and!; [done|by constructor|done|by left].
  - destruct (pretty_go_digits x "" ltac:(lia)) as (c & ds & E & Hds & Hc & Hv).
    rewrite app_nil_r in E. exists (c :: ds). split_and!; eauto.
Qed.

Lemma digit_ne c d : is_digit c = true -> is_digit d = false -> c <> d.
Proof. congruence. Qed.

(** The integer part of a number, whatever follows it. *)
Lemma parse_whole x l :
  ends_number l \/ head l = Some "."%char ->
  parse_digits 0 0 (chars (pretty x) ++ l) = (Z.of_N x, length (chars (pretty x)), l) /\
  ((length (chars (pretty x)) =? 0)%nat
   || ((2 <=? length (chars (pretty x)))%nat
       && bool_decide (head (chars (pretty x) ++ l) = Some "0"%char))) = false /\
  exists c t, chars (pretty x) = c :: t /\ is_digit c = true.
Proof.
  intros Hl. destruct (pretty_digits x) as (ds & -> & Hds & <- & H).
  rewrite parse_digits_run by done. split; [done|].
  destruct H as [[-> ->]|(c & ds' & -> & Hc)]; simpl; [split; [done|by eexists _, _]|].
  rewrite bool_decide_eq_false_2 by congruence. rewrite andb_false_r. split; [done|].
  apply Forall_cons in Hds as [? _]. eauto.
Qed.

Lemma pretty_Z_abs (z : Z) :
  pretty z = (if decide (z < 0) then "-" else "") +:+ pretty (Z.to_N (Z.abs z)).
Proof. by destruct z. Qed.

Lemma parse_sign (z : Z) c t :
  is_digit c = true ->
  (match chars (if decide (z < 0) then "-" else "") ++ c :: t with
   | c0 :: l' => if decide (c0 = "-"%char) then (true, l') else
       (false, chars (if decide (z < 0) then "-" else "") ++ c :: t)
   | [] => (false, [])
   end) = (bool_decide (z < 0), c :: t).
Proof.
  intros Hc. destruct (decide (z < 0)) as [Hz|Hz]; simpl.
  - by rewrite bool_decide_eq_true_2.
  - rewrite bool_decide_eq_false_2 by done.
    rewrite decide_False; [done|]. by apply (digit_ne _ "-"%char).
Qed.

Lemma apply_sign (z w : Z) :
  w = Z.abs z -> (if bool_decide (z < 0) then - w else w) = z.
Proof. intros ->. case_bool_decide; lia. Qed.

Lemma parse_number_int z l : ends_number l ->
  parse_number (chars (pretty z) ++ l) = Some (JInt z, l).
Proof.
  intros Hl. rewrite pretty_Z_abs, chars_app, <- app_assoc.
  destruct (parse_whole (Z.to_N (Z.abs z)) l) as (Hp & Hg & c & t & E & Hc); [by left|].
  unfold parse_number. rewrite E in Hp, Hg |- *. cbn [app]. rewrite parse_sign by done.
  cbn [app] in Hp, Hg. rewrite Hp, Hg.
  destruct l as [|d l]; [|destruct Hl as [_ ?]; rewrite decide_False by done];
    do 3 f_equal; apply apply_sign; lia.
Qed.

Lemma strip_zeros_spec l : exists k, l = replicate k "0"%char ++ strip_zeros l.
Proof.
  induction l as [|c l [k IH]]; simpl; [by exists 0%nat|].
  case_decide as Hc; [|by exists 0%nat]. subst. exists (S k). simpl. by f_equal.
Qed.

(** The six decimals, without the zeros at the end. *)
Lemma decimals_spec m : 0 <= m < 1000000 ->
  let frac := reverse (strip_zeros (reverse (pad6 m))) in
  all_digits frac /\ (length frac <= 6)%nat /\
  digits_val frac * 10 ^ (6 - Z.of_nat (length frac)) = m.
Proof.
  intros Hm frac. unfold frac. destruct (strip_zeros_spec (reverse (pad6 m))) as [k E].
  set (z := strip_zeros (reverse (pad6 m))) in *. clearbody z.
  apply (f_equal reverse) in E. rewrite reverse_involutive, reverse_app, reverse_replicate in E.
  assert (length (pad6 m) = 6%nat /\ all_digits (pad6 m) /\ digits_val (pad6 m) = m) as (Hl & Hd & Hv).
  { unfold pad6. rewrite pretty_Z_abs, decide_False, Z.abs_eq by lia.
    change (chars ("" +:+ ?x)) with (chars x).
    destruct (pretty_digits (Z.to_N m)) as (ds & E0 & Hds & Hv & H).
    change ("" +:+ pretty (Z.to_N m)) with (pretty (Z.to_N m)). rewrite E0.
    assert (length ds <= 6)%nat as H6.
    { destruct H as [[_ ->]|(c & ds' & -> & Hc)]; [simpl; lia|].
      pose proof (digits_lower c ds' Hds Hc) as Hlow. simpl. apply le_n_S.
      assert (10 ^ Z.of_nat (length ds') < 10 ^ 6) as H10%Z.pow_lt_mono_r_iff by lia; lia. }
    split_and!; [rewrite length_app, length_replicate; lia| |rewrite digits_zeros_l; lia].
    apply Forall_app. split; [by apply Forall_replicate|done]. }
  rewrite E, length_app, length_replicate in Hl. rewrite E in Hd, Hv.
  apply Forall_app in Hd as [Hd _]. rewrite digits_zeros_r in Hv.
  split_and!; [done|lia|]. rewrite <- Hv. do 2 f_equal. lia.
Qed.

Lemma parse_number_float us l : ends_number l ->
  parse_number (chars (float_repr us) ++ l) = Some (JFloat us, l).
Proof.
  intros Hl. unfold float_repr. rewrite (pretty_Z_abs (Z.abs us / 1000000)).
  rewrite (decide_False (P := Z.abs us / 1000000 < 0))
    by (pose proof (Z.div_pos (Z.abs us) 1000000); lia).
  rewrite !chars_app, <- !app_assoc. change (chars "") with (@nil ascii). cbn [app].
  destruct (decimals_spec (Z.abs us mod 1000000)) as (Hd & H6 & Hv); [by apply Z.mod_pos_bound|].
  set (frac := reverse _) in *. clearbody frac.
  set (tail := chars (if decide (frac = []) then "0" else of_chars frac)).
  assert (exists fr, tail = fr /\ all_digits fr /\ (0 < length fr <= 6)%nat /\
    digits_val fr * 10 ^ (6 - Z.of_nat (length fr)) = Z.abs us mod 1000000) as (fr & -> & Hf & Hlen & Hfv).
  { unfold tail. destruct (decide (frac = [])) as [->|Hne].
    - exists ["0"%char]. split_and!; [done|by constructor|simpl; lia..|].
      rewrite <- Hv. done.
    - exists frac. rewrite chars_of_chars. split_and!; [done|done|destruct frac; simpl; [done|lia]|done|done]. }
  clear Hv H6 Hd.
  edestruct (parse_whole (Z.to_N (Z.abs (Z.abs us / 1000000))) ("."%char :: fr ++ l))
    as (Hp & Hg & c & t & E & Hc); [by right|].
  unfold parse_number. rewrite E in Hp, Hg |- *. cbn [app] in Hp, Hg |- *.
  rewrite parse_sign by done. change (chars ".") with ["."%char]. cbn [app].
  rewrite Hp, Hg, decide_True by done. rewrite parse_digits_run by auto. rewrite Nat.add_0_l.
  rewrite (proj2 (Nat.eqb_neq (length fr) 0)) by lia.
  rewrite (proj2 (Nat.ltb_ge 6 (length fr))) by lia. cbn [orb].
  do 3 f_equal. apply apply_sign. rewrite Hfv.
  pose proof (Z.div_mod (Z.abs us) 1000000 ltac:(done)).
  pose proof (Z.div_pos (Z.abs us) 1000000). lia.
Qed.

(** A way of escaping that the parser undoes. *)
Class Escapes (esc : ascii -> list ascii) : Prop :=
  parse_escaped c n l :
    parse_chars (S n) (esc c ++ l) = (fun r => (c :: r.1, r.2)) <$> parse_chars n l.

#[export] Instance json_char_escapes : Escapes json_char.
Proof. intros [[] [] [] [] [] [] [] []] n l; reflexivity. Qed.
#[export] Instance jsonb_char_escapes : Escapes jsonb_char.
Proof. intros [[] [] [] [] [] [] [] []] n l; reflexivity. Qed.

Fixpoint json_size (j : json) : nat :=
  match j with
  | JArr l => S (list_sum (map (fun x => S (json_size x)) l))
  | JObj kvs => S (list_sum (map (fun kv => match kv with (_, v) => S (json_size v) end) kvs))
  | _ => 1
  end.

Section read_back.
Context (esc : ascii -> list ascii) `{!Escapes esc}.

Lemma escape_length c : (1 <= length (esc c))%nat.
Proof.
  destruct (esc c) as [|d t] eqn:E; [|simpl; lia].
  pose proof (parse_escaped (esc:=esc) c 1 ["034"%char]) as H1. rewrite E in H1. done.
Qed.

Lemma parse_chars_run cs l n :
  (length cs < n)%nat -> parse_chars n ((cs ≫= esc) ++ "034"%char :: l) = Some (cs, l).
Proof.
  revert n. induction cs as [|c cs IH]; intros [|n] Hn; simpl in Hn; [lia|done|lia|].
  change ((c :: cs) ≫= esc) with (esc c ++ (cs ≫= esc)).
  rewrite <- app_assoc, parse_escaped, IH by lia. done.
Qed.

Lemma escaped_length cs : (length cs <= length (cs ≫= esc))%nat.
Proof.
  induction cs as [|c cs IH]; [done|].
  change ((c :: cs) ≫= esc) with (esc c ++ (cs ≫= esc)).
  rewrite length_app. pose proof (escape_length c). simpl. lia.
Qed.

Lemma parse_string s l :
  let t := (chars s ≫= esc) ++ "034"%char :: l in
  parse_chars (S (length t)) t = Some (chars s, l).
Proof.
  intros t. apply parse_chars_run. unfold t. rewrite length_app. pose proof (escaped_length (chars s)). simpl. lia.
Qed.

Lemma number_branch n c t :
  is_digit c = true \/ c = "-"%char -> parse_value (S n) (c :: t) = parse_number (c :: t).
Proof.
  intros Hc. assert (forall d, is_digit d = false -> d <> "-"%char -> c <> d) as Hne.
  { intros d Hd Hm ->. destruct Hc; congruence. }
  assert (json_space c = false) as Hs.
  { unfold json_space. apply bool_decide_eq_false.
    rewrite !elem_of_cons, elem_of_nil. intros [->|[->|[->|[->|[]]]]]; by destruct Hc. }
  cbn [parse_value skip_space]. rewrite Hs.
  repeat (rewrite decide_False by (by apply Hne)). done.
Qed.

(** A printed value starts with a character of its own. *)
Lemma print_head j : exists c t, print_json esc j = c :: t /\ json_space c = false /\
  c <> "]"%char /\ c <> "}"%char.
Proof.
  assert (forall x t, exists c t', chars (pretty (x : N)) ++ t = c :: t' /\ json_space c = false /\
    c <> "]"%char /\ c <> "}"%char) as Hnum.
  { intros x t. destruct (parse_whole x []) as (_ & _ & c & t' & E & Hc); [by left|].
    rewrite E. exists c, (t' ++ t). split_and!; [done| |by apply digit_ne..].
    revert Hc. clear. destruct c as [[] [] [] [] [] [] [] []]; done. }
  destruct j as [|[]|z|us|s|l|l]; try (by eexists _, _).
  - cbn [print_json json_dumps]. rewrite pretty_Z_abs.
    destruct (decide (z < 0)); [by eexists _, _|].
    rewrite chars_app. destruct (Hnum (Z.to_N (Z.abs z)) []) as (c & t & E & H).
    rewrite app_nil_r in E. exists c, t. by rewrite E.
  - cbn [print_json json_dumps]. unfold float_repr. rewrite !chars_app.
    destruct (decide (us < 0)); [by eexists _, _|].
    rewrite pretty_Z_abs, decide_False, chars_app, <- app_assoc
      by (pose proof (Z.div_pos (Z.abs us) 1000000); lia). apply Hnum.
Qed.

Lemma skip_print j l : skip_space (print_json esc j ++ l) = print_json esc j ++ l.
Proof. destruct (print_head j) as (c & t & -> & Hs & _). simpl. by rewrite Hs. Qed.

Lemma parse_elems_run (value : list ascii -> option (json * list ascii)) js n l :
  js <> [] -> (length js <= n)%nat ->
  Forall (fun j => forall t b, (b = [] \/ b = [" "%char]) -> ends_number t ->
    value (b ++ print_json esc j ++ t) = Some (j, t)) js ->
  forall b, b = [] \/ b = [" "%char] ->
  parse_elems value n (b ++ print_sep (map (print_json esc) js) ++ "]"%char :: l) = Some (js, l).
Proof.
  intros Hne Hn Hv. revert n Hn. induction Hv as [|j js Hj Hjs IH]; [done|].
  intros [|n] Hn b Hb; simpl in Hn; [lia|]. destruct js as [|j' js].
  - simpl. by rewrite Hj.
  - cbn [map]. rewrite print_sep_cons, <- !app_assoc. cbn [parse_elems].
    rewrite Hj; [|done|by split].
    specialize (IH ltac:(done) n ltac:(simpl in *; lia) [" "%char] ltac:(by right)).
    set (rest := print_sep _ ++ _) in *. clearbody rest.
    change (chars ", " ++ rest) with (","%char :: [" "%char] ++ rest).
    rewrite skip_comma. cbn iota. rewrite decide_False, decide_True, IH by done. done.
Qed.

Lemma parse_members_run (value : list ascii -> option (json * list ascii)) kvs n l :
  kvs <> [] -> (length kvs <= n)%nat ->
  Forall (fun kv => forall t b, (b = [] \/ b = [" "%char]) -> ends_number t ->
    value (b ++ print_json esc kv.2 ++ t) = Some (kv.2, t)) kvs ->
  forall b, b = [] \/ b = [" "%char] ->
  parse_members value n
    (b ++ print_sep (map (fun kv => match kv with
                                    | (k, v) => print_str esc k ++ chars ": " ++ print_json esc v
                                    end) kvs) ++ "}"%char :: l) = Some (kvs, l).
Proof.
  intros Hne Hn Hv. revert n Hn. induction Hv as [|[k j] kvs Hj Hjs IH]; [done|].
  intros [|n] Hn b Hb; simpl in Hn; [lia|]. cbn [fst snd] in Hj.
  cut (forall t, (t = "}"%char :: l /\ kvs = []) \/
    (exists rest, t = ","%char :: [" "%char] ++ rest /\
       parse_members value n ([" "%char] ++ rest) = Some (kvs, l)) ->
    parse_members value (S n) (b ++ (print_str esc k ++ chars ": " ++ print_json esc j) ++ t)
    = Some ((k, j) :: kvs, l)).
  { intros Hcut. destruct kvs as [|kv kvs]; [by apply Hcut; left|].
    cbn [map]. rewrite print_sep_cons, <- (app_assoc (print_str esc k ++ _)). apply Hcut. right.
    eexists. split; [by rewrite <- app_assoc|].
    rewrite <- (IH ltac:(done) n ltac:(simpl in *; lia) [" "%char] ltac:(by right)). done. }
  intros t Ht. assert (ends_number t) as He.
  { destruct Ht as [[-> _]|(rest & -> & _)]; by split. }
  cbn [parse_members].
  assert (skip_space (b ++ (print_str esc k ++ chars ": " ++ print_json esc j) ++ t)
    = "034"%char :: (chars k ≫= esc) ++ "034"%char :: chars ": " ++ print_json esc j ++ t) as ->.
  { unfold print_str. rewrite <- !app_assoc. destruct Hb as [->| ->]; done. }
  rewrite decide_True, parse_string by done.
  rewrite skip_colon. cbn iota. rewrite decide_True, (Hj t [" "%char]), of_chars_chars by auto.
  destruct Ht as [[-> ->]|(rest & -> & IHr)]; [done|].
  rewrite skip_comma. cbn iota. rewrite decide_False, decide_True, IHr by done. done.
Qed.

Lemma list_sum_length {A} (f : A -> nat) l :
  (forall x, 1 <= f x)%nat -> (length l <= list_sum (map f l))%nat.
Proof. intros H. induction l as [|x l IH]; simpl; [done|]. specialize (H x). lia. Qed.

Lemma list_sum_ge {A} (f : A -> nat) l x : x ∈ l -> (f x <= list_sum (map f l))%nat.
Proof. induction l as [|y l IH]; simpl; [by intros ?%elem_of_nil|].
  intros [->|H]%elem_of_cons; [lia|]. specialize (IH H). lia.
Qed.

Lemma value_blank n b x : b = [] \/ b = [" "%char] -> parse_value n (b ++ x) = parse_value n x.
Proof. destruct n; [done|]. by intros [->| ->]. Qed.

Lemma fuel_elems {A} (f : A -> json) (l : list A) n :
  Forall (fun a => forall n, (json_size (f a) <= n)%nat -> forall t, ends_number t ->
    parse_value n (print_json esc (f a) ++ t) = Some (f a, t)) l ->
  (list_sum (map (fun a => S (json_size (f a))) l) <= n)%nat ->
  (length l <= n)%nat /\
  Forall (fun a => forall t b, b = [] \/ b = [" "%char] -> ends_number t ->
    parse_value n (b ++ print_json esc (f a) ++ t) = Some (f a, t)) l.
Proof.
  intros IH Hn. split.
  { pose proof (list_sum_length (fun a => S (json_size (f a))) l ltac:(simpl; lia)). lia. }
  apply Forall_forall. intros a Ha t b Hb Ht. rewrite value_blank by done.
  rewrite Forall_forall in IH. apply IH; [done| |done].
  pose proof (list_sum_ge (fun a => S (json_size (f a))) l a Ha). simpl in *. lia.
Qed.

Lemma size_members (kvs : list (string * json)) :
  map (fun kv => match kv with (_, v) => S (json_size v) end) kvs
  = map (fun kv => S (json_size kv.2)) kvs.
Proof. apply map_ext. by intros []. Qed.

(** A printed value is read back, and what follows it is left alone. *)
Lemma parse_value_print j n t :
  (json_size j <= n)%nat -> ends_number t -> parse_value n (print_json esc j ++ t) = Some (j, t).
Proof.
  intros Hn Ht. revert n Hn t Ht.
  induction j as [|[]|z|us|s|l IH|l IH] using json_nested_ind; intros [|n] Hn t Ht;
    try (simpl in Hn; lia); try done.
  - destruct (parse_whole (Z.to_N (Z.abs z)) []) as (_ & _ & c & t' & E & Hc); [by left|].
    rewrite <- (parse_number_int z t Ht). cbn [print_json json_dumps].
    rewrite pretty_Z_abs, chars_app, E. destruct (decide (z < 0)); cbn [chars];
      [by apply number_branch; right|by apply number_branch; left].
  - rewrite <- (parse_number_float us t Ht). cbn [print_json json_dumps]. unfold float_repr.
    rewrite !chars_app.
    destruct (decide (us < 0)); [by apply number_branch; right|].
    rewrite (pretty_Z_abs (Z.abs us / 1000000)), decide_False
      by (pose proof (Z.div_pos (Z.abs us) 1000000); lia).
    destruct (parse_whole (Z.to_N (Z.abs (Z.abs us / 1000000))) []) as (_ & _ & c & t' & E & Hc); [by left|].
    rewrite chars_app, E. by apply number_branch; left.
  - cbn [print_json]. unfold print_str. rewrite <- !app_assoc. cbn [app parse_value].
    rewrite skip_other by done. cbn iota. rewrite decide_True, parse_string by done.
    cbn. by rewrite of_chars_chars.
  - destruct l as [|j l]; [done|]. cbn [json_size] in Hn.
    destruct (fuel_elems id (j :: l) n IH ltac:(simpl in *; lia)) as [Hl Hv].
    pose proof (parse_elems_run (parse_value n) (j :: l) n t ltac:(done) Hl Hv [] ltac:(by left)) as Hrun.
    destruct (print_head j) as (c & t1 & E & Hs & Hc & _).
    destruct (sep_head c t1 (map (print_json esc) l)) as [t2 E2].
    cbn [map] in Hrun. rewrite E, E2 in Hrun. cbn [app] in Hrun.
    cbn [print_json map]. rewrite E, E2, <- app_comm_cons, <- app_assoc. cbn [app].
    by rewrite array_branch, Hrun.
  - destruct l as [|[k j] l]; [done|]. cbn [json_size] in Hn. rewrite size_members in Hn.
    destruct (fuel_elems snd ((k, j) :: l) n IH ltac:(simpl in *; lia)) as [Hl Hv].
    pose proof (parse_members_run (parse_value n) ((k, j) :: l) n t ltac:(done) Hl Hv [] ltac:(by left)) as Hrun.
    cbn [print_json map] in Hrun |- *.
    destruct (sep_head "034"%char ((chars k ≫= esc) ++ ["034"%char] ++ chars ": " ++ print_json esc j)
      (map (fun kv => match kv with
                      | (k, v) => print_str esc k ++ chars ": " ++ print_json esc v
                      end) l)) as [t2 E2].
    assert (print_str esc k ++ chars ": " ++ print_json esc j = "034"%char ::
      ((chars k ≫= esc) ++ ["034"%char] ++ chars ": " ++ print_json esc j)) as E1
      by (unfold print_str; by rewrite <- !app_assoc).
    rewrite E1, E2 in Hrun |- *. rewrite <- app_comm_cons, <- app_assoc. cbn [app] in Hrun |- *.
    by rewrite object_branch, Hrun.
Qed.

Lemma sep_length {A} (f : A -> list ascii) (g : A -> nat) (l : list A) :
  Forall (fun a => g a <= length (f a))%nat l ->
  (list_sum (map (fun a => S (g a)) l) <= 1 + length (print_sep (map f l)))%nat.
Proof.
  induction 1 as [|a l Ha _ IH]; [simpl; lia|]. destruct l as [|b l]; [simpl in *; lia|].
  cbn [map]. rewrite print_sep_cons, !length_app. simpl in *. lia.
Qed.

(** Enough fuel: a printed value is at least as long as it is large. *)
Lemma print_size j : (json_size j <= length (print_json esc j))%nat.
Proof.
  induction j as [|[]|z|us|s|l IH|l IH] using json_nested_ind; try (simpl; lia).
  - destruct (print_head (JInt z)) as (? & ? & -> & _). simpl. lia.
  - destruct (print_head (JFloat us)) as (? & ? & -> & _). simpl. lia.
  - cbn [json_size print_json length]. rewrite length_app.
    pose proof (sep_length (print_json esc) json_size l IH). simpl. lia.
  - cbn [json_size print_json length]. rewrite length_app, size_members.
    set (f := fun kv : string * json => match kv with
      | (k, v) => print_str esc k ++ chars ": " ++ print_json esc v end).
    assert (Forall (fun kv => json_size kv.2 <= length (f kv))%nat l) as H%sep_length;
      [|cbn [length]; lia].
    eapply Forall_impl; [exact IH|]. intros [k v] Hv. unfold f. cbn [snd] in *.
    rewrite !length_app. lia.
Qed.

Lemma json_loads_print j : json_loads (of_chars (print_json esc j)) = Some j.
Proof.
  unfold json_loads. rewrite chars_of_chars, length_of_chars.
  pose proof (print_size j) as Hn.
  pose proof (parse_value_print j (S (length (print_json esc j))) [] ltac:(lia) I) as H.
  rewrite app_nil_r in H. by rewrite H.
Qed.
End read_back.

(** [json.loads(json.dumps(v))] is [v]. *)
Theorem json_loads_text j : json_loads (json_text j) = Some j.
Proof.
  rewrite <- (of_chars_chars (json_text j)), json_text_print. apply json_loads_print, _.
Qed.

(** What a [jsonb] column hands back is read as the stored value. *)
Theorem json_loads_jsonb j : json_loads (jsonb_text j) = Some (jsonb_norm j).
Proof. apply json_loads_print, _. Qed.

(** A list of texts is stored as it is. *)
Lemma jsonb_norm_texts l : jsonb_norm (jlist l) = jlist l.
Proof. unfold jlist. simpl. f_equal. induction l as [|x l IH]; simpl; [done|]. by f_equal. Qed.

(** ** The normal form of [jsonb] is stable *)

(** A sorted list sorts to itself. *)
Lemma sort_insert_adjacent {A} (le : A -> A -> bool) x l :
  (forall a b, le a b = true \/ le b a = true) ->
  (forall i a b, l !! i = Some a -> l !! S i = Some b -> le a b = true) ->
  forall i a b, sort_insert le x l !! i = Some a -> sort_insert le x l !! S i = Some b -> le a b = true.
Proof.
  intros Htot. induction l as [|y l IH]; intros Hs i a b; simpl; [by destruct i|].
  destruct (le x y) eqn:Hxy.
  - destruct i as [|i]; simpl; [by intros [= <-] [= <-]|]. apply (Hs i).
  - assert (le y x = true) as Hyx by (destruct (Htot x y); congruence).
    specialize (IH (fun i => Hs (S i))). destruct i as [|i]; simpl; [|apply IH].
    intros [= <-]. destruct l as [|z l]; simpl; [by intros [= <-]|].
    destruct (le x z); intros [= <-]; [done|]. by apply (Hs 0%nat).
Qed.
Lemma sort_by_idem {A} (le : A -> A -> bool) l :
  (forall a b, le a b = true \/ le b a = true) -> sort_by le (sort_by le l) = sort_by le l.
Proof.
  intros Htot. apply sort_by_sorted. induction l as [|x l IH]; [done|].
  intros i a b. by apply sort_insert_adjacent.
Qed.
Lemma jsonb_key_le_total a b : jsonb_key_le a b = true \/ jsonb_key_le b a = true.
Proof.
  unfold jsonb_key_le. destruct (Nat.lt_trichotomy (String.length a.1) (String.length b.1)) as [Hl|[->|Hl]].
  - left. by apply Nat.ltb_lt in Hl as ->.
  - rewrite Nat.ltb_irrefl, Nat.eqb_refl. simpl. destruct (String.leb_total a.1 b.1); auto.
  - right. by apply Nat.ltb_lt in Hl as ->.
Qed.

Lemma dset_fresh `{EqDecision K} {V} (k : K) (v : V) d : k ∉ dkeys d -> dset k v d = d ++ [(k, v)].
Proof.
  induction d as [|[k' v'] d IH]; csimpl; [done|]. intros Hk. rewrite decide_False by set_solver.
  f_equal. apply IH. set_solver.
Qed.
Lemma foldl_dset_fresh (l d : list (string * json)) :
  NoDup (dkeys (d ++ l)) -> foldl (fun d kv => dset kv.1 kv.2 d) d l = d ++ l.
Proof.
  revert d. induction l as [|[k v] l IH]; intros d Hd; simpl; [by rewrite app_nil_r|].
  assert (dset k v d = d ++ [(k, v)]) as ->.
  { apply dset_fresh. intros Hk. unfold dkeys in Hd. rewrite fmap_app, NoDup_app in Hd.
    destruct Hd as (_ & Hd & _). apply (Hd k Hk). csimpl. by left. }
  rewrite IH; rewrite <- app_assoc; done.
Qed.
Lemma jsonb_norm_idem j : jsonb_norm (jsonb_norm j) = jsonb_norm j.
Proof.
  induction j as [| | | | |l IH|l IH] using json_nested_ind; try done; simpl; f_equal.
  - rewrite map_map. induction IH as [|x l Hx _ IH]; simpl; [done|]. by rewrite Hx, IH.
  - set (d := foldl _ [] (map _ l)).
    assert (dict_wf d /\ Forall (fun kv => jsonb_norm kv.2 = kv.2) d) as [Hwf Hd].
    { assert (forall d0 : list (string * json), dict_wf d0 -> Forall (fun kv => jsonb_norm kv.2 = kv.2) d0 ->
        let d := foldl (fun d kv => dset kv.1 kv.2 d) d0
                   (map (fun kv => match kv with (k, v) => (k, jsonb_norm v) end) l) in
        dict_wf d /\ Forall (fun kv => jsonb_norm kv.2 = kv.2) d) as H; [|apply H; constructor].
      clear d. induction IH as [|[k v] l Hv _ IH]; intros d0 Hwf0 Hd0; [by split|]. simpl. apply IH.
      - by apply dict_wf_dset.
      - rewrite Forall_forall in *. intros [k' v'] Hin. apply elem_of_dget in Hin; [|by apply dict_wf_dset].
        rewrite dget_dset in Hin. case_decide; simplify_eq/=; [done|].
        by apply (Hd0 (k', v')), dget_elem_of. }
    clearbody d. set (s := sort_by jsonb_key_le d).
    assert (s ≡ₚ d) as Hp by apply sort_by_perm.
    assert (map (fun kv => match kv with (k, v) => (k, jsonb_norm v) end) s = s) as ->.
    { rewrite <- Hp in Hd. clear -Hd. induction Hd as [|[k v] s Hv _ IH]; simpl in *; [done|].
      by rewrite Hv, IH. }
    rewrite foldl_dset_fresh; [apply sort_by_idem, jsonb_key_le_total|].
    simpl. unfold dkeys. by rewrite Hp.
Qed.
