(* ===== verification/StoreState.v ===== *)
(** * The state of [InMemoryStore] (store.py) and its seed tables

    One record per kind of row, with the Python keys as fields, and the
    record [Store] of the instance attributes. [set_f v r] is [r] with the
    entry [f] replaced. A clock reading is an integer number of microseconds
    ([time.time()] at the precision [append_audit] rounds to); [sec n] is
    [n] seconds. *)
From S2P Require Import Prelude PyText.

Definition sec (n : Z) : Z := n * 1000000.

(** A row of [_tenants]. *)
Record Tenant : Type := mkTenant {
  t_tenant_id : string;
  t_display_name : string;
  t_status : string;
  t_plan : string;
  t_join_policy : string;
  t_created_at : Z;
  t_disabled_at : option Z;
  t_deleted_at : option Z
}.
Definition set_t_display_name (v : string) (r : Tenant) : Tenant :=
  mkTenant (t_tenant_id r) v (t_status r) (t_plan r) (t_join_policy r) (t_created_at r)
    (t_disabled_at r) (t_deleted_at r).
Definition set_t_status (v : string) (r : Tenant) : Tenant :=
  mkTenant (t_tenant_id r) (t_display_name r) v (t_plan r) (t_join_policy r) (t_created_at r)
    (t_disabled_at r) (t_deleted_at r).
Definition set_t_plan (v : string) (r : Tenant) : Tenant :=
  mkTenant (t_tenant_id r) (t_display_name r) (t_status r) v (t_join_policy r) (t_created_at r)
    (t_disabled_at r) (t_deleted_at r).
Definition set_t_join_policy (v : string) (r : Tenant) : Tenant :=
  mkTenant (t_tenant_id r) (t_display_name r) (t_status r) (t_plan r) v (t_created_at r)
    (t_disabled_at r) (t_deleted_at r).
Definition set_t_disabled_at (v : option Z) (r : Tenant) : Tenant :=
  mkTenant (t_tenant_id r) (t_display_name r) (t_status r) (t_plan r) (t_join_policy r)
    (t_created_at r) v (t_deleted_at r).
Definition set_t_deleted_at (v : option Z) (r : Tenant) : Tenant :=
  mkTenant (t_tenant_id r) (t_display_name r) (t_status r) (t_plan r) (t_join_policy r)
    (t_created_at r) (t_disabled_at r) v.

(** The quota values of a plan template or of a tenant. *)
Record Quota : Type := mkQuota {
  q_rpm : Z;
  q_tpm : Z;
  q_concurrent : Z;
  q_storage_mb : Z;
  q_allowed_models : list string;
  q_allowed_modules : list string;
  q_default_priority : Z
}.

(** A row of [_quotas]: the quota values with their owner and time stamp. *)
Record TenantQuota : Type := mkTenantQuota {
  tq_tenant_id : string;
  tq_updated_at : Z;
  tq_quota : Quota
}.

(** The [**fields] of [put_quota] and [put_plan_template]: [None] is a missing
    or null field. *)
Record QuotaFields : Type := mkQuotaFields {
  qf_rpm : option Z;
  qf_tpm : option Z;
  qf_concurrent : option Z;
  qf_storage_mb : option Z;
  qf_allowed_models : option (list string);
  qf_allowed_modules : option (list string);
  qf_default_priority : option Z
}.

(** A row of [_users]. The two password-reset entries are absent until first
    armed, which every reader treats as [None]. *)
Record User : Type := mkUser {
  u_user_id : string;
  u_username : string;
  u_email : option string;
  u_display_name : option string;
  u_password_hash : string;
  u_password_hash_v : string;
  u_salt : string;
  u_password_algo : string;
  u_status : string;
  u_failed_attempts : Z;
  u_locked_until : option Z;
  u_must_change_password : bool;
  u_last_login_at : option Z;
  u_email_verified : bool;
  u_email_verify_token_hash : option string;
  u_email_verify_expires : option Z;
  u_password_reset_token_hash : option string;
  u_password_reset_expires : option Z;
  u_created_at : Z
}.
Definition set_u_email (v : option string) (r : User) : User :=
  mkUser (u_user_id r) (u_username r) v (u_display_name r) (u_password_hash r)
    (u_password_hash_v r) (u_salt r) (u_password_algo r) (u_status r) (u_failed_attempts r)
    (u_locked_until r) (u_must_change_password r) (u_last_login_at r) (u_email_verified r)
    (u_email_verify_token_hash r) (u_email_verify_expires r) (u_password_reset_token_hash r)
    (u_password_reset_expires r) (u_created_at r).
Definition set_u_display_name (v : option string) (r : User) : User :=
  mkUser (u_user_id r) (u_username r) (u_email r) v (u_password_hash r) (u_password_hash_v r)
    (u_salt r) (u_password_algo r) (u_status r) (u_failed_attempts r) (u_locked_until r)
    (u_must_change_password r) (u_last_login_at r) (u_email_verified r)
    (u_email_verify_token_hash r) (u_email_verify_expires r) (u_password_reset_token_hash r)
    (u_password_reset_expires r) (u_created_at r).
Definition set_u_password_hash (v : string) (r : User) : User :=
  mkUser (u_user_id r) (u_username r) (u_email r) (u_display_name r) v (u_password_hash_v r)
    (u_salt r) (u_password_algo r) (u_status r) (u_failed_attempts r) (u_locked_until r)
    (u_must_change_password r) (u_last_login_at r) (u_email_verified r)
    (u_email_verify_token_hash r) (u_email_verify_expires r) (u_password_reset_token_hash r)
    (u_password_reset_expires r) (u_created_at r).
Definition set_u_password_hash_v (v : string) (r : User) : User :=
  mkUser (u_user_id r) (u_username r) (u_email r) (u_display_name r) (u_password_hash r) v
    (u_salt r) (u_password_algo r) (u_status r) (u_failed_attempts r) (u_locked_until r)
    (u_must_change_password r) (u_last_login_at r) (u_email_verified r)
    (u_email_verify_token_hash r) (u_email_verify_expires r) (u_password_reset_token_hash r)
    (u_password_reset_expires r) (u_created_at r).
Definition set_u_salt (v : string) (r : User) : User :=
  mkUser (u_user_id r) (u_username r) (u_email r) (u_display_name r) (u_password_hash r)
    (u_password_hash_v r) v (u_password_algo r) (u_status r) (u_failed_attempts r)
    (u_locked_until r) (u_must_change_password r) (u_last_login_at r) (u_email_verified r)
    (u_email_verify_token_hash r) (u_email_verify_expires r) (u_password_reset_token_hash r)
    (u_password_reset_expires r) (u_created_at r).
Definition set_u_password_algo (v : string) (r : User) : User :=
  mkUser (u_user_id r) (u_username r) (u_email r) (u_display_name r) (u_password_hash r)
    (u_password_hash_v r) (u_salt r) v (u_status r) (u_failed_attempts r) (u_locked_until r)
    (u_must_change_password r) (u_last_login_at r) (u_email_verified r)
    (u_email_verify_token_hash r) (u_email_verify_expires r) (u_password_reset_token_hash r)
    (u_password_reset_expires r) (u_created_at r).
Definition set_u_status (v : string) (r : User) : User :=
  mkUser (u_user_id r) (u_username r) (u_email r) (u_display_name r) (u_password_hash r)
    (u_password_hash_v r) (u_salt r) (u_password_algo r) v (u_failed_attempts r)
    (u_locked_until r) (u_must_change_password r) (u_last_login_at r) (u_email_verified r)
    (u_email_verify_token_hash r) (u_email_verify_expires r) (u_password_reset_token_hash r)
    (u_password_reset_expires r) (u_created_at r).
Definition set_u_failed_attempts (v : Z) (r : User) : User :=
  mkUser (u_user_id r) (u_username r) (u_email r) (u_display_name r) (u_password_hash r)
    (u_password_hash_v r) (u_salt r) (u_password_algo r) (u_status r) v (u_locked_until r)
    (u_must_change_password r) (u_last_login_at r) (u_email_verified r)
    (u_email_verify_token_hash r) (u_email_verify_expires r) (u_password_reset_token_hash r)
    (u_password_reset_expires r) (u_created_at r).
Definition set_u_locked_until (v : option Z) (r : User) : User :=
  mkUser (u_user_id r) (u_username r) (u_email r) (u_display_name r) (u_password_hash r)
    (u_password_hash_v r) (u_salt r) (u_password_algo r) (u_status r) (u_failed_attempts r)
    v (u_must_change_password r) (u_last_login_at r) (u_email_verified r)
    (u_email_verify_token_hash r) (u_email_verify_expires r) (u_password_reset_token_hash r)
    (u_password_reset_expires r) (u_created_at r).
Definition set_u_must_change_password (v : bool) (r : User) : User :=
  mkUser (u_user_id r) (u_username r) (u_email r) (u_display_name r) (u_password_hash r)
    (u_password_hash_v r) (u_salt r) (u_password_algo r) (u_status r) (u_failed_attempts r)
    (u_locked_until r) v (u_last_login_at r) (u_email_verified r)
    (u_email_verify_token_hash r) (u_email_verify_expires r) (u_password_reset_token_hash r)
    (u_password_reset_expires r) (u_created_at r).
Definition set_u_last_login_at (v : option Z) (r : User) : User :=
  mkUser (u_user_id r) (u_username r) (u_email r) (u_display_name r) (u_password_hash r)
    (u_password_hash_v r) (u_salt r) (u_password_algo r) (u_status r) (u_failed_attempts r)
    (u_locked_until r) (u_must_change_password r) v (u_email_verified r)
    (u_email_verify_token_hash r) (u_email_verify_expires r) (u_password_reset_token_hash r)
    (u_password_reset_expires r) (u_created_at r).
Definition set_u_email_verified (v : bool) (r : User) : User :=
  mkUser (u_user_id r) (u_username r) (u_email r) (u_display_name r) (u_password_hash r)
    (u_password_hash_v r) (u_salt r) (u_password_algo r) (u_status r) (u_failed_attempts r)
    (u_locked_until r) (u_must_change_password r) (u_last_login_at r) v
    (u_email_verify_token_hash r) (u_email_verify_expires r) (u_password_reset_token_hash r)
    (u_password_reset_expires r) (u_created_at r).
Definition set_u_email_verify_token_hash (v : option string) (r : User) : User :=
  mkUser (u_user_id r) (u_username r) (u_email r) (u_display_name r) (u_password_hash r)
    (u_password_hash_v r) (u_salt r) (u_password_algo r) (u_status r) (u_failed_attempts r)
    (u_locked_until r) (u_must_change_password r) (u_last_login_at r) (u_email_verified r) v
    (u_email_verify_expires r) (u_password_reset_token_hash r) (u_password_reset_expires r)
    (u_created_at r).
Definition set_u_email_verify_expires (v : option Z) (r : User) : User :=
  mkUser (u_user_id r) (u_username r) (u_email r) (u_display_name r) (u_password_hash r)
    (u_password_hash_v r) (u_salt r) (u_password_algo r) (u_status r) (u_failed_attempts r)
    (u_locked_until r) (u_must_change_password r) (u_last_login_at r) (u_email_verified r)
    (u_email_verify_token_hash r) v (u_password_reset_token_hash r)
    (u_password_reset_expires r) (u_created_at r).
Definition set_u_password_reset_token_hash (v : option string) (r : User) : User :=
  mkUser (u_user_id r) (u_username r) (u_email r) (u_display_name r) (u_password_hash r)
    (u_password_hash_v r) (u_salt r) (u_password_algo r) (u_status r) (u_failed_attempts r)
    (u_locked_until r) (u_must_change_password r) (u_last_login_at r) (u_email_verified r)
    (u_email_verify_token_hash r) (u_email_verify_expires r) v (u_password_reset_expires r)
    (u_created_at r).
Definition set_u_password_reset_expires (v : option Z) (r : User) : User :=
  mkUser (u_user_id r) (u_username r) (u_email r) (u_display_name r) (u_password_hash r)
    (u_password_hash_v r) (u_salt r) (u_password_algo r) (u_status r) (u_failed_attempts r)
    (u_locked_until r) (u_must_change_password r) (u_last_login_at r) (u_email_verified r)
    (u_email_verify_token_hash r) (u_email_verify_expires r) (u_password_reset_token_hash r)
    v (u_created_at r).

(** A row of [_members]. *)
Record Member : Type := mkMember {
  m_tenant_id : string;
  m_user_id : string;
  m_role : string;
  m_added_by : option string;
  m_added_at : Z;
  m_joined_at : Z
}.
Definition set_m_role (v : string) (r : Member) : Member :=
  mkMember (m_tenant_id r) (m_user_id r) v (m_added_by r) (m_added_at r) (m_joined_at r).

(** A row of [_api_keys]. *)
Record ApiKey : Type := mkApiKey {
  k_key_id : string;
  k_tenant_id : string;
  k_user_id : option string;
  k_key_hash : string;
  k_prefix : string;
  k_scopes : list string;
  k_created_at : Z;
  k_revoked_at : option Z
}.
Definition set_k_revoked_at (v : option Z) (r : ApiKey) : ApiKey :=
  mkApiKey (k_key_id r) (k_tenant_id r) (k_user_id r) (k_key_hash r) (k_prefix r) (k_scopes r)
    (k_created_at r) v.

(** A row of [_app_secrets]. *)
Record AppSecret : Type := mkAppSecret {
  s_secret_id : string;
  s_app_id : string;
  s_version : Z;
  s_secret_hash : string;
  s_prefix : string;
  s_status : string;
  s_grace_until : option Z;
  s_created_at : Z
}.
Definition set_s_status (v : string) (r : AppSecret) : AppSecret :=
  mkAppSecret (s_secret_id r) (s_app_id r) (s_version r) (s_secret_hash r) (s_prefix r) v
    (s_grace_until r) (s_created_at r).
Definition set_s_grace_until (v : option Z) (r : AppSecret) : AppSecret :=
  mkAppSecret (s_secret_id r) (s_app_id r) (s_version r) (s_secret_hash r) (s_prefix r) (s_status r) v
    (s_created_at r).

(** A row of [_app_credentials]. *)
Record AppCredential : Type := mkAppCredential {
  c_app_id : string;
  c_name : string;
  c_secret_enc : string;
  c_created_at : Z;
  c_updated_at : Z;
  c_fetch_count : Z;
  c_last_fetched_at : option Z
}.
Definition set_c_secret_enc (v : string) (r : AppCredential) : AppCredential :=
  mkAppCredential (c_app_id r) (c_name r) v (c_created_at r) (c_updated_at r) (c_fetch_count r)
    (c_last_fetched_at r).
Definition set_c_updated_at (v : Z) (r : AppCredential) : AppCredential :=
  mkAppCredential (c_app_id r) (c_name r) (c_secret_enc r) (c_created_at r) v (c_fetch_count r)
    (c_last_fetched_at r).
Definition set_c_fetch_count (v : Z) (r : AppCredential) : AppCredential :=
  mkAppCredential (c_app_id r) (c_name r) (c_secret_enc r) (c_created_at r) (c_updated_at r) v
    (c_last_fetched_at r).
Definition set_c_last_fetched_at (v : option Z) (r : AppCredential) : AppCredential :=
  mkAppCredential (c_app_id r) (c_name r) (c_secret_enc r) (c_created_at r) (c_updated_at r)
    (c_fetch_count r) v.

(** The hashed fields of an audit record ([_audit_fields]). *)
Record AuditFields : Type := mkAuditFields {
  af_tenant_id : string;
  af_user_id : option string;
  af_jti : option string;
  af_role : option string;
  af_action : string;
  af_resource : option string;
  af_detail : json;
  af_ts : Z
}.

(** An entry of the [_audit] list. *)
Record AuditRecord : Type := mkAuditRecord {
  a_id : Z;
  a_seq : Z;
  a_fields : AuditFields;
  a_chain_hash : string;
  a_prev_hash : string
}.

(** A row of [_revoked_jtis]. *)
Record RevokedJti : Type := mkRevokedJti {
  r_jti : string;
  r_tenant_id : string;
  r_user_id : option string;
  r_reason : string;
  r_expires_at : Z;
  r_revoked_at : Z
}.

(** A row of [_refresh_tokens]. *)
Record RefreshToken : Type := mkRefreshToken {
  rt_jti : string;
  rt_family_id : string;
  rt_tenant_id : string;
  rt_user_id : string;
  rt_status : string;
  rt_issued_at : Z;
  rt_expires_at : Z;
  rt_replaced_by : option string
}.
Definition set_rt_status (v : string) (r : RefreshToken) : RefreshToken :=
  mkRefreshToken (rt_jti r) (rt_family_id r) (rt_tenant_id r) (rt_user_id r) v (rt_issued_at r)
    (rt_expires_at r) (rt_replaced_by r).
Definition set_rt_replaced_by (v : option string) (r : RefreshToken) : RefreshToken :=
  mkRefreshToken (rt_jti r) (rt_family_id r) (rt_tenant_id r) (rt_user_id r) (rt_status r)
    (rt_issued_at r) (rt_expires_at r) v.

(** The tuple stored per issued jti: tenant, user, ledger expiry. *)
Record IssuedJti : Type := mkIssuedJti {
  ij_tenant_id : string;
  ij_user_id : string;
  ij_expires_at : Z
}.

(** A row of [_sso_tickets]. *)
Record SsoTicket : Type := mkSsoTicket {
  tk_ticket_hash : string;
  tk_user_id : string;
  tk_tenant_id : string;
  tk_expires_at : Z;
  tk_used_at : option Z;
  tk_created_at : Z
}.
Definition set_tk_used_at (v : option Z) (r : SsoTicket) : SsoTicket :=
  mkSsoTicket (tk_ticket_hash r) (tk_user_id r) (tk_tenant_id r) (tk_expires_at r) v (tk_created_at r).

(** A row of [_custom_roles]. *)
Record CustomRole : Type := mkCustomRole {
  cr_role_id : string;
  cr_tenant_id : string;
  cr_display_name : string;
  cr_write_classes : list string;
  cr_created_at : Z;
  cr_updated_at : Z
}.
Definition set_cr_display_name (v : string) (r : CustomRole) : CustomRole :=
  mkCustomRole (cr_role_id r) (cr_tenant_id r) v (cr_write_classes r) (cr_created_at r)
    (cr_updated_at r).
Definition set_cr_write_classes (v : list string) (r : CustomRole) : CustomRole :=
  mkCustomRole (cr_role_id r) (cr_tenant_id r) (cr_display_name r) v (cr_created_at r)
    (cr_updated_at r).
Definition set_cr_updated_at (v : Z) (r : CustomRole) : CustomRole :=
  mkCustomRole (cr_role_id r) (cr_tenant_id r) (cr_display_name r) (cr_write_classes r)
    (cr_created_at r) v.

(** A row of [_invites]. *)
Record Invite : Type := mkInvite {
  i_invite_id : string;
  i_tenant_id : string;
  i_token_hash : string;
  i_role : string;
  i_email : option string;
  i_created_by : option string;
  i_expires_at : Z;
  i_used_at : option Z;
  i_used_by : option string;
  i_created_at : Z
}.
Definition set_i_used_at (v : option Z) (r : Invite) : Invite :=
  mkInvite (i_invite_id r) (i_tenant_id r) (i_token_hash r) (i_role r) (i_email r) (i_created_by r)
    (i_expires_at r) v (i_used_by r) (i_created_at r).
Definition set_i_used_by (v : option string) (r : Invite) : Invite :=
  mkInvite (i_invite_id r) (i_tenant_id r) (i_token_hash r) (i_role r) (i_email r) (i_created_by r)
    (i_expires_at r) (i_used_at r) v (i_created_at r).

(** A row of [_join_requests]. *)
Record JoinRequest : Type := mkJoinRequest {
  j_request_id : string;
  j_tenant_id : string;
  j_user_id : string;
  j_status : string;
  j_decided_by : option string;
  j_decided_at : option Z;
  j_created_at : Z
}.
Definition set_j_status (v : string) (r : JoinRequest) : JoinRequest :=
  mkJoinRequest (j_request_id r) (j_tenant_id r) (j_user_id r) v (j_decided_by r) (j_decided_at r)
    (j_created_at r).
Definition set_j_decided_by (v : option string) (r : JoinRequest) : JoinRequest :=
  mkJoinRequest (j_request_id r) (j_tenant_id r) (j_user_id r) (j_status r) v (j_decided_at r)
    (j_created_at r).
Definition set_j_decided_at (v : option Z) (r : JoinRequest) : JoinRequest :=
  mkJoinRequest (j_request_id r) (j_tenant_id r) (j_user_id r) (j_status r) (j_decided_by r) v
    (j_created_at r).

(** An entry of the [_events] outbox. *)
Record Event : Type := mkEvent {
  e_event_id : string;
  e_seq : Z;
  e_event_type : string;
  e_tenant_id : string;
  e_payload : json;
  e_status : string;
  e_attempts : Z;
  e_created_at : Z;
  e_updated_at : Z
}.
Definition set_e_status (v : string) (r : Event) : Event :=
  mkEvent (e_event_id r) (e_seq r) (e_event_type r) (e_tenant_id r) (e_payload r) v (e_attempts r)
    (e_created_at r) (e_updated_at r).
Definition set_e_attempts (v : Z) (r : Event) : Event :=
  mkEvent (e_event_id r) (e_seq r) (e_event_type r) (e_tenant_id r) (e_payload r) (e_status r) v
    (e_created_at r) (e_updated_at r).
Definition set_e_updated_at (v : Z) (r : Event) : Event :=
  mkEvent (e_event_id r) (e_seq r) (e_event_type r) (e_tenant_id r) (e_payload r) (e_status r)
    (e_attempts r) (e_created_at r) v.

(** A row of [_departments]. *)
Record Department : Type := mkDepartment {
  d_dept_id : string;
  d_tenant_id : string;
  d_name : string;
  d_parent_id : option string;
  d_tool_allowlist : list string;
  d_created_at : Z;
  d_updated_at : Z
}.
Definition set_d_name (v : string) (r : Department) : Department :=
  mkDepartment (d_dept_id r) (d_tenant_id r) v (d_parent_id r) (d_tool_allowlist r) (d_created_at r)
    (d_updated_at r).
Definition set_d_parent_id (v : option string) (r : Department) : Department :=
  mkDepartment (d_dept_id r) (d_tenant_id r) (d_name r) v (d_tool_allowlist r) (d_created_at r)
    (d_updated_at r).
Definition set_d_tool_allowlist (v : list string) (r : Department) : Department :=
  mkDepartment (d_dept_id r) (d_tenant_id r) (d_name r) (d_parent_id r) v (d_created_at r)
    (d_updated_at r).
Definition set_d_updated_at (v : Z) (r : Department) : Department :=
  mkDepartment (d_dept_id r) (d_tenant_id r) (d_name r) (d_parent_id r) (d_tool_allowlist r)
    (d_created_at r) v.

(** An entry of the [_usage] list. *)
Record UsageRecord : Type := mkUsageRecord {
  us_tenant_id : string;
  us_user_id : option string;
  us_metric : string;
  us_value : Z;
  us_source : string;
  us_model : option string;
  us_ts : Z
}.

(** An entry of the [_lease_log] list. *)
Record LeaseLogEntry : Type := mkLeaseLogEntry {
  l_tenant_id : string;
  l_lease_id : string;
  l_action : string;
  l_reason : option string;
  l_created_at : Z
}.

(** A row of [_idps]. *)
Record Idp : Type := mkIdp {
  ip_idp_id : string;
  ip_tenant_id : string;
  ip_type : string;
  ip_issuer_url : option string;
  ip_client_id : option string;
  ip_client_secret_enc : option string;
  ip_scopes : option string;
  ip_auto_provision : bool;
  ip_created_at : Z
}.
Definition set_ip_type (v : string) (r : Idp) : Idp :=
  mkIdp (ip_idp_id r) (ip_tenant_id r) v (ip_issuer_url r) (ip_client_id r)
    (ip_client_secret_enc r) (ip_scopes r) (ip_auto_provision r) (ip_created_at r).
Definition set_ip_issuer_url (v : option string) (r : Idp) : Idp :=
  mkIdp (ip_idp_id r) (ip_tenant_id r) (ip_type r) v (ip_client_id r) (ip_client_secret_enc r)
    (ip_scopes r) (ip_auto_provision r) (ip_created_at r).
Definition set_ip_client_id (v : option string) (r : Idp) : Idp :=
  mkIdp (ip_idp_id r) (ip_tenant_id r) (ip_type r) (ip_issuer_url r) v (ip_client_secret_enc r)
    (ip_scopes r) (ip_auto_provision r) (ip_created_at r).
Definition set_ip_client_secret_enc (v : option string) (r : Idp) : Idp :=
  mkIdp (ip_idp_id r) (ip_tenant_id r) (ip_type r) (ip_issuer_url r) (ip_client_id r) v
    (ip_scopes r) (ip_auto_provision r) (ip_created_at r).
Definition set_ip_scopes (v : option string) (r : Idp) : Idp :=
  mkIdp (ip_idp_id r) (ip_tenant_id r) (ip_type r) (ip_issuer_url r) (ip_client_id r)
    (ip_client_secret_enc r) v (ip_auto_provision r) (ip_created_at r).
Definition set_ip_auto_provision (v : bool) (r : Idp) : Idp :=
  mkIdp (ip_idp_id r) (ip_tenant_id r) (ip_type r) (ip_issuer_url r) (ip_client_id r)
    (ip_client_secret_enc r) (ip_scopes r) v (ip_created_at r).

(** A row of [_mfa]. *)
Record Mfa : Type := mkMfa {
  mf_user_id : string;
  mf_method : string;
  mf_secret_enc : string;
  mf_enrolled_at : Z;
  mf_enabled : bool
}.

(** A row of [_idempotency]. *)
Record Idempotency : Type := mkIdempotency {
  im_idem_key : string;
  im_endpoint : string;
  im_response : json;
  im_created_at : Z
}.

(** The instance attributes of [InMemoryStore], dicts in iteration order. *)
Record Store : Type := mkStore {
  tenants : list (string * Tenant);
  users : list (string * User);
  members : list ((string * string) * Member);
  api_keys : list (string * ApiKey);
  key_hash_index : list (string * string);
  app_secrets : list (string * AppSecret);
  app_credentials : list ((string * string) * AppCredential);
  quotas : list (string * TenantQuota);
  audit : list AuditRecord;
  revoked_jtis : list (string * RevokedJti);
  refresh_tokens : list (string * RefreshToken);
  issued_jtis : list (string * IssuedJti);
  seq_audit : Z;
  usage : list UsageRecord;
  idps : list (string * Idp);
  mfa : list ((string * string) * Mfa);
  lease_log : list LeaseLogEntry;
  departments : list ((string * string) * Department);
  custom_roles : list ((string * string) * CustomRole);
  menu_matrix : list ((string * string) * list string);
  known_menus : list (string * list string);
  audit_tail_hash : list (string * string);
  plan_templates : list (string * Quota);
  idempotency : list (string * Idempotency);
  events : list Event;
  event_seq : Z;
  invites : list (string * Invite);
  sso_tickets : list (string * SsoTicket);
  join_requests : list (string * JoinRequest)
}.
Definition set_tenants (v : list (string * Tenant)) (r : Store) : Store :=
  mkStore v (users r) (members r) (api_keys r) (key_hash_index r) (app_secrets r)
    (app_credentials r) (quotas r) (audit r) (revoked_jtis r) (refresh_tokens r)
    (issued_jtis r) (seq_audit r) (usage r) (idps r) (mfa r) (lease_log r) (departments r)
    (custom_roles r) (menu_matrix r) (known_menus r) (audit_tail_hash r) (plan_templates r)
    (idempotency r) (events r) (event_seq r) (invites r) (sso_tickets r) (join_requests r).
Definition set_users (v : list (string * User)) (r : Store) : Store :=
  mkStore (tenants r) v (members r) (api_keys r) (key_hash_index r) (app_secrets r)
    (app_credentials r) (quotas r) (audit r) (revoked_jtis r) (refresh_tokens r)
    (issued_jtis r) (seq_audit r) (usage r) (idps r) (mfa r) (lease_log r) (departments r)
    (custom_roles r) (menu_matrix r) (known_menus r) (audit_tail_hash r) (plan_templates r)
    (idempotency r) (events r) (event_seq r) (invites r) (sso_tickets r) (join_requests r).
Definition set_members (v : list ((string * string) * Member)) (r : Store) : Store :=
  mkStore (tenants r) (users r) v (api_keys r) (key_hash_index r) (app_secrets r)
    (app_credentials r) (quotas r) (audit r) (revoked_jtis r) (refresh_tokens r)
    (issued_jtis r) (seq_audit r) (usage r) (idps r) (mfa r) (lease_log r) (departments r)
    (custom_roles r) (menu_matrix r) (known_menus r) (audit_tail_hash r) (plan_templates r)
    (idempotency r) (events r) (event_seq r) (invites r) (sso_tickets r) (join_requests r).
Definition set_api_keys (v : list (string * ApiKey)) (r : Store) : Store :=
  mkStore (tenants r) (users r) (members r) v (key_hash_index r) (app_secrets r)
    (app_credentials r) (quotas r) (audit r) (revoked_jtis r) (refresh_tokens r)
    (issued_jtis r) (seq_audit r) (usage r) (idps r) (mfa r) (lease_log r) (departments r)
    (custom_roles r) (menu_matrix r) (known_menus r) (audit_tail_hash r) (plan_templates r)
    (idempotency r) (events r) (event_seq r) (invites r) (sso_tickets r) (join_requests r).
Definition set_key_hash_index (v : list (string * string)) (r : Store) : Store :=
  mkStore (tenants r) (users r) (members r) (api_keys r) v (app_secrets r) (app_credentials r)
    (quotas r) (audit r) (revoked_jtis r) (refresh_tokens r) (issued_jtis r) (seq_audit r)
    (usage r) (idps r) (mfa r) (lease_log r) (departments r) (custom_roles r)
    (menu_matrix r) (known_menus r) (audit_tail_hash r) (plan_templates r) (idempotency r)
    (events r) (event_seq r) (invites r) (sso_tickets r) (join_requests r).
Definition set_app_secrets (v : list (string * AppSecret)) (r : Store) : Store :=
  mkStore (tenants r) (users r) (members r) (api_keys r) (key_hash_index r) v (app_credentials r)
    (quotas r) (audit r) (revoked_jtis r) (refresh_tokens r) (issued_jtis r) (seq_audit r)
    (usage r) (idps r) (mfa r) (lease_log r) (departments r) (custom_roles r)
    (menu_matrix r) (known_menus r) (audit_tail_hash r) (plan_templates r) (idempotency r)
    (events r) (event_seq r) (invites r) (sso_tickets r) (join_requests r).
Definition set_app_credentials (v : list ((string * string) * AppCredential)) (r : Store) : Store :=
  mkStore (tenants r) (users r) (members r) (api_keys r) (key_hash_index r) (app_secrets r) v
    (quotas r) (audit r) (revoked_jtis r) (refresh_tokens r) (issued_jtis r) (seq_audit r)
    (usage r) (idps r) (mfa r) (lease_log r) (departments r) (custom_roles r)
    (menu_matrix r) (known_menus r) (audit_tail_hash r) (plan_templates r) (idempotency r)
    (events r) (event_seq r) (invites r) (sso_tickets r) (join_requests r).
Definition set_quotas (v : list (string * TenantQuota)) (r : Store) : Store :=
  mkStore (tenants r) (users r) (members r) (api_keys r) (key_hash_index r) (app_secrets r)
    (app_credentials r) v (audit r) (revoked_jtis r) (refresh_tokens r) (issued_jtis r)
    (seq_audit r) (usage r) (idps r) (mfa r) (lease_log r) (departments r) (custom_roles r)
    (menu_matrix r) (known_menus r) (audit_tail_hash r) (plan_templates r) (idempotency r)
    (events r) (event_seq r) (invites r) (sso_tickets r) (join_requests r).
Definition set_audit (v : list AuditRecord) (r : Store) : Store :=
  mkStore (tenants r) (users r) (members r) (api_keys r) (key_hash_index r) (app_secrets r)
    (app_credentials r) (quotas r) v (revoked_jtis r) (refresh_tokens r) (issued_jtis r)
    (seq_audit r) (usage r) (idps r) (mfa r) (lease_log r) (departments r) (custom_roles r)
    (menu_matrix r) (known_menus r) (audit_tail_hash r) (plan_templates r) (idempotency r)
    (events r) (event_seq r) (invites r) (sso_tickets r) (join_requests r).
Definition set_revoked_jtis (v : list (string * RevokedJti)) (r : Store) : Store :=
  mkStore (tenants r) (users r) (members r) (api_keys r) (key_hash_index r) (app_secrets r)
    (app_credentials r) (quotas r) (audit r) v (refresh_tokens r) (issued_jtis r)
    (seq_audit r) (usage r) (idps r) (mfa r) (lease_log r) (departments r) (custom_roles r)
    (menu_matrix r) (known_menus r) (audit_tail_hash r) (plan_templates r) (idempotency r)
    (events r) (event_seq r) (invites r) (sso_tickets r) (join_requests r).
Definition set_refresh_tokens (v : list (string * RefreshToken)) (r : Store) : Store :=
  mkStore (tenants r) (users r) (members r) (api_keys r) (key_hash_index r) (app_secrets r)
    (app_credentials r) (quotas r) (audit r) (revoked_jtis r) v (issued_jtis r)
    (seq_audit r) (usage r) (idps r) (mfa r) (lease_log r) (departments r) (custom_roles r)
    (menu_matrix r) (known_menus r) (audit_tail_hash r) (plan_templates r) (idempotency r)
    (events r) (event_seq r) (invites r) (sso_tickets r) (join_requests r).
Definition set_issued_jtis (v : list (string * IssuedJti)) (r : Store) : Store :=
  mkStore (tenants r) (users r) (members r) (api_keys r) (key_hash_index r) (app_secrets r)
    (app_credentials r) (quotas r) (audit r) (revoked_jtis r) (refresh_tokens r) v
    (seq_audit r) (usage r) (idps r) (mfa r) (lease_log r) (departments r) (custom_roles r)
    (menu_matrix r) (known_menus r) (audit_tail_hash r) (plan_templates r) (idempotency r)
    (events r) (event_seq r) (invites r) (sso_tickets r) (join_requests r).
Definition set_seq_audit (v : Z) (r : Store) : Store :=
  mkStore (tenants r) (users r) (members r) (api_keys r) (key_hash_index r) (app_secrets r)
    (app_credentials r) (quotas r) (audit r) (revoked_jtis r) (refresh_tokens r)
    (issued_jtis r) v (usage r) (idps r) (mfa r) (lease_log r) (departments r)
    (custom_roles r) (menu_matrix r) (known_menus r) (audit_tail_hash r) (plan_templates r)
    (idempotency r) (events r) (event_seq r) (invites r) (sso_tickets r) (join_requests r).
Definition set_usage (v : list UsageRecord) (r : Store) : Store :=
  mkStore (tenants r) (users r) (members r) (api_keys r) (key_hash_index r) (app_secrets r)
    (app_credentials r) (quotas r) (audit r) (revoked_jtis r) (refresh_tokens r)
    (issued_jtis r) (seq_audit r) v (idps r) (mfa r) (lease_log r) (departments r)
    (custom_roles r) (menu_matrix r) (known_menus r) (audit_tail_hash r) (plan_templates r)
    (idempotency r) (events r) (event_seq r) (invites r) (sso_tickets r) (join_requests r).
Definition set_idps (v : list (string * Idp)) (r : Store) : Store :=
  mkStore (tenants r) (users r) (members r) (api_keys r) (key_hash_index r) (app_secrets r)
    (app_credentials r) (quotas r) (audit r) (revoked_jtis r) (refresh_tokens r)
    (issued_jtis r) (seq_audit r) (usage r) v (mfa r) (lease_log r) (departments r)
    (custom_roles r) (menu_matrix r) (known_menus r) (audit_tail_hash r) (plan_templates r)
    (idempotency r) (events r) (event_seq r) (invites r) (sso_tickets r) (join_requests r).
Definition set_mfa (v : list ((string * string) * Mfa)) (r : Store) : Store :=
  mkStore (tenants r) (users r) (members r) (api_keys r) (key_hash_index r) (app_secrets r)
    (app_credentials r) (quotas r) (audit r) (revoked_jtis r) (refresh_tokens r)
    (issued_jtis r) (seq_audit r) (usage r) (idps r) v (lease_log r) (departments r)
    (custom_roles r) (menu_matrix r) (known_menus r) (audit_tail_hash r) (plan_templates r)
    (idempotency r) (events r) (event_seq r) (invites r) (sso_tickets r) (join_requests r).
Definition set_lease_log (v : list LeaseLogEntry) (r : Store) : Store :=
  mkStore (tenants r) (users r) (members r) (api_keys r) (key_hash_index r) (app_secrets r)
    (app_credentials r) (quotas r) (audit r) (revoked_jtis r) (refresh_tokens r)
    (issued_jtis r) (seq_audit r) (usage r) (idps r) (mfa r) v (departments r)
    (custom_roles r) (menu_matrix r) (known_menus r) (audit_tail_hash r) (plan_templates r)
    (idempotency r) (events r) (event_seq r) (invites r) (sso_tickets r) (join_requests r).
Definition set_departments (v : list ((string * string) * Department)) (r : Store) : Store :=
  mkStore (tenants r) (users r) (members r) (api_keys r) (key_hash_index r) (app_secrets r)
    (app_credentials r) (quotas r) (audit r) (revoked_jtis r) (refresh_tokens r)
    (issued_jtis r) (seq_audit r) (usage r) (idps r) (mfa r) (lease_log r) v
    (custom_roles r) (menu_matrix r) (known_menus r) (audit_tail_hash r) (plan_templates r)
    (idempotency r) (events r) (event_seq r) (invites r) (sso_tickets r) (join_requests r).
Definition set_custom_roles (v : list ((string * string) * CustomRole)) (r : Store) : Store :=
  mkStore (tenants r) (users r) (members r) (api_keys r) (key_hash_index r) (app_secrets r)
    (app_credentials r) (quotas r) (audit r) (revoked_jtis r) (refresh_tokens r)
    (issued_jtis r) (seq_audit r) (usage r) (idps r) (mfa r) (lease_log r) (departments r) v
    (menu_matrix r) (known_menus r) (audit_tail_hash r) (plan_templates r) (idempotency r)
    (events r) (event_seq r) (invites r) (sso_tickets r) (join_requests r).
Definition set_menu_matrix (v : list ((string * string) * list string)) (r : Store) : Store :=
  mkStore (tenants r) (users r) (members r) (api_keys r) (key_hash_index r) (app_secrets r)
    (app_credentials r) (quotas r) (audit r) (revoked_jtis r) (refresh_tokens r)
    (issued_jtis r) (seq_audit r) (usage r) (idps r) (mfa r) (lease_log r) (departments r)
    (custom_roles r) v (known_menus r) (audit_tail_hash r) (plan_templates r)
    (idempotency r) (events r) (event_seq r) (invites r) (sso_tickets r) (join_requests r).
Definition set_known_menus (v : list (string * list string)) (r : Store) : Store :=
  mkStore (tenants r) (users r) (members r) (api_keys r) (key_hash_index r) (app_secrets r)
    (app_credentials r) (quotas r) (audit r) (revoked_jtis r) (refresh_tokens r)
    (issued_jtis r) (seq_audit r) (usage r) (idps r) (mfa r) (lease_log r) (departments r)
    (custom_roles r) (menu_matrix r) v (audit_tail_hash r) (plan_templates r)
    (idempotency r) (events r) (event_seq r) (invites r) (sso_tickets r) (join_requests r).
Definition set_audit_tail_hash (v : list (string * string)) (r : Store) : Store :=
  mkStore (tenants r) (users r) (members r) (api_keys r) (key_hash_index r) (app_secrets r)
    (app_credentials r) (quotas r) (audit r) (revoked_jtis r) (refresh_tokens r)
    (issued_jtis r) (seq_audit r) (usage r) (idps r) (mfa r) (lease_log r) (departments r)
    (custom_roles r) (menu_matrix r) (known_menus r) v (plan_templates r) (idempotency r)
    (events r) (event_seq r) (invites r) (sso_tickets r) (join_requests r).
Definition set_plan_templates (v : list (string * Quota)) (r : Store) : Store :=
  mkStore (tenants r) (users r) (members r) (api_keys r) (key_hash_index r) (app_secrets r)
    (app_credentials r) (quotas r) (audit r) (revoked_jtis r) (refresh_tokens r)
    (issued_jtis r) (seq_audit r) (usage r) (idps r) (mfa r) (lease_log r) (departments r)
    (custom_roles r) (menu_matrix r) (known_menus r) (audit_tail_hash r) v (idempotency r)
    (events r) (event_seq r) (invites r) (sso_tickets r) (join_requests r).
Definition set_idempotency (v : list (string * Idempotency)) (r : Store) : Store :=
  mkStore (tenants r) (users r) (members r) (api_keys r) (key_hash_index r) (app_secrets r)
    (app_credentials r) (quotas r) (audit r) (revoked_jtis r) (refresh_tokens r)
    (issued_jtis r) (seq_audit r) (usage r) (idps r) (mfa r) (lease_log r) (departments r)
    (custom_roles r) (menu_matrix r) (known_menus r) (audit_tail_hash r) (plan_templates r)
    v (events r) (event_seq r) (invites r) (sso_tickets r) (join_requests r).
Definition set_events (v : list Event) (r : Store) : Store :=
  mkStore (tenants r) (users r) (members r) (api_keys r) (key_hash_index r) (app_secrets r)
    (app_credentials r) (quotas r) (audit r) (revoked_jtis r) (refresh_tokens r)
    (issued_jtis r) (seq_audit r) (usage r) (idps r) (mfa r) (lease_log r) (departments r)
    (custom_roles r) (menu_matrix r) (known_menus r) (audit_tail_hash r) (plan_templates r)
    (idempotency r) v (event_seq r) (invites r) (sso_tickets r) (join_requests r).
Definition set_event_seq (v : Z) (r : Store) : Store :=
  mkStore (tenants r) (users r) (members r) (api_keys r) (key_hash_index r) (app_secrets r)
    (app_credentials r) (quotas r) (audit r) (revoked_jtis r) (refresh_tokens r)
    (issued_jtis r) (seq_audit r) (usage r) (idps r) (mfa r) (lease_log r) (departments r)
    (custom_roles r) (menu_matrix r) (known_menus r) (audit_tail_hash r) (plan_templates r)
    (idempotency r) (events r) v (invites r) (sso_tickets r) (join_requests r).
Definition set_invites (v : list (string * Invite)) (r : Store) : Store :=
  mkStore (tenants r) (users r) (members r) (api_keys r) (key_hash_index r) (app_secrets r)
    (app_credentials r) (quotas r) (audit r) (revoked_jtis r) (refresh_tokens r)
    (issued_jtis r) (seq_audit r) (usage r) (idps r) (mfa r) (lease_log r) (departments r)
    (custom_roles r) (menu_matrix r) (known_menus r) (audit_tail_hash r) (plan_templates r)
    (idempotency r) (events r) (event_seq r) v (sso_tickets r) (join_requests r).
Definition set_sso_tickets (v : list (string * SsoTicket)) (r : Store) : Store :=
  mkStore (tenants r) (users r) (members r) (api_keys r) (key_hash_index r) (app_secrets r)
    (app_credentials r) (quotas r) (audit r) (revoked_jtis r) (refresh_tokens r)
    (issued_jtis r) (seq_audit r) (usage r) (idps r) (mfa r) (lease_log r) (departments r)
    (custom_roles r) (menu_matrix r) (known_menus r) (audit_tail_hash r) (plan_templates r)
    (idempotency r) (events r) (event_seq r) (invites r) v (join_requests r).
Definition set_join_requests (v : list (string * JoinRequest)) (r : Store) : Store :=
  mkStore (tenants r) (users r) (members r) (api_keys r) (key_hash_index r) (app_secrets r)
    (app_credentials r) (quotas r) (audit r) (revoked_jtis r) (refresh_tokens r)
    (issued_jtis r) (seq_audit r) (usage r) (idps r) (mfa r) (lease_log r) (departments r)
    (custom_roles r) (menu_matrix r) (known_menus r) (audit_tail_hash r) (plan_templates r)
    (idempotency r) (events r) (event_seq r) (invites r) (sso_tickets r) v.
(** ** Seed tables and limits *)

Definition ISSUED_JTI_DEFAULT_TTL : Z := sec (8 * 3600).
Definition USAGE_CAP : Z := 100000.
Definition LEASE_LOG_CAP : Z := 50000.
Definition AUDIT_CAP : Z := 100000.

Record RoleSeed : Type := mkRoleSeed {
  rs_display_name : string;
  rs_permissions : list (string * list string)
}.
Definition ROLES_SEED : list (string * RoleSeed) :=
  [("tenant_admin",
    mkRoleSeed "Tenant Admin"
      [("tenants", ["read"; "write"]); ("users", ["read"; "write"]);
       ("quotas", ["read"; "write"]); ("audit", ["read"])]);
   ("operator",
    mkRoleSeed "Operator" [("models", ["read"; "infer"]); ("tasks", ["read"; "write"])]);
   ("member",
    mkRoleSeed "Member" [("models", ["infer"]); ("tasks", ["write"])]);
   ("viewer",
    mkRoleSeed "Viewer" [("models", ["read"]); ("tasks", ["read"])])].

Definition JOIN_POLICIES : list string := ["invite"; "proof"; "approval"; "open"].

Definition DEFAULT_QUOTA : Quota := mkQuota 60 100000 4 10240 [] [] 0.

Definition PLAN_TEMPLATES : list (string * Quota) :=
  [("free", mkQuota 10 20000 2 1024 [] [] 0);
   ("starter", mkQuota 30 50000 3 5120 [] [] 0);
   ("standard", DEFAULT_QUOTA);
   ("pro", mkQuota 200 1000000 16 51200 [] [] 1);
   ("enterprise", mkQuota 1000 10000000 64 204800 [] [] 2)].

Definition EVENT_STATUS_PENDING : string := "pending".
Definition EVENT_STATUS_DELIVERED : string := "delivered".
Definition EVENT_STATUS_DEAD : string := "dead".

Definition LEGACY_SALT : string := "fusion-identity".
Definition LOCK_THRESHOLD : Z := 5.
Definition LOCK_DURATION : Z := sec (15 * 60).

(** Every resource of the seed with a ["write"] action is a write class. *)
Definition seed_write_classes (seed : RoleSeed) : list string :=
  sort_by String.leb
    ((fun ra => ra.1 +:+ ":write") <$>
       filter (fun ra => "write" ∈ ra.2) (rs_permissions seed)).
Definition WRITE_CLASSES : list (string * list string) :=
  (fun rs => (rs.1, seed_write_classes rs.2)) <$> ROLES_SEED.

Definition BUILTIN_ROLE_MATRIX : list (string * list (string * list string)) :=
  [("operator",
    [("tenants", ["read"]); ("members", ["read"]);
     ("api_keys", ["read"; "write"; "delete"]); ("quotas", ["read"]);
     ("audit", ["read"]); ("usage", ["read"]);
     ("departments", ["read"; "write"; "delete"])]);
   ("member",
    [("tenants", ["read"]); ("usage", ["read"]); ("departments", ["read"; "write"])]);
   ("viewer",
    [("tenants", ["read"]); ("quotas", ["read"]); ("usage", ["read"]);
     ("departments", ["read"])])].

Definition DEFAULT_ROLE_MENUS : list (string * list string) :=
  [("tenant_admin",
    ["dashboard"; "tenants"; "users"; "roles"; "quotas"; "usage"; "audit"; "settings"]);
   ("operator", ["dashboard"; "models"; "tasks"]);
   ("member", ["dashboard"; "tasks"]);
   ("viewer", ["dashboard"; "models"])].

Definition MAX_CUSTOM_ROLES_PER_TENANT : Z := 64.
Definition MAX_WRITE_CLASSES_PER_ROLE : Z := 64.
Definition MAX_MENUS_PER_TENANT : Z := 256.
Definition MAX_MENUS_PER_ROLE : Z := 64.

(** [_ID_PATTERN = ^[a-z0-9][a-z0-9_.:-]{0,63}$] *)
Definition id_head (c : Ascii.ascii) : bool := is_lower c || is_digit c.
Definition id_tail (c : Ascii.ascii) : bool :=
  id_head c || bool_decide (c ∈ chars "_.:-").
Definition valid_id (value : string) : bool := re_ident id_head id_tail 63 value.

Definition zlen {A} (l : list A) : Z := Z.of_nat (length l).

Definition valid_write_classes (write_classes : list string) : bool :=
  if decide (zlen write_classes > MAX_WRITE_CLASSES_PER_ROLE) then false
  else forallb valid_id write_classes.

(** Append to a capped log: [l.append(x); if len(l) > cap: l = l[-cap:]]. *)
Definition append_capped {A} (cap : Z) (l : list A) (x : A) : list A :=
  let l' := l ++ [x] in
  if decide (zlen l' > cap) then drop (Z.to_nat (zlen l' - cap)) l' else l'.

(** [InMemoryStore.__init__] *)
Definition init_store : Store :=
  mkStore [] [] [] [] [] [] [] [] [] [] [] [] 0 [] [] [] [] [] [] [] [] []
    PLAN_TEMPLATES [] [] 0 [] [] [].

Lemma append_capped_len {A} cap (l : list A) x :
  0 <= cap -> zlen l <= cap -> zlen (append_capped cap l x) <= cap.
Proof.
  unfold append_capped, zlen. intros. rewrite length_app. simpl.
  case_decide; rewrite ?length_drop, ?length_app; simpl; lia.
Qed.

Lemma append_capped_small {A} cap (l : list A) x :
  zlen l < cap -> append_capped cap l x = l ++ [x].
Proof.
  unfold append_capped, zlen. intros. rewrite length_app. simpl.
  rewrite decide_False by lia. done.
Qed.

(** A capped append keeps a suffix of the log; nothing is dropped below the
    cap, one entry at the cap. *)
Lemma append_capped_suffix {A} cap (l : list A) x :
  0 < cap -> exists l0 l1, l = l0 ++ l1 /\ append_capped cap l x = l1 ++ [x] /\
    (zlen l < cap -> l0 = []) /\ (zlen l = cap -> length l0 = 1%nat).
Proof.
  intros Hcap. unfold append_capped, zlen. rewrite length_app. simpl. case_decide.
  - exists (take (Z.to_nat (Z.of_nat (length l + 1) - cap)) l),
      (drop (Z.to_nat (Z.of_nat (length l + 1) - cap)) l).
    rewrite take_drop, drop_app_le, length_take by lia. split_and!; auto; lia.
  - exists [], l. split_and!; auto; lia.
Qed.

(** The seed tables stay folded in proofs. *)
#[global] Arguments ROLES_SEED : simpl never.
#[global] Arguments DEFAULT_ROLE_MENUS : simpl never.
#[global] Arguments WRITE_CLASSES : simpl never.
#[global] Arguments JOIN_POLICIES : simpl never.
#[global] Arguments PLAN_TEMPLATES : simpl never.
