(* ===== verification/Prims.v ===== *)
(** * Cryptographic primitives the program calls

    [hashlib], [argon2-cffi] and their behaviour are not code of the
    repository: each is a class of operations, and the documented facts the
    program relies on are separate classes of laws. Theorems that need a law
    name it; the others hold for every implementation. *)
From S2P Require Import Prelude PyText.

(** [hashlib.sha256(x.encode()).hexdigest()] and
    [hashlib.scrypt(pw, salt=..., n=16384, r=8, p=1, dklen=32).hex()]. *)
Class HashLib := {
  sha256 : string -> string;
  scrypt_hex : string -> string -> string
}.

(** A hex digest of 256 bits has 64 digits. *)
Class HashLaws `{HashLib} := {
  sha256_length : forall x, String.length (sha256 x) = 64%nat
}.

(** Two different texts of the list with the same digest. (Collisions exist
    somewhere, since digests are finite; a theorem that excludes one names the
    texts among which it would have to be.) *)
Definition collision_among `{HashLib} (texts : list string) : Prop :=
  exists x y, x ∈ texts /\ y ∈ texts /\ x <> y /\ sha256 x = sha256 y.
Lemma collision_among_mono `{HashLib} l l' : l ⊆ l' -> collision_among l -> collision_among l'.
Proof. intros Hl (x & y & ? & ? & ?). exists x, y. set_solver. Qed.

(** [argon2.PasswordHasher] at the cost parameters of store.py:
    [hash] with the hex salt, [verify] ([false] stands for
    [VerifyMismatchError] and [InvalidHashError]), [check_needs_rehash]. *)
Class Argon2Lib := {
  argon2_hash : string -> string -> string;
  argon2_verify : string -> string -> bool;
  argon2_needs_rehash : string -> bool
}.

(** A hash verifies against the password it was made of, was made with the
    current parameters, and is an encoded, non-empty text. *)
Class Argon2Laws `{Argon2Lib} := {
  argon2_verify_hash : forall pw salt, argon2_verify (argon2_hash pw salt) pw = true;
  argon2_fresh : forall pw salt, argon2_needs_rehash (argon2_hash pw salt) = false;
  argon2_nonempty : forall pw salt, argon2_hash pw salt <> ""
}.

(** [hmac.compare_digest] on [str]. *)
Definition compare_digest (a b : string) : bool := bool_decide (a = b).

(** ** Stand-ins, to run the definitions and to show the laws can hold *)
Definition toy_digest (x : string) : string :=
  of_chars (take 64 (chars x ++ replicate 64 "0"%char)).
Definition toy_hashlib : HashLib := {|
  sha256 := toy_digest;
  scrypt_hex pw salt := toy_digest (pw +:+ salt)
|}.
Lemma toy_hash_laws : @HashLaws toy_hashlib.
Proof.
  constructor. intros x. simpl. unfold toy_digest.
  rewrite length_of_chars, length_take, length_app, length_replicate. lia.
Qed.
Definition toy_argon2 : Argon2Lib := {|
  argon2_hash pw salt := "$argon2id$" +:+ pw;
  argon2_verify h pw := bool_decide (h = "$argon2id$" +:+ pw);
  argon2_needs_rehash _ := false
|}.
Lemma toy_argon2_laws : @Argon2Laws toy_argon2.
Proof. constructor; intros; simpl; [by apply bool_decide_eq_true|done|done]. Qed.
