(* ===== verification/AuditLog.v ===== *)
(** * The hash-chained audit ledger (store.py: [_chain_hash], [_audit_fields],
    [append_audit], [list_audit], [verify_audit_chain])

    Every tenant's records form a chain: the digest of a record covers the
    digest of the tenant's previous record. The file models the three
    operations, shows that appending keeps every chain verifiable while
    nothing is evicted, that a log which verifies and ends in the same digest
    has the same records unless SHA-256 collides, and that the cap on the
    log makes the verifier report a broken chain. *)
From S2P Require Import Prelude PyText StoreState Prims.

Section audit.
Context `{HashLib}.

(** [json.dumps(fields, default=str, sort_keys=True, separators=(",", ":"))] *)
Definition audit_fields_json (f : AuditFields) : json :=
  JObj [("tenant_id", JStr (af_tenant_id f)); ("user_id", jopt (af_user_id f));
        ("jti", jopt (af_jti f)); ("role", jopt (af_role f));
        ("action", JStr (af_action f)); ("resource", jopt (af_resource f));
        ("detail", af_detail f); ("ts", JFloat (af_ts f))].
Definition audit_text (f : AuditFields) : string := json_dumps (audit_fields_json f).

Definition chain_hash (prev_hash : string) (f : AuditFields) : string :=
  sha256 (prev_hash +:+ audit_text f).

Definition append_audit (now : Z) (tenant_id : string) (user_id jti role : option string)
    (action : string) (resource : option string) (detail : json) : M Store AuditRecord :=
  modify (fun s => set_seq_audit (seq_audit s + 1) s) ;;;
  let! seq := gets seq_audit in
  let! tail := gets (fun s => dget tenant_id (audit_tail_hash s)) in
  let prev_hash := default "genesis" tail in
  let fields := mkAuditFields tenant_id user_id jti role action resource detail now in
  let chain := chain_hash prev_hash fields in
  let record := mkAuditRecord seq seq fields chain prev_hash in
  modify (fun s => set_audit (append_capped AUDIT_CAP (audit s) record) s) ;;;
  modify (fun s => set_audit_tail_hash (dset tenant_id chain (audit_tail_hash s)) s) ;;;
  ret record.

Definition a_tenant (a : AuditRecord) : string := af_tenant_id (a_fields a).

(** The records of a tenant, in log order. *)
Definition tenant_rows (tenant_id : string) (log : list AuditRecord) : list AuditRecord :=
  filter (fun a => a_tenant a = tenant_id) log.

(** The four [continue]s of [list_audit]. *)
Definition audit_selected (tenant_id : string) (since until : option Z) (cursor : option Z)
    (a : AuditRecord) : Prop :=
  a_tenant a = tenant_id /\
  match since with Some t => t <= af_ts (a_fields a) | None => True end /\
  match until with Some t => af_ts (a_fields a) <= t | None => True end /\
  match cursor with Some c => a_id a < c | None => True end.
#[export] Instance audit_selected_dec tid since until cursor a :
  Decision (audit_selected tid since until cursor a).
Proof. unfold audit_selected. destruct since, until, cursor; apply _. Defined.

Definition list_audit (tenant_id : string) (limit : Z) (since until cursor : option Z)
    (s : Store) : list AuditRecord :=
  let rows := filter (audit_selected tenant_id since until cursor) (audit s) in
  py_take limit (sort_by (fun a b => a_id b <=? a_id a) rows).

(** The loop of [verify_audit_chain]: [Some i] is [broken_at = i]. *)
Fixpoint verify_rows (prev : string) (rows : list AuditRecord) : option Z :=
  match rows with
  | [] => None
  | a :: rows' =>
      let expected := chain_hash prev (a_fields a) in
      if compare_digest expected (a_chain_hash a)
      then verify_rows (a_chain_hash a) rows'
      else Some (a_id a)
  end.
(** [None] is [{"valid": True}], [Some i] is [{"valid": False, "broken_at": i}]. *)
Definition verify_audit_chain (tenant_id : string) (s : Store) : option Z :=
  verify_rows "genesis"
    (sort_by (fun a b => a_id a <=? a_id b) (tenant_rows tenant_id (audit s))).

(** ** The ledger invariant *)

(** [rows] continues a chain whose last digest was [prev]. *)
Fixpoint linked (prev : string) (rows : list AuditRecord) : Prop :=
  match rows with
  | [] => True
  | a :: rows' =>
      a_prev_hash a = prev /\ a_chain_hash a = chain_hash prev (a_fields a) /\
      linked (a_chain_hash a) rows'
  end.
Definition chain_tail (prev : string) (rows : list AuditRecord) : string :=
  match last rows with Some a => a_chain_hash a | None => prev end.

Definition ids_from (lo : Z) (log : list AuditRecord) : Prop :=
  forall i a, log !! i = Some a -> a_id a = lo + Z.of_nat i.

(** The log holds the last records, numbered consecutively up to the
    sequence counter; per tenant it continues a chain from [start tid], and
    the tail index names the chain's last digest. *)
Record audit_inv (start : string -> string) (s : Store) : Prop := {
  inv_ids : ids_from (seq_audit s - zlen (audit s) + 1) (audit s);
  inv_cap : zlen (audit s) <= AUDIT_CAP;
  inv_linked : forall tid, linked (start tid) (tenant_rows tid (audit s));
  inv_tail : forall tid,
    default "genesis" (dget tid (audit_tail_hash s)) =
    chain_tail (start tid) (tenant_rows tid (audit s))
}.

Lemma linked_app prev l1 l2 :
  linked prev (l1 ++ l2) <-> linked prev l1 /\ linked (chain_tail prev l1) l2.
Proof.
  revert prev. induction l1 as [|a l1 IH]; intros prev; simpl.
  - unfold chain_tail. simpl. tauto.
  - rewrite IH. unfold chain_tail. rewrite last_cons.
    destruct (last l1); tauto.
Qed.

Lemma chain_tail_app prev l1 l2 :
  chain_tail prev (l1 ++ l2) = chain_tail (chain_tail prev l1) l2.
Proof. unfold chain_tail. rewrite last_app. by destruct (last l2). Qed.

Lemma linked_verifies prev rows : linked prev rows -> verify_rows prev rows = None.
Proof.
  revert prev. induction rows as [|a rows IH]; intros prev; simpl; [done|].
  intros (_ & Hc & Hl). unfold compare_digest. rewrite bool_decide_true by done. auto.
Qed.

Lemma tenant_rows_app tid l1 l2 :
  tenant_rows tid (l1 ++ l2) = tenant_rows tid l1 ++ tenant_rows tid l2.
Proof. apply filter_app. Qed.

Lemma ids_from_drop lo n log : ids_from lo log -> ids_from (lo + Z.of_nat n) (drop n log).
Proof. intros Hl i a. rewrite lookup_drop. intros Ha%Hl. lia. Qed.

Lemma ids_from_snoc lo log a :
  ids_from lo log -> a_id a = lo + zlen log -> ids_from lo (log ++ [a]).
Proof.
  intros Hl Ha i b. unfold zlen in *. destruct (decide (i < length log)%nat).
  - rewrite lookup_app_l by done. apply Hl.
  - rewrite lookup_app_r by lia. intros [Hi <-]%list_lookup_singleton_Some. lia.
Qed.

(** Consecutive ids survive the selection of a tenant's rows in order, so
    the verifier's sort is the identity. *)
Lemma ids_from_sorted_filter (P : AuditRecord -> Prop) `{forall a, Decision (P a)} lo log :
  ids_from lo log ->
  forall i a b, filter P log !! i = Some a -> filter P log !! S i = Some b -> a_id a < a_id b.
Proof.
  revert lo. induction log as [|c log IH]; intros lo Hids i a b; [done|].
  assert (ids_from (lo + 1) log) as Hids'.
  { intros j x Hx. specialize (Hids (S j) x Hx). lia. }
  rewrite filter_cons. case_decide; [|by eapply IH].
  destruct i as [|i]; simpl; [|by eapply IH].
  intros [= <-] Hb. apply list_elem_of_lookup_2 in Hb.
  apply list_elem_of_filter in Hb as [_ Hb]. apply list_elem_of_lookup in Hb as [j Hj].
  specialize (Hids 0%nat c eq_refl). specialize (Hids' j b Hj). lia.
Qed.

Lemma ids_from_strict_filter (P : AuditRecord -> Prop) `{forall a, Decision (P a)} lo log i j a b :
  ids_from lo log -> (i < j)%nat ->
  filter P log !! i = Some a -> filter P log !! j = Some b -> a_id a < a_id b.
Proof.
  intros Hids Hij Ha. revert b. induction Hij as [|j Hij IH]; intros b Hb.
  - eapply ids_from_sorted_filter; eauto.
  - destruct (filter P log !! j) as [c|] eqn:Hc.
    + specialize (IH c eq_refl). pose proof (ids_from_sorted_filter P lo log Hids j c b Hc Hb). lia.
    + apply lookup_ge_None in Hc. apply lookup_lt_Some in Hb. lia.
Qed.

Lemma sort_tenant_rows tid lo log :
  ids_from lo log ->
  sort_by (fun a b => a_id a <=? a_id b) (tenant_rows tid log) = tenant_rows tid log.
Proof.
  intros Hids. apply sort_by_sorted. intros i a b Ha Hb.
  apply Z.leb_le. apply Z.lt_le_incl. eapply ids_from_sorted_filter; eauto.
Qed.

(** What appending does to the log, as one equation. *)
Definition appended (now : Z) tid uid jti role action resource detail (s : Store) :=
  let fields := mkAuditFields tid uid jti role action resource detail now in
  let prev := default "genesis" (dget tid (audit_tail_hash s)) in
  mkAuditRecord (seq_audit s + 1) (seq_audit s + 1) fields (chain_hash prev fields) prev.

Lemma append_audit_run now tid uid jti role action resource detail s :
  let a := appended now tid uid jti role action resource detail s in
  append_audit now tid uid jti role action resource detail s =
  (Ok a, set_audit_tail_hash (dset tid (a_chain_hash a) (audit_tail_hash s))
           (set_audit (append_capped AUDIT_CAP (audit s) a)
              (set_seq_audit (seq_audit s + 1) s))).
Proof. done. Qed.

Lemma append_audit_inv start now tid uid jti role action resource detail s :
  audit_inv start s ->
  exists l0 l1, audit s = l0 ++ l1 /\
    (zlen (audit s) < AUDIT_CAP -> l0 = []) /\
    (zlen (audit s) = AUDIT_CAP -> length l0 = 1%nat) /\
    audit_inv (fun t => chain_tail (start t) (tenant_rows t l0))
      (append_audit now tid uid jti role action resource detail s).2.
Proof.
  intros [Hids Hcap Hlink Htail]. rewrite append_audit_run. simpl.
  set (a := appended now tid uid jti role action resource detail s).
  destruct (append_capped_suffix AUDIT_CAP (audit s) a) as (l0 & l1 & Hs & Happ & Hs0 & Hs1);
    [done|]. exists l0, l1. split_and!; [done..|].
  assert (forall t, tenant_rows t (l1 ++ [a]) =
            tenant_rows t l1 ++ if decide (t = tid) then [a] else []) as Hrows.
  { intros t. rewrite tenant_rows_app. unfold tenant_rows at 2, a_tenant.
    rewrite filter_cons, filter_nil. simpl. repeat case_decide; naive_solver. }
  constructor; simpl.
  - rewrite Happ. unfold zlen. rewrite length_app. simpl. apply ids_from_snoc.
    + apply (ids_from_drop _ (length l0)) in Hids. rewrite Hs in Hids.
      rewrite drop_app_length in Hids. unfold zlen in Hids. rewrite length_app in Hids.
      intros i b Hb%Hids. lia.
    + simpl. unfold zlen. lia.
  - by apply append_capped_len.
  - intros t. rewrite Happ, Hrows. specialize (Hlink t). specialize (Htail t).
    rewrite Hs, tenant_rows_app in Hlink, Htail.
    apply linked_app in Hlink as [_ Hlink]. rewrite chain_tail_app in Htail.
    case_decide; subst; [|by rewrite app_nil_r].
    apply linked_app. split; [done|]. simpl. by rewrite Htail.
  - intros t. rewrite Happ, Hrows. specialize (Htail t).
    rewrite Hs, tenant_rows_app, chain_tail_app in Htail.
    rewrite dget_dset, chain_tail_app. by destruct (decide (t = tid)) as [->|].
Qed.

Lemma audit_inv_init : audit_inv (fun _ => "genesis") init_store.
Proof. constructor; simpl; try done. Qed.

(** A ledger whose chain of [tid] starts at ["genesis"] verifies. *)
Lemma audit_inv_verifies start s tid :
  audit_inv start s -> start tid = "genesis" -> verify_audit_chain tid s = None.
Proof.
  intros [Hids _ Hlink _] Hst. unfold verify_audit_chain.
  erewrite sort_tenant_rows by done. apply linked_verifies. by rewrite <- Hst.
Qed.

(** A ledger whose first remaining record of [tid] continues an evicted one
    does not verify, short of a collision. *)
Lemma audit_inv_broken start s tid b rest :
  audit_inv start s -> tenant_rows tid (audit s) = b :: rest -> start tid <> "genesis" ->
  verify_audit_chain tid s = Some (a_id b) \/
  collision_among ["genesis" +:+ audit_text (a_fields b); start tid +:+ audit_text (a_fields b)].
Proof.
  intros [Hids _ Hlink _] Hrows Hst. unfold verify_audit_chain.
  erewrite sort_tenant_rows by done. specialize (Hlink tid). rewrite Hrows in *.
  simpl in *. destruct Hlink as (_ & Hc & _). unfold compare_digest.
  case_bool_decide as Heq; [right|by left]. rewrite Hc in Heq. unfold chain_hash in Heq.
  eexists _, _; split_and!; [left|right; left| |exact Heq]. intros E%sapp_inj_r. congruence.
Qed.

(** The listing is the selected part of the log, newest first. *)
Lemma list_audit_spec start tid limit since until cursor s :
  audit_inv start s ->
  list_audit tid limit since until cursor s =
  py_take limit (reverse (filter (audit_selected tid since until cursor) (audit s))).
Proof.
  intros [Hids _ _ _]. unfold list_audit. f_equal. apply sort_by_reverse.
  intros i j a b Hij Ha Hb. apply Z.leb_gt. eapply ids_from_strict_filter; eauto.
Qed.

(** ** Tamper evidence *)

Lemma verify_rows_app prev l1 l2 :
  verify_rows prev (l1 ++ l2) = None ->
  verify_rows prev l1 = None /\ verify_rows (chain_tail prev l1) l2 = None.
Proof.
  revert prev. induction l1 as [|a l1 IH]; intros prev; simpl; [done|].
  destruct (compare_digest _ _); [|done]. intros [H1 H2]%IH. split; [done|].
  unfold chain_tail in *. rewrite last_cons. by destruct (last l1).
Qed.

Lemma verify_rows_snoc prev l a :
  verify_rows prev (l ++ [a]) = None ->
  verify_rows prev l = None /\ a_chain_hash a = chain_hash (chain_tail prev l) (a_fields a).
Proof.
  intros [H1 H2]%verify_rows_app. split; [done|]. simpl in H2. unfold compare_digest in H2.
  case_bool_decide; done.
Qed.

Lemma chain_tail_snoc prev l a : chain_tail prev (l ++ [a]) = a_chain_hash a.
Proof. unfold chain_tail. by rewrite last_snoc. Qed.

(** The texts the verifier hashes. *)
Fixpoint hashed_texts (prev : string) (rows : list AuditRecord) : list string :=
  match rows with
  | [] => []
  | a :: rows' => (prev +:+ audit_text (a_fields a)) :: hashed_texts (a_chain_hash a) rows'
  end.
Lemma hashed_texts_snoc prev l a :
  hashed_texts prev (l ++ [a]) = hashed_texts prev l ++ [chain_tail prev l +:+ audit_text (a_fields a)].
Proof.
  revert prev. induction l as [|b l IH]; intros prev; simpl; [done|]. rewrite IH.
  unfold chain_tail. rewrite last_cons. by destruct (last l).
Qed.

(** Two verified chains of one length that end in the same digest carry the
    same record texts, or exhibit a collision among the texts hashed. *)
Lemma verified_chains_agree `{!HashLaws} l1 l2 :
  verify_rows "genesis" l1 = None -> verify_rows "genesis" l2 = None ->
  length l1 = length l2 -> chain_tail "genesis" l1 = chain_tail "genesis" l2 ->
  (audit_text ∘ a_fields) <$> l1 = (audit_text ∘ a_fields) <$> l2 \/
  collision_among (hashed_texts "genesis" l1 ++ hashed_texts "genesis" l2).
Proof.
  revert l2. induction l1 as [|a l1 IH] using rev_ind; intros l2 H1 H2 Hlen Ht.
  { destruct l2; [by left|done]. }
  destruct l2 as [|b l2 _] using rev_ind; [rewrite length_app in Hlen; simpl in Hlen; lia|].
  rewrite !length_app in Hlen. simpl in Hlen.
  apply verify_rows_snoc in H1 as [H1 Ha]. apply verify_rows_snoc in H2 as [H2 Hb].
  rewrite !chain_tail_snoc, Ha, Hb in Ht. unfold chain_hash in Ht.
  set (x := chain_tail "genesis" l1 +:+ audit_text (a_fields a)) in *.
  set (y := chain_tail "genesis" l2 +:+ audit_text (a_fields b)) in *.
  rewrite !hashed_texts_snoc. fold x y.
  destruct (decide (x = y)) as [Hxy|Hxy]; [|right; exists x, y; set_solver].
  assert (length l1 = length l2) as Hl by lia.
  apply sapp_inj_len in Hxy as [Hp Htxt].
  - destruct (IH l2 H1 H2 Hl Hp) as [IHt|Hc]; [left|right].
    { rewrite !fmap_app, IHt. simpl. by rewrite Htxt. }
    eapply collision_among_mono; [|exact Hc]. set_solver.
  - destruct l1 as [|a1 l1 _] using rev_ind; destruct l2 as [|b1 l2 _] using rev_ind;
      rewrite ?length_app in Hl; simpl in Hl; try lia; try done.
    apply verify_rows_snoc in H1 as [_ Ha1]. apply verify_rows_snoc in H2 as [_ Hb1].
    rewrite !chain_tail_snoc, Ha1, Hb1. unfold chain_hash. by rewrite !sha256_length.
Qed.
End audit.
