(* ===== verification/Tenants.v ===== *)
(** * Tenants, quotas, plan templates and idempotency keys (store.py)

    The tenant registry of [InMemoryStore]: creation with the default quota,
    partial updates, soft deletion with its cascade over members, roles,
    menus, api keys and refresh tokens, and the provisioning tables. *)
From S2P Require Import Prelude PyText StoreState.

(** ** Tenants *)

Definition is_empty_tenants (s : Store) : bool := bool_decide (tenants s = []).

Definition create_tenant (now : Z) (tenant_id display_name plan join_policy : string)
    : M Store Tenant :=
  let! ts := gets tenants in
  if dmem tenant_id ts
  then raise (StoreConflict ("tenant " +:+ tenant_id +:+ " exists"))
  else if decide (join_policy ∉ JOIN_POLICIES)
  then raise (StoreConflict ("unknown join_policy " +:+ py_repr join_policy))
  else
    let t := mkTenant tenant_id display_name "active" plan join_policy now None None in
    modify (fun s => set_tenants (dset tenant_id t (tenants s)) s) ;;;
    modify (fun s => set_quotas
      (dset tenant_id (mkTenantQuota tenant_id now DEFAULT_QUOTA) (quotas s)) s) ;;;
    ret t.

Definition set_join_policy (tenant_id join_policy : string) : M Store (option Tenant) :=
  if decide (join_policy ∉ JOIN_POLICIES)
  then raise (StoreConflict ("unknown join_policy " +:+ py_repr join_policy))
  else
    let! t := gets (fun s => dget tenant_id (tenants s)) in
    match t with
    | None => ret None
    | Some t =>
        let t' := set_t_join_policy join_policy t in
        modify (fun s => set_tenants (dset tenant_id t' (tenants s)) s) ;;;
        ret (Some t')
    end.

Definition get_tenant (tenant_id : string) (s : Store) : option Tenant :=
  dget tenant_id (tenants s).

Definition get_tenant_status (tenant_id : string) (s : Store) : option string :=
  t_status <$> dget tenant_id (tenants s).

Definition list_tenants (s : Store) : list Tenant :=
  filter (fun t => t_status t <> "deleted") (dvalues (tenants s)).

Definition list_tenants_for (tenant_id : string) (s : Store) : list Tenant :=
  match dget tenant_id (tenants s) with
  | None => []
  | Some t => if decide (t_status t = "deleted") then [] else [t]
  end.

(** The [**fields] of [update_tenant]; [None] is absent or null. *)
Record TenantFields : Type := mkTenantFields {
  tf_display_name : option string;
  tf_status : option string;
  tf_plan : option string;
  tf_join_policy : option string
}.

Definition apply_tenant_fields (f : TenantFields) (t : Tenant) : Tenant :=
  mkTenant (t_tenant_id t)
    (default (t_display_name t) (tf_display_name f))
    (default (t_status t) (tf_status f))
    (default (t_plan t) (tf_plan f))
    (default (t_join_policy t) (tf_join_policy f))
    (t_created_at t) (t_disabled_at t) (t_deleted_at t).

(** The two trailing [if]s of [update_tenant] on [disabled_at]. *)
Definition stamp_disabled (now : Z) (t : Tenant) : Tenant :=
  let t := if decide (t_status t = "disabled" /\ time_true (t_disabled_at t) = false)
           then set_t_disabled_at (Some now) t else t in
  if decide (t_status t = "active") then set_t_disabled_at None t else t.

Definition update_tenant (now : Z) (tenant_id : string) (fields : TenantFields)
    : M Store (option Tenant) :=
  let! t := gets (fun s => dget tenant_id (tenants s)) in
  match t with
  | None => ret None
  | Some t =>
      let bad := match tf_join_policy fields with
                 | Some jp => if decide (jp ∉ JOIN_POLICIES) then Some jp else None
                 | None => None
                 end in
      match bad with
      | Some jp => raise (StoreConflict ("unknown join_policy " +:+ py_repr jp))
      | None =>
          let t' := stamp_disabled now (apply_tenant_fields fields t) in
          modify (fun s => set_tenants (dset tenant_id t' (tenants s)) s) ;;;
          ret (Some t')
      end
  end.

(** The api keys of a tenant the deletion loop revokes. *)
Definition live_key_of (tenant_id : string) (k : ApiKey) : Prop :=
  k_tenant_id k = tenant_id /\ time_true (k_revoked_at k) = false.
#[export] Instance live_key_of_dec tid k : Decision (live_key_of tid k).
Proof. apply _. Defined.

Definition delete_tenant (now : Z) (tenant_id : string) : M Store bool :=
  let! t := gets (fun s => dget tenant_id (tenants s)) in
  match t with
  | None => ret false
  | Some t =>
      let t' := set_t_deleted_at (Some now) (set_t_status "deleted" t) in
      modify (fun s => set_tenants (dset tenant_id t' (tenants s)) s) ;;;
      modify (fun s => set_members (filter (fun kv => kv.1.1 <> tenant_id) (members s)) s) ;;;
      modify (fun s => set_custom_roles
        (filter (fun kv => kv.1.1 <> tenant_id) (custom_roles s)) s) ;;;
      modify (fun s => set_menu_matrix
        (filter (fun kv => kv.1.1 <> tenant_id) (menu_matrix s)) s) ;;;
      modify (fun s => set_known_menus (dpop tenant_id (known_menus s)) s) ;;;
      modify (fun s =>
        let doomed := filter (live_key_of tenant_id) (dvalues (api_keys s)) in
        set_api_keys (dmap (fun _ k =>
            if decide (live_key_of tenant_id k) then set_k_revoked_at (Some now) k else k)
          (api_keys s))
        (set_key_hash_index
          (foldl (fun ix k => dpop (k_key_hash k) ix) (key_hash_index s) doomed) s)) ;;;
      modify (fun s => set_refresh_tokens (dmap (fun _ r =>
          if decide (rt_tenant_id r = tenant_id /\ rt_status r <> "revoked")
          then set_rt_status "revoked" r else r) (refresh_tokens s)) s) ;;;
      ret true
  end.

(** ** Quotas and plan templates *)

Definition get_quota (tenant_id : string) (s : Store) : option TenantQuota :=
  dget tenant_id (quotas s).

(** The [for k in (...): if k in fields and fields[k] is not None] loop. *)
Definition merge_quota (q : Quota) (f : QuotaFields) : Quota :=
  mkQuota (default (q_rpm q) (qf_rpm f)) (default (q_tpm q) (qf_tpm f))
    (default (q_concurrent q) (qf_concurrent f)) (default (q_storage_mb q) (qf_storage_mb f))
    (default (q_allowed_models q) (qf_allowed_models f))
    (default (q_allowed_modules q) (qf_allowed_modules f))
    (default (q_default_priority q) (qf_default_priority f)).

Definition put_quota (now : Z) (tenant_id : string) (fields : QuotaFields)
    : M Store (option TenantQuota) :=
  let! q := gets (fun s => dget tenant_id (quotas s)) in
  match q with
  | None => ret None
  | Some q =>
      let q' := mkTenantQuota (tq_tenant_id q) now (merge_quota (tq_quota q) fields) in
      modify (fun s => set_quotas (dset tenant_id q' (quotas s)) s) ;;;
      ret (Some q')
  end.

(** Rows of [{"plan": plan, "quota": q, "updated_at": None}]. *)
Definition list_plan_templates (s : Store) : list (string * Quota) := plan_templates s.

Definition get_plan_template (plan : string) (s : Store) : option Quota :=
  dget plan (plan_templates s).

Definition put_plan_template (plan : string) (quota : QuotaFields) : M Store Quota :=
  if negb (valid_id plan)
  then raise (StoreConflict ("invalid plan id " +:+ py_repr plan))
  else
    let! old := gets (fun s => dget plan (plan_templates s)) in
    let merged := merge_quota (default DEFAULT_QUOTA old) quota in
    modify (fun s => set_plan_templates (dset plan merged (plan_templates s)) s) ;;;
    ret merged.

Definition get_idempotency (idem_key : string) (s : Store) : option Idempotency :=
  dget idem_key (idempotency s).

Definition put_idempotency (now : Z) (idem_key endpoint : string) (response : json)
    : M Store unit :=
  modify (fun s => set_idempotency
    (dset idem_key (mkIdempotency idem_key endpoint response now) (idempotency s)) s).
