(* ===== verification/Rbac.v ===== *)
(** * Roles, menus and membership (store.py)

    Built-in and per-tenant custom roles, the role/menu matrix, and the
    membership table whose rows carry a role. *)
From S2P Require Import Prelude PyText StoreState.

(** ** Role resolution *)

Definition is_valid_role (tenant_id role : string) (s : Store) : bool :=
  if dmem role ROLES_SEED then true else dmem (tenant_id, role) (custom_roles s).

Definition get_role_menus (tenant_id role_id : string) (s : Store) : list string :=
  match dget (tenant_id, role_id) (menu_matrix s) with
  | Some menus => menus
  | None => default [] (dget role_id DEFAULT_ROLE_MENUS)
  end.

(** The dict [get_role] returns; [rv_times] are the creation and update
    times a custom role carries. *)
Record RoleView : Type := mkRoleView {
  rv_role_id : string;
  rv_tenant_id : string;
  rv_display_name : string;
  rv_write_classes : list string;
  rv_times : option (Z * Z);
  rv_built_in : bool;
  rv_menus : list string
}.

Definition get_role (tenant_id role_id : string) (s : Store) : option RoleView :=
  match dget role_id ROLES_SEED with
  | Some seed =>
      Some (mkRoleView role_id tenant_id (rs_display_name seed)
              (default [] (dget role_id WRITE_CLASSES)) None true
              (get_role_menus tenant_id role_id s))
  | None =>
      match dget (tenant_id, role_id) (custom_roles s) with
      | None => None
      | Some rec =>
          Some (mkRoleView (cr_role_id rec) (cr_tenant_id rec) (cr_display_name rec)
                  (cr_write_classes rec) (Some (cr_created_at rec, cr_updated_at rec)) false
                  (get_role_menus tenant_id role_id s))
      end
  end.

(** The keys [(tid, rid)] of the custom roles of one tenant. *)
Definition tenant_custom (tenant_id : string) (s : Store) : list (string * string) :=
  filter (fun k => k.1 = tenant_id) (dkeys (custom_roles s)).

Definition list_roles (tenant_id : string) (s : Store) : list (option RoleView) :=
  ((fun r => get_role tenant_id r s) <$> dkeys ROLES_SEED) ++
  ((fun k => get_role tenant_id k.2 s) <$> tenant_custom tenant_id s).

(** ** Custom roles *)

Definition built_in_conflict (role_id : string) : exn :=
  StoreConflict ("role " +:+ role_id +:+ " is built-in and immutable").

Definition create_custom_role (now : Z) (tenant_id role_id display_name : string)
    (write_classes : list string) : M Store CustomRole :=
  if negb (valid_id role_id) then raise (StoreConflict ("invalid role id " +:+ py_repr role_id))
  else if dmem role_id ROLES_SEED then raise (built_in_conflict role_id)
  else
    let! custom := gets (tenant_custom tenant_id) in
    if decide (zlen custom >= MAX_CUSTOM_ROLES_PER_TENANT)
    then raise (StoreConflict ("custom role limit " +:+ pretty MAX_CUSTOM_ROLES_PER_TENANT
                                +:+ " reached"))
    else if negb (valid_write_classes write_classes)
    then raise (StoreConflict "invalid write_classes")
    else
      let! exists_ := gets (fun s => dmem (tenant_id, role_id) (custom_roles s)) in
      if (exists_ : bool) then raise (StoreConflict ("role " +:+ role_id +:+ " exists"))
      else
        let rec := mkCustomRole role_id tenant_id display_name write_classes now now in
        modify (fun s => set_custom_roles (dset (tenant_id, role_id) rec (custom_roles s)) s) ;;;
        ret rec.

(** The name is assigned before the write classes are validated, so a
    rejected update leaves the new name in place. *)
Definition update_custom_role (now : Z) (tenant_id role_id : string)
    (display_name : option string) (write_classes : option (list string))
    : M Store (option CustomRole) :=
  if dmem role_id ROLES_SEED then raise (built_in_conflict role_id)
  else
    let key := (tenant_id, role_id) in
    let store_rec r := modify (fun s => set_custom_roles (dset key r (custom_roles s)) s) in
    let! rec := gets (fun s => dget key (custom_roles s)) in
    match rec with
    | None => ret None
    | Some rec =>
        let rec1 := match display_name with
                    | Some n => set_cr_display_name n rec | None => rec end in
        store_rec rec1 ;;;
        match write_classes with
        | Some wc =>
            if negb (valid_write_classes wc) then raise (StoreConflict "invalid write_classes")
            else let rec2 := set_cr_updated_at now (set_cr_write_classes wc rec1) in
                 store_rec rec2 ;;; ret (Some rec2)
        | None => let rec2 := set_cr_updated_at now rec1 in store_rec rec2 ;;; ret (Some rec2)
        end
    end.

(** Members of a tenant holding a role ([count_members_by_role]; also the
    [in_use] sum of [delete_custom_role]). *)
Definition count_members_by_role (tenant_id role : string) (s : Store) : Z :=
  zlen (filter (fun kv => kv.1.1 = tenant_id /\ m_role kv.2 = role) (members s)).

Definition delete_custom_role (tenant_id role_id : string) : M Store bool :=
  if dmem role_id ROLES_SEED then raise (built_in_conflict role_id)
  else
    let key := (tenant_id, role_id) in
    let! present := gets (fun s => dmem key (custom_roles s)) in
    if negb present then ret false
    else
      let! in_use := gets (count_members_by_role tenant_id role_id) in
      if decide (in_use <> 0)
      then raise (StoreConflict ("role " +:+ role_id +:+ " still assigned to " +:+
                                  pretty in_use +:+ " member(s)"))
      else
        modify (fun s => set_custom_roles (dpop key (custom_roles s)) s) ;;;
        modify (fun s => set_menu_matrix (dpop key (menu_matrix s)) s) ;;;
        ret true.

(** ** Menus *)

(** [list(dict.fromkeys(l))], and the [if m not in current: current.append(m)]
    loop: keep first occurrences. *)
Definition add_new (acc : list string) (m : string) : list string :=
  if decide (m ∈ acc) then acc else acc ++ [m].
Definition dedup (l : list string) : list string := foldl add_new [] l.

Definition default_menus : list string := concat (dvalues DEFAULT_ROLE_MENUS).

Definition check_menu (known : list string) (m : string) : M Store unit :=
  if negb (valid_id m) then raise (StoreConflict ("invalid menu id " +:+ py_repr m))
  else if decide (m ∉ known)
  then raise (StoreConflict ("menu " +:+ m +:+ " not registered for tenant"))
  else ret tt.

Definition set_role_menus (tenant_id role_id : string) (menus : list string)
    : M Store (list string) :=
  let! valid := gets (is_valid_role tenant_id role_id) in
  if negb valid then raise (StoreConflict ("unknown role " +:+ role_id))
  else if decide (zlen menus > MAX_MENUS_PER_ROLE)
  then raise (StoreConflict ("menu limit " +:+ pretty MAX_MENUS_PER_ROLE +:+ " per role"))
  else
    let! registered := gets (fun s => default [] (dget tenant_id (known_menus s))) in
    for_each menus (check_menu (registered ++ default_menus)) ;;;
    modify (fun s => set_menu_matrix
      (dset (tenant_id, role_id) (dedup menus) (menu_matrix s)) s) ;;;
    ret (dedup menus).

Definition reset_role_menus (tenant_id role_id : string) : M Store (list string) :=
  let! valid := gets (is_valid_role tenant_id role_id) in
  if negb valid then raise (StoreConflict ("unknown role " +:+ role_id))
  else
    modify (fun s => set_menu_matrix (dpop (tenant_id, role_id) (menu_matrix s)) s) ;;;
    ret (default [] (dget role_id DEFAULT_ROLE_MENUS)).

(** The loop of [add_known_menus] over a copy of the registered list. *)
Fixpoint extend_menus (current menus : list string) : res (list string) :=
  match menus with
  | [] => Ok current
  | m :: rest =>
      if negb (valid_id m) then Raise (StoreConflict ("invalid menu id " +:+ py_repr m))
      else extend_menus (add_new current m) rest
  end.

Definition menu_limit_conflict : exn :=
  StoreConflict ("menu limit " +:+ pretty MAX_MENUS_PER_TENANT +:+ " per tenant").

Definition add_known_menus (tenant_id : string) (menus : list string) : M Store (list string) :=
  if decide (zlen menus > MAX_MENUS_PER_TENANT) then raise menu_limit_conflict
  else
    let! old := gets (fun s => default [] (dget tenant_id (known_menus s))) in
    let! current := lift (extend_menus old menus) in
    if decide (zlen current > MAX_MENUS_PER_TENANT) then raise menu_limit_conflict
    else
      modify (fun s => set_known_menus (dset tenant_id current (known_menus s)) s) ;;;
      ret current.

Definition list_known_menus (tenant_id : string) (s : Store) : list string :=
  default [] (dget tenant_id (known_menus s)).

(** ** Membership *)

Definition add_member (now : Z) (tenant_id user_id role : string) (added_by : option string)
    : M Store Member :=
  let! valid := gets (is_valid_role tenant_id role) in
  if negb valid then raise (StoreConflict ("unknown role " +:+ role))
  else
    let m := mkMember tenant_id user_id role added_by now now in
    modify (fun s => set_members (dset (tenant_id, user_id) m (members s)) s) ;;;
    ret m.

Definition get_member (tenant_id user_id : string) (s : Store) : option Member :=
  dget (tenant_id, user_id) (members s).

Definition get_member_role (tenant_id user_id : string) (s : Store) : option string :=
  m_role <$> dget (tenant_id, user_id) (members s).

(** Rows of [{"tenant_id", "user_id", "role"}], in membership order. *)
Definition memberships_for_user (user_id : string) (s : Store) : list (string * string) :=
  (fun kv => (kv.1.1, m_role kv.2)) <$> filter (fun kv => kv.1.2 = user_id) (members s).

Definition update_member_role (tenant_id user_id role : string) : M Store (option Member) :=
  let! valid := gets (is_valid_role tenant_id role) in
  if negb valid then raise (StoreConflict ("unknown role " +:+ role))
  else
    let! m := gets (fun s => dget (tenant_id, user_id) (members s)) in
    match m with
    | None => ret None
    | Some m =>
        let m' := set_m_role role m in
        modify (fun s => set_members (dset (tenant_id, user_id) m' (members s)) s) ;;;
        ret (Some m')
    end.

Definition list_members (tenant_id : string) (s : Store) : list Member :=
  dvalues (filter (fun kv => kv.1.1 = tenant_id) (members s)).

Definition remove_member (tenant_id user_id : string) : M Store bool :=
  let! m := gets (fun s => dget (tenant_id, user_id) (members s)) in
  modify (fun s => set_members (dpop (tenant_id, user_id) (members s)) s) ;;;
  ret (match m with Some _ => true | None => false end).

(** [get_member_summary]: the four counters and the per-role counts. A user
    status naming a counter of the dict bumps it; ["by_role"] names the
    nested dict, where the increment raises. *)
Record MemberSummary : Type := mkMemberSummary {
  ms_counts : list (string * Z);
  ms_by_role : list (string * Z)
}.
Definition bump (k : string) (d : list (string * Z)) : list (string * Z) :=
  dset k (default 0 (dget k d) + 1) d.
Definition summarise_member (s : Store) (acc : res MemberSummary)
    (kv : (string * string) * Member) : res MemberSummary :=
  match acc with
  | Raise e => Raise e
  | Ok ms =>
      let counts := bump "total" (ms_counts ms) in
      let status := match dget kv.1.2 (users s) with Some u => u_status u | None => "active" end in
      if decide (status = "by_role") then Raise (TypeError "unsupported operand type(s) for +=")
      else
        let counts := if dmem status counts then bump status counts else counts in
        Ok (mkMemberSummary counts (bump (m_role kv.2) (ms_by_role ms)))
  end.
Definition get_member_summary (tenant_id : string) (s : Store) : res MemberSummary :=
  foldl (summarise_member s)
    (Ok (mkMemberSummary [("total", 0); ("active", 0); ("disabled", 0); ("locked", 0)] []))
    (filter (fun kv => kv.1.1 = tenant_id) (members s)).
