(* ===== verification/Users.v ===== *)
(** * Users, passwords, single-use email and reset tokens, MFA factors (store.py) *)
From S2P Require Import Prelude PyText StoreState Prims.

Section users.
Context `{HashLib, Argon2Lib}.

(** ** Password hashing *)

(** [hash_password(password)], with the random salt it draws: the encoded
    hash, the salt and the algorithm tag. *)
Definition hash_password (password salt : string) : string * string * string :=
  (argon2_hash password salt, salt, "argon2id").

Definition scrypt_hash (password salt : string) : string := scrypt_hex password salt.

(** [(ok, needs_rehash)] *)
Definition verify_password (password password_hash_v password_hash salt algo : string)
    : bool * bool :=
  if decide (algo = "argon2id" /\ password_hash_v <> "") then
    if argon2_verify password_hash_v password
    then (true, argon2_needs_rehash password_hash_v)
    else (false, false)
  else if decide (algo = "scrypt" \/ (algo = "legacy" /\ password_hash <> "")) then
    let candidate := scrypt_hash password (if str_true salt then salt else LEGACY_SALT) in
    let ok := compare_digest candidate password_hash in (ok, ok)
  else if str_true password_hash then
    let candidate := scrypt_hash password LEGACY_SALT in
    let ok := compare_digest candidate password_hash in (ok, ok)
  else (false, false).

(** ** Users *)

Definition create_user (now : Z) (salt : string) (user_id username password : string)
    (email : option string) (must_change_password email_verified : bool)
    (display_name : option string) : M Store User :=
  let! us := gets users in
  if dmem user_id us then raise (StoreConflict ("user " +:+ user_id +:+ " exists"))
  else
    let '(pw_hash, salt, algo) := hash_password password salt in
    let u := mkUser user_id username email display_name "" pw_hash salt algo "active" 0 None
               must_change_password None email_verified None None None None now in
    modify (fun s => set_users (dset user_id u (users s)) s) ;;;
    ret u.

Definition get_user_by_username (username : string) (s : Store) : option User :=
  snd <$> dfind (fun u => bool_decide (u_username u = username)) (users s).

Definition get_user_by_email (email : string) (s : Store) : option User :=
  snd <$> dfind (fun u => match u_email u with
                          | Some e => str_true e && bool_decide (lower e = lower email)
                          | None => false
                          end) (users s).

Definition get_user (user_id : string) (s : Store) : option User := dget user_id (users s).

Definition get_user_status (user_id : string) (s : Store) : option string :=
  u_status <$> dget user_id (users s).

(** The [**fields] of [update_user]; [None] is absent or null, and is
    skipped: a field cannot be reset to [None]. *)
Record UserFields : Type := mkUserFields {
  uf_password_hash : option string;
  uf_password_hash_v : option string;
  uf_salt : option string;
  uf_password_algo : option string;
  uf_status : option string;
  uf_failed_attempts : option Z;
  uf_locked_until : option Z;
  uf_must_change_password : option bool;
  uf_last_login_at : option Z;
  uf_display_name : option string;
  uf_email : option string
}.
Definition no_fields : UserFields :=
  mkUserFields None None None None None None None None None None None.
(** [password_hash_v=h, salt=s, password_algo=a, must_change_password=mcp] *)
Definition password_fields (h s a : string) (mcp : option bool) : UserFields :=
  mkUserFields None (Some h) (Some s) (Some a) None None None mcp None None None.
Definition status_field (st : string) : UserFields :=
  mkUserFields None None None None (Some st) None None None None None None.
Definition display_name_field (n : string) : UserFields :=
  mkUserFields None None None None None None None None None (Some n) None.
(** [failed_attempts=n, locked_until=lu, last_login_at=ll] *)
Definition attempt_fields (n : Z) (lu ll : option Z) : UserFields :=
  mkUserFields None None None None None (Some n) lu None ll None None.

(** [u[k] = fields[k]] unless the new value is [None]. *)
Definition or_keep {A} (new old : option A) : option A :=
  match new with Some _ => new | None => old end.

Definition apply_user_fields (f : UserFields) (u : User) : User :=
  mkUser (u_user_id u) (u_username u) (or_keep (uf_email f) (u_email u))
    (or_keep (uf_display_name f) (u_display_name u))
    (default (u_password_hash u) (uf_password_hash f))
    (default (u_password_hash_v u) (uf_password_hash_v f))
    (default (u_salt u) (uf_salt f))
    (default (u_password_algo u) (uf_password_algo f))
    (default (u_status u) (uf_status f))
    (default (u_failed_attempts u) (uf_failed_attempts f))
    (or_keep (uf_locked_until f) (u_locked_until u))
    (default (u_must_change_password u) (uf_must_change_password f))
    (or_keep (uf_last_login_at f) (u_last_login_at u))
    (u_email_verified u) (u_email_verify_token_hash u) (u_email_verify_expires u)
    (u_password_reset_token_hash u) (u_password_reset_expires u) (u_created_at u).

Definition put_user (user_id : string) (u : User) : M Store unit :=
  modify (fun s => set_users (dset user_id u (users s)) s).

Definition update_user (user_id : string) (fields : UserFields) : M Store (option User) :=
  let! u := gets (fun s => dget user_id (users s)) in
  match u with
  | None => ret None
  | Some u =>
      let u' := apply_user_fields fields u in
      put_user user_id u' ;;; ret (Some u')
  end.

(** ** Email verification and password reset tokens *)

Definition set_email_verify_token (user_id token_hash : string) (expires_at : Z)
    : M Store bool :=
  let! u := gets (fun s => dget user_id (users s)) in
  match u with
  | None => ret false
  | Some u =>
      put_user user_id (set_u_email_verify_expires (Some expires_at)
                          (set_u_email_verify_token_hash (Some token_hash) u)) ;;;
      ret true
  end.

Definition token_expired (now : Z) (expires : option Z) : bool :=
  match expires with Some e => bool_decide (e < now) | None => false end.

Definition verify_email_token (now : Z) (token_hash : string) : M Store (option string) :=
  let! hit := gets (fun s =>
    dfind (fun u => bool_decide (u_email_verify_token_hash u = Some token_hash)) (users s)) in
  match hit with
  | None => ret None
  | Some (uid, u) =>
      if token_expired now (u_email_verify_expires u) then ret None
      else
        put_user uid (set_u_email_verify_expires None (set_u_email_verify_token_hash None
                        (set_u_email_verified true u))) ;;;
        ret (Some (u_user_id u))
  end.

Definition set_password_reset_token (user_id token_hash : string) (expires_at : Z)
    : M Store bool :=
  let! u := gets (fun s => dget user_id (users s)) in
  match u with
  | None => ret false
  | Some u =>
      put_user user_id (set_u_password_reset_expires (Some expires_at)
                          (set_u_password_reset_token_hash (Some token_hash) u)) ;;;
      ret true
  end.

Definition consume_password_reset_token (now : Z) (token_hash : string)
    : M Store (option string) :=
  let! hit := gets (fun s =>
    dfind (fun u => bool_decide (u_password_reset_token_hash u = Some token_hash)) (users s)) in
  match hit with
  | None => ret None
  | Some (uid, u) =>
      if token_expired now (u_password_reset_expires u) then ret None
      else
        put_user uid (set_u_password_reset_expires None (set_u_password_reset_token_hash None u)) ;;;
        ret (Some (u_user_id u))
  end.

(** ** MFA factors *)

Definition upsert_mfa (now : Z) (user_id method secret_enc : string) (enabled : bool)
    : M Store Mfa :=
  let key := (user_id, method) in
  let! old := gets (fun s => dget key (mfa s)) in
  let enrolled_at := match old with Some r => mf_enrolled_at r | None => now end in
  let rec := mkMfa user_id method secret_enc enrolled_at enabled in
  modify (fun s => set_mfa (dset key rec (mfa s)) s) ;;;
  ret rec.

Definition get_mfa (user_id method : string) (s : Store) : option Mfa :=
  dget (user_id, method) (mfa s).

Definition list_mfa (user_id : string) (s : Store) : list Mfa :=
  filter (fun r => mf_user_id r = user_id) (dvalues (mfa s)).

Definition list_all_mfa (s : Store) : list Mfa :=
  filter (fun r => mf_secret_enc r <> "") (dvalues (mfa s)).

Definition delete_mfa (user_id method : string) : M Store bool :=
  let! present := gets (fun s => dmem (user_id, method) (mfa s)) in
  if negb present then ret false
  else modify (fun s => set_mfa (dpop (user_id, method) (mfa s)) s) ;;; ret true.
End users.
