(* ===== verification/Keys.v ===== *)
(** * API keys, application secrets and stored credentials (store.py) *)
From S2P Require Import Prelude PyText StoreState Prims.

Section keys.
Context `{HashLib}.

(** ** API keys *)

(** [create_api_key]; [rnd_raw] and [rnd_id] are the two random draws.
    Returns the raw key, shown once, and the stored row. *)
Definition create_api_key (now : Z) (rnd_raw rnd_id tenant_id : string)
    (user_id : option string) (scopes : list string) : M Store (string * ApiKey) :=
  let raw := "fmu_" +:+ rnd_raw in
  let key_id := "key_" +:+ rnd_id in
  let key_hash := sha256 raw in
  let record := mkApiKey key_id tenant_id user_id key_hash (stake 8 raw +:+ "****") scopes
                  now None in
  modify (fun s => set_api_keys (dset key_id record (api_keys s)) s) ;;;
  modify (fun s => set_key_hash_index (dset key_hash key_id (key_hash_index s)) s) ;;;
  ret (raw, record).

Definition get_api_key_by_hash (key_hash : string) (s : Store) : option ApiKey :=
  match dget key_hash (key_hash_index s) with
  | None => None
  | Some key_id =>
      if str_true key_id then
        match dget key_id (api_keys s) with
        | None => None
        | Some k => if time_true (k_revoked_at k) then None else Some k
        end
      else None
  end.

Definition list_api_keys (tenant_id : string) (s : Store) : list ApiKey :=
  filter (fun k => k_tenant_id k = tenant_id /\ time_true (k_revoked_at k) = false)
    (dvalues (api_keys s)).

Definition revoke_api_key (now : Z) (key_id : string) : M Store bool :=
  let! k := gets (fun s => dget key_id (api_keys s)) in
  match k with
  | None => ret false
  | Some k =>
      modify (fun s => set_api_keys (dset key_id (set_k_revoked_at (Some now) k) (api_keys s)) s) ;;;
      modify (fun s => set_key_hash_index (dpop (k_key_hash k) (key_hash_index s)) s) ;;;
      ret true
  end.

(** ** Application secrets *)

Definition is_current (app_id : string) (r : AppSecret) : bool :=
  bool_decide (s_app_id r = app_id /\ s_status r = "current").
Definition app_versions (app_id : string) (s : Store) : list Z :=
  s_version <$> filter (fun r => s_app_id r = app_id) (dvalues (app_secrets s)).
(** [max(versions) + 1 if versions else 1] *)
Definition next_version (versions : list Z) : Z :=
  match versions with [] => 1 | v :: vs => foldl Z.max v vs + 1 end.

(** Returns the raw secret, the new row, and the demoted row. *)
Definition issue_app_secret (now : Z) (rnd_raw rnd_id app_id : string) (grace_seconds : Z)
    : M Store (string * AppSecret * option AppSecret) :=
  let! versions := gets (app_versions app_id) in
  let version := next_version versions in
  let! prev := gets (fun s => dfind (is_current app_id) (app_secrets s)) in
  let demoted := match prev with
                 | Some (sid, r) =>
                     Some (sid, set_s_grace_until (Some (now + sec grace_seconds))
                                  (set_s_status "grace" r))
                 | None => None
                 end in
  match demoted with
  | Some (sid, r) => modify (fun s => set_app_secrets (dset sid r (app_secrets s)) s)
  | None => ret tt
  end ;;;
  let raw := "fms_" +:+ rnd_raw in
  let secret_id := "sec_" +:+ rnd_id in
  let record := mkAppSecret secret_id app_id version (sha256 raw) (stake 8 raw +:+ "****")
                  "current" None now in
  modify (fun s => set_app_secrets (dset secret_id record (app_secrets s)) s) ;;;
  ret (raw, record, snd <$> demoted).

Definition get_current_app_secret (app_id : string) (s : Store) : option AppSecret :=
  snd <$> dfind (is_current app_id) (app_secrets s).

Definition has_app_secrets (app_id : string) (s : Store) : bool :=
  existsb (fun r => bool_decide (s_app_id r = app_id)) (dvalues (app_secrets s)).

(** A listed version: the row without its hash, with a grace window that has
    closed reported as ["expired"]. *)
Record AppSecretItem : Type := mkAppSecretItem {
  si_secret_id : string; si_app_id : string; si_version : Z; si_prefix : string;
  si_status : string; si_grace_until : option Z; si_created_at : Z
}.
Definition secret_item (r : AppSecret) : AppSecretItem :=
  mkAppSecretItem (s_secret_id r) (s_app_id r) (s_version r) (s_prefix r) (s_status r)
    (s_grace_until r) (s_created_at r).
Definition expire_item (now : Z) (i : AppSecretItem) : AppSecretItem :=
  match si_grace_until i with
  | Some g => if decide (si_status i = "grace" /\ g < now)
              then mkAppSecretItem (si_secret_id i) (si_app_id i) (si_version i) (si_prefix i)
                     "expired" (si_grace_until i) (si_created_at i)
              else i
  | None => i
  end.

Definition list_app_secrets (now : Z) (app_id : string) (s : Store) : list AppSecretItem :=
  sort_by (fun a b => si_version b <=? si_version a)
    ((fun r => expire_item now (secret_item r)) <$>
       filter (fun r => s_app_id r = app_id) (dvalues (app_secrets s))).

(** Descending order on [(app_id, version)]. *)
Definition inventory_le (a b : AppSecretItem) : bool :=
  match String.compare (si_app_id b) (si_app_id a) with
  | Lt => true
  | Eq => si_version b <=? si_version a
  | Gt => false
  end.
Definition list_all_app_secrets (now : Z) (s : Store) : list AppSecretItem :=
  sort_by inventory_le
    ((fun r => expire_item now (secret_item r)) <$> dvalues (app_secrets s)).

Definition revoke_app_secret_version (app_id : string) (version : Z)
    : M Store (option AppSecretItem) :=
  let! hit := gets (fun s => dfind (fun r =>
    bool_decide (s_app_id r = app_id /\ s_version r = version)) (app_secrets s)) in
  match hit with
  | None => ret None
  | Some (sid, r) =>
      let r' := set_s_grace_until None (set_s_status "revoked" r) in
      modify (fun s => set_app_secrets (dset sid r' (app_secrets s)) s) ;;;
      ret (Some (secret_item r'))
  end.

(** ** Externally issued credentials *)

Definition put_app_credential (now : Z) (app_id name secret_enc : string)
    : M Store AppCredential :=
  let key := (app_id, name) in
  let! old := gets (fun s => dget key (app_credentials s)) in
  let rec := match old with
             | None => mkAppCredential app_id name secret_enc now now 0 None
             | Some r => set_c_updated_at now (set_c_secret_enc secret_enc r)
             end in
  modify (fun s => set_app_credentials (dset key rec (app_credentials s)) s) ;;;
  ret rec.

Definition get_app_credential (now : Z) (app_id name : string)
    : M Store (option AppCredential) :=
  let key := (app_id, name) in
  let! old := gets (fun s => dget key (app_credentials s)) in
  match old with
  | None => ret None
  | Some r =>
      let r' := set_c_last_fetched_at (Some now) (set_c_fetch_count (c_fetch_count r + 1) r) in
      modify (fun s => set_app_credentials (dset key r' (app_credentials s)) s) ;;;
      ret (Some r')
  end.
End keys.
