(* ===== verification/Tokens.v ===== *)
(** * Token ledgers: revoked jtis, refresh-token families, issued jtis, SSO
    tickets (store.py) *)
From S2P Require Import Prelude PyText StoreState Rbac.

(** ** Revoked jtis *)

(** [expires_at or (_now() + 86400)] *)
Definition revocation_expiry (now : Z) (expires_at : option Z) : Z :=
  match expires_at with
  | Some e => if decide (e <> 0) then e else now + sec 86400
  | None => now + sec 86400
  end.

Definition revoke_jti (now : Z) (jti tenant_id : string) (user_id : option string)
    (reason : string) (expires_at : option Z) : M Store unit :=
  modify (fun s => set_revoked_jtis
    (dset jti (mkRevokedJti jti tenant_id user_id reason (revocation_expiry now expires_at) now)
       (revoked_jtis s)) s).

(** The sweep drops the entries whose expiry has passed; then membership. *)
Definition is_jti_revoked (now : Z) (jti : string) : M Store bool :=
  modify (fun s => set_revoked_jtis
    (filter (fun kv => now <= r_expires_at kv.2) (revoked_jtis s)) s) ;;;
  gets (fun s => dmem jti (revoked_jtis s)).

(** ** Refresh tokens *)

Definition insert_refresh_token (now : Z) (jti family_id tenant_id user_id : string)
    (expires_at : Z) (replaced_by : option string) (status : string) : M Store RefreshToken :=
  let rec := mkRefreshToken jti family_id tenant_id user_id status now expires_at replaced_by in
  modify (fun s => set_refresh_tokens (dset jti rec (refresh_tokens s)) s) ;;;
  ret rec.

Definition get_refresh_token (jti : string) (s : Store) : option RefreshToken :=
  dget jti (refresh_tokens s).

(** Compare-and-set: only an ["active"] token rotates. *)
Definition rotate_refresh_token (old_jti new_jti : string) : M Store bool :=
  let! r := gets (fun s => dget old_jti (refresh_tokens s)) in
  match r with
  | None => ret false
  | Some r =>
      if decide (rt_status r <> "active") then ret false
      else
        let r' := set_rt_replaced_by (Some new_jti) (set_rt_status "rotated" r) in
        modify (fun s => set_refresh_tokens (dset old_jti r' (refresh_tokens s)) s) ;;;
        ret true
  end.

(** The two revocation loops: mark the selected rows that are not yet
    revoked, and count them. *)
Definition revoke_where (P : RefreshToken -> Prop) `{forall r, Decision (P r)} : M Store Z :=
  let! n := gets (fun s =>
    zlen (filter (fun r => P r /\ rt_status r <> "revoked") (dvalues (refresh_tokens s)))) in
  modify (fun s => set_refresh_tokens (dmap (fun _ r =>
    if decide (P r /\ rt_status r <> "revoked") then set_rt_status "revoked" r else r)
    (refresh_tokens s)) s) ;;;
  ret n.

Definition revoke_refresh_family (family_id : string) : M Store Z :=
  revoke_where (fun r => rt_family_id r = family_id).

Definition revoke_user_sessions (user_id : string) : M Store Z :=
  revoke_where (fun r => rt_user_id r = user_id).

(** ** Issued jtis *)

Definition sweep_issued_jtis (now : Z) : M Store unit :=
  modify (fun s => set_issued_jtis
    (filter (fun kv => now <= ij_expires_at kv.2) (issued_jtis s)) s).

Definition record_issued_jti (now : Z) (jti tenant_id user_id : string) : M Store unit :=
  sweep_issued_jtis now ;;;
  modify (fun s => set_issued_jtis
    (dset jti (mkIssuedJti tenant_id user_id (now + ISSUED_JTI_DEFAULT_TTL)) (issued_jtis s)) s).

(** [(tenant_id, user_id)] of a jti: revocation ledger, then unexpired issued
    ledger, then refresh tokens. *)
Definition get_jti_owner (now : Z) (jti : string) (s : Store)
    : option (string * option string) :=
  let later :=
    match dget jti (issued_jtis s) with
    | Some ij => if decide (now <= ij_expires_at ij)
                 then Some (ij_tenant_id ij, Some (ij_user_id ij)) else None
    | None => None
    end in
  let last := (fun kv => (rt_tenant_id kv.2, Some (rt_user_id kv.2))) <$>
    dfind (fun r => bool_decide (rt_jti r = jti)) (refresh_tokens s) in
  match dget jti (revoked_jtis s) with
  | Some r => if str_true (r_tenant_id r) then Some (r_tenant_id r, r_user_id r)
              else match later with Some o => Some o | None => last end
  | None => match later with Some o => Some o | None => last end
  end.

(** One round of the loop of [revoke_user_issued_jtis]. *)
Definition revoke_issued_one (now : Z) (user_id : string) (tenant_id : option string)
    (reason : string) (kv : string * IssuedJti) : M Store Z :=
  let '(jti, ij) := kv in
  if decide (ij_user_id ij <> user_id) then ret 0
  else if (match tenant_id with
           | Some t => bool_decide (ij_tenant_id ij <> t) | None => false end) then ret 0
  else if decide (ij_expires_at ij <= now) then ret 0
  else
    let! already := gets (fun s => dmem jti (revoked_jtis s)) in
    if (already : bool) then ret 0
    else
      revoke_jti now jti (ij_tenant_id ij) (Some (ij_user_id ij)) reason
        (Some (ij_expires_at ij)) ;;;
      ret 1.
Fixpoint revoke_issued_loop (now : Z) (user_id : string) (tenant_id : option string)
    (reason : string) (l : list (string * IssuedJti)) : M Store Z :=
  match l with
  | [] => ret 0
  | kv :: l' =>
      let! n := revoke_issued_one now user_id tenant_id reason kv in
      let! m := revoke_issued_loop now user_id tenant_id reason l' in
      ret (n + m)
  end.
Definition revoke_user_issued_jtis (now : Z) (user_id : string) (tenant_id : option string)
    (reason : string) : M Store Z :=
  let! issued := gets issued_jtis in
  revoke_issued_loop now user_id tenant_id reason issued.

(** ** SSO tickets *)

Definition create_sso_ticket (now : Z) (ticket_hash user_id tenant_id : string)
    (expires_at : Z) : M Store unit :=
  modify (fun s => set_sso_tickets
    (dset ticket_hash (mkSsoTicket ticket_hash user_id tenant_id expires_at None now)
       (sso_tickets s)) s).

Definition consume_sso_ticket (now : Z) (ticket_hash : string) : M Store (option SsoTicket) :=
  let! rec := gets (fun s => dget ticket_hash (sso_tickets s)) in
  match rec with
  | None => ret None
  | Some rec =>
      if decide (tk_used_at rec <> None \/ tk_expires_at rec <= now) then ret None
      else
        let rec' := set_tk_used_at (Some now) rec in
        modify (fun s => set_sso_tickets (dset ticket_hash rec' (sso_tickets s)) s) ;;;
        ret (Some rec')
  end.

(** * Invites and join requests (store.py)

    The join-policy plane of [InMemoryStore]: an invite is a row found by the
    hash of its token and is used at most once; a join request is a small
    state machine [pending -> approved | rejected | cancelled]. *)

(** ** Invites *)

Definition create_invite (now : Z) (invite_id tenant_id token_hash role : string)
    (expires_at : Z) (email created_by : option string) : M Store Invite :=
  let! valid := gets (is_valid_role tenant_id role) in
  if negb valid
  then raise (StoreConflict ("unknown role " +:+ role +:+ " for tenant " +:+ tenant_id))
  else
    let rec := mkInvite invite_id tenant_id token_hash role email created_by expires_at
                 None None now in
    modify (fun s => set_invites (dset invite_id rec (invites s)) s) ;;;
    ret rec.

Definition get_invite_by_hash (token_hash : string) (s : Store) : option Invite :=
  snd <$> dfind (fun r => bool_decide (i_token_hash r = token_hash)) (invites s).

Definition list_invites (tenant_id : string) (s : Store) : list Invite :=
  filter (fun r => i_tenant_id r = tenant_id) (dvalues (invites s)).

Definition mark_invite_used (now : Z) (invite_id user_id : string) : M Store bool :=
  let! rec := gets (fun s => dget invite_id (invites s)) in
  match rec with
  | None => ret false
  | Some rec =>
      if decide (i_used_at rec <> None) then ret false
      else
        let rec' := set_i_used_by (Some user_id) (set_i_used_at (Some now) rec) in
        modify (fun s => set_invites (dset invite_id rec' (invites s)) s) ;;;
        ret true
  end.

(** ** Join requests *)

Definition pending_for (tenant_id user_id : string) (r : JoinRequest) : bool :=
  bool_decide (j_tenant_id r = tenant_id /\ j_user_id r = user_id /\ j_status r = "pending").

Definition create_join_request (now : Z) (request_id tenant_id user_id : string)
    : M Store JoinRequest :=
  let! dup := gets (fun s => dfind (pending_for tenant_id user_id) (join_requests s)) in
  match dup with
  | Some _ => raise (StoreConflict "join request already pending")
  | None =>
      let rec := mkJoinRequest request_id tenant_id user_id "pending" None None now in
      modify (fun s => set_join_requests (dset request_id rec (join_requests s)) s) ;;;
      ret rec
  end.

Definition get_join_request (request_id : string) (s : Store) : option JoinRequest :=
  dget request_id (join_requests s).

Definition list_join_requests (tenant_id : string) (status : option string) (s : Store)
    : list JoinRequest :=
  filter (fun r => j_tenant_id r = tenant_id /\
                   (status = None \/ status = Some (j_status r)))
    (dvalues (join_requests s)).

Definition decide_join_request (now : Z) (request_id status decided_by : string)
    : M Store (option JoinRequest) :=
  if decide (status ∉ ["approved"; "rejected"; "cancelled"])
  then raise (StoreConflict ("invalid decision status " +:+ py_repr status))
  else
    let! r := gets (fun s => dget request_id (join_requests s)) in
    match r with
    | None => ret None
    | Some r =>
        if decide (j_status r <> "pending")
        then raise (StoreConflict ("join request already " +:+ j_status r))
        else
          let r' := set_j_decided_at (Some now)
                      (set_j_decided_by (Some decided_by) (set_j_status status r)) in
          modify (fun s => set_join_requests (dset request_id r' (join_requests s)) s) ;;;
          ret (Some r')
    end.
