(* ===== verification/Ledger.v ===== *)
(** * Events outbox, usage metering, lease log, departments, identity
    providers and counters (store.py) *)
From S2P Require Import Prelude PyText StoreState.

(** ** Lifecycle events *)

Definition append_event (now : Z) (rnd_id event_type tenant_id : string) (payload : json)
    : M Store Event :=
  modify (fun s => set_event_seq (event_seq s + 1) s) ;;;
  let! seq := gets event_seq in
  let rec := mkEvent ("evt_" +:+ rnd_id) seq event_type tenant_id payload
               EVENT_STATUS_PENDING 0 now now in
  modify (fun s => set_events (append_capped AUDIT_CAP (events s) rec) s) ;;;
  ret rec.

Definition list_events (cursor limit : Z) (s : Store) : list Event :=
  py_take limit (filter (fun e => cursor < e_seq e) (events s)).

Definition pending_events (limit : Z) (s : Store) : list Event :=
  py_take limit (filter (fun e => e_status e = EVENT_STATUS_PENDING) (events s)).

(** The record mutated by [mark_event]. *)
Definition marked (now : Z) (status : string) (attempts : option Z) (e : Event) : Event :=
  set_e_updated_at now
    (match attempts with Some a => set_e_attempts a | None => id end (set_e_status status e)).
(** The loop: the first event with the id is mutated. *)
Fixpoint mark_first (now : Z) (event_id status : string) (attempts : option Z)
    (l : list Event) : option (list Event) :=
  match l with
  | [] => None
  | e :: l' =>
      if decide (e_event_id e = event_id) then Some (marked now status attempts e :: l')
      else cons e <$> mark_first now event_id status attempts l'
  end.
Definition mark_event (now : Z) (event_id status : string) (attempts : option Z)
    : M Store bool :=
  let! hit := gets (fun s => mark_first now event_id status attempts (events s)) in
  match hit with
  | None => ret false
  | Some l => modify (set_events l) ;;; ret true
  end.

(** ** Lease log *)

Definition log_lease (now : Z) (tenant_id lease_id action : string) (reason : option string)
    : M Store unit :=
  modify (fun s => set_lease_log (append_capped LEASE_LOG_CAP (lease_log s)
    (mkLeaseLogEntry tenant_id lease_id action reason now)) s).

Definition list_lease_log (tenant_id : string) (limit : Z) (s : Store) : list LeaseLogEntry :=
  reverse (py_last limit (filter (fun r => l_tenant_id r = tenant_id) (lease_log s))).

(** ** Usage *)

Definition record_usage (now : Z) (tenant_id : string) (user_id : option string)
    (metric : string) (value : Z) (source : string) (model : option string)
    : M Store UsageRecord :=
  let rec := mkUsageRecord tenant_id user_id metric value source model now in
  modify (fun s => set_usage (append_capped USAGE_CAP (usage s) rec) s) ;;;
  ret rec.

(** The [continue] guards shared by [aggregate_usage] and [usage_summary]. *)
Definition usage_selected (tenant_id : string) (since until : option Z) (u : UsageRecord)
    : bool :=
  bool_decide (us_tenant_id u = tenant_id) &&
  match since with Some t => t <=? us_ts u | None => true end &&
  match until with Some t => us_ts u <=? t | None => true end.

(** [agg[k] = agg.get(k, 0) + v] *)
Definition tally (k : string) (v : Z) (d : list (string * Z)) : list (string * Z) :=
  dset k (default 0 (dget k d) + v) d.

Definition aggregate_usage (tenant_id : string) (since until : option Z)
    (metric : option string) (s : Store) : list (string * Z) :=
  let agg := foldl (fun agg u =>
      if usage_selected tenant_id since until u &&
         match metric with Some m => bool_decide (us_metric u = m) | None => true end
      then tally (us_metric u) (us_value u) agg else agg) [] (usage s) in
  sort_by (fun a b => String.leb a.1 b.1) agg.

Record UsageSummary : Type := mkUsageSummary {
  sm_events : Z;
  sm_totals : list (string * Z);
  sm_by_source : list (string * Z);
  sm_by_model : list (string * Z)
}.
(** [x or dflt] on [Optional[str]]. *)
Definition or_default (dflt : string) (o : option string) : string :=
  match o with Some x => if str_true x then x else dflt | None => dflt end.
Definition summarise_usage (tenant_id : string) (since until : option Z) (r : UsageSummary)
    (u : UsageRecord) : UsageSummary :=
  if usage_selected tenant_id since until u then
    mkUsageSummary (sm_events r + 1)
      (tally (us_metric u) (us_value u) (sm_totals r))
      (tally (or_default "unknown" (Some (us_source u))) (us_value u) (sm_by_source r))
      (tally (or_default "unspecified" (us_model u)) (us_value u) (sm_by_model r))
  else r.
Definition usage_summary (tenant_id : string) (since until : option Z) (s : Store)
    : UsageSummary :=
  foldl (summarise_usage tenant_id since until) (mkUsageSummary 0 [] [] []) (usage s).

(** ** Departments *)

Definition create_department (now : Z) (rnd_id tenant_id name : string)
    (parent_id : option string) (tool_allowlist : option (list string)) : M Store Department :=
  let dept_id := "dept_" +:+ rnd_id in
  let rec := mkDepartment dept_id tenant_id name parent_id (default [] tool_allowlist) now now in
  modify (fun s => set_departments (dset (tenant_id, dept_id) rec (departments s)) s) ;;;
  ret rec.

Definition get_department (tenant_id dept_id : string) (s : Store) : option Department :=
  dget (tenant_id, dept_id) (departments s).

Definition list_departments (tenant_id : string) (s : Store) : list Department :=
  filter (fun d => d_tenant_id d = tenant_id) (dvalues (departments s)).

(** [None] is an absent or null field. *)
Definition update_department (now : Z) (tenant_id dept_id : string)
    (name parent_id : option string) (tool_allowlist : option (list string))
    : M Store (option Department) :=
  let! d := gets (fun s => dget (tenant_id, dept_id) (departments s)) in
  match d with
  | None => ret None
  | Some d =>
      let d' := mkDepartment (d_dept_id d) (d_tenant_id d) (default (d_name d) name)
                  (match parent_id with Some p => Some p | None => d_parent_id d end)
                  (default (d_tool_allowlist d) tool_allowlist) (d_created_at d) now in
      modify (fun s => set_departments (dset (tenant_id, dept_id) d' (departments s)) s) ;;;
      ret (Some d')
  end.

Definition delete_department (tenant_id dept_id : string) : M Store bool :=
  let! removed := gets (fun s => dmem (tenant_id, dept_id) (departments s)) in
  modify (fun s => set_departments (dpop (tenant_id, dept_id) (departments s)) s) ;;;
  ret removed.

(** ** Identity providers *)

Definition create_idp (now : Z) (idp_id tenant_id type : string)
    (issuer_url client_id client_secret_enc scopes : option string) (auto_provision : bool)
    : M Store Idp :=
  let! present := gets (fun s => dmem idp_id (idps s)) in
  if (present : bool) then raise (StoreConflict ("idp " +:+ idp_id +:+ " exists"))
  else
    let rec := mkIdp idp_id tenant_id type issuer_url client_id client_secret_enc scopes
                 auto_provision now in
    modify (fun s => set_idps (dset idp_id rec (idps s)) s) ;;;
    ret rec.

Definition get_idp (idp_id : string) (s : Store) : option Idp := dget idp_id (idps s).

Definition list_idps (tenant_id : string) (s : Store) : list Idp :=
  filter (fun r => ip_tenant_id r = tenant_id) (dvalues (idps s)).

Definition list_all_idps (s : Store) : list Idp :=
  filter (fun r => opt_true (ip_client_secret_enc r) = true) (dvalues (idps s)).

Definition delete_idp (idp_id : string) : M Store bool :=
  let! present := gets (fun s => dmem idp_id (idps s)) in
  if negb present then ret false
  else modify (fun s => set_idps (dpop idp_id (idps s)) s) ;;; ret true.

(** The [**fields] of [update_idp]. *)
Record IdpFields : Type := mkIdpFields {
  pf_type : option string;
  pf_issuer_url : option string;
  pf_client_id : option string;
  pf_client_secret_enc : option string;
  pf_scopes : option string;
  pf_auto_provision : option bool
}.
(** [if fields[k] is not None: rec[k] = fields[k]] on a nullable entry. *)
Definition keep {A} (old new : option A) : option A :=
  match new with Some _ => new | None => old end.
Definition update_idp (idp_id : string) (f : IdpFields) : M Store (option Idp) :=
  let! rec := gets (fun s => dget idp_id (idps s)) in
  match rec with
  | None => ret None
  | Some r =>
      let r' := mkIdp (ip_idp_id r) (ip_tenant_id r) (default (ip_type r) (pf_type f))
                  (keep (ip_issuer_url r) (pf_issuer_url f))
                  (keep (ip_client_id r) (pf_client_id f))
                  (keep (ip_client_secret_enc r) (pf_client_secret_enc f))
                  (keep (ip_scopes r) (pf_scopes f))
                  (default (ip_auto_provision r) (pf_auto_provision f)) (ip_created_at r) in
      modify (fun s => set_idps (dset idp_id r' (idps s)) s) ;;;
      ret (Some r')
  end.

(** Insertion into a sorted set of strings ([sorted({...})]). *)
Definition sorted_set (l : list string) : list string :=
  sort_by String.leb (remove_dups l).

Record IdpSummary : Type := mkIdpSummary {
  is_configured : bool;
  is_count : Z;
  is_types : list string;
  is_auto_provision : bool
}.
Definition get_idp_summary (tenant_id : string) (s : Store) : IdpSummary :=
  let rows := list_idps tenant_id s in
  mkIdpSummary (0 <? zlen rows) (zlen rows) (sorted_set (ip_type <$> rows))
    (existsb ip_auto_provision rows).

(** ** Counters *)

Record Stats : Type := mkStats {
  st_tenants : Z; st_users : Z; st_members : Z; st_api_keys : Z; st_audit_records : Z;
  st_revoked_jtis : Z; st_refresh_tokens : Z; st_idps : Z; st_mfa : Z;
  st_legacy_scrypt_users : Z
}.
Definition stats (s : Store) : Stats :=
  mkStats (zlen (filter (fun t => t_status t <> "deleted") (dvalues (tenants s))))
    (zlen (users s)) (zlen (members s))
    (zlen (filter (fun k => time_true (k_revoked_at k) = false) (dvalues (api_keys s))))
    (zlen (audit s)) (zlen (revoked_jtis s))
    (zlen (filter (fun r => rt_status r = "active") (dvalues (refresh_tokens s))))
    (zlen (idps s)) (zlen (mfa s))
    (zlen (filter (fun u => u_password_algo u = "scrypt") (dvalues (users s)))).
