(* ===== verification/Sql.v ===== *)
(** * PostgreSQL: the statements PgStore sends, and what they do

    PgStore (db.py) sends a small part of SQL: one-table [SELECT], [INSERT]
    with [ON CONFLICT] and [RETURNING], [UPDATE] and [DELETE]. Each is a
    function on a database under the constraints of a catalog (column types,
    [NOT NULL], [CHECK], [UNIQUE], foreign keys) and row-level security, as
    documented: a statement either happens whole or raises and leaves the rows
    as they were, while sequences are not rolled back. SQL is one of the
    languages of the repository (migrations/, the statements in db.py), and this
    file is the meaning of the part of it that the repository uses; the driver
    asyncpg is a parameter ([PgBase.Asyncpg]).

    Conditions have three truth values, [NULL] being [None]. The order in which
    an unordered scan meets rows is not fixed by PostgreSQL: it is the argument
    [ss_scan] of a session. Texts with a NUL character, which PostgreSQL
    refuses, are left out. *)
From S2P Require Import Prelude PyText Json StoreState.

(** ** Values, rows, conditions *)

Inductive sval : Type :=
  | VNull
  | VText (s : string)
  | VInt (z : Z)
  | VBool (b : bool)
  | VTime (us : Z)
  | VJson (j : json)
  | VUuid (s : string).
#[export] Instance sval_eq_dec : EqDecision sval.
Proof. solve_decision. Defined.

Definition row : Type := list (string * sval).
Definition col (c : string) (r : row) : sval := default VNull (dget c r).

(** A text, time or integer that may be absent. *)
Definition vtext (o : option string) : sval := from_option VText VNull o.
Definition vtime (o : option Z) : sval := from_option VTime VNull o.

Definition cond : Type := row -> option bool.
Definition veq (a b : sval) : option bool :=
  if decide (a = VNull \/ b = VNull) then None else Some (bool_decide (a = b)).
(** Order on values of one type. *)
Definition vcompare (a b : sval) : option comparison :=
  match a, b with
  | VInt x, VInt y | VTime x, VTime y => Some (Z.compare x y)
  | VText x, VText y => Some (String.compare x y)
  | _, _ => None
  end.

Definition c_true : cond := fun _ => Some true.
Definition c_eq (c : string) (v : sval) : cond := fun r => veq (col c r) v.
Definition c_ne (c : string) (v : sval) : cond := fun r => negb <$> veq (col c r) v.
Definition c_cmp (ok : comparison -> bool) (c : string) (v : sval) : cond :=
  fun r => ok <$> vcompare (col c r) v.
Definition c_gt : string -> sval -> cond := c_cmp (fun o => match o with Gt => true | _ => false end).
Definition c_lt : string -> sval -> cond := c_cmp (fun o => match o with Lt => true | _ => false end).
Definition c_ge : string -> sval -> cond := c_cmp (fun o => match o with Lt => false | _ => true end).
Definition c_le : string -> sval -> cond := c_cmp (fun o => match o with Gt => false | _ => true end).
Definition is_null (c : string) : cond := fun r => Some (bool_decide (col c r = VNull)).
Definition not_null (c : string) : cond := fun r => Some (bool_decide (col c r <> VNull)).
Definition c_and (a b : cond) : cond := fun r =>
  match a r, b r with
  | Some false, _ | _, Some false => Some false
  | Some true, Some true => Some true
  | _, _ => None
  end.
Definition c_or (a b : cond) : cond := fun r =>
  match a r, b r with
  | Some true, _ | _, Some true => Some true
  | Some false, Some false => Some false
  | _, _ => None
  end.
(** [WHERE] keeps the rows whose condition is true. *)
Definition holds (w : cond) (r : row) : bool := bool_decide (w r = Some true).

Declare Scope sql_scope.
Delimit Scope sql_scope with sql.
Infix "=." := c_eq (at level 70, no associativity) : sql_scope.
Infix "<>." := c_ne (at level 70, no associativity) : sql_scope.
Infix ">." := c_gt (at level 70, no associativity) : sql_scope.
Infix "<." := c_lt (at level 70, no associativity) : sql_scope.
Infix ">=." := c_ge (at level 70, no associativity) : sql_scope.
Infix "<=." := c_le (at level 70, no associativity) : sql_scope.
Infix "&." := c_and (at level 75, right associativity) : sql_scope.
Infix "|." := c_or (at level 77, right associativity) : sql_scope.
Open Scope sql_scope.

(** ** Catalog *)

Inductive ctype : Type := TText | TInt16 | TInt32 | TInt64 | TBool | TTime | TJson | TUuid | TDate.
Inductive dflt : Type :=
  | DNone
  | DLit (v : sval)
  | DNow
  | DHour
  | DSerial (seq : string)
  | DUuid.
Record column : Type := mkColumn {
  c_name : string; c_type : ctype; c_notnull : bool; c_default : dflt
}.
Record fkey : Type := mkFkey {
  fk_name : string; fk_col : string; fk_table : string; fk_ref : string
}.
(** Row-level security: off, enabled (the owner is exempt), forced. *)
Inductive rls : Type := RlsOff | RlsOn | RlsForced.
Record table : Type := mkTable {
  tb_cols : list column;
  tb_unique : list (string * list string);
  tb_check : list (string * (string * list string));
  tb_fkeys : list fkey;
  tb_policy : bool;
  tb_rls : rls
}.
#[export] Instance ctype_eq_dec : EqDecision ctype.
Proof. solve_decision. Defined.
#[export] Instance dflt_eq_dec : EqDecision dflt.
Proof. solve_decision. Defined.
#[export] Instance column_eq_dec : EqDecision column.
Proof. solve_decision. Defined.
#[export] Instance fkey_eq_dec : EqDecision fkey.
Proof. solve_decision. Defined.
#[export] Instance rls_eq_dec : EqDecision rls.
Proof. solve_decision. Defined.
#[export] Instance table_eq_dec : EqDecision table.
Proof. solve_decision. Defined.
Definition catalog : Type := list (string * table).

(** ** Databases and sessions *)

Record Db : Type := mkDb { db_tables : list (string * list row); db_seqs : list (string * Z) }.
Definition rows (t : string) (db : Db) : list row := default [] (dget t (db_tables db)).
Definition set_rows (t : string) (rs : list row) (db : Db) : Db :=
  mkDb (dset t rs (db_tables db)) (db_seqs db).
Definition seq_last (q : string) (db : Db) : Z := default 0 (dget q (db_seqs db)).
(** [nextval(q)] *)
Definition nextval (q : string) (db : Db) : Z * Db :=
  let n := seq_last q db + 1 in (n, mkDb (db_tables db) (dset q n (db_seqs db))).

(** The role of the connection: row-level security binds the owner of a table
    where it is forced, an ordinary role everywhere, a superuser nowhere. *)
Inductive pg_role : Type := Superuser | Owner | AppRole.
#[export] Instance pg_role_eq_dec : EqDecision pg_role.
Proof. solve_decision. Defined.

(** What a statement reads of its session: the clock, [app.current_tenant], the
    role, the order of scans and the random draws for generated ids. *)
Record Sess : Type := mkSess {
  ss_now : Z; ss_guc : string; ss_role : pg_role;
  ss_scan : list row -> list row; ss_uuid : string
}.

Definition rls_bound (e : Sess) (td : table) : bool :=
  match tb_rls td, ss_role e with
  | RlsOff, _ | _, Superuser | RlsOn, Owner => false
  | _, _ => true
  end.
(** The policy [tenant_isolation]; without a policy nothing is visible. *)
Definition policy_ok (e : Sess) (td : table) (r : row) : bool :=
  tb_policy td && (bool_decide (ss_guc e = "_system") || bool_decide (col "tenant_id" r = VText (ss_guc e))).
Definition visible (e : Sess) (td : table) (r : row) : bool :=
  negb (rls_bound e td) || policy_ok e td r.

Definition int_ok (bits : Z) (z : Z) : bool := (- 2 ^ (bits - 1) <=? z) && (z <? 2 ^ (bits - 1)).
Definition type_ok (ty : ctype) (v : sval) : bool :=
  match ty, v with
  | _, VNull => true
  | TText, VText _ | TBool, VBool _ | TTime, VTime _ | TJson, VJson _ | TUuid, VUuid _ => true
  | TInt16, VInt z => int_ok 16 z
  | TInt32, VInt z => int_ok 32 z
  | TInt64, VInt z => int_ok 64 z
  | _, _ => false
  end.
Fixpoint find_col (c : string) (cs : list column) : option column :=
  match cs with
  | [] => None
  | k :: cs' => if decide (c_name k = c) then Some k else find_col c cs'
  end.
(** A parameter for a column: [DataError] comes from asyncpg, before anything
    is sent. *)
Definition param_error (td : table) (cv : string * sval) : option pg_error :=
  match find_col cv.1 (tb_cols td) with
  | None => Some UndefinedColumnError
  | Some k => if type_ok (c_type k) cv.2 then None else Some DataError
  end.
Definition params_error (td : table) (l : list (string * sval)) : option pg_error :=
  head (omap (param_error td) l).

(** ** Constraints *)

(** [NOT NULL] first, then the checks; a check that is [NULL] passes. *)
Definition null_error (td : table) (r : row) : bool :=
  existsb (fun k => c_notnull k && bool_decide (col (c_name k) r = VNull)) (tb_cols td).
Definition check_ok (ck : string * (string * list string)) (r : row) : bool :=
  match col ck.2.1 r with
  | VNull => true
  | v => bool_decide (v ∈ VText <$> ck.2.2)
  end.
Definition row_types_ok (td : table) (r : row) : bool :=
  forallb (fun k => type_ok (c_type k) (col (c_name k) r)) (tb_cols td).
Definition row_error (td : table) (r : row) : option pg_error :=
  if negb (row_types_ok td r) then Some DataError
  else if null_error td r then Some NotNullViolationError
  else if negb (forallb (fun ck => check_ok ck r) (tb_check td)) then Some CheckViolationError
  else None.

(** The key of a row for a unique constraint: none if a column is [NULL]. *)
Definition key_of (cols : list string) (r : row) : option (list sval) :=
  let k := (fun c => col c r) <$> cols in
  if decide (VNull ∈ k) then None else Some k.
Definition key_ok (cols : list string) (rs : list row) : bool :=
  bool_decide (NoDup (omap (key_of cols) rs)).
Definition unique_ok (td : table) (rs : list row) : bool :=
  forallb (fun u => key_ok u.2 rs) (tb_unique td).
Definition same_key (cols : list string) (r r' : row) : bool :=
  match key_of cols r with
  | Some k => bool_decide (key_of cols r' = Some k)
  | None => false
  end.

Definition fk_ok (db : Db) (r : row) (f : fkey) : bool :=
  match col (fk_col f) r with
  | VNull => true
  | v => existsb (fun r' => bool_decide (col (fk_ref f) r' = v)) (rows (fk_table f) db)
  end.
Definition fkeys_ok (td : table) (db : Db) (r : row) : bool := forallb (fk_ok db r) (tb_fkeys td).

(** [SET c = v] of a parameter, or of an expression over the row. *)
Inductive setter : Type := Par (v : sval) | Ex (f : row -> sval).
Definition set_val (s : setter) (r : row) : sval := match s with Par v => v | Ex f => f r end.
Definition set_row (sets : list (string * setter)) (r : row) : row :=
  foldl (fun r' cs => dset cs.1 (set_val cs.2 r) r') r sets.
Definition set_params (sets : list (string * setter)) : list (string * sval) :=
  omap (fun cs => match cs.2 with Par v => Some (cs.1, v) | Ex _ => None end) sets.

(** What to do on a conflict; the columns name the constraint it must be on. *)
Inductive on_conflict : Type :=
  | Fails
  | DoNothing (target : option (list string))
  | DoUpdate (target : list string) (sets : row -> list (string * setter)).

(** [ORDER BY]: columns with their direction ([true] is [DESC]). *)
Definition order_le1 (c : string) (desc : bool) (a b : row) : option bool :=
  match vcompare (col c a) (col c b) with
  | Some Eq | None => None
  | Some Lt => Some (negb desc)
  | Some Gt => Some desc
  end.
Fixpoint order_le (by_ : list (string * bool)) (a b : row) : bool :=
  match by_ with
  | [] => true
  | (c, desc) :: by' => match order_le1 c desc a b with Some x => x | None => order_le by' a b end
  end.

(** [date_trunc('hour', t)] *)
Definition trunc_hour (us : Z) : Z := us - us mod sec 3600.

(** ** Statements *)
Section statements.
Context (sch : catalog).

(** The row an [INSERT] adds: given values, or defaults in column order. *)
Definition default_val (e : Sess) (d : dflt) (db : Db) : sval * Db :=
  match d with
  | DNone => (VNull, db)
  | DLit v => (v, db)
  | DNow => (VTime (ss_now e), db)
  | DHour => (VTime (trunc_hour (ss_now e)), db)
  | DSerial q => let '(n, db') := nextval q db in (VInt n, db')
  | DUuid => (VUuid (ss_uuid e), db)
  end.
Fixpoint build_row (e : Sess) (cs : list column) (vals : list (string * sval)) (db : Db)
    : row * Db :=
  match cs with
  | [] => ([], db)
  | k :: cs' =>
      let '(v, db1) := match dget (c_name k) vals with
                       | Some v => (v, db)
                       | None => default_val e (c_default k) db
                       end in
      let '(r, db2) := build_row e cs' vals db1 in ((c_name k, v) :: r, db2)
  end.

(** Every key that points into [t] is still there. *)
Definition refs_ok (t : string) (db : Db) : bool :=
  forallb (fun td => forallb (fun f => negb (bool_decide (fk_table f = t)) ||
                                       forallb (fun r => fk_ok db r f) (rows td.1 db))
                             (tb_fkeys td.2)) sch.

Definition pg_raise {A} (err : pg_error) : M Db A := raise (PgError err).
Definition with_table {A} (t : string) (k : table -> M Db A) : M Db A :=
  match dget t sch with Some td => k td | None => pg_raise UndefinedTableError end.

(** Replace the rows of [t] where the statement may see them and the condition
    holds. *)
Definition hit (e : Sess) (td : table) (w : cond) (r : row) : bool := visible e td r && holds w r.

Definition update (e : Sess) (t : string) (sets : list (string * setter)) (w : cond)
    : M Db (list row) :=
  with_table t (fun td db =>
    match params_error td (set_params sets) with
    | Some err => (Raise (PgError err), db)
    | None =>
        let rs := rows t db in
        let new := set_row sets <$> filter (fun r => hit e td w r = true) rs in
        let db' := set_rows t ((fun r => if hit e td w r then set_row sets r else r) <$> rs) db in
        if negb (forallb (visible e td) new) then (Raise (PgError InsufficientPrivilegeError), db)
        else match head (omap (row_error td) new) with
             | Some err => (Raise (PgError err), db)
             | None =>
                 if negb (unique_ok td (rows t db')) then (Raise (PgError UniqueViolationError), db)
                 else if negb (forallb (fkeys_ok td db') new && refs_ok t db')
                      then (Raise (PgError ForeignKeyViolationError), db)
                      else (Ok new, db')
             end
    end).

Definition delete (e : Sess) (t : string) (w : cond) : M Db (list row) :=
  with_table t (fun td db =>
    let rs := rows t db in
    let db' := set_rows t (filter (fun r => hit e td w r = false) rs) db in
    if refs_ok t db' then (Ok (filter (fun r => hit e td w r = true) rs), db')
    else (Raise (PgError ForeignKeyViolationError), db)).

Definition select (e : Sess) (t : string) (w : cond) (by_ : list (string * bool)) (limit : option Z)
    : M Db (list row) :=
  with_table t (fun td db =>
    let found := sort_by (order_le by_) (filter (fun r => hit e td w r = true) (ss_scan e (rows t db))) in
    match limit with
    | None => (Ok found, db)
    | Some n => if n <? 0 then (Raise (PgError InvalidRowCountInLimitClauseError), db)
                else (Ok (take (Z.to_nat n) found), db)
    end).

(** The rows an insert collides with: on the constraint over [target], or on
    any. *)
Definition clash (td : table) (target : option (list string)) (r : row) (rs : list row) : bool :=
  match target with
  | Some cols => existsb (same_key cols r) rs
  | None => existsb (fun u => existsb (same_key u.2 r) rs) (tb_unique td)
  end.

Definition add_row (t : string) (td : table) (r : row) (db : Db) : res (list row) * Db :=
  let db' := set_rows t (rows t db ++ [r]) db in
  if negb (unique_ok td (rows t db')) then (Raise (PgError UniqueViolationError), db)
  else if fkeys_ok td db' r then (Ok [r], db')
  else (Raise (PgError ForeignKeyViolationError), db).

Definition insert (e : Sess) (t : string) (vals : list (string * sval)) (oc : on_conflict)
    : M Db (list row) :=
  with_table t (fun td db0 =>
    match params_error td vals with
    | Some err => (Raise (PgError err), db0)
    | None =>
        let '(r, db) := build_row e (tb_cols td) vals db0 in
        if negb (visible e td r) then (Raise (PgError InsufficientPrivilegeError), db)
        else match row_error td r with
             | Some err => (Raise (PgError err), db)
             | None =>
                 match oc with
                 | Fails => add_row t td r db
                 | DoNothing target =>
                     if clash td target r (rows t db) then (Ok [], db) else add_row t td r db
                 | DoUpdate target sets =>
                     if clash td (Some target) r (rows t db)
                     then if forallb (fun old => negb (same_key target r old) || visible e td old)
                               (rows t db)
                          then update e t (sets r) (fun old => Some (same_key target r old)) db
                          else (Raise (PgError InsufficientPrivilegeError), db)
                     else add_row t td r db
                 end
             end
    end).
End statements.

(** * What a statement does to the rows

    [effect] sums up the outcomes of the writing statements with the checks
    that were passed; from it follow the two properties PostgreSQL is trusted
    with: constraints keep holding, and row-level security fences rows off. *)

Lemma rows_set_rows t t' rs db :
  rows t' (set_rows t rs db) = if decide (t' = t) then rs else rows t' db.
Proof. unfold rows, set_rows. simpl. rewrite dget_dset. by case_decide. Qed.
Lemma rows_set_rows_eq t rs db : rows t (set_rows t rs db) = rs.
Proof. rewrite rows_set_rows. by case_decide. Qed.
Lemma rows_set_rows_ne t t' rs db : t' <> t -> rows t' (set_rows t rs db) = rows t' db.
Proof. rewrite rows_set_rows. by case_decide. Qed.
Lemma rows_tables t db db' : db_tables db = db_tables db' -> rows t db = rows t db'.
Proof. unfold rows. by intros ->. Qed.

Lemma build_row_tables e cs vals db r db' :
  build_row e cs vals db = (r, db') -> db_tables db' = db_tables db.
Proof.
  revert db r db'. induction cs as [|k cs IH]; simpl; intros db r db' E; [by simplify_eq|].
  repeat case_match; simplify_eq; erewrite IH by eassumption; try done;
    unfold default_val, nextval in *; repeat case_match; by simplify_eq.
Qed.

(** Sequences only grow. *)
Definition seqs_le (db db' : Db) : Prop := forall q, seq_last q db <= seq_last q db'.
#[export] Instance seqs_le_preorder : PreOrder seqs_le.
Proof. split; [by intros db q|]. intros db1 db2 db3 H12 H23 q. specialize (H12 q). specialize (H23 q). lia. Qed.
Lemma nextval_seqs q db n db' : nextval q db = (n, db') -> seqs_le db db'.
Proof.
  unfold nextval. intros [= <- <-] q'. unfold seq_last. simpl. rewrite dget_dset.
  case_decide; subst; simpl; lia.
Qed.
Lemma build_row_seqs e cs vals db r db' : build_row e cs vals db = (r, db') -> seqs_le db db'.
Proof.
  revert db r db'. induction cs as [|k cs IH]; simpl; intros db r db' E; [by simplify_eq|].
  destruct (match dget (c_name k) vals with Some _ => _ | None => _ end) as [v db1] eqn:Ev.
  destruct (build_row e cs vals db1) as [r1 db2] eqn:Eb. simplify_eq. apply IH in Eb.
  transitivity db1; [|done]. unfold default_val in Ev. repeat case_match; simplify_eq; try done.
  by eapply nextval_seqs.
Qed.
Lemma build_row_given e cs vals db r db' c v :
  build_row e cs vals db = (r, db') -> c ∈ c_name <$> cs -> dget c vals = Some v -> col c r = v.
Proof.
  revert db r db'. induction cs as [|k cs IH]; simpl; intros db r db' E Hc Hv; [by apply elem_of_nil in Hc|].
  destruct (match dget (c_name k) vals with Some _ => _ | None => _ end) as [v' db1] eqn:Ev.
  destruct (build_row e cs vals db1) as [r1 db2] eqn:Eb. simplify_eq. unfold col. simpl.
  case_decide as D.
  - simplify_eq. rewrite Hv in Ev. by simplify_eq.
  - apply elem_of_cons in Hc as [->|Hc]; [done|]. by eapply IH.
Qed.
Lemma find_col_name c cs k : find_col c cs = Some k -> c ∈ c_name <$> cs.
Proof.
  induction cs as [|k' cs IH]; simpl; [done|]. case_decide; intros E; [subst; by left|right; auto].
Qed.
Lemma seqs_le_eq db db' : db_seqs db' = db_seqs db -> seqs_le db db'.
Proof. intros E q. unfold seq_last. by rewrite E. Qed.

Section effects.
Context (sch : catalog) (e : Sess).

(** The rows of a table after an update, and the rows it wrote. *)
Definition updated (td : table) (sets : list (string * setter)) (w : cond) (rs : list row) : list row :=
  (fun r => if hit e td w r then set_row sets r else r) <$> rs.
Definition written (td : table) (sets : list (string * setter)) (w : cond) (rs : list row) : list row :=
  set_row sets <$> filter (fun r => hit e td w r = true) rs.

Inductive effect (t : string) (db db' : Db) : Prop :=
  | eff_none : db_tables db' = db_tables db -> effect t db db'
  | eff_add td r :
      dget t sch = Some td -> visible e td r = true -> row_error td r = None ->
      unique_ok td (rows t db ++ [r]) = true -> fkeys_ok td db' r = true ->
      db_tables db' = db_tables (set_rows t (rows t db ++ [r]) db) -> effect t db db'
  | eff_set td sets w :
      dget t sch = Some td ->
      Forall (fun r => visible e td r = true) (written td sets w (rows t db)) ->
      Forall (fun r => row_error td r = None) (written td sets w (rows t db)) ->
      unique_ok td (updated td sets w (rows t db)) = true ->
      Forall (fun r => fkeys_ok td db' r = true) (written td sets w (rows t db)) ->
      refs_ok sch t db' = true ->
      db_tables db' = db_tables (set_rows t (updated td sets w (rows t db)) db) -> effect t db db'
  | eff_del td w :
      dget t sch = Some td -> refs_ok sch t db' = true ->
      db_tables db' = db_tables (set_rows t (filter (fun r => hit e td w r = false) (rows t db)) db) ->
      effect t db db'.

Lemma forallb_Forall {A} (f : A -> bool) l : forallb f l = true <-> Forall (fun x => f x = true) l.
Proof. by rewrite List.forallb_forall, List.Forall_forall. Qed.
Lemma omap_None {A B} (f : A -> option B) l : head (omap f l) = None -> Forall (fun x => f x = None) l.
Proof.
  induction l as [|x l IH]; simpl; [by constructor|].
  destruct (f x) eqn:E; [done|]. constructor; auto.
Qed.

(** The tables of the database a failed or successful update started from. *)
Lemma update_effect t sets w db r db' :
  update sch e t sets w db = (r, db') ->
  effect t db db' /\
  match r with
  | Ok new => exists td, dget t sch = Some td /\ new = written td sets w (rows t db) /\
      db' = set_rows t (updated td sets w (rows t db)) db
  | Raise _ => db' = db
  end.
Proof.
  unfold update, with_table, pg_raise, raise. intros E.
  destruct (dget t sch) as [td|] eqn:Ht; [|simplify_eq; split; [by apply eff_none|done]].
  case_match; [simplify_eq; split; [by apply eff_none|done]|].
  fold (updated td sets w (rows t db)) in E. fold (written td sets w (rows t db)) in E.
  set (db1 := set_rows t _ db) in E.
  destruct (forallb (visible e td) _) eqn:Hv; simpl in E; [|simplify_eq; split; [by apply eff_none|done]].
  destruct (head (omap _ _)) as [err|] eqn:Hr; [simplify_eq; split; [by apply eff_none|done]|].
  destruct (unique_ok td (rows t db1)) eqn:Hu; simpl in E; [|simplify_eq; split; [by apply eff_none|done]].
  destruct (forallb (fkeys_ok td db1) _ && refs_ok sch t db1) eqn:Hf; simpl in E;
    [|simplify_eq; split; [by apply eff_none|done]].
  injection E as <- <-. apply andb_true_iff in Hf as [Hf Hrefs]. split; [|eauto].
  unfold db1 in Hu. rewrite rows_set_rows_eq in Hu.
  eapply (eff_set t db _ td sets w); auto using omap_None; by apply forallb_Forall.
Qed.

Lemma delete_effect t w db r db' :
  delete sch e t w db = (r, db') ->
  effect t db db' /\
  match r with
  | Ok old => exists td, dget t sch = Some td /\ old = filter (fun r => hit e td w r = true) (rows t db) /\
      db' = set_rows t (filter (fun r => hit e td w r = false) (rows t db)) db
  | Raise _ => db' = db
  end.
Proof.
  unfold delete, with_table, pg_raise, raise. intros E.
  destruct (dget t sch) as [td|] eqn:Ht; [|simplify_eq; split; [by apply eff_none|done]].
  case_match eqn:Hr; simplify_eq; (split; [|eauto]); [by eapply eff_del|by apply eff_none].
Qed.

Lemma add_row_effect t td r0 db r db' :
  dget t sch = Some td -> visible e td r0 = true -> row_error td r0 = None ->
  add_row t td r0 db = (r, db') ->
  effect t db db' /\
  match r with
  | Ok new => new = [r0] /\ db' = set_rows t (rows t db ++ [r0]) db
  | Raise _ => db' = db
  end.
Proof.
  unfold add_row. rewrite rows_set_rows_eq. intros Ht Hv Hr E.
  destruct (unique_ok td (rows t db ++ [r0])) eqn:Hu; simpl in E; [|simplify_eq; split; [by apply eff_none|done]].
  case_match eqn:Hf; simplify_eq; (split; [|done]); [by eapply eff_add|by apply eff_none].
Qed.

Lemma effect_tables t db1 db2 db' :
  db_tables db1 = db_tables db2 -> effect t db1 db' -> effect t db2 db'.
Proof.
  intros Et. assert (rows t db1 = rows t db2) as Er by by apply rows_tables.
  intros [H|td r ? ? ? ? ? H|td sets w ? ? ? ? ? ? H|td w ? ? H]; rewrite ?Er in *.
  - apply eff_none. congruence.
  - eapply eff_add; try eassumption. by rewrite H; simpl; rewrite Et.
  - eapply eff_set; try eassumption. by rewrite H; simpl; rewrite Et.
  - eapply eff_del; try eassumption. by rewrite H; simpl; rewrite Et.
Qed.

Lemma insert_effect t vals oc db r db' :
  insert sch e t vals oc db = (r, db') -> effect t db db'.
Proof.
  unfold insert, with_table, pg_raise, raise. intros E.
  destruct (dget t sch) as [td|] eqn:Ht; [|simplify_eq; by apply eff_none].
  case_match; [simplify_eq; by apply eff_none|].
  destruct (build_row e (tb_cols td) vals db) as [r0 db1] eqn:Hb.
  apply build_row_tables in Hb. apply (effect_tables _ db1); [done|].
  destruct (visible e td r0) eqn:Hv; simpl in E; [|simplify_eq; by apply eff_none].
  destruct (row_error td r0) eqn:Hr; [simplify_eq; by apply eff_none|].
  assert (forall r db', add_row t td r0 db1 = (r, db') -> effect t db1 db') as Hadd.
  { intros ? ? Ha. by eapply add_row_effect in Ha as [? _]. }
  repeat case_match; simplify_eq; eauto using eff_none.
  by apply update_effect in E as [? _].
Qed.

Lemma update_seqs t sets w db r db' : update sch e t sets w db = (r, db') -> seqs_le db db'.
Proof.
  intros [_ E]%update_effect. destruct r; [destruct E as (? & _ & _ & ->)|subst]; by apply seqs_le_eq.
Qed.
Lemma delete_seqs t w db r db' : delete sch e t w db = (r, db') -> seqs_le db db'.
Proof.
  intros [_ E]%delete_effect. destruct r; [destruct E as (? & _ & _ & ->)|subst]; by apply seqs_le_eq.
Qed.
Lemma add_row_seqs t td r0 db r db' : add_row t td r0 db = (r, db') -> seqs_le db db'.
Proof. unfold add_row. intros E. repeat case_match; simplify_eq; by apply seqs_le_eq. Qed.
Lemma insert_seqs t vals oc db r db' : insert sch e t vals oc db = (r, db') -> seqs_le db db'.
Proof.
  unfold insert, with_table, pg_raise, raise. intros E.
  destruct (dget t sch) as [td|]; [|by simplify_eq].
  case_match; [by simplify_eq|].
  destruct (build_row e (tb_cols td) vals db) as [r0 db1] eqn:Hb.
  apply build_row_seqs in Hb. transitivity db1; [done|].
  repeat case_match; simplify_eq; eauto using add_row_seqs, update_seqs; reflexivity.
Qed.
End effects.

(** ** Constraints keep holding *)

Definition row_ok (td : table) (db : Db) (r : row) : Prop :=
  row_error td r = None /\ fkeys_ok td db r = true.
Definition db_ok (sch : catalog) (db : Db) : Prop :=
  forall t td, (t, td) ∈ sch ->
    unique_ok td (rows t db) = true /\ Forall (row_ok td db) (rows t db).

Lemma fk_ok_rows db db' r f :
  rows (fk_table f) db ⊆ rows (fk_table f) db' -> fk_ok db r f = true -> fk_ok db' r f = true.
Proof.
  intros Hsub. unfold fk_ok. case_match; try done; rewrite !existsb_exists;
    intros (r' & Hin & Heq); exists r'; (split; [|done]); apply list_elem_of_In, Hsub, list_elem_of_In, Hin.
Qed.

Lemma fkeys_ok_elim td db r : fkeys_ok td db r = true <-> forall f, f ∈ tb_fkeys td -> fk_ok db r f = true.
Proof. unfold fkeys_ok. by rewrite forallb_Forall, Forall_forall. Qed.

Lemma refs_ok_elim sch t db t' td' r f :
  refs_ok sch t db = true -> (t', td') ∈ sch -> r ∈ rows t' db -> f ∈ tb_fkeys td' ->
  fk_table f = t -> fk_ok db r f = true.
Proof.
  unfold refs_ok. rewrite forallb_Forall, Forall_forall. intros H Ht Hr Hf E.
  specialize (H _ Ht). simpl in H. rewrite forallb_Forall, Forall_forall in H. specialize (H _ Hf).
  rewrite bool_decide_eq_true_2 in H by done. simpl in H.
  rewrite forallb_Forall, Forall_forall in H. auto.
Qed.

Lemma key_ok_sublist cols rs rs' : rs' `sublist_of` rs -> key_ok cols rs = true -> key_ok cols rs' = true.
Proof.
  unfold key_ok. rewrite !bool_decide_eq_true. intros Hsub Hn.
  assert (omap (key_of cols) rs' `sublist_of` omap (key_of cols) rs) as Hs.
  { induction Hsub as [|x l1 l2 _ IH|x l1 l2 _ IH]; simpl in *; [done| |].
    - destruct (key_of cols x); [apply sublist_skip, IH; by apply NoDup_cons in Hn as [_ ?]|by apply IH].
    - destruct (key_of cols x); [apply sublist_cons, IH; by apply NoDup_cons in Hn as [_ ?]|by apply IH]. }
  by eapply sublist_NoDup.
Qed.

Section constraints.
Context (sch : catalog) (e : Sess).
Hypothesis sch_wf : dict_wf sch.

(** The foreign keys of a row after a change of [t]: those into [t] are
    checked, the tables of the others are as before. *)
Lemma fkeys_after t db db' t' td' r :
  refs_ok sch t db' = true -> (forall t2, t2 <> t -> rows t2 db' = rows t2 db) ->
  (t', td') ∈ sch -> r ∈ rows t' db' -> fkeys_ok td' db r = true -> fkeys_ok td' db' r = true.
Proof.
  intros Hrefs Hne Ht Hr. rewrite !fkeys_ok_elim. intros Hold f Hf.
  destruct (decide (fk_table f = t)) as [E|E]; [by eapply refs_ok_elim|].
  eapply fk_ok_rows; [|by apply Hold]. by rewrite Hne.
Qed.

Lemma effect_ok t db db' : effect sch e t db db' -> db_ok sch db -> db_ok sch db'.
Proof.
  intros Heff Hok t' td' Hin. destruct (Hok t' td' Hin) as [Hu Hr].
  destruct Heff as [H|td r0 Ht _ Hrow Hun Hfk H|td sets w Ht _ Hrow Hun Hfk Hrefs H|td w Ht Hrefs H].
  - apply (rows_tables t') in H as E. rewrite E. split; [done|].
    eapply Forall_impl; [exact Hr|]. intros r [? Hf]. split; [done|].
    revert Hf. rewrite !fkeys_ok_elim. intros Hf f Hff. eapply fk_ok_rows; [|by apply Hf].
    by rewrite (rows_tables _ db' db).
  - assert (forall t2, rows t2 db' = if decide (t2 = t) then rows t db ++ [r0] else rows t2 db) as E.
    { intros t2. rewrite (rows_tables _ _ _ H). apply rows_set_rows. }
    assert (forall r, row_ok td' db r -> row_ok td' db' r) as Hmono.
    { intros r [? Hf]. split; [done|]. revert Hf. rewrite !fkeys_ok_elim. intros Hf f Hff.
      eapply fk_ok_rows; [|by apply Hf]. rewrite E. case_decide as D; [rewrite D|done]. set_solver. }
    rewrite E. case_decide as D; [subst t'|eauto using Forall_impl].
    apply (elem_of_dget _ _ _ sch_wf) in Hin. simplify_eq. split; [done|].
    apply Forall_app. split; [eauto using Forall_impl|]. constructor; [by split|constructor].
  - assert (forall t2, rows t2 db' = if decide (t2 = t) then updated e td sets w (rows t db) else rows t2 db) as E.
    { intros t2. rewrite (rows_tables _ _ _ H). apply rows_set_rows. }
    assert (forall t2, t2 <> t -> rows t2 db' = rows t2 db) as Hne.
    { intros t2 ?. rewrite E. by rewrite decide_False. }
    rewrite E. case_decide as D.
    + subst t'. apply (elem_of_dget _ _ _ sch_wf) in Hin as Hin'. simplify_eq. split; [done|].
      apply Forall_forall. intros r Hr'. unfold updated in Hr'.
      pose proof Hr' as Hr2. apply list_elem_of_fmap in Hr' as (r1 & -> & Hr1).
      destruct (hit e td w r1) eqn:Hh.
      * assert (set_row sets r1 ∈ written e td sets w (rows t db)) as Hw.
        { apply list_elem_of_fmap. exists r1. split; [done|]. by apply list_elem_of_filter. }
        rewrite Forall_forall in Hrow, Hfk. split; auto.
      * rewrite Forall_forall in Hr. destruct (Hr _ Hr1) as [? ?]. split; [done|].
        eapply (fkeys_after t); eauto. rewrite E, decide_True by done. done.
    + split; [done|]. apply Forall_forall. intros r Hr'. rewrite Forall_forall in Hr.
      destruct (Hr _ Hr') as [? ?]. split; [done|]. eapply (fkeys_after t); eauto.
      by rewrite Hne.
  - assert (forall t2, rows t2 db' = if decide (t2 = t) then filter (fun r => hit e td w r = false) (rows t db) else rows t2 db) as E.
    { intros t2. rewrite (rows_tables _ _ _ H). apply rows_set_rows. }
    assert (forall t2, t2 <> t -> rows t2 db' = rows t2 db) as Hne.
    { intros t2 ?. rewrite E. by rewrite decide_False. }
    assert (rows t' db' `sublist_of` rows t' db) as Hsub.
    { rewrite E. case_decide as D; [subst; apply sublist_filter|done]. }
    split.
    + unfold unique_ok in *. rewrite forallb_Forall in *. eapply Forall_impl; [exact Hu|].
      intros u. by apply key_ok_sublist.
    + apply Forall_forall. intros r Hr'. rewrite Forall_forall in Hr.
      destruct (Hr r) as [? ?]; [by eapply elem_of_sublist|]. split; [done|].
      by eapply (fkeys_after t).
Qed.
End constraints.

(** ** What a conflict clause leaves *)

(** After [INSERT ... ON CONFLICT DO NOTHING] a row under the key is there. *)
Lemma insert_has_key sch e t td vals c s db rs db' :
  dget t sch = Some td -> insert sch e t vals (DoNothing (Some [c])) db = (Ok rs, db') ->
  (forall db r db', build_row e (tb_cols td) vals db = (r, db') -> col c r = VText s) ->
  exists r, r ∈ rows t db' /\ col c r = VText s.
Proof.
  intros Ht E Hk. unfold insert, with_table in E. rewrite Ht in E.
  case_match; [done|]. destruct (build_row _ _ _ _) as [r0 db0] eqn:Hb.
  apply Hk in Hb. destruct (negb _); [done|]. destruct (row_error td r0); [done|].
  destruct (clash _ _ _ _) eqn:Hc.
  - simplify_eq. apply existsb_exists in Hc as (r & Hr%list_elem_of_In & Hsame). exists r.
    split; [done|]. unfold same_key, key_of in Hsame. simpl in Hsame. rewrite Hb in Hsame.
    rewrite decide_False in Hsame by set_solver. apply bool_decide_eq_true in Hsame.
    case_decide; simplify_eq. congruence.
  - unfold add_row in E. repeat case_match; simplify_eq. rewrite rows_set_rows_eq.
    exists r0. split; [set_solver|done].
Qed.

(** ** Row-level security *)

(** The rows of a table that belong to other tenants. *)
Definition others (g t : string) (db : Db) : list row :=
  filter (fun r => col "tenant_id" r <> VText g) (rows t db).

Section fence.
Context (sch : catalog) (e : Sess).
Hypothesis narrow : ss_guc e <> "_system".

Lemma visible_tenant td r :
  rls_bound e td = true -> visible e td r = true -> col "tenant_id" r = VText (ss_guc e).
Proof.
  unfold visible, policy_ok. intros -> H. simpl in H. apply andb_true_iff in H as [_ H].
  rewrite bool_decide_eq_false_2 in H by done. by apply bool_decide_eq_true in H.
Qed.

(** A statement of the session leaves the rows of other tenants as they are in
    every table that binds it. *)
Lemma effect_fence t db db' t' td' :
  effect sch e t db db' -> dget t' sch = Some td' -> rls_bound e td' = true ->
  others (ss_guc e) t' db' = others (ss_guc e) t' db.
Proof.
  intros Heff Ht' Hb. unfold others.
  destruct Heff as [H|td r0 Ht Hv _ _ _ H|td sets w Ht Hv _ _ _ _ H|td w Ht _ H];
    rewrite (rows_tables _ _ _ H); try done;
    rewrite rows_set_rows; case_decide as D; try done; subst t'; simplify_eq.
  - rewrite filter_app, filter_cons_False, filter_nil, app_nil_r; [done|].
    intros Hne. apply Hne. by eapply visible_tenant.
  - unfold updated. unfold written in Hv. clear H. revert Hv.
    induction (rows t db) as [|r rs IH]; simpl; [done|]. rewrite filter_cons.
    destruct (hit e td w r) eqn:Hh; simpl; intros Hv.
    + apply Forall_cons in Hv as [Hv1 Hv]. rewrite !filter_cons.
      rewrite (decide_False (P := col "tenant_id" (set_row sets r) <> _))
        by (intros Hne; apply Hne; by eapply visible_tenant).
      rewrite (decide_False (P := col "tenant_id" r <> _)); [by apply IH|].
      intros Hne. apply Hne. eapply visible_tenant; [done|].
      unfold hit in Hh. by apply andb_true_iff in Hh as [? _].
    + rewrite !filter_cons. case_decide; [f_equal|]; by apply IH.
  - clear H. induction (rows t db) as [|r rs IH]; simpl; [done|]. rewrite !filter_cons.
    destruct (hit e td w r) eqn:Hh; simpl.
    + rewrite (decide_False (P := col "tenant_id" r <> _)); [done|].
      intros Hne. apply Hne. eapply visible_tenant; [done|].
      unfold hit in Hh. by apply andb_true_iff in Hh as [? _].
    + rewrite !filter_cons. case_decide; [f_equal|]; done.
Qed.

(** What it reads there belongs to its tenant. *)
Lemma select_fence t td w by_ limit db rs db' :
  dget t sch = Some td -> rls_bound e td = true -> select sch e t w by_ limit db = (Ok rs, db') ->
  Forall (fun r => col "tenant_id" r = VText (ss_guc e)) rs.
Proof.
  intros Ht Hb. unfold select, with_table. rewrite Ht.
  assert (Forall (fun r => col "tenant_id" r = VText (ss_guc e))
    (sort_by (order_le by_) (filter (fun r => hit e td w r = true) (ss_scan e (rows t db))))) as Hall.
  { apply Forall_forall. intros r. rewrite sort_by_perm, list_elem_of_filter. unfold hit.
    intros [[Hv _]%andb_true_iff _]. by eapply visible_tenant. }
  repeat case_match; intros E; simplify_eq; [|done]. by apply Forall_take.
Qed.
End fence.
