(* ===== verification/Migrations.v ===== *)
(** * Schema migrations (migrations.py) and the schema they build

    The migration files are lists of the DDL statements they hold; a run reads
    which versions are recorded, applies the others in order, each in a
    transaction with its record. Indexes that are not unique, grants, the
    creation of the application role and the database default of
    [app.current_tenant] do not affect what statements do and are left out. *)
From S2P Require Import Prelude PyText Json StoreState Sql.

(** ** Statements of the migration files *)

Inductive ddl : Type :=
  | CreateTable (if_not_exists : bool) (t : string) (td : table)
  | AddColumn (t : string) (c : column)
  | DropConstraint (t : string) (name : string)
  | AddUnique (t : string) (name : string) (cols : list string)
  | CreatePolicy (t : string)
  | EnableRls (t : string)
  | ForceRls (t : string)
  | Seed (t : string) (vals : list (string * sval)) (key : list string).

(** A database with its catalog. *)
Record Cluster : Type := mkCluster { cl_cat : catalog; cl_db : Db }.

Definition alter (t : string) (f : table -> res table) : M Cluster unit :=
  fun st => match dget t (cl_cat st) with
            | None => (Raise (PgError UndefinedTableError), st)
            | Some td => match f td with
                         | Ok td' => (Ok tt, mkCluster (dset t td' (cl_cat st)) (cl_db st))
                         | Raise e => (Raise e, st)
                         end
            end.
(** A new column is filled with its default; the files add nullable columns
    and columns with a literal default. *)
Definition fill_column (t : string) (c : column) (db : Db) : Db :=
  let v := match c_default c with DLit v => v | _ => VNull end in
  set_rows t ((fun r => r ++ [(c_name c, v)]) <$> rows t db) db.

Definition apply_ddl (e : Sess) (d : ddl) : M Cluster unit :=
  match d with
  | CreateTable ine t td => fun st =>
      if dmem t (cl_cat st)
      then if ine then (Ok tt, st) else (Raise (PgError DuplicateObjectError), st)
      else (Ok tt, mkCluster (dset t td (cl_cat st)) (set_rows t [] (cl_db st)))
  | AddColumn t c => fun st =>
      match dget t (cl_cat st) with
      | None => (Raise (PgError UndefinedTableError), st)
      | Some td =>
          match find_col (c_name c) (tb_cols td) with
          | Some _ => (Ok tt, st)
          | None =>
              (Ok tt, mkCluster (dset t (mkTable (tb_cols td ++ [c]) (tb_unique td) (tb_check td)
                                           (tb_fkeys td) (tb_policy td) (tb_rls td)) (cl_cat st))
                        (fill_column t c (cl_db st)))
          end
      end
  | DropConstraint t name => alter t (fun td =>
      Ok (mkTable (tb_cols td) (filter (fun u => u.1 <> name) (tb_unique td))
            (filter (fun u => u.1 <> name) (tb_check td))
            (filter (fun f => fk_name f <> name) (tb_fkeys td)) (tb_policy td) (tb_rls td)))
  | AddUnique t name cols => fun st => alter t (fun td =>
      if dmem name (tb_unique td) then Ok td
      else if key_ok cols (rows t (cl_db st))
           then Ok (mkTable (tb_cols td) (tb_unique td ++ [(name, cols)]) (tb_check td)
                      (tb_fkeys td) (tb_policy td) (tb_rls td))
           else Raise (PgError UniqueViolationError)) st
  | CreatePolicy t => alter t (fun td =>
      if tb_policy td then Raise (PgError DuplicateObjectError)
      else Ok (mkTable (tb_cols td) (tb_unique td) (tb_check td) (tb_fkeys td) true (tb_rls td)))
  | EnableRls t => alter t (fun td =>
      Ok (mkTable (tb_cols td) (tb_unique td) (tb_check td) (tb_fkeys td) (tb_policy td)
            (match tb_rls td with RlsOff => RlsOn | x => x end)))
  | ForceRls t => alter t (fun td =>
      Ok (mkTable (tb_cols td) (tb_unique td) (tb_check td) (tb_fkeys td) (tb_policy td) RlsForced))
  | Seed t vals key => fun st =>
      let '(r, db) := insert (cl_cat st) e t vals (DoNothing (Some key)) (cl_db st) in
      (match r with Ok _ => Ok tt | Raise x => Raise x end, mkCluster (cl_cat st) db)
  end.

(** ** migrations.py *)

Record Migration : Type := mkMigration {
  mig_version : string; mig_name : string; mig_sql : list ddl
}.

(** [stem.split("_", 1)] *)
Fixpoint split_underscore (l : list ascii) : list ascii * option (list ascii) :=
  match l with
  | [] => ([], None)
  | c :: l' => if decide (c = "_"%char) then ([], Some l')
               else let '(a, b) := split_underscore l' in (c :: a, b)
  end.
(** The files of the directory by stem, or [None] when it is not there. *)
Definition load_migrations (dir : option (list (string * list ddl))) : list Migration :=
  match dir with
  | None => []
  | Some files =>
      sort_by (fun a b => String.leb (mig_version a) (mig_version b))
        ((fun f => let '(v, n) := split_underscore (chars f.1) in
                   mkMigration (of_chars v) (from_option of_chars f.1 n) f.2)
         <$> sort_by (fun a b => String.leb a.1 b.1) files)
  end.

Definition text (c : string) : column := mkColumn c TText true DNone.
Definition text_null (c : string) : column := mkColumn c TText false DNone.
Definition text_or (c s : string) : column := mkColumn c TText true (DLit (VText s)).
Definition int_or (c : string) (z : Z) : column := mkColumn c TInt32 true (DLit (VInt z)).
Definition bool_or (c : string) (b : bool) : column := mkColumn c TBool true (DLit (VBool b)).
Definition jsonb_or (c : string) (j : json) : column := mkColumn c TJson true (DLit (VJson j)).
Definition ts (c : string) : column := mkColumn c TTime true DNone.
Definition ts_now (c : string) : column := mkColumn c TTime true DNow.
Definition ts_null (c : string) : column := mkColumn c TTime false DNone.
Definition serial (t c : string) : column :=
  mkColumn c TInt64 true (DSerial (t +:+ "_" +:+ c +:+ "_seq")).
(** Constraints under the names PostgreSQL gives them. *)
Definition pkey (t : string) (cols : list string) : string * list string := (t +:+ "_pkey", cols).
Definition ukey (t : string) (cols : list string) : string * list string :=
  (t +:+ "_" +:+ join "_" cols +:+ "_key", cols).
Definition refs (t c t' c' : string) : fkey := mkFkey (t +:+ "_" +:+ c +:+ "_fkey") c t' c'.

Definition SCHEMA_VERSION_TABLE : ddl :=
  CreateTable true "schema_migrations"
    (mkTable [text "version"; text "name"; ts_now "applied_at"]
       [pkey "schema_migrations" ["version"]] [] [] false RlsOff).

Definition transaction_c {A} (m : M Cluster A) : M Cluster A := fun st =>
  match m st with
  | (Ok a, st') => (Ok a, st')
  | (Raise e, st') =>
      (Raise e, mkCluster (cl_cat st) (mkDb (db_tables (cl_db st)) (db_seqs (cl_db st'))))
  end.

(** One pending migration: its statements and its record, or nothing. *)
Definition apply_migration (e : Sess) (mig : Migration) : M Cluster unit :=
  transaction_c
    (for_each (mig_sql mig) (apply_ddl e) ;;;
     apply_ddl e (Seed "schema_migrations"
       [("version", VText (mig_version mig)); ("name", VText (mig_name mig))] ["version"])).
Fixpoint apply_pending (e : Sess) (applied : list string) (migs : list Migration)
    : M Cluster (list string) :=
  match migs with
  | [] => ret []
  | mig :: migs' =>
      if bool_decide (mig_version mig ∈ applied) then apply_pending e applied migs'
      else apply_migration e mig ;;;
           let! done := apply_pending e applied migs' in ret (mig_version mig :: done)
  end.
Definition applied_versions (st : Cluster) : list string :=
  omap (fun r => match col "version" r with VText v => Some v | _ => None end)
    (rows "schema_migrations" (cl_db st)).
(** [run_migrations(pool)]: the advisory lock makes concurrent runs wait, so a
    run is one step. *)
Definition run_migrations (e : Sess) (dir : option (list (string * list ddl)))
    : M Cluster (list string) :=
  apply_ddl e SCHEMA_VERSION_TABLE ;;;
  let! applied := gets applied_versions in
  apply_pending e applied (load_migrations dir).
