(* ===== verification/Schema.v ===== *)
(** * The migration files (migrations/*.sql)

    [migration_files] holds the twenty files by stem; [schema] is the catalog
    they build on an empty database, which the statements of PgStore run
    against. *)
From S2P Require Import Prelude PyText Json StoreState Sql Migrations.

Definition tenant_fk (t : string) : fkey := refs t "tenant_id" "tenants" "tenant_id".
Definition user_fk (t c : string) : fkey := refs t c "users" "user_id".
Definition plain (t : string) (cols : list column) (u : list (string * list string))
    (fks : list fkey) : ddl :=
  CreateTable true t (mkTable cols u [] fks false RlsOff).

Definition seed_json (perms : list (string * list string)) : json :=
  JObj ((fun ra => (ra.1, jlist ra.2)) <$> perms).
Definition role_seed (r : string * RoleSeed) : ddl :=
  Seed "roles" [("role", VText r.1); ("display_name", VText (rs_display_name r.2));
                ("permissions", VJson (jsonb_norm (seed_json (rs_permissions r.2))))] ["role"].

Definition m0001_baseline : list ddl :=
  [CreateTable true "tenants"
     (mkTable [text "tenant_id"; text "display_name"; text_or "status" "active";
               text_or "plan" "team"; ts_now "created_at"; ts_null "disabled_at"; ts_null "deleted_at"]
        [pkey "tenants" ["tenant_id"]]
        [("tenants_status_chk", ("status", ["active"; "disabled"; "deleted"]))] [] false RlsOff);
   CreateTable true "users"
     (mkTable [text "user_id"; text "username"; text_null "email"; text_or "password_hash" "";
               text_or "password_hash_v" ""; text_or "salt" ""; text_or "password_algo" "scrypt";
               text_or "status" "active"; mkColumn "failed_attempts" TInt16 true (DLit (VInt 0));
               ts_null "locked_until"; bool_or "must_change_password" false;
               ts_null "last_login_at"; ts_now "created_at"]
        [pkey "users" ["user_id"]; ukey "users" ["email"]]
        [("users_algo_chk", ("password_algo", ["argon2id"; "scrypt"; "legacy"]));
         ("users_status_chk", ("status", ["active"; "disabled"; "locked"]))] [] false RlsOff);
   plain "tenant_members"
     [text "tenant_id"; text "user_id"; text "role"; text_null "added_by"; ts_now "added_at";
      ts_now "joined_at"]
     [pkey "tenant_members" ["tenant_id"; "user_id"]]
     [tenant_fk "tenant_members"; user_fk "tenant_members" "user_id"; user_fk "tenant_members" "added_by"];
   plain "api_keys"
     [text "key_id"; text "tenant_id"; text_null "user_id"; text "key_hash"; text "prefix";
      jsonb_or "scopes" (JArr []); ts_now "created_at"; ts_null "revoked_at"]
     [pkey "api_keys" ["key_id"]] [tenant_fk "api_keys"; user_fk "api_keys" "user_id"];
   plain "roles"
     [text "role"; text "display_name"; mkColumn "permissions" TJson true DNone]
     [pkey "roles" ["role"]] [];
   plain "quotas"
     [text "tenant_id"; int_or "rpm" 60; int_or "tpm" 100000; int_or "concurrent" 4;
      int_or "storage_mb" 10240; jsonb_or "allowed_models" (JArr []); ts_now "updated_at"]
     [pkey "quotas" ["tenant_id"]] [tenant_fk "quotas"];
   plain "usage_ledger"
     [serial "usage_ledger" "id"; text "tenant_id"; mkColumn "bucket_hour" TTime true DHour;
      text "metric"; mkColumn "value" TInt64 true DNone; text_or "source" ""; text_null "model";
      text_null "user_id"; ts_now "ts"]
     [pkey "usage_ledger" ["id"]; ukey "usage_ledger" ["tenant_id"; "bucket_hour"; "metric"; "source"]]
     [tenant_fk "usage_ledger"];
   plain "tenant_usage_daily"
     [text "tenant_id"; mkColumn "bucket_day" TDate true DNone; text "metric"; text_or "source" "";
      mkColumn "value" TInt64 true (DLit (VInt 0))]
     [pkey "tenant_usage_daily" ["tenant_id"; "bucket_day"; "metric"; "source"]]
     [tenant_fk "tenant_usage_daily"];
   CreateTable true "refresh_tokens"
     (mkTable [text "jti"; text "family_id"; text "tenant_id"; text "user_id";
               text_or "status" "active"; ts_now "issued_at"; ts "expires_at"; text_null "replaced_by"]
        [pkey "refresh_tokens" ["jti"]]
        [("rt_status_chk", ("status", ["active"; "rotated"; "revoked"]))]
        [tenant_fk "refresh_tokens"; user_fk "refresh_tokens" "user_id";
         refs "refresh_tokens" "replaced_by" "refresh_tokens" "jti"] false RlsOff);
   plain "revoked_jtis"
     [text "jti"; text "tenant_id"; text_null "user_id"; ts_now "revoked_at"; text_null "reason";
      ts "expires_at"]
     [pkey "revoked_jtis" ["jti"]] [tenant_fk "revoked_jtis"; user_fk "revoked_jtis" "user_id"];
   plain "audit_log"
     [serial "audit_log" "id"; mkColumn "seq" TInt64 true (DSerial "audit_seq_seq");
      text "tenant_id"; text_null "user_id"; text_null "jti"; text_null "role"; text "action";
      text_null "resource"; mkColumn "detail" TJson false DNone; text "chain_hash";
      text_or "prev_hash" ""; ts_now "ts"]
     [pkey "audit_log" ["id"]; ukey "audit_log" ["seq"]] [];
   plain "migration_orphans"
     [serial "migration_orphans" "id"; text "source_table"; text "source_pk"; text "reason";
      ts_now "detected_at"]
     [pkey "migration_orphans" ["id"]] []]
  ++ (role_seed <$> ROLES_SEED).

Definition m0002_idp_mfa : list ddl :=
  [plain "identity_providers"
     [text "idp_id"; text "tenant_id"; text "type"; text_null "issuer_url"; text_null "client_id";
      text_null "client_secret_enc"; text_null "scopes"; bool_or "auto_provision" false;
      ts_now "created_at"]
     [pkey "identity_providers" ["idp_id"]] [tenant_fk "identity_providers"];
   plain "user_mfa"
     [text "user_id"; text "method"; text "secret_enc"; ts_now "enrolled_at"; bool_or "enabled" true]
     [pkey "user_mfa" ["user_id"; "method"]] [user_fk "user_mfa" "user_id"]].

Definition m0003_concurrency_priority : list ddl :=
  [AddColumn "quotas" (int_or "default_priority" 0);
   AddColumn "quotas" (jsonb_or "allowed_modules" (JArr []));
   CreateTable true "lease_log"
     (mkTable [serial "lease_log" "id"; text "tenant_id"; text "lease_id"; text "action";
               text_null "reason"; ts_now "created_at"]
        [pkey "lease_log" ["id"]]
        [("lease_action_chk", ("action", ["acquire"; "release"; "expire"]))] [] false RlsOff)].

Definition usage_key : string := "usage_ledger_tenant_id_bucket_hour_metric_source_model_key".
Definition m0004_usage_model_dimension : list ddl :=
  [DropConstraint "usage_ledger" "usage_ledger_tenant_id_bucket_hour_metric_source_key";
   DropConstraint "usage_ledger" usage_key;
   AddUnique "usage_ledger" usage_key ["tenant_id"; "bucket_hour"; "metric"; "source"; "model"]].

Definition m0005_issued_jtis : list ddl :=
  [plain "issued_jtis"
     [text "jti"; text "tenant_id"; text "user_id"; ts_now "issued_at"; ts "expires_at"]
     [pkey "issued_jtis" ["jti"]] [tenant_fk "issued_jtis"; user_fk "issued_jtis" "user_id"]].

Definition m0006_add_users_display_name : list ddl := [AddColumn "users" (text_null "display_name")].

Definition rls_tables : list string :=
  ["tenant_members"; "api_keys"; "quotas"; "usage_ledger"; "tenant_usage_daily"; "refresh_tokens";
   "revoked_jtis"; "issued_jtis"; "audit_log"; "identity_providers"; "lease_log"; "tenants"].
Definition m0007_rls_strong_isolation : list ddl :=
  (CreatePolicy <$> rls_tables) ++ (EnableRls <$> rls_tables) ++ (ForceRls <$> rls_tables).

(** The later tables enable row-level security and do not force it. *)
Definition fenced_table (t : string) (cols : list column) (u : list (string * list string))
    (fks : list fkey) : list ddl :=
  [CreateTable false t (mkTable cols u [] fks false RlsOff); EnableRls t; CreatePolicy t].

Definition m0008_departments : list ddl :=
  fenced_table "departments"
    [mkColumn "dept_id" TUuid true DUuid; text "tenant_id"; text "name";
     mkColumn "parent_id" TUuid false DNone; jsonb_or "tool_allowlist" (JArr []);
     ts_now "created_at"; ts_now "updated_at"]
    [pkey "departments" ["dept_id"]]
    [tenant_fk "departments"; refs "departments" "parent_id" "departments" "dept_id"].

Definition m0009_rbac_custom_roles : list ddl :=
  fenced_table "custom_roles"
    [text "role_id"; text "tenant_id"; text "display_name"; jsonb_or "write_classes" (JArr []);
     ts_now "created_at"; ts_now "updated_at"]
    [pkey "custom_roles" ["tenant_id"; "role_id"]] [tenant_fk "custom_roles"]
  ++ fenced_table "role_menu_matrix"
    [text "tenant_id"; text "role_id"; jsonb_or "menus" (JArr []); ts_now "updated_at"]
    [pkey "role_menu_matrix" ["tenant_id"; "role_id"]] [tenant_fk "role_menu_matrix"]
  ++ fenced_table "known_menus"
    [text "tenant_id"; text "menu"; ts_now "created_at"]
    [pkey "known_menus" ["tenant_id"; "menu"]] [tenant_fk "known_menus"].

Definition plan_quota_json (q : Quota) : json :=
  JObj [("rpm", JInt (q_rpm q)); ("tpm", JInt (q_tpm q)); ("concurrent", JInt (q_concurrent q));
        ("storage_mb", JInt (q_storage_mb q)); ("allowed_models", jlist (q_allowed_models q));
        ("allowed_modules", jlist (q_allowed_modules q));
        ("default_priority", JInt (q_default_priority q))].
Definition plan_seed (p : string * Quota) : ddl :=
  Seed "plan_templates" [("plan", VText p.1); ("quota", VJson (jsonb_norm (plan_quota_json p.2)))] ["plan"].
Definition m0010_provisioning : list ddl :=
  [CreateTable false "plan_templates"
     (mkTable [text "plan"; jsonb_or "quota" (JObj []); ts_now "updated_at"]
        [pkey "plan_templates" ["plan"]] [] [] false RlsOff);
   CreateTable false "idempotency_keys"
     (mkTable [text "idem_key"; text "endpoint"; mkColumn "response" TJson true DNone; ts_now "created_at"]
        [pkey "idempotency_keys" ["idem_key"]] [] [] false RlsOff);
   CreateTable false "event_outbox"
     (mkTable [text "event_id"; serial "event_outbox" "seq"; text "event_type"; text "tenant_id";
               jsonb_or "payload" (JObj []); text_or "status" "pending"; int_or "attempts" 0;
               ts_now "created_at"; ts_now "updated_at"]
        [pkey "event_outbox" ["event_id"]; ukey "event_outbox" ["seq"]] []
        [tenant_fk "event_outbox"] false RlsOff)]
  ++ (plan_seed <$> PLAN_TEMPLATES)
  ++ [EnableRls "event_outbox"; CreatePolicy "event_outbox"].

Definition m0013_app_secrets : list ddl :=
  [plain "app_secrets"
     [text "secret_id"; text "app_id"; mkColumn "version" TInt32 true DNone; text "secret_hash";
      text "prefix"; text "status"; ts_null "grace_until"; ts_now "created_at"]
     [pkey "app_secrets" ["secret_id"]] [];
   AddUnique "app_secrets" "uq_app_secrets_app_version" ["app_id"; "version"]].

Definition m0014_drop_issued_jtis_user_fk : list ddl :=
  [DropConstraint "issued_jtis" "issued_jtis_user_id_fkey"].
Definition m0015_drop_revoked_jtis_user_fk : list ddl :=
  [DropConstraint "revoked_jtis" "revoked_jtis_user_id_fkey"].

Definition m0016_app_credentials : list ddl :=
  [plain "app_credentials"
     [text "app_id"; text "name"; text "secret_enc"; ts_now "created_at"; ts_now "updated_at";
      mkColumn "fetch_count" TInt64 true (DLit (VInt 0)); ts_null "last_fetched_at"]
     [pkey "app_credentials" ["app_id"; "name"]] []].

Definition m0017_email_verification : list ddl :=
  [AddColumn "users" (bool_or "email_verified" true);
   AddColumn "users" (text_null "email_verify_token_hash");
   AddColumn "users" (ts_null "email_verify_expires")].

Definition m0018_join_policy : list ddl :=
  [AddColumn "tenants" (text_or "join_policy" "invite");
   plain "tenant_invites"
     [text "invite_id"; text "tenant_id"; text "token_hash"; text_or "role" "member";
      text_null "email"; text_null "created_by"; ts "expires_at"; ts_null "used_at";
      text_null "used_by"; ts_now "created_at"]
     [pkey "tenant_invites" ["invite_id"]; ukey "tenant_invites" ["token_hash"]]
     [tenant_fk "tenant_invites"; user_fk "tenant_invites" "created_by"; user_fk "tenant_invites" "used_by"];
   CreateTable true "join_requests"
     (mkTable [text "request_id"; text "tenant_id"; text "user_id"; text_or "status" "pending";
               text_null "decided_by"; ts_null "decided_at"; ts_now "created_at"]
        [pkey "join_requests" ["request_id"];
         ("join_requests_unique_pending", ["tenant_id"; "user_id"; "status"])]
        [("join_requests_status_chk", ("status", ["pending"; "approved"; "rejected"; "cancelled"]))]
        [tenant_fk "join_requests"; user_fk "join_requests" "user_id"; user_fk "join_requests" "decided_by"]
        false RlsOff)].

Definition m0019_sso_tickets : list ddl :=
  [plain "sso_tickets"
     [text "ticket_hash"; text "user_id"; text "tenant_id"; ts "expires_at"; ts_null "used_at";
      ts_now "created_at"]
     [pkey "sso_tickets" ["ticket_hash"]] [user_fk "sso_tickets" "user_id"; tenant_fk "sso_tickets"]].

Definition m0020_password_reset : list ddl :=
  [AddColumn "users" (text_null "password_reset_token_hash");
   AddColumn "users" (ts_null "password_reset_expires")].

Definition migration_files : list (string * list ddl) :=
  [("0001_baseline", m0001_baseline);
   ("0002_idp_mfa", m0002_idp_mfa);
   ("0003_concurrency_priority", m0003_concurrency_priority);
   ("0004_usage_model_dimension", m0004_usage_model_dimension);
   ("0005_issued_jtis", m0005_issued_jtis);
   ("0006_add_users_display_name", m0006_add_users_display_name);
   ("0007_rls_strong_isolation", m0007_rls_strong_isolation);
   ("0008_departments", m0008_departments);
   ("0009_rbac_custom_roles", m0009_rbac_custom_roles);
   ("0010_provisioning", m0010_provisioning);
   ("0011_business_audit_gin", []);
   ("0012_single_database_convergence", []);
   ("0013_app_secrets", m0013_app_secrets);
   ("0014_drop_issued_jtis_user_fk", m0014_drop_issued_jtis_user_fk);
   ("0015_drop_revoked_jtis_user_fk", m0015_drop_revoked_jtis_user_fk);
   ("0016_app_credentials", m0016_app_credentials);
   ("0017_email_verification", m0017_email_verification);
   ("0018_join_policy", m0018_join_policy);
   ("0019_sso_tickets", m0019_sso_tickets);
   ("0020_password_reset", m0020_password_reset)].

(** The session of a migration run: the operator's account at time [now]. *)
Definition operator (now : Z) : Sess := mkSess now "_system" Superuser id "".
Definition empty_cluster : Cluster := mkCluster [] (mkDb [] []).
Definition migrated (now : Z) : res (list string) * Cluster :=
  run_migrations (operator now) (Some migration_files) empty_cluster.

(** The catalog the files build. *)
Definition schema : catalog := Eval vm_compute in cl_cat (migrated 0).2.
Definition fresh_db (now : Z) : Db := cl_db (migrated now).2.
#[global] Arguments schema : simpl never.

(** * What a migration run guarantees (migrations.py)

    For any directory of migration files and any database: a second run after
    a successful one does nothing; a run that fails leaves exactly the
    migrations before the failing one, each recorded, and none of the failing
    one. The twenty files of the repository build [schema]. *)

(** ** Recorded versions stay recorded *)

Definition versions_row (r : row) : option string :=
  match col "version" r with VText v => Some v | _ => None end.
Definition has_ledger (st : Cluster) : Prop := is_Some (dget "schema_migrations" (cl_cat st)).
Definition recorded_kept (st st' : Cluster) : Prop :=
  has_ledger st -> has_ledger st' /\ applied_versions st ⊆ applied_versions st'.
#[local] Instance recorded_kept_preorder : PreOrder recorded_kept.
Proof.
  split; [by intros st|]. intros s1 s2 s3 H12 H23 H1. destruct (H12 H1) as [H2 ?].
  destruct (H23 H2). split; [done|set_solver].
Qed.

Lemma recorded_same st st' :
  cl_cat st' = cl_cat st -> rows "schema_migrations" (cl_db st) `prefix_of` rows "schema_migrations" (cl_db st') ->
  recorded_kept st st'.
Proof.
  intros E [l Hl] Hs. split; [unfold has_ledger; by rewrite E|]. unfold applied_versions. rewrite Hl.
  rewrite omap_app. set_solver.
Qed.

Lemma dget_app_l {V} k (d d' : list (string * V)) v : dget k d = Some v -> dget k (d ++ d') = Some v.
Proof. induction d as [|[k' v'] d IH]; simpl; [done|]. by case_decide. Qed.

Lemma alter_kept t f st r st' : alter t f st = (r, st') -> recorded_kept st st'.
Proof.
  unfold alter. intros E. destruct (dget t (cl_cat st)) as [td|] eqn:Ht; [|by simplify_eq].
  destruct (f td); simplify_eq; [|done]. intros [x Hx]. split; [|done]. unfold has_ledger. simpl.
  rewrite dget_dset. case_decide; eauto.
Qed.

Lemma insert_prefix sch e t t' vals target db r db' :
  insert sch e t vals (DoNothing target) db = (r, db') -> rows t' db `prefix_of` rows t' db'.
Proof.
  unfold insert, with_table, pg_raise, raise. intros E. destruct (dget t sch) as [td|]; [|by simplify_eq].
  case_match; [by simplify_eq|]. destruct (build_row _ _ _ _) as [r0 db1] eqn:Hb.
  apply build_row_tables in Hb. assert (rows t' db = rows t' db1) as -> by by apply rows_tables.
  unfold add_row in E. repeat case_match; simplify_eq; try done.
  rewrite rows_set_rows. case_decide; [subst; by eexists|done].
Qed.

Lemma apply_ddl_kept e d st r st' : apply_ddl e d st = (r, st') -> recorded_kept st st'.
Proof.
  destruct d as [ine t td|t c|t n|t n cols|t|t|t|t vals key]; simpl; intros E;
    try (by eapply alter_kept).
  - unfold dmem in E. destruct (dget t (cl_cat st)) as [x|] eqn:Ht; simpl in E;
      [by destruct ine; simplify_eq|]. simplify_eq. intros [x Hx]. unfold has_ledger, applied_versions. simpl.
    assert (t <> "schema_migrations") as Hne by congruence. rewrite dget_dset, decide_False by done.
    rewrite rows_set_rows_ne by done. split; [by eexists|done].
  - destruct (dget t (cl_cat st)) as [td|] eqn:Ht; [|by simplify_eq].
    destruct (find_col _ _); simplify_eq; [done|]. intros [x Hx]. unfold has_ledger, applied_versions. simpl.
    split; [rewrite dget_dset; case_decide; eauto|]. unfold fill_column. rewrite rows_set_rows.
    case_decide as D; [subst|done]. intros v (r & Hr & Ev)%list_elem_of_omap.
    apply list_elem_of_omap. eexists. split; [apply list_elem_of_fmap; by exists r|]. simpl.
    unfold col in *. destruct (dget "version" r) as [y|] eqn:Ey; [|done].
    by rewrite (dget_app_l _ _ _ y Ey).
  - destruct (insert _ _ _ _ _ _) as [res db'] eqn:Ei. simplify_eq. apply recorded_same; [done|]. simpl.
    by eapply insert_prefix.
Qed.

Lemma for_each_kept e ds st r st' : for_each ds (apply_ddl e) st = (r, st') -> recorded_kept st st'.
Proof.
  revert st. induction ds as [|d ds IH]; intros st E; simpl in E; [by injection E as <- <-|].
  unfold bind in E. destruct (apply_ddl e d st) as [[[]|x] st1] eqn:Ed.
  - etransitivity; [by eapply apply_ddl_kept|by apply IH].
  - simplify_eq. by eapply apply_ddl_kept.
Qed.

(** A recorded migration: its version is on the ledger afterwards. *)
Lemma apply_migration_ok e mig st st' :
  has_ledger st -> apply_migration e mig st = (Ok tt, st') ->
  recorded_kept st st' /\ mig_version mig ∈ applied_versions st'.
Proof.
  intros Hl E. unfold apply_migration, transaction_c, bind in E.
  destruct (for_each _ _ st) as [[[]|x] st1] eqn:Ef; [|done].
  destruct (apply_ddl e (Seed _ _ _) st1) as [[[]|x] st2] eqn:Es; simplify_eq.
  split; [etransitivity; [by eapply for_each_kept|by eapply apply_ddl_kept]|].
  simpl in Es. destruct (insert _ _ _ _ _ _) as [res db'] eqn:Ei. destruct res as [rs|]; simplify_eq.
  pose proof (for_each_kept _ _ _ _ _ Ef Hl) as [[td Ht] _].
  edestruct insert_has_key as (r & Hr & Hv); [exact Ht|exact Ei| |].
  - intros db0 r db1 Hb. eapply build_row_given; [exact Hb| |reflexivity].
    unfold insert, with_table in Ei. rewrite Ht in Ei. destruct (params_error td _) eqn:Hp; [done|].
    unfold params_error in Hp. simpl in Hp. unfold param_error in Hp at 1. simpl in Hp.
    destruct (find_col "version" (tb_cols td)) as [k|] eqn:Hk; [|done].
    by apply find_col_name in Hk.
  - apply list_elem_of_omap. exists r. split; [done|]. simpl. by rewrite Hv.
Qed.

(** ** Runs *)

Lemma apply_pending_ok e applied migs st done_ st' :
  has_ledger st -> applied ⊆ applied_versions st ->
  apply_pending e applied migs st = (Ok done_, st') ->
  recorded_kept st st' /\ (mig_version <$> migs) ⊆ applied_versions st'.
Proof.
  revert st done_ st'. induction migs as [|mig migs IH]; intros st done_ st' Hl Ha E; simpl in E.
  - injection E as <- <-. split; [done|]. set_solver.
  - case_bool_decide as D.
    + apply IH in E as [Hk Hv]; [|done..]. split; [done|]. destruct (Hk Hl) as [_ Hsub]. set_solver.
    + unfold bind in E. destruct (apply_migration e mig st) as [[[]|x] st1] eqn:Em; [|done].
      destruct (apply_migration_ok _ _ _ _ Hl Em) as [Hk1 Hv1]. destruct (Hk1 Hl) as [Hl1 Hs1].
      destruct (apply_pending e applied migs st1) as [[d|x] st2] eqn:Ep; [injection E as <- <-|done].
      apply IH in Ep as [Hk2 Hv2]; [|done|set_solver]. destruct (Hk2 Hl1) as [_ Hs2].
      split; [by transitivity st1|]. set_solver.
Qed.

Lemma apply_pending_nothing e applied migs st :
  (mig_version <$> migs) ⊆ applied -> apply_pending e applied migs st = (Ok [], st).
Proof.
  induction migs as [|mig migs IH]; intros Hs; [done|]. simpl.
  rewrite bool_decide_eq_true_2 by set_solver. apply IH. set_solver.
Qed.

Lemma ledger_there e st r st' : apply_ddl e SCHEMA_VERSION_TABLE st = (r, st') -> r = Ok tt /\ has_ledger st'.
Proof.
  unfold SCHEMA_VERSION_TABLE, apply_ddl, has_ledger, dmem. intros E.
  destruct (dget "schema_migrations" (cl_cat st)) eqn:Ed; simplify_eq; simpl; [by rewrite Ed|].
  by rewrite dget_dset, decide_True.
Qed.

(** [C19] A migration run is idempotent: after a run that succeeded, on any
    database and with any files, another run applies nothing and changes
    nothing. *)
Theorem migrations_idempotent e e' dir st done_ st' :
  run_migrations e dir st = (Ok done_, st') -> run_migrations e' dir st' = (Ok [], st').
Proof.
  unfold run_migrations, bind, gets. intros E.
  destruct (apply_ddl e SCHEMA_VERSION_TABLE st) as [r st1] eqn:El.
  apply ledger_there in El as [-> Hl]. simpl in E.
  apply apply_pending_ok in E as [Hk Hv]; [|done..]. destruct (Hk Hl) as [[td Ht] _].
  unfold SCHEMA_VERSION_TABLE, apply_ddl, dmem. rewrite Ht. simpl. by apply apply_pending_nothing.
Qed.

(** Statements that leave the version table alone, as those of the files do. *)
Definition ddl_table (d : ddl) : string :=
  match d with
  | CreateTable _ t _ | AddColumn t _ | DropConstraint t _ | AddUnique t _ _ | CreatePolicy t
  | EnableRls t | ForceRls t | Seed t _ _ => t
  end.
Definition apart (d : ddl) : Prop := ddl_table d <> "schema_migrations".
#[export] Instance apart_dec d : Decision (apart d).
Proof. unfold apart. apply _. Defined.

Lemma alter_rows t f st r st' : alter t f st = (r, st') -> cl_db st' = cl_db st.
Proof. unfold alter. intros E. repeat case_match; by simplify_eq. Qed.
Lemma apply_ddl_apart e d st r st' :
  apart d -> apply_ddl e d st = (r, st') ->
  rows "schema_migrations" (cl_db st') = rows "schema_migrations" (cl_db st).
Proof.
  unfold apart. destruct d as [ine t td|t c|t n|t n cols|t|t|t|t vals key]; simpl; intros Ha E;
    try (by rewrite (alter_rows _ _ _ _ _ E)).
  - destruct (dmem t (cl_cat st)); [by destruct ine; simplify_eq|]. simplify_eq. simpl.
    by rewrite rows_set_rows_ne.
  - destruct (dget t (cl_cat st)) as [td|]; [|by simplify_eq].
    destruct (find_col _ _); simplify_eq; [done|]. simpl. unfold fill_column. by rewrite rows_set_rows_ne.
  - destruct (insert _ _ _ _ _ _) as [res db'] eqn:Ei. simplify_eq. simpl.
    destruct (insert_effect _ _ _ _ _ _ _ _ Ei) as [E|? ? ? ? ? ? ? E|? ? ? ? ? ? ? ? ? E|? ? ? ? E];
      by rewrite (rows_tables _ _ _ E), ?rows_set_rows_ne by done.
Qed.
Lemma for_each_apart e ds st r st' :
  Forall apart ds -> for_each ds (apply_ddl e) st = (r, st') ->
  rows "schema_migrations" (cl_db st') = rows "schema_migrations" (cl_db st).
Proof.
  intros Hds. revert st. induction Hds as [|d ds Hd _ IH]; intros st E; simpl in E; [by injection E as <- <-|].
  unfold bind in E. destruct (apply_ddl e d st) as [[[]|x] st1] eqn:Ed.
  - rewrite (IH _ E). by eapply apply_ddl_apart.
  - simplify_eq. by eapply apply_ddl_apart.
Qed.

(** A migration records its own version and no other. *)
Lemma record_row e cat mig db rs db' r :
  insert cat e "schema_migrations" [("version", VText (mig_version mig)); ("name", VText (mig_name mig))]
    (DoNothing (Some ["version"])) db = (Ok rs, db') ->
  r ∈ rows "schema_migrations" db' ->
  r ∈ rows "schema_migrations" db \/ col "version" r = VText (mig_version mig).
Proof.
  unfold insert, with_table, pg_raise, raise. intros E Hr. destruct (dget _ cat) as [td|] eqn:Ht; [|done].
  destruct (params_error td _) eqn:Hp; [done|].
  destruct (build_row _ _ _ _) as [r0 db1] eqn:Hb. pose proof (build_row_tables _ _ _ _ _ _ Hb) as Hdb.
  assert (col "version" r0 = VText (mig_version mig)) as Hv.
  { eapply build_row_given; [exact Hb| |reflexivity]. unfold params_error in Hp. simpl in Hp.
    unfold param_error in Hp at 1. simpl in Hp.
    destruct (find_col "version" (tb_cols td)) as [k|] eqn:Hk; [|done]. by apply find_col_name in Hk. }
  assert (rows "schema_migrations" db1 = rows "schema_migrations" db) as Erows by (symmetry; by apply rows_tables).
  unfold add_row in E. repeat case_match; simplify_eq; try (rewrite Erows in Hr; by left).
  rewrite rows_set_rows, decide_True in Hr by done. rewrite Erows in Hr. apply elem_of_app in Hr as [Hr|Hr]; [by left|].
  right. by apply list_elem_of_singleton in Hr as ->.
Qed.
Lemma apply_migration_only e mig st st' v :
  Forall apart (mig_sql mig) -> apply_migration e mig st = (Ok tt, st') ->
  v ∈ applied_versions st' -> v ∈ applied_versions st \/ v = mig_version mig.
Proof.
  intros Ha E Hv. unfold apply_migration, transaction_c, bind in E.
  destruct (for_each _ _ st) as [[[]|x] st1] eqn:Ef; [|done].
  destruct (apply_ddl e (Seed _ _ _) st1) as [[[]|x] st2] eqn:Es; simplify_eq.
  simpl in Es. destruct (insert _ _ _ _ _ _) as [[rs|] db'] eqn:Ei; simplify_eq.
  apply (for_each_apart _ _ _ _ _ Ha) in Ef.
  apply list_elem_of_omap in Hv as (r & Hr & Hv). simpl in Hr.
  destruct (record_row _ _ _ _ _ _ _ Ei Hr) as [Hr'|Hr'].
  - left. apply list_elem_of_omap. exists r. by rewrite <- Ef.
  - right. rewrite Hr' in Hv. by injection Hv.
Qed.
Lemma apply_pending_only e applied migs st done_ st' v :
  Forall (fun m => Forall apart (mig_sql m)) migs -> apply_pending e applied migs st = (Ok done_, st') ->
  v ∈ applied_versions st' -> v ∈ applied_versions st \/ v ∈ mig_version <$> migs.
Proof.
  intros Ha. revert st done_. induction Ha as [|mig migs Hm _ IH]; intros st d E Hv; simpl in E.
  { injection E as <- <-. by left. }
  rewrite fmap_cons, elem_of_cons. case_bool_decide.
  - destruct (IH _ _ E Hv); auto.
  - unfold bind in E. destruct (apply_migration e mig st) as [[[]|x] st1] eqn:Em; [|done].
    destruct (apply_pending e applied migs st1) as [[d1|x] st2] eqn:Ep; [injection E as <- <-|done].
    destruct (IH _ _ Ep Hv) as [Hv1|]; [|by auto].
    destruct (apply_migration_only _ _ _ _ _ Hm Em Hv1); auto.
Qed.
(** A run that fails stops at one migration, of which nothing is left. *)
Lemma apply_pending_fails e applied migs st x st' :
  apply_pending e applied migs st = (Raise x, st') ->
  exists pre mig post done_ st1,
    migs = pre ++ mig :: post /\ mig_version mig ∉ applied /\
    apply_pending e applied pre st = (Ok done_, st1) /\
    cl_cat st' = cl_cat st1 /\ db_tables (cl_db st') = db_tables (cl_db st1).
Proof.
  revert st st'. induction migs as [|mig migs IH]; intros st st' E; simpl in E; [done|].
  case_bool_decide as D.
  - destruct (IH st st' E) as (pre & m & post & d & st1 & -> & ? & Ep & ?).
    exists (mig :: pre), m, post, d, st1. simpl. by rewrite bool_decide_eq_true_2.
  - unfold bind in E. destruct (apply_migration e mig st) as [[[]|y] st1] eqn:Em.
    + destruct (apply_pending e applied migs st1) as [[d|y] st2] eqn:Ep; [done|]. injection E as -> ->.
      destruct (IH st1 _ Ep) as (pre & m & post & d & st3 & -> & ? & Epre & ?).
      exists (mig :: pre), m, post, (mig_version mig :: d), st3. simpl.
      rewrite bool_decide_eq_false_2 by done. unfold bind. by rewrite Em, Epre.
    + simplify_eq. exists [], mig, migs, [], st. split_and!; try done;
      unfold apply_migration, transaction_c in Em; case_match eqn:Eb; case_match; by simplify_eq.
Qed.
Lemma apply_pending_skip e applied pre migs st :
  (mig_version <$> pre) ⊆ applied -> apply_pending e applied (pre ++ migs) st = apply_pending e applied migs st.
Proof.
  induction pre as [|mig pre IH]; intros Hs; [done|]. simpl. rewrite bool_decide_eq_true_2 by set_solver.
  apply IH. set_solver.
Qed.

(** A run on a given list of migrations: [run_migrations] without the directory. *)
Definition run_list (e : Sess) (migs : list Migration) : M Cluster (list string) :=
  apply_ddl e SCHEMA_VERSION_TABLE ;;;
  let! applied := gets applied_versions in apply_pending e applied migs.

(** [C20] A run that fails leaves a prefix. For files with distinct versions
    whose statements leave the version table alone, there is one migration at
    which the run stopped: every file before it is recorded, it is not; catalog
    and rows are those that a successful run of the files before it alone leaves,
    so that nothing of the failing one is there; and a later run, in whatever
    session, resumes exactly at it. *)
Theorem migrations_fail_prefix e dir st x st' :
  NoDup (mig_version <$> load_migrations dir) ->
  Forall (fun m => Forall apart (mig_sql m)) (load_migrations dir) ->
  run_migrations e dir st = (Raise x, st') ->
  exists pre mig post done_ st1,
    load_migrations dir = pre ++ mig :: post /\
    (mig_version <$> pre) ⊆ applied_versions st' /\ mig_version mig ∉ applied_versions st' /\
    run_list e pre st = (Ok done_, st1) /\
    cl_cat st' = cl_cat st1 /\ db_tables (cl_db st') = db_tables (cl_db st1) /\
    forall e', run_migrations e' dir st' = apply_pending e' (applied_versions st') (mig :: post) st'.
Proof.
  intros Hnd Ha. unfold run_migrations, run_list, bind, gets. intros E.
  destruct (apply_ddl e SCHEMA_VERSION_TABLE st) as [r st0] eqn:El.
  apply ledger_there in El as [-> Hl]. simpl in E.
  apply apply_pending_fails in E as (pre & mig & post & d & st1 & Em & Hnew & Epre & Ecat & Edb).
  rewrite Em in *. rewrite fmap_app in Hnd. apply NoDup_app in Hnd as (_ & Hnd & _).
  apply Forall_app in Ha as [Ha _].
  destruct (apply_pending_ok e _ pre st0 d st1 Hl ltac:(done) Epre) as [Hk Hv]. destruct (Hk Hl) as [[td Ht] _].
  assert (applied_versions st' = applied_versions st1) as Eav.
  { unfold applied_versions. by rewrite (rows_tables _ _ _ Edb). }
  exists pre, mig, post, d, st1. rewrite Eav. split_and!; try done.
  - intros Hin. destruct (apply_pending_only _ _ _ _ _ _ _ Ha Epre Hin) as [|Hin']; [done|].
    apply (Hnd _ Hin'). rewrite fmap_cons. left.
  - intros e'. unfold SCHEMA_VERSION_TABLE, apply_ddl, dmem. rewrite Ecat, Ht. simpl.
    rewrite Eav. by apply apply_pending_skip.
Qed.

(** On an empty database the files of the repository apply in order
    without an error and build the catalog the statements run against. *)
Theorem migrations_build_schema now :
  (migrated now).1 = Ok (mig_version <$> load_migrations (Some migration_files)) /\
  cl_cat (migrated now).2 = schema /\ length (load_migrations (Some migration_files)) = 20%nat.
Proof. split_and!; vm_compute; reflexivity. Qed.
