(* ===== verification/PgBase.v ===== *)
(** * PgStore: connection, statements and row decoding (db.py)

    Every [await] of a statement is a point where another worker can act, so a
    method of PgStore is a program over atomic actions ([prog]): a statement, or
    the writes of a transaction with its commit. A transaction that reads first
    sends its reads as actions of their own, each of which sees what is committed
    by then (READ COMMITTED); its writes are one action with the commit, since
    nobody sees them before and the rows they touch are locked until then. An
    advisory lock is taken and given back by the program ([Sync]).

    [exec] runs a program alone; [act_in] are the actions a program can send,
    whatever the answers, so that a property of all actions holds in every
    interleaving of any number of workers. *)
From S2P Require Import Prelude PyText Json StoreState Sql Migrations Schema.

(** ** Programs over actions *)

Definition action : Type := M Db (list row).
(** [pg_advisory_xact_lock(key)], and the end of the transaction. *)
Inductive lock_op : Type := Acquire (key : Z) | Release.
Inductive prog (A : Type) : Type :=
  | Return (r : res A)
  | Act (a : action) (k : res (list row) -> prog A)
  | Sync (l : lock_op) (m : prog A).
Arguments Return {A} r.
Arguments Act {A} a k.
Arguments Sync {A} l m.

Definition pret {A} (a : A) : prog A := Return (Ok a).
Definition praise {A} (e : exn) : prog A := Return (Raise e).
Fixpoint pbind {A B} (m : prog A) (f : A -> prog B) : prog B :=
  match m with
  | Return (Ok a) => f a
  | Return (Raise e) => Return (Raise e)
  | Act a k => Act a (fun r => pbind (k r) f)
  | Sync l m => Sync l (pbind m f)
  end.
(** [except asyncpg.UniqueViolationError as exc: raise StoreConflict(msg)] *)
Definition on_unique (msg : string) (e : exn) : exn :=
  if decide (e = PgError UniqueViolationError) then StoreConflict msg else e.
Fixpoint pmap_exn {A} (f : exn -> exn) (m : prog A) : prog A :=
  match m with
  | Return (Ok a) => Return (Ok a)
  | Return (Raise e) => Return (Raise (f e))
  | Act a k => Act a (fun r => pmap_exn f (k r))
  | Sync l m => Sync l (pmap_exn f m)
  end.
(** [async with conn.transaction()] whose first statement takes an advisory lock:
    the lock goes with the end of the transaction, however that comes. *)
Fixpoint released {A} (m : prog A) : prog A :=
  match m with
  | Return r => Sync Release (Return r)
  | Act a k => Act a (fun r => released (k r))
  | Sync l m => Sync l (released m)
  end.
Definition locked_transaction {A} (key : Z) (m : prog A) : prog A := Sync (Acquire key) (released m).
Definition send (a : action) : prog (list row) := Act a Return.
Fixpoint exec {A} (m : prog A) : M Db A :=
  match m with
  | Return r => fun db => (r, db)
  | Act a k => fun db => let '(r, db') := a db in exec (k r) db'
  | Sync _ m => exec m
  end.
Inductive act_in {A} : action -> prog A -> Prop :=
  | act_here a k : act_in a (Act a k)
  | act_later a b k r : act_in a (k r) -> act_in a (Act b k)
  | act_sync a l m : act_in a m -> act_in a (Sync l m).

Declare Scope pg_scope.
Delimit Scope pg_scope with pg.
Notation "'let*' x := m 'in' k" := (pbind m (fun x => k))
  (at level 10, x pattern, m at level 100, k at level 200) : pg_scope.
Notation "m ';;*' k" := (pbind m (fun _ => k))
  (at level 199, right associativity) : pg_scope.
Open Scope pg_scope.

Lemma exec_bind {A B} (m : prog A) (f : A -> prog B) db :
  exec (pbind m f) db = bind (exec m) (fun a => exec (f a)) db.
Proof.
  revert db. induction m as [[a|e]|a k IH|l m IH]; intros db; [done|done| |apply IH].
  unfold bind in *. simpl. destruct (a db) as [r db']. apply IH.
Qed.

Lemma exec_pret {A} (a : A) db : exec (pret a) db = (Ok a, db).
Proof. done. Qed.

Lemma exec_map_exn {A} f (m : prog A) db :
  exec (pmap_exn f m) db =
  match exec m db with (Ok a, db') => (Ok a, db') | (Raise e, db') => (Raise (f e), db') end.
Proof.
  revert db. induction m as [[a|e]|a k IH|l m IH]; intros db; [done|done| |apply IH].
  simpl. destruct (a db) as [r db']. apply IH.
Qed.

(** ** Sessions *)

(** The context variable of fusion_core (the tenant of the request, if any), the
    clock, the role of the pool's connections, the order of scans, a draw. *)
Record PgEnv : Type := mkPgEnv {
  pe_ctx : option string; pe_now : Z; pe_role : pg_role;
  pe_scan : list row -> list row; pe_uuid : string
}.
Definition _tenant_guc (pe : PgEnv) : string :=
  match pe_ctx pe with
  | Some tid => if str_true tid then tid else "_system"
  | None => "_system"
  end.
(** A pooled connection starts at the database default ["_system"]; [_set_guc]
    narrows it for the statement and asyncpg resets it on release. *)
Definition _set_guc (pe : PgEnv) : Sess :=
  mkSess (pe_now pe) (_tenant_guc pe) (pe_role pe) (pe_scan pe) (pe_uuid pe).
(** A connection the method does not narrow. *)
Definition pooled (pe : PgEnv) : Sess :=
  mkSess (pe_now pe) "_system" (pe_role pe) (pe_scan pe) (pe_uuid pe).

(** ** Python values of a row *)

Inductive pyval : Type :=
  | PNone
  | PBool (b : bool)
  | PInt (z : Z)
  | PStr (s : string)
  | PFloat (us : Z)
  | PDatetime (us : Z)
  | PUuid (s : string)
  | PJson (j : json).
#[export] Instance pyval_eq_dec : EqDecision pyval.
Proof. solve_decision. Defined.
Definition prow : Type := list (string * pyval).
Definition pget (k : string) (r : prow) : pyval := default PNone (dget k r).

(** ** asyncpg

    The driver is a parameter: how it turns a value of the server into a Python
    object, and how it reads a [str] bound to a [uuid] parameter; and so is the
    server's [hashtext], of which nothing is assumed. The laws are
    its documented conversions for a connection without custom codecs: [jsonb]
    comes as [str], [timestamptz] as [datetime]. *)
Class Asyncpg := {
  decode : sval -> pyval;
  uuid_of : string -> option string;
  hashtext : string -> Z
}.
Class AsyncpgLaws `{Asyncpg} := {
  decode_null : decode VNull = PNone;
  decode_text s : decode (VText s) = PStr s;
  decode_int z : decode (VInt z) = PInt z;
  decode_bool b : decode (VBool b) = PBool b;
  decode_time t : decode (VTime t) = PDatetime t;
  decode_json j : decode (VJson j) = PStr (jsonb_text j);
  decode_uuid u : decode (VUuid u) = PUuid u
}.
Create HintDb asyncpg.
#[export] Hint Rewrite @decode_null @decode_text @decode_int @decode_bool @decode_time @decode_json
  @decode_uuid using typeclasses eauto : asyncpg.

(** Rows, for any driver. *)
Section driver.
Context `{Asyncpg}.
Definition decode_row (r : row) : prow := (fun cv => (cv.1, decode cv.2)) <$> r.

(** [json.dumps(v)] bound to [$n::jsonb]. *)
Definition to_jsonb (j : json) : sval := VJson (from_option jsonb_norm JNull (json_loads (json_text j))).
(** [json.loads] of a value that is a [str]. *)
Definition loads_or (p : pyval) : pyval :=
  match p with
  | PStr s => from_option PJson (PStr s) (json_loads s)
  | _ => p
  end.

(** [RETURNING c, ...] or a select list; no [RETURNING]; an aggregate. *)
Definition a_map (f : list row -> list row) (a : action) : action := fun db =>
  match a db with
  | (Ok rs, db') => (Ok (f rs), db')
  | (Raise e, db') => (Raise e, db')
  end.
Definition proj (cs : list string) (r : row) : row := (fun c => (c, col c r)) <$> cs.
Definition returning (cs : list string) : action -> action := a_map (fmap (proj cs)).
Definition no_returning : action -> action := a_map (fun _ => []).
Definition count_rows (a : action) : action := a_map (fun rs => [[("count", VInt (zlen rs))]]) a.

(** [async with conn.transaction()]: an exception undoes the rows, not the
    sequences. *)
Definition transaction (m : M Db (list row)) : action := fun db =>
  match m db with
  | (Ok rs, db') => (Ok rs, db')
  | (Raise e, db') => (Raise e, mkDb (db_tables db) (db_seqs db'))
  end.

Definition fetchrow (a : action) : prog (option prow) :=
  let* rs := send a in pret (decode_row <$> head rs).
Definition fetch (a : action) : prog (list prow) :=
  let* rs := send a in pret (decode_row <$> rs).
Definition first_value (rs : list row) : pyval :=
  match rs with (cv :: _) :: _ => decode cv.2 | _ => PNone end.
Definition fetchval (a : action) : prog pyval :=
  let* rs := send a in pret (first_value rs).
(** The status tag, such as ["DELETE 1"]. *)
Definition execute (tag : string) (a : action) : prog string :=
  let* rs := send a in pret (tag +:+ " " +:+ pretty (length rs)).
Definition val_is_not_none (v : pyval) : bool := bool_decide (v <> PNone).

End driver.

(** ** The pool *)

Record PgHandle : Type := mkPgHandle {
  ph_database_url : string; ph_pool_max : Z; ph_pool : bool
}.
(** [PgStore.__init__] with asyncpg installed. *)
Definition pg_init (database_url : string) (pool_max : Z) : PgHandle :=
  mkPgHandle database_url (Z.max 1 pool_max) false.
(** [connect]: [opened] is asyncpg's answer to [create_pool], [is_super] the
    setting of the connection, [require_rls] the environment variable. *)
Definition pg_connect (opened : res unit) (is_super : bool) (require_rls : option string)
    : M PgHandle unit :=
  lift opened ;;;
  modify (fun h => mkPgHandle (ph_database_url h) (ph_pool_max h) true) ;;;
  if is_super && bool_decide (strip (default "0" require_rls) ∈ ["1"; "true"; "yes"])
  then modify (fun h => mkPgHandle (ph_database_url h) (ph_pool_max h) false) ;;;
       raise (StoreError "FUSION_IDENTITY_REQUIRE_RLS=1 but connection is superuser (RLS bypassed)")
  else ret tt.
Definition pg_close : M PgHandle unit :=
  modify (fun h => mkPgHandle (ph_database_url h) (ph_pool_max h) false).
(** [ensure_schema]: nothing without a pool. *)
Definition pg_ensure_schema (h : PgHandle) (e : Sess) (dir : option (list (string * list ddl)))
    : M Cluster unit :=
  if ph_pool h then run_migrations e dir ;;; ret tt else ret tt.

Fixpoint after_at (l : list ascii) : option (list ascii) :=
  match l with
  | [] => None
  | c :: l' => if decide (c = "@"%char) then Some l' else after_at l'
  end.
Fixpoint split_scheme (l : list ascii) : option (list ascii * list ascii) :=
  match l with
  | ":"%char :: "/"%char :: "/"%char :: l' => Some ([], l')
  | c :: l' => match split_scheme l' with Some (a, b) => Some (c :: a, b) | None => None end
  | [] => None
  end.
(** [_safe_url]: a text with [@] and without [://] does not unpack. *)
Definition _safe_url (url : string) : res string :=
  if decide ("@"%char ∈ chars url) then
    match split_scheme (chars url) with
    | None => Raise (ValueError "not enough values to unpack (expected 2, got 1)")
    | Some (scheme, rest) =>
        match after_at rest with
        | None => Raise (IndexError "list index out of range")
        | Some host => Ok (of_chars scheme +:+ "://***@" +:+ of_chars host)
        end
    end
  else Ok url.

(** ** Decoding helpers *)

Definition pset (k : string) (v : pyval) (r : prow) : prow := dset k v r.
(** [val.timestamp() if hasattr(val, "timestamp") else val] *)
Definition timestamp_or (v : pyval) : pyval :=
  match v with PDatetime us => PFloat us | _ => v end.
Definition to_floats (keys : list string) (r : prow) : prow :=
  foldl (fun r k => pset k (timestamp_or (pget k r)) r) r keys.
Definition _decode_app_secret (strip_hash : bool) (r : prow) : prow :=
  let rec := to_floats ["created_at"; "grace_until"] r in
  if strip_hash then dpop "secret_hash" rec else rec.
Definition _decode_app_credential (r : prow) : prow :=
  to_floats ["created_at"; "updated_at"; "last_fetched_at"] r.
(** [if isinstance(r.get(key), str): r[key] = json.loads(r[key])] *)
Definition _decode_json (key : string) (r : prow) : prow :=
  match pget key r with
  | PStr _ => pset key (loads_or (pget key r)) r
  | _ => r
  end.
Definition _decode_scopes : prow -> prow := _decode_json "scopes".
Definition _decode_quota (r : prow) : prow := _decode_json "allowed_modules" (_decode_json "allowed_models" r).
Definition _decode_jsonb : pyval -> pyval := loads_or.

(** [datetime.isoformat()] in UTC: the civil date of a day number, then the
    time with microseconds when there are any. *)
Definition civil (day : Z) : Z * Z * Z :=
  let z := day + 719468 in
  let era := z / 146097 in
  let doe := z mod 146097 in
  let yoe := (doe - doe / 1460 + doe / 36524 - doe / 146096) / 365 in
  let doy := doe - (365 * yoe + yoe / 4 - yoe / 100) in
  let mp := (5 * doy + 2) / 153 in
  let m := if mp <? 10 then mp + 3 else mp - 9 in
  (yoe + era * 400 + (if m <=? 2 then 1 else 0), m, doy - (153 * mp + 2) / 5 + 1).
Definition pad (n : nat) (z : Z) : string :=
  let d := chars (pretty z) in of_chars (replicate (n - length d) "0"%char ++ d).
Definition isoformat (us : Z) : string :=
  let '(y, m, d) := civil (us / sec 86400) in
  let t := us mod sec 86400 in
  pad 4 y +:+ "-" +:+ pad 2 m +:+ "-" +:+ pad 2 d +:+ "T" +:+
  pad 2 (t / sec 3600) +:+ ":" +:+ pad 2 (t / sec 60 mod 60) +:+ ":" +:+ pad 2 (t / sec 1 mod 60) +:+
  (if decide (t mod sec 1 = 0) then "" else "." +:+ pad 6 (t mod sec 1)) +:+ "+00:00".
Definition _iso (v : pyval) : pyval :=
  match v with PDatetime us => PStr (isoformat us) | _ => v end.
Definition _decode_event (r : prow) : prow :=
  let r := pset "payload" (_decode_jsonb (pget "payload" r)) r in
  let r := pset "created_at" (_iso (pget "created_at" r)) r in
  pset "updated_at" (_iso (pget "updated_at" r)) r.
Example isoformat_leap : isoformat (sec 1709210096 + 500) = "2024-02-29T12:34:56.000500+00:00".
Proof. reflexivity. Qed.

(** [sets.append(f"{k}=${n}"); params.append(v)] when the field is given: each
    given field gets a placeholder of its own. *)
Definition opt_set {A} (k : string) (f : A -> sval) (o : option A) : list (string * setter) :=
  match o with Some v => [(k, Par (f v))] | None => [] end.

(** ** An instance, for execution

    A text is a UUID when it has 32 to 36 characters, 32 of them hexadecimal
    digits once the dashes are dropped. *)
Definition uuid_digits (s : string) : list ascii :=
  filter (fun c => c <> "-"%char) (chars s).
Definition uuid_text (l : list ascii) : string :=
  of_chars (take 8 l) +:+ "-" +:+ of_chars (take 4 (drop 8 l)) +:+ "-" +:+
  of_chars (take 4 (drop 12 l)) +:+ "-" +:+ of_chars (take 4 (drop 16 l)) +:+ "-" +:+
  of_chars (drop 20 l).
Definition uuid_reading (s : string) : option string :=
  let l := uuid_digits s in
  if (32 <=? slen s) && (slen s <=? 36) && (length l =? 32)%nat
     && forallb (fun c => bool_decide (hex_value c <> None)) l
  then Some (uuid_text (lower_char <$> l)) else None.
Definition default_decode (v : sval) : pyval :=
  match v with
  | VNull => PNone
  | VText s => PStr s
  | VInt z => PInt z
  | VBool b => PBool b
  | VTime t => PDatetime t
  | VJson j => PStr (jsonb_text j)
  | VUuid s => PUuid s
  end.
Definition default_asyncpg : Asyncpg := {| decode := default_decode; uuid_of := uuid_reading; hashtext := slen |}.
Lemma default_asyncpg_laws : @AsyncpgLaws default_asyncpg.
Proof. by split. Qed.
