(* ===== verification/PgTenants.v ===== *)
(** * PgStore: tenants, invites, join requests, quotas, plan templates and
    idempotency keys (db.py) *)
From S2P Require Import Prelude PyText Json StoreState Sql Migrations Schema PgBase Tenants.

Section pg_tenants.
Context `{Asyncpg}.
Variable pe : PgEnv.
#[local] Abbreviation INSERT := (insert schema (_set_guc pe)).
#[local] Abbreviation UPDATE := (update schema (_set_guc pe)).
#[local] Abbreviation DELETE := (delete schema (_set_guc pe)).
#[local] Abbreviation SELECT := (select schema (_set_guc pe)).
#[local] Abbreviation now_ := (VTime (pe_now pe)).

(** [SELECT COUNT( * ) = 0 FROM tenants WHERE status <> 'deleted'] *)
Definition pg_is_empty_tenants : prog bool :=
  let* n := fetchval (a_map (fun rs => [[("empty", VBool (bool_decide (rs = [])))]])
                        (SELECT "tenants" ("status" <>. VText "deleted") [] None)) in
  pret (bool_decide (n = PBool true)).

Definition bad_policy (join_policy : string) : exn :=
  StoreConflict ("unknown join_policy " +:+ py_repr join_policy).

Definition pg_create_tenant (tenant_id display_name plan join_policy : string) : prog (option prow) :=
  if decide (join_policy ∉ JOIN_POLICIES) then praise (bad_policy join_policy) else
  let* row := pmap_exn (on_unique ("tenant " +:+ tenant_id +:+ " exists"))
    (fetchrow (INSERT "tenants"
       [("tenant_id", VText tenant_id); ("display_name", VText display_name);
        ("plan", VText plan); ("join_policy", VText join_policy)] Fails)) in
  fetchrow (no_returning (INSERT "quotas" [("tenant_id", VText tenant_id)] (DoNothing None))) ;;*
  pret row.

Definition pg_get_tenant (tenant_id : string) : prog (option prow) :=
  fetchrow (SELECT "tenants" ("tenant_id" =. VText tenant_id) [] None).
Definition pg_get_tenant_status (tenant_id : string) : prog pyval :=
  fetchval (returning ["status"] (SELECT "tenants" ("tenant_id" =. VText tenant_id) [] None)).
Definition pg_list_tenants : prog (list prow) :=
  fetch (SELECT "tenants" ("status" <>. VText "deleted") [("created_at", false)] None).
Definition pg_list_tenants_for (tenant_id : string) : prog (list prow) :=
  fetch (SELECT "tenants" ("tenant_id" =. VText tenant_id &. "status" <>. VText "deleted") [] None).

(** [disabled_at=CASE WHEN $n='disabled' THEN COALESCE(disabled_at, now()) ELSE
    NULL END] when the status is set. *)
Definition disabled_case (status : option string) : string * setter :=
  ("disabled_at", Ex (fun r =>
     match status with
     | Some st => if decide (st = "disabled")
                  then if decide (col "disabled_at" r = VNull) then now_ else col "disabled_at" r
                  else VNull
     | None => col "disabled_at" r
     end)).
Definition tenant_sets (f : TenantFields) : list (string * setter) :=
  opt_set "display_name" VText (tf_display_name f) ++ opt_set "status" VText (tf_status f)
  ++ opt_set "plan" VText (tf_plan f) ++ opt_set "join_policy" VText (tf_join_policy f).
Definition pg_update_tenant (tenant_id : string) (fields : TenantFields) : prog (option prow) :=
  match tf_join_policy fields with
  | Some jp => if decide (jp ∉ JOIN_POLICIES) then praise (bad_policy jp) else pret tt
  | None => pret tt
  end ;;*
  if decide (tenant_sets fields = []) then pg_get_tenant tenant_id
  else fetchrow (UPDATE "tenants" (tenant_sets fields ++ [disabled_case (tf_status fields)])
                   ("tenant_id" =. VText tenant_id)).

Definition pg_set_join_policy (tenant_id join_policy : string) : prog (option prow) :=
  if decide (join_policy ∉ JOIN_POLICIES) then praise (bad_policy join_policy) else
  fetchrow (UPDATE "tenants" [("join_policy", Par (VText join_policy))] ("tenant_id" =. VText tenant_id)).

(** ** Roles a row may carry *)

Definition pg_is_valid_role (tenant_id role : string) : prog bool :=
  if decide (role ∈ dkeys ROLES_SEED) then pret true else
  let* v := fetchval (a_map (fmap (fun _ => [("one", VInt 1)]))
              (SELECT "custom_roles" ("tenant_id" =. VText tenant_id &. "role_id" =. VText role) [] None)) in
  pret (val_is_not_none v).

(** ** Invites *)

Definition pg_create_invite (invite_id tenant_id token_hash role : string) (expires_at : Z)
    (email created_by : option string) : prog (option prow) :=
  let* valid := pg_is_valid_role tenant_id role in
  if negb valid
  then praise (StoreConflict ("unknown role " +:+ role +:+ " for tenant " +:+ tenant_id))
  else pmap_exn (on_unique "invite token hash collision")
    (fetchrow (INSERT "tenant_invites"
       [("invite_id", VText invite_id); ("tenant_id", VText tenant_id); ("token_hash", VText token_hash);
        ("role", VText role); ("email", vtext email); ("created_by", vtext created_by);
        ("expires_at", VTime expires_at)] Fails)).
Definition pg_get_invite_by_hash (token_hash : string) : prog (option prow) :=
  fetchrow (SELECT "tenant_invites" ("token_hash" =. VText token_hash) [] None).
Definition pg_list_invites (tenant_id : string) : prog (list prow) :=
  fetch (SELECT "tenant_invites" ("tenant_id" =. VText tenant_id) [("created_at", true)] None).
Definition pg_mark_invite_used (invite_id user_id : string) : prog bool :=
  let* val := fetchval (returning ["invite_id"]
    (UPDATE "tenant_invites" [("used_at", Ex (fun _ => now_)); ("used_by", Par (VText user_id))]
       ("invite_id" =. VText invite_id &. is_null "used_at"))) in
  pret (val_is_not_none val).

(** ** Join requests *)

Definition pg_create_join_request (request_id tenant_id user_id : string) : prog (option prow) :=
  pmap_exn (on_unique "join request already pending")
    (fetchrow (INSERT "join_requests"
       [("request_id", VText request_id); ("tenant_id", VText tenant_id); ("user_id", VText user_id)]
       Fails)).
Definition pg_get_join_request (request_id : string) : prog (option prow) :=
  fetchrow (SELECT "join_requests" ("request_id" =. VText request_id) [] None).
Definition pg_list_join_requests (tenant_id : string) (status : option string) : prog (list prow) :=
  match status with
  | Some st => fetch (SELECT "join_requests" ("tenant_id" =. VText tenant_id &. "status" =. VText st)
                        [("created_at", true)] None)
  | None => fetch (SELECT "join_requests" ("tenant_id" =. VText tenant_id) [("created_at", true)] None)
  end.
(** [f"{v}"] of a text column. *)
Definition py_text (v : pyval) : string := match v with PStr s => s | _ => "None" end.
Definition pg_decide_join_request (request_id status decided_by : string) : prog (option prow) :=
  if decide (status ∉ ["approved"; "rejected"; "cancelled"])
  then praise (StoreConflict ("invalid decision status " +:+ py_repr status)) else
  let* row := fetchrow (UPDATE "join_requests"
    [("status", Par (VText status)); ("decided_by", Par (VText decided_by)); ("decided_at", Ex (fun _ => now_))]
    ("request_id" =. VText request_id &. "status" =. VText "pending")) in
  match row with
  | Some r => pret (Some r)
  | None =>
      let* existing := pg_get_join_request request_id in
      match existing with
      | None => pret None
      | Some r => praise (StoreConflict ("join request already " +:+ py_text (pget "status" r)))
      end
  end.

(** ** Deletion *)

Definition pg_delete_tenant (tenant_id : string) : prog bool :=
  let* val := fetchval (returning ["tenant_id"]
    (UPDATE "tenants" [("status", Ex (fun _ => VText "deleted")); ("deleted_at", Ex (fun _ => now_))]
       ("tenant_id" =. VText tenant_id &. "status" <>. VText "deleted"))) in
  if decide (val = PNone) then pret false else
  execute "UPDATE" (UPDATE "api_keys" [("revoked_at", Ex (fun _ => now_))]
    ("tenant_id" =. VText tenant_id &. is_null "revoked_at")) ;;*
  execute "UPDATE" (UPDATE "refresh_tokens" [("status", Ex (fun _ => VText "revoked"))]
    ("tenant_id" =. VText tenant_id &. "status" <>. VText "revoked")) ;;*
  execute "DELETE" (DELETE "tenant_members" ("tenant_id" =. VText tenant_id)) ;;*
  pret true.

(** ** Quotas *)

Definition pg_get_quota (tenant_id : string) : prog (option prow) :=
  let* row := fetchrow (SELECT "quotas" ("tenant_id" =. VText tenant_id) [] None) in
  pret (_decode_quota <$> row).
Definition quota_sets (f : QuotaFields) : list (string * setter) :=
  opt_set "rpm" VInt (qf_rpm f) ++ opt_set "tpm" VInt (qf_tpm f)
  ++ opt_set "concurrent" VInt (qf_concurrent f) ++ opt_set "storage_mb" VInt (qf_storage_mb f)
  ++ opt_set "allowed_models" (fun l => to_jsonb (jlist l)) (qf_allowed_models f)
  ++ opt_set "allowed_modules" (fun l => to_jsonb (jlist l)) (qf_allowed_modules f)
  ++ opt_set "default_priority" VInt (qf_default_priority f).
Definition pg_put_quota (tenant_id : string) (fields : QuotaFields) : prog (option prow) :=
  let* row := fetchrow (UPDATE "quotas" (("updated_at", Ex (fun _ => now_)) :: quota_sets fields)
                          ("tenant_id" =. VText tenant_id)) in
  pret (_decode_quota <$> row).

(** ** Plan templates and idempotency keys *)

Definition pg_list_plan_templates : prog (list prow) :=
  let* rs := fetch (returning ["plan"; "quota"; "updated_at"]
                      (SELECT "plan_templates" c_true [("plan", false)] None)) in
  pret ((fun r => [("plan", pget "plan" r); ("quota", _decode_jsonb (pget "quota" r));
                   ("updated_at", _iso (pget "updated_at" r))]) <$> rs).
Definition pg_get_plan_template (plan : string) : prog (option pyval) :=
  let* row := fetchrow (returning ["quota"] (SELECT "plan_templates" ("plan" =. VText plan) [] None)) in
  pret ((fun r => _decode_jsonb (pget "quota" r)) <$> row).
(** The given fields of a quota as dict entries. *)
Definition quota_entries (f : QuotaFields) : list (string * json) :=
  omap (fun kv => match kv with (k, Some v) => Some (k, v) | (_, None) => None end)
    [("rpm", JInt <$> qf_rpm f); ("tpm", JInt <$> qf_tpm f); ("concurrent", JInt <$> qf_concurrent f);
     ("storage_mb", JInt <$> qf_storage_mb f); ("allowed_models", jlist <$> qf_allowed_models f);
     ("allowed_modules", jlist <$> qf_allowed_modules f);
     ("default_priority", JInt <$> qf_default_priority f)].
Definition default_quota_entries : list (string * json) :=
  match plan_quota_json DEFAULT_QUOTA with JObj kvs => kvs | _ => [] end.
Definition pg_put_plan_template (plan : string) (quota : QuotaFields) : prog json :=
  if negb (valid_id plan) then praise (StoreConflict ("invalid plan id " +:+ py_repr plan)) else
  let* old := pg_get_plan_template plan in
  let merged := match old with Some (PJson (JObj kvs)) => kvs | _ => [] end in
  let merged := if decide (merged = []) then default_quota_entries else merged in
  let merged := foldl (fun d kv => dset kv.1 kv.2 d) merged (quota_entries quota) in
  execute "INSERT 0" (INSERT "plan_templates"
    [("plan", VText plan); ("quota", to_jsonb (JObj merged)); ("updated_at", now_)]
    (DoUpdate ["plan"] (fun ex => [("quota", Ex (fun _ => col "quota" ex)); ("updated_at", Ex (fun _ => now_))]))) ;;*
  pret (JObj merged).

Definition pg_get_idempotency (idem_key : string) : prog (option prow) :=
  let* row := fetchrow (returning ["idem_key"; "endpoint"; "response"; "created_at"]
                          (SELECT "idempotency_keys" ("idem_key" =. VText idem_key) [] None)) in
  pret ((fun r => pset "created_at" (_iso (pget "created_at" r))
                    (pset "response" (_decode_jsonb (pget "response" r)) r)) <$> row).
(** [response] with its datetimes as [default=str] prints them. *)
Definition pg_put_idempotency (idem_key endpoint : string) (response : json) : prog unit :=
  execute "INSERT 0" (INSERT "idempotency_keys"
    [("idem_key", VText idem_key); ("endpoint", VText endpoint); ("response", to_jsonb response)]
    (DoNothing (Some ["idem_key"]))) ;;*
  pret tt.
End pg_tenants.
