(* ===== verification/PgUsers.v ===== *)
(** * PgStore: users, single-use tokens of users, memberships, second factors
    (db.py) *)
From S2P Require Import Prelude PyText Json StoreState Prims Rbac Users Sql Migrations Schema.
From S2P Require Import PgBase PgTenants.

Section pg_users.
Context `{HashLib, Argon2Lib, Asyncpg}.
Variable pe : PgEnv.
#[local] Abbreviation INSERT := (insert schema (_set_guc pe)).
#[local] Abbreviation UPDATE := (update schema (_set_guc pe)).
#[local] Abbreviation DELETE := (delete schema (_set_guc pe)).
#[local] Abbreviation SELECT := (select schema (_set_guc pe)).
#[local] Abbreviation now_ := (VTime (pe_now pe)).

(** ** Users *)

Definition pg_create_user (salt : string) (user_id username password : string) (email : option string)
    (must_change_password email_verified : bool) (display_name : option string) : prog (option prow) :=
  let '(pw_hash, salt, algo) := hash_password password salt in
  pmap_exn (on_unique ("user " +:+ user_id +:+ " exists"))
    (fetchrow (INSERT "users"
       [("user_id", VText user_id); ("username", VText username); ("email", vtext email);
        ("password_hash_v", VText pw_hash); ("salt", VText salt); ("password_algo", VText algo);
        ("must_change_password", VBool must_change_password); ("email_verified", VBool email_verified);
        ("display_name", vtext display_name)] Fails)).

(** [_ts_from_epoch] gives the datetime of an epoch float. *)
Definition pg_ts_from_epoch (epoch : Z) : sval := VTime epoch.

Definition pg_set_email_verify_token (user_id token_hash : string) (expires_at : Z) : prog bool :=
  let* val := fetchval (returning ["user_id"] (UPDATE "users"
    [("email_verify_token_hash", Par (VText token_hash));
     ("email_verify_expires", Par (pg_ts_from_epoch expires_at))] ("user_id" =. VText user_id))) in
  pret (val_is_not_none val).
Definition pg_verify_email_token (token_hash : string) : prog pyval :=
  fetchval (returning ["user_id"] (UPDATE "users"
    [("email_verified", Ex (fun _ => VBool true)); ("email_verify_token_hash", Ex (fun _ => VNull));
     ("email_verify_expires", Ex (fun _ => VNull))]
    ("email_verify_token_hash" =. VText token_hash &.
     (is_null "email_verify_expires" |. "email_verify_expires" >. now_)))).
Definition pg_set_password_reset_token (user_id token_hash : string) (expires_at : Z) : prog bool :=
  let* val := fetchval (returning ["user_id"] (UPDATE "users"
    [("password_reset_token_hash", Par (VText token_hash));
     ("password_reset_expires", Par (pg_ts_from_epoch expires_at))] ("user_id" =. VText user_id))) in
  pret (val_is_not_none val).
Definition pg_consume_password_reset_token (token_hash : string) : prog pyval :=
  fetchval (returning ["user_id"] (UPDATE "users"
    [("password_reset_token_hash", Ex (fun _ => VNull)); ("password_reset_expires", Ex (fun _ => VNull))]
    ("password_reset_token_hash" =. VText token_hash &.
     (is_null "password_reset_expires" |. "password_reset_expires" >. now_)))).

Definition pg_get_user_by_username (username : string) : prog (option prow) :=
  fetchrow (SELECT "users" ("username" =. VText username) [] None).
(** [lower(email)=lower($1)] *)
Definition lower_eq (c s : string) : cond := fun r =>
  match col c r with VText x => Some (bool_decide (lower x = lower s)) | _ => None end.
Definition pg_get_user_by_email (email : string) : prog (option prow) :=
  fetchrow (SELECT "users" (lower_eq "email" email) [] None).
Definition pg_get_user (user_id : string) : prog (option prow) :=
  fetchrow (SELECT "users" ("user_id" =. VText user_id) [] None).
Definition pg_get_user_status (user_id : string) : prog pyval :=
  fetchval (returning ["status"] (SELECT "users" ("user_id" =. VText user_id) [] None)).

(** The two time columns are converted from epoch floats. *)
Definition user_sets (f : UserFields) : list (string * setter) :=
  opt_set "password_hash" VText (uf_password_hash f)
  ++ opt_set "password_hash_v" VText (uf_password_hash_v f) ++ opt_set "salt" VText (uf_salt f)
  ++ opt_set "password_algo" VText (uf_password_algo f) ++ opt_set "status" VText (uf_status f)
  ++ opt_set "failed_attempts" VInt (uf_failed_attempts f)
  ++ opt_set "locked_until" pg_ts_from_epoch (uf_locked_until f)
  ++ opt_set "must_change_password" VBool (uf_must_change_password f)
  ++ opt_set "last_login_at" pg_ts_from_epoch (uf_last_login_at f)
  ++ opt_set "display_name" VText (uf_display_name f) ++ opt_set "email" VText (uf_email f).
Definition pg_update_user (user_id : string) (fields : UserFields) : prog (option prow) :=
  if decide (user_sets fields = []) then pg_get_user user_id
  else fetchrow (UPDATE "users" (user_sets fields) ("user_id" =. VText user_id)).

(** ** Memberships *)

Definition pg_add_member (tenant_id user_id role : string) (added_by : option string) : prog (option prow) :=
  let* valid := pg_is_valid_role pe tenant_id role in
  if negb valid then praise (StoreConflict ("unknown role " +:+ role)) else
  pmap_exn (on_unique ("member " +:+ user_id +:+ " already in " +:+ tenant_id))
    (fetchrow (INSERT "tenant_members"
       [("tenant_id", VText tenant_id); ("user_id", VText user_id); ("role", VText role);
        ("added_by", vtext added_by)] Fails)).
Definition member_key (tenant_id user_id : string) : cond :=
  "tenant_id" =. VText tenant_id &. "user_id" =. VText user_id.
Definition pg_get_member (tenant_id user_id : string) : prog (option prow) :=
  fetchrow (SELECT "tenant_members" (member_key tenant_id user_id) [] None).
Definition pg_get_member_role (tenant_id user_id : string) : prog pyval :=
  fetchval (returning ["role"] (SELECT "tenant_members" (member_key tenant_id user_id) [] None)).
Definition pg_memberships_for_user (user_id : string) : prog (list prow) :=
  fetch (returning ["tenant_id"; "user_id"; "role"]
           (SELECT "tenant_members" ("user_id" =. VText user_id) [] None)).
Definition pg_update_member_role (tenant_id user_id role : string) : prog (option prow) :=
  let* valid := pg_is_valid_role pe tenant_id role in
  if negb valid then praise (StoreConflict ("unknown role " +:+ role)) else
  fetchrow (UPDATE "tenant_members" [("role", Par (VText role))] (member_key tenant_id user_id)).
Definition pg_list_members (tenant_id : string) : prog (list prow) :=
  fetch (SELECT "tenant_members" ("tenant_id" =. VText tenant_id) [("joined_at", false)] None).
Definition as_int (v : pyval) : Z := match v with PInt z => z | _ => 0 end.
Definition pg_count_members_by_role (tenant_id role : string) : prog Z :=
  let* n := fetchval (count_rows (SELECT "tenant_members"
              ("tenant_id" =. VText tenant_id &. "role" =. VText role) [] None)) in
  pret (as_int n).
Definition pg_remove_member (tenant_id user_id : string) : prog bool :=
  let* val := fetchval (returning ["user_id"] (DELETE "tenant_members" (member_key tenant_id user_id))) in
  pret (val_is_not_none val).

(** [SELECT u.status, m.role, COUNT( * ) FROM tenant_members m JOIN users u ... GROUP
    BY u.status, m.role]: the pairs of a member and its user, then their groups
    with their sizes, in the order in which the pairs come. *)
Definition joined (us : list row) (m : row) : list row :=
  (fun u => [("status", col "status" u); ("role", col "role" m)])
  <$> filter (fun u => col "user_id" u = col "user_id" m) us.
Definition group_count (pairs : list row) : list row :=
  (fun p => p ++ [("n", VInt (zlen (filter (fun q => q = p) pairs)))]) <$> remove_dups pairs.
Definition member_summary_query (tenant_id : string) : action := fun db =>
  match SELECT "tenant_members" ("tenant_id" =. VText tenant_id) [] None db,
        SELECT "users" c_true [] None db with
  | (Ok ms, _), (Ok us, _) => (Ok (group_count (ms ≫= joined us)), db)
  | (Raise x, _), _ | _, (Raise x, _) => (Raise x, db)
  end.
(** The summary dict: counters, then the tally by role. *)
Definition summary_step (acc : list (string * Z) * list (string * Z)) (r : prow)
    : list (string * Z) * list (string * Z) :=
  let n := as_int (pget "n" r) in
  let bump k d := dset k (default 0 (dget k d) + n) d in
  let counts := bump "total" acc.1 in
  (* a status that is not a counter of the dict is only logged; the key
     "by_role" of the dict holds a dict and is no status *)
  let counts := match pget "status" r with
                | PStr st => if dmem st counts then bump st counts else counts
                | _ => counts
                end in
  (counts, bump (py_text (pget "role" r)) acc.2).
Definition pg_get_member_summary (tenant_id : string)
    : prog (list (string * Z) * list (string * Z)) :=
  let* rs := fetch (member_summary_query tenant_id) in
  pret (foldl summary_step ([("total", 0); ("active", 0); ("disabled", 0); ("locked", 0)], []) rs).

(** ** Second factors *)

Definition mfa_key (user_id method : string) : cond :=
  "user_id" =. VText user_id &. "method" =. VText method.
Definition pg_upsert_mfa (user_id method secret_enc : string) (enabled : bool) : prog (option prow) :=
  fetchrow (INSERT "user_mfa"
    [("user_id", VText user_id); ("method", VText method); ("secret_enc", VText secret_enc);
     ("enabled", VBool enabled)]
    (DoUpdate ["user_id"; "method"] (fun ex =>
       [("secret_enc", Ex (fun _ => col "secret_enc" ex)); ("enabled", Ex (fun _ => col "enabled" ex))]))).
Definition pg_get_mfa (user_id method : string) : prog (option prow) :=
  fetchrow (SELECT "user_mfa" (mfa_key user_id method) [] None).
Definition pg_list_mfa (user_id : string) : prog (list prow) :=
  fetch (SELECT "user_mfa" ("user_id" =. VText user_id) [("enrolled_at", false)] None).
Definition pg_list_all_mfa : prog (list prow) :=
  fetch (SELECT "user_mfa" c_true [("enrolled_at", false)] None).
Definition pg_delete_mfa (user_id method : string) : prog bool :=
  let* val := fetchval (returning ["user_id"] (DELETE "user_mfa" (mfa_key user_id method))) in
  pret (val_is_not_none val).
End pg_users.

(** * PgStore: custom roles and menus (db.py) *)

Section pg_rbac.
Context `{Asyncpg}.
Variable pe : PgEnv.
#[local] Abbreviation INSERT := (insert schema (_set_guc pe)).
#[local] Abbreviation UPDATE := (update schema (_set_guc pe)).
#[local] Abbreviation DELETE := (delete schema (_set_guc pe)).
#[local] Abbreviation SELECT := (select schema (_set_guc pe)).
#[local] Abbreviation now_ := (VTime (pe_now pe)).

Definition role_key (tenant_id role_id : string) : cond :=
  "tenant_id" =. VText tenant_id &. "role_id" =. VText role_id.

(** ** Menus of a role *)

(** The texts of a JSON array. *)
Definition texts_of (v : pyval) : list string :=
  match v with
  | PJson (JArr l) => omap (fun j => match j with JStr s => Some s | _ => None end) l
  | _ => []
  end.
Definition pg_get_role_menus (tenant_id role_id : string) : prog (list string) :=
  let* val := fetchval (returning ["menus"] (SELECT "role_menu_matrix" (role_key tenant_id role_id) [] None)) in
  if val_is_not_none val then pret (texts_of (loads_or val))
  else pret (default [] (dget role_id DEFAULT_ROLE_MENUS)).

Definition pg_list_known_menus (tenant_id : string) : prog (list string) :=
  let* rs := fetch (returning ["menu"] (SELECT "known_menus" ("tenant_id" =. VText tenant_id)
                                          [("created_at", false)] None)) in
  pret ((fun r => py_text (pget "menu" r)) <$> rs).

(** The two checks of the loop over the given menus. *)
Definition check_menu_id (m : string) : prog unit :=
  if valid_id m then pret tt else praise (StoreConflict ("invalid menu id " +:+ py_repr m)).
Fixpoint check_menus (known : list string) (menus : list string) : prog unit :=
  match menus with
  | [] => pret tt
  | m :: menus' =>
      check_menu_id m ;;*
      if decide (m ∉ known) then praise (StoreConflict ("menu " +:+ m +:+ " not registered for tenant"))
      else check_menus known menus'
  end.
Definition pg_set_role_menus (tenant_id role_id : string) (menus : list string) : prog (list string) :=
  let* valid := pg_is_valid_role pe tenant_id role_id in
  if negb valid then praise (StoreConflict ("unknown role " +:+ role_id)) else
  if decide (zlen menus > MAX_MENUS_PER_ROLE)
  then praise (StoreConflict ("menu limit " +:+ pretty MAX_MENUS_PER_ROLE +:+ " per role")) else
  let* registered := pg_list_known_menus tenant_id in
  check_menus (registered ++ default_menus) menus ;;*
  fetchval (no_returning (INSERT "role_menu_matrix"
    [("tenant_id", VText tenant_id); ("role_id", VText role_id); ("menus", to_jsonb (jlist (dedup menus)))]
    (DoUpdate ["tenant_id"; "role_id"] (fun _ =>
       [("menus", Par (to_jsonb (jlist (dedup menus)))); ("updated_at", Ex (fun _ => now_))])))) ;;*
  pret (dedup menus).
Definition pg_reset_role_menus (tenant_id role_id : string) : prog (list string) :=
  let* valid := pg_is_valid_role pe tenant_id role_id in
  if negb valid then praise (StoreConflict ("unknown role " +:+ role_id)) else
  fetchval (no_returning (DELETE "role_menu_matrix" (role_key tenant_id role_id))) ;;*
  pret (default [] (dget role_id DEFAULT_ROLE_MENUS)).

Fixpoint check_menu_ids (menus : list string) : prog unit :=
  match menus with
  | [] => pret tt
  | m :: menus' => check_menu_id m ;;* check_menu_ids menus'
  end.
Fixpoint insert_menus (tenant_id : string) (menus : list string) : prog unit :=
  match menus with
  | [] => pret tt
  | m :: menus' =>
      fetchval (no_returning (INSERT "known_menus" [("tenant_id", VText tenant_id); ("menu", VText m)]
        (DoNothing (Some ["tenant_id"; "menu"])))) ;;*
      insert_menus tenant_id menus'
  end.
Definition pg_add_known_menus (tenant_id : string) (menus : list string) : prog (list string) :=
  if decide (zlen menus > MAX_MENUS_PER_TENANT)
  then praise (StoreConflict ("menu limit " +:+ pretty MAX_MENUS_PER_TENANT +:+ " per tenant")) else
  check_menu_ids menus ;;*
  insert_menus tenant_id (dedup menus) ;;*
  pg_list_known_menus tenant_id.

(** ** Roles *)

Definition role_cols : list string :=
  ["role_id"; "tenant_id"; "display_name"; "write_classes"; "created_at"; "updated_at"].
Definition pg_get_role (tenant_id role_id : string) : prog (option prow) :=
  match dget role_id ROLES_SEED with
  | Some seed =>
      let* menus := pg_get_role_menus tenant_id role_id in
      pret (Some [("role_id", PStr role_id); ("tenant_id", PStr tenant_id);
                  ("display_name", PStr (rs_display_name seed));
                  ("write_classes", PJson (jlist (default [] (dget role_id WRITE_CLASSES))));
                  ("built_in", PBool true); ("menus", PJson (jlist menus))])
  | None =>
      let* row := fetchrow (returning role_cols (SELECT "custom_roles" (role_key tenant_id role_id) [] None)) in
      match row with
      | None => pret None
      | Some r =>
          let* menus := pg_get_role_menus tenant_id role_id in
          pret (Some (pset "menus" (PJson (jlist menus))
                        (pset "built_in" (PBool false) (_decode_json "write_classes" r))))
      end
  end.
Fixpoint get_roles (tenant_id : string) (ids : list string) : prog (list (option prow)) :=
  match ids with
  | [] => pret []
  | r :: ids' => let* x := pg_get_role tenant_id r in let* xs := get_roles tenant_id ids' in pret (x :: xs)
  end.
Definition pg_list_roles (tenant_id : string) : prog (list (option prow)) :=
  let* built_in := get_roles tenant_id (dkeys ROLES_SEED) in
  let* rs := fetch (returning ["role_id"] (SELECT "custom_roles" ("tenant_id" =. VText tenant_id)
                                             [("created_at", false)] None)) in
  let* custom := get_roles tenant_id ((fun r => py_text (pget "role_id" r)) <$> rs) in
  pret (built_in ++ custom).

Definition custom_view (r : prow) : prow := pset "built_in" (PBool false) (_decode_json "write_classes" r).
Definition pg_create_custom_role (tenant_id role_id display_name : string) (write_classes : list string)
    : prog (option prow) :=
  if negb (valid_id role_id) then praise (StoreConflict ("invalid role id " +:+ py_repr role_id)) else
  if decide (role_id ∈ dkeys ROLES_SEED) then praise (built_in_conflict role_id) else
  if negb (valid_write_classes write_classes) then praise (StoreConflict "invalid write_classes") else
  let* row := pmap_exn (on_unique ("role " +:+ role_id +:+ " exists"))
    (fetchrow (returning role_cols (INSERT "custom_roles"
       [("role_id", VText role_id); ("tenant_id", VText tenant_id); ("display_name", VText display_name);
        ("write_classes", to_jsonb (jlist write_classes))] Fails))) in
  pret (custom_view <$> row).
Definition pg_update_custom_role (tenant_id role_id : string) (display_name : option string)
    (write_classes : option (list string)) : prog (option prow) :=
  if decide (role_id ∈ dkeys ROLES_SEED) then praise (built_in_conflict role_id) else
  if match write_classes with Some wc => negb (valid_write_classes wc) | None => false end
  then praise (StoreConflict "invalid write_classes") else
  let* row := fetchrow (returning role_cols (UPDATE "custom_roles"
    (("updated_at", Ex (fun _ => now_)) :: opt_set "display_name" VText display_name
       ++ opt_set "write_classes" (fun wc => to_jsonb (jlist wc)) write_classes)
    (role_key tenant_id role_id))) in
  pret (custom_view <$> row).
Definition pg_delete_custom_role (tenant_id role_id : string) : prog bool :=
  if decide (role_id ∈ dkeys ROLES_SEED) then praise (built_in_conflict role_id) else
  let* in_use := pg_count_members_by_role pe tenant_id role_id in
  if decide (in_use <> 0)
  then praise (StoreConflict ("role " +:+ role_id +:+ " still assigned to " +:+ pretty in_use +:+ " member(s)")) else
  let* n := fetchval (returning ["role_id"] (DELETE "custom_roles" (role_key tenant_id role_id))) in
  (if str_true (match n with PStr s => s | _ => "" end)
   then fetchval (no_returning (DELETE "role_menu_matrix" (role_key tenant_id role_id))) ;;* pret tt
   else pret tt) ;;*
  pret (val_is_not_none n).
End pg_rbac.
