(* ===== verification/PgTokens.v ===== *)
(** * PgStore: revoked and issued jtis, refresh tokens, SSO tickets (db.py) *)
From S2P Require Import Prelude PyText Json StoreState Prims Users Sql Migrations Schema PgBase.
From S2P Require Import PgTenants PgUsers.

Section pg_tokens.
Context `{Asyncpg}.
Variable pe : PgEnv.
#[local] Abbreviation INSERT := (insert schema (_set_guc pe)).
#[local] Abbreviation UPDATE := (update schema (_set_guc pe)).
#[local] Abbreviation SELECT := (select schema (_set_guc pe)).
#[local] Abbreviation now_ := (VTime (pe_now pe)).

(** ** Revoked jtis *)

Definition pg_revoke_jti (jti tenant_id : string) (user_id : option string) (reason : string)
    (expires_at : option Z) : prog unit :=
  let expiry := match expires_at with
                | Some e => if decide (e <> 0) then e else pe_now pe + sec 86400
                | None => pe_now pe + sec 86400
                end in
  execute "INSERT 0" (INSERT "revoked_jtis"
    [("jti", VText jti); ("tenant_id", VText tenant_id); ("user_id", vtext user_id);
     ("reason", VText reason); ("expires_at", VTime expiry)] (DoNothing (Some ["jti"]))) ;;*
  pret tt.
(** [SELECT EXISTS(...)] *)
Definition pg_is_jti_revoked (jti : string) : prog bool :=
  let* v := fetchval (a_map (fun rs => [[("exists", VBool (bool_decide (rs <> [])))]])
              (SELECT "revoked_jtis" ("jti" =. VText jti) [] None)) in
  pret (bool_decide (v = PBool true)).

(** ** Refresh tokens *)

Definition pg_insert_refresh_token (jti family_id tenant_id user_id : string) (expires_at : Z)
    (replaced_by : option string) (status : string) : prog (option prow) :=
  fetchrow (INSERT "refresh_tokens"
    [("jti", VText jti); ("family_id", VText family_id); ("tenant_id", VText tenant_id);
     ("user_id", VText user_id); ("status", VText status); ("expires_at", VTime expires_at);
     ("replaced_by", vtext replaced_by)] Fails).
(** [if row.get("expires_at"): row["expires_at"] = row["expires_at"].timestamp()] *)
Definition pg_get_refresh_token (jti : string) : prog (option prow) :=
  let* row := fetchrow (SELECT "refresh_tokens" ("jti" =. VText jti) [] None) in
  pret ((fun r => pset "expires_at" (timestamp_or (pget "expires_at" r)) r) <$> row).
Definition pg_rotate_refresh_token (old_jti new_jti : string) : prog bool :=
  let* val := fetchval (returning ["jti"] (UPDATE "refresh_tokens"
    [("status", Ex (fun _ => VText "rotated")); ("replaced_by", Par (VText new_jti))]
    ("jti" =. VText old_jti &. "status" =. VText "active"))) in
  pret (val_is_not_none val).
(** [WITH u AS (UPDATE ... RETURNING 1) SELECT COUNT( * ) FROM u] *)
Definition pg_revoke_where (w : cond) : prog Z :=
  let* n := fetchval (count_rows (UPDATE "refresh_tokens" [("status", Ex (fun _ => VText "revoked"))]
                                    (w &. "status" <>. VText "revoked"))) in
  pret (as_int n).
Definition pg_revoke_refresh_family (family_id : string) : prog Z :=
  pg_revoke_where ("family_id" =. VText family_id).
Definition pg_revoke_user_sessions (user_id : string) : prog Z :=
  pg_revoke_where ("user_id" =. VText user_id).

(** ** Issued jtis *)

(** [jwt_ttl] is [int(os.environ.get("FUSION_IDENTITY_JWT_TTL", "900"))]. *)
Definition pg_record_issued_jti (jwt_ttl : res Z) (jti tenant_id user_id : string) : prog unit :=
  let* ttl_seconds := Return jwt_ttl in
  execute "INSERT 0" (INSERT "issued_jtis"
    [("jti", VText jti); ("tenant_id", VText tenant_id); ("user_id", VText user_id);
     ("expires_at", VTime (pe_now pe + sec ttl_seconds))]
    (DoUpdate ["jti"] (fun ex => [("expires_at", Ex (fun _ => col "expires_at" ex))]))) ;;*
  pret tt.

Definition owner_query (t jti : string) : prog (option prow) :=
  fetchrow (returning ["tenant_id"; "user_id"] (SELECT t ("jti" =. VText jti) [] None)).
Definition owner_pair (r : prow) : string * option string :=
  (py_text (pget "tenant_id" r), match pget "user_id" r with PStr u => Some u | _ => None end).
Definition pg_get_jti_owner (jti : string) : prog (option (string * option string)) :=
  let* revoked := owner_query "revoked_jtis" jti in
  let named := match revoked with
               | Some r => str_true (match pget "tenant_id" r with PStr t => t | _ => "" end)
               | None => false
               end in
  match (if named then revoked else None) with
  | Some r => pret (Some (owner_pair r))
  | None =>
      let* issued := owner_query "issued_jtis" jti in
      match issued with
      | Some r => pret (Some (owner_pair r))
      | None =>
          let* refresh := owner_query "refresh_tokens" jti in
          pret (owner_pair <$> refresh)
      end
  end.

(** One statement: the unexpired issued jtis of the user, each put on the
    revocation ledger unless it is there; the count of the new entries. *)
Fixpoint insert_revoked (e : Sess) (reason : string) (rs : list row) : M Db (list row) :=
  match rs with
  | [] => ret []
  | r :: rs' =>
      let! new := insert schema e "revoked_jtis"
        [("jti", col "jti" r); ("tenant_id", col "tenant_id" r); ("user_id", col "user_id" r);
         ("reason", VText reason); ("expires_at", col "expires_at" r)] (DoNothing (Some ["jti"])) in
      let! more := insert_revoked e reason rs' in
      ret (new ++ more)
  end.
(** [$2::text IS NULL OR tenant_id=$2] *)
Definition tenant_or_any (tenant_id : option string) : cond :=
  match tenant_id with Some t => "tenant_id" =. VText t | None => c_true end.
Definition pg_revoke_user_issued_jtis (user_id : string) (tenant_id : option string) (reason : string)
    : prog Z :=
  let e := _set_guc pe in
  let* n := fetchval (count_rows (transaction
    (let! active := select schema e "issued_jtis"
       ("user_id" =. VText user_id &. tenant_or_any tenant_id &. "expires_at" >. now_) [] None in
     insert_revoked e reason active))) in
  pret (as_int n).

(** ** SSO tickets *)

Definition pg_create_sso_ticket (ticket_hash user_id tenant_id : string) (expires_at : Z) : prog unit :=
  execute "INSERT 0" (INSERT "sso_tickets"
    [("ticket_hash", VText ticket_hash); ("user_id", VText user_id); ("tenant_id", VText tenant_id);
     ("expires_at", pg_ts_from_epoch expires_at)] (DoNothing (Some ["ticket_hash"]))) ;;*
  pret tt.
Definition pg_consume_sso_ticket (ticket_hash : string) : prog (option prow) :=
  fetchrow (returning ["user_id"; "tenant_id"] (UPDATE "sso_tickets" [("used_at", Ex (fun _ => now_))]
    ("ticket_hash" =. VText ticket_hash &. is_null "used_at" &. "expires_at" >. now_))).
End pg_tokens.

(** * PgStore: API keys, application secrets, stored credentials (db.py) *)

Section pg_keys.
Context `{HashLib, Asyncpg}.
Variable pe : PgEnv.
#[local] Abbreviation INSERT := (insert schema (_set_guc pe)).
#[local] Abbreviation UPDATE := (update schema (_set_guc pe)).
#[local] Abbreviation SELECT := (select schema (_set_guc pe)).
#[local] Abbreviation now_ := (VTime (pe_now pe)).

(** ** API keys *)

Definition pg_create_api_key (rnd_raw rnd_id tenant_id : string) (user_id : option string)
    (scopes : list string) : prog (string * option prow) :=
  let raw := "fmu_" +:+ rnd_raw in
  let key_id := "key_" +:+ rnd_id in
  let* row := fetchrow (INSERT "api_keys"
    [("key_id", VText key_id); ("tenant_id", VText tenant_id); ("user_id", vtext user_id);
     ("key_hash", VText (sha256 raw)); ("prefix", VText (stake 8 raw +:+ "****"));
     ("scopes", to_jsonb (jlist scopes))] Fails) in
  pret (raw, row).
Definition pg_get_api_key_by_hash (key_hash : string) : prog (option prow) :=
  let* row := fetchrow (SELECT "api_keys" ("key_hash" =. VText key_hash &. is_null "revoked_at") [] None) in
  pret (_decode_scopes <$> row).
Definition pg_list_api_keys (tenant_id : string) : prog (list prow) :=
  let* rs := fetch (SELECT "api_keys" ("tenant_id" =. VText tenant_id &. is_null "revoked_at")
                      [("created_at", false)] None) in
  pret (_decode_scopes <$> rs).
Definition pg_revoke_api_key (key_id : string) : prog bool :=
  let* val := fetchval (returning ["key_id"] (UPDATE "api_keys" [("revoked_at", Ex (fun _ => now_))]
                ("key_id" =. VText key_id &. is_null "revoked_at"))) in
  pret (val_is_not_none val).

(** ** Application secrets

    The connection of the transaction is not narrowed: the table has no tenant. *)
(** [COALESCE(MAX(version), 0)] *)
Definition max_version (rs : list row) : Z :=
  match omap (fun r => match col "version" r with VInt v => Some v | _ => None end) rs with
  | [] => 0
  | v :: vs => foldl Z.max v vs
  end.
(** The writes of the transaction: demote the row that was current when it was
    read, insert the new one, commit. The unique key on [(app_id, version)] decides
    between two workers that read the same version. *)
Definition issue_writes (secret_id raw app_id : string) (version grace_seconds : Z)
    (prev : option prow) : action :=
  let e := pooled pe in
  transaction
    (match prev with
     | Some p =>
         update schema e "app_secrets"
           [("status", Ex (fun _ => VText "grace"));
            ("grace_until", Ex (fun _ => VTime (pe_now pe + sec grace_seconds)))]
           ("secret_id" =. VText (py_text (pget "secret_id" p))) ;;; ret tt
     | None => ret tt
     end ;;;
     catch (insert schema e "app_secrets"
       [("secret_id", VText secret_id); ("app_id", VText app_id); ("version", VInt version);
        ("secret_hash", VText (sha256 raw)); ("prefix", VText (stake 8 raw +:+ "****"));
        ("status", VText "current")] Fails)
       (fun x => raise (on_unique ("app secret version race for " +:+ app_id) x))).
Definition pg_issue_app_secret (rnd_raw rnd_id app_id : string) (grace_seconds : Z)
    : prog (string * option prow * option prow) :=
  let raw := "fms_" +:+ rnd_raw in
  let secret_id := "sec_" +:+ rnd_id in
  let e := pooled pe in
  let* version := fetchval (a_map (fun rs => [[("version", VInt (max_version rs + 1))]])
    (select schema e "app_secrets" ("app_id" =. VText app_id) [] None)) in
  let* prev := fetchrow (select schema e "app_secrets"
    ("app_id" =. VText app_id &. "status" =. VText "current") [] None) in
  let* row := fetchrow (issue_writes secret_id raw app_id (as_int version) grace_seconds prev) in
  let demoted (r : prow) : prow :=
    pset "grace_until" (PFloat (pe_now pe + sec grace_seconds))
      (pset "status" (PStr "grace") (_decode_app_secret false r)) in
  pret (raw, _decode_app_secret false <$> row, demoted <$> prev).

Definition pg_get_current_app_secret (app_id : string) : prog (option prow) :=
  let* row := fetchrow (SELECT "app_secrets" ("app_id" =. VText app_id &. "status" =. VText "current") [] None) in
  pret (_decode_app_secret false <$> row).
Definition pg_has_app_secrets (app_id : string) : prog bool :=
  let* val := fetchval (a_map (fmap (fun _ => [("one", VInt 1)]))
                (SELECT "app_secrets" ("app_id" =. VText app_id) [] (Some 1))) in
  pret (val_is_not_none val).

(** The loop body shared by the two listings. *)
Definition secret_row_item (r : prow) : prow :=
  let item := _decode_app_secret true r in
  match pget "status" item, pget "grace_until" item with
  | PStr st, PFloat g => if decide (st = "grace" /\ g < pe_now pe)
                         then pset "status" (PStr "expired") item else item
  | _, _ => item
  end.
Definition pg_list_app_secrets (app_id : string) : prog (list prow) :=
  let* rs := fetch (SELECT "app_secrets" ("app_id" =. VText app_id) [("version", true)] None) in
  pret (secret_row_item <$> rs).
Definition pg_list_all_app_secrets : prog (list prow) :=
  let* rs := fetch (SELECT "app_secrets" c_true [("app_id", false); ("version", true)] None) in
  pret (secret_row_item <$> rs).
(** A parameter of an [INTEGER] comparison. *)
Definition bind_int32 (z : Z) : prog unit :=
  if int_ok 32 z then pret tt else praise (PgError DataError).
Definition pg_revoke_app_secret_version (app_id : string) (version : Z) : prog (option prow) :=
  bind_int32 version ;;*
  let* row := fetchrow (UPDATE "app_secrets"
    [("status", Ex (fun _ => VText "revoked")); ("grace_until", Ex (fun _ => VNull))]
    ("app_id" =. VText app_id &. "version" =. VInt version)) in
  pret (_decode_app_secret true <$> row).

(** ** Stored credentials *)

Definition pg_put_app_credential (app_id name secret_enc : string) : prog (option prow) :=
  let* row := fetchrow (INSERT "app_credentials"
    [("app_id", VText app_id); ("name", VText name); ("secret_enc", VText secret_enc)]
    (DoUpdate ["app_id"; "name"] (fun ex =>
       [("secret_enc", Ex (fun _ => col "secret_enc" ex)); ("updated_at", Ex (fun _ => now_))]))) in
  pret (_decode_app_credential <$> row).
Definition pg_get_app_credential (app_id name : string) : prog (option prow) :=
  let* row := fetchrow (UPDATE "app_credentials"
    [("fetch_count", Ex (fun r => match col "fetch_count" r with VInt n => VInt (n + 1) | v => v end));
     ("last_fetched_at", Ex (fun _ => now_))]
    ("app_id" =. VText app_id &. "name" =. VText name)) in
  pret (_decode_app_credential <$> row).
End pg_keys.
