(* ===== verification/PgLedger.v ===== *)
(** * PgStore: events, departments, audit ledger, usage, counters, identity
    providers, lease log (db.py) *)
From S2P Require Import Prelude PyText Json StoreState Sql Migrations Schema PgBase PgTenants PgUsers.
From S2P Require Import Prims Users AuditLog Ledger.

Section pg_ledger.
Context `{HashLib, Asyncpg}.
Variable pe : PgEnv.
#[local] Abbreviation INSERT := (insert schema (_set_guc pe)).
#[local] Abbreviation UPDATE := (update schema (_set_guc pe)).
#[local] Abbreviation DELETE := (delete schema (_set_guc pe)).
#[local] Abbreviation SELECT := (select schema (_set_guc pe)).
#[local] Abbreviation now_ := (VTime (pe_now pe)).

(** A parameter of a [BIGINT] comparison or of [LIMIT]. *)
Definition bind_int64 (z : Z) : prog unit :=
  if int_ok 64 z then pret tt else praise (PgError DataError).

(** ** Event outbox *)

Definition event_cols : list string :=
  ["event_id"; "seq"; "event_type"; "tenant_id"; "payload"; "status"; "attempts"; "created_at"; "updated_at"].
Definition pg_append_event (rnd_id event_type tenant_id : string) (payload : json) : prog (option prow) :=
  let* row := fetchrow (returning event_cols (INSERT "event_outbox"
    [("event_id", VText ("evt_" +:+ rnd_id)); ("event_type", VText event_type);
     ("tenant_id", VText tenant_id); ("payload", to_jsonb payload)] Fails)) in
  pret (_decode_event <$> row).
Definition pg_list_events (cursor limit : Z) : prog (list prow) :=
  bind_int64 cursor ;;* bind_int64 limit ;;*
  let* rs := fetch (returning event_cols (SELECT "event_outbox" ("seq" >. VInt cursor)
                                            [("seq", false)] (Some limit))) in
  pret (_decode_event <$> rs).
Definition pg_pending_events (limit : Z) : prog (list prow) :=
  bind_int64 limit ;;*
  let* rs := fetch (returning event_cols (SELECT "event_outbox" ("status" =. VText "pending")
                                            [("seq", false)] (Some limit))) in
  pret (_decode_event <$> rs).
Definition pg_mark_event (event_id status : string) (attempts : option Z) : prog bool :=
  let* val := fetchval (returning ["event_id"] (UPDATE "event_outbox"
    (("status", Par (VText status)) :: opt_set "attempts" VInt attempts
       ++ [("updated_at", Ex (fun _ => now_))]) ("event_id" =. VText event_id))) in
  pret (val_is_not_none val).

(** ** Departments *)

Definition bind_uuid (s : string) : prog sval :=
  match uuid_of s with Some u => pret (VUuid u) | None => praise (PgError DataError) end.
Definition bind_uuid_opt (o : option string) : prog sval :=
  match o with Some s => bind_uuid s | None => pret VNull end.

(** [dept_id::text] and the other columns as they come: [tool_allowlist] stays a
    text. *)
Definition dept_cols (r : row) : row :=
  ("dept_id", match col "dept_id" r with VUuid u => VText u | v => v end)
  :: proj ["tenant_id"; "name"; "parent_id"; "tool_allowlist"; "created_at"; "updated_at"] r.
Definition returning_dept : action -> action := a_map (fmap dept_cols).
Definition dept_key (tenant_id : string) (dept_id : sval) : cond :=
  "tenant_id" =. VText tenant_id &. "dept_id" =. dept_id.
Definition pg_create_department (tenant_id name : string) (parent_id : option string)
    (tool_allowlist : option (list string)) : prog (option prow) :=
  let* parent := bind_uuid_opt parent_id in
  fetchrow (returning_dept (INSERT "departments"
    [("tenant_id", VText tenant_id); ("name", VText name); ("parent_id", parent);
     ("tool_allowlist", to_jsonb (jlist (default [] tool_allowlist)))] Fails)).
Definition pg_get_department (tenant_id dept_id : string) : prog (option prow) :=
  let* id_ := bind_uuid dept_id in
  fetchrow (returning_dept (SELECT "departments" (dept_key tenant_id id_) [] None)).
Definition pg_list_departments (tenant_id : string) : prog (list prow) :=
  fetch (returning_dept (SELECT "departments" ("tenant_id" =. VText tenant_id) [("created_at", false)] None)).
Definition pg_update_department (tenant_id dept_id : string) (name parent_id : option string)
    (tool_allowlist : option (list string)) : prog (option prow) :=
  let* id_ := bind_uuid dept_id in
  let* parent := bind_uuid_opt parent_id in
  fetchrow (returning_dept (UPDATE "departments"
    (("updated_at", Ex (fun _ => now_)) :: opt_set "name" VText name
       ++ (if decide (parent = VNull) then [] else [("parent_id", Par parent)])
       ++ opt_set "tool_allowlist" (fun l => to_jsonb (jlist l)) tool_allowlist)
    (dept_key tenant_id id_))).
(** The [DELETE] has no [RETURNING]: [n] is [None]. *)
Definition pg_delete_department (tenant_id dept_id : string) : prog bool :=
  let* id_ := bind_uuid dept_id in
  let* n := fetchval (no_returning (DELETE "departments" (dept_key tenant_id id_))) in
  pret (val_is_not_none n).

(** ** Audit ledger *)

(** The statements of the transaction, one after the other; between any two of
    them other workers act. [FOR UPDATE] locks a row that only a transaction with
    the tenant's advisory lock asks for, so it never makes anybody wait. *)
Definition append_row (f : AuditFields) (prev : string) (seq : pyval) : prog (option prow) :=
  let chain := chain_hash prev f in
  fetchrow (INSERT "audit_log"
    [("seq", VInt (as_int seq)); ("tenant_id", VText (af_tenant_id f)); ("user_id", vtext (af_user_id f));
     ("jti", vtext (af_jti f)); ("role", vtext (af_role f)); ("action", VText (af_action f));
     ("resource", vtext (af_resource f)); ("detail", to_jsonb (af_detail f));
     ("chain_hash", VText chain); ("prev_hash", VText prev); ("ts", VTime (af_ts f))] Fails).
Definition nextval_row (q : string) : action := fun db =>
  let '(n, db') := nextval q db in (Ok [[("nextval", VInt n)]], db').
Definition append_seq (f : AuditFields) (prev : string) : prog (option prow) :=
  let* seq := fetchval (nextval_row "audit_seq_seq") in append_row f prev seq.
(** [fetchval(...) or "genesis"] *)
Definition or_genesis (v : pyval) : string :=
  match v with PStr h => if str_true h then h else "genesis" | _ => "genesis" end.
Definition append_body (f : AuditFields) : prog (option prow) :=
  let* prev := fetchval (returning ["chain_hash"]
    (SELECT "audit_log" ("tenant_id" =. VText (af_tenant_id f)) [("seq", true)] (Some 1))) in
  append_seq f (or_genesis prev).
Definition pg_append_audit (tenant_id : string) (user_id jti role : option string) (action_ : string)
    (resource : option string) (detail : json) : prog (option prow) :=
  locked_transaction (hashtext tenant_id)
    (append_body (mkAuditFields tenant_id user_id jti role action_ resource detail (pe_now pe))).

Definition opt_cond {A} (f : A -> cond) (o : option A) (w : cond) : cond :=
  match o with Some v => w &. f v | None => w end.
Definition pg_list_audit (tenant_id : string) (limit : Z) (since until cursor : option Z) : prog (list prow) :=
  bind_int64 limit ;;* bind_int64 (default 0 cursor) ;;*
  fetch (SELECT "audit_log"
    (opt_cond (fun c => "id" <. VInt c) cursor
       (opt_cond (fun t => "ts" <=. VTime t) until
          (opt_cond (fun t => "ts" >=. VTime t) since ("tenant_id" =. VText tenant_id))))
    [("id", true)] (Some limit)).

(** The fields of a row as Python sees them: [detail] is the text of the
    column, [ts.timestamp()] the stored time. *)
Definition opt_text (v : pyval) : option string := match v with PStr s => Some s | _ => None end.
Definition row_fields (a : prow) : AuditFields :=
  mkAuditFields (py_text (pget "tenant_id" a)) (opt_text (pget "user_id" a)) (opt_text (pget "jti" a))
    (opt_text (pget "role" a)) (py_text (pget "action" a)) (opt_text (pget "resource" a))
    (match pget "detail" a with PStr s => JStr s | PJson j => j | _ => JNull end)
    (match pget "ts" a with PDatetime us => us | _ => 0 end).
Fixpoint pg_verify_rows (prev : string) (rs : list prow) : option Z :=
  match rs with
  | [] => None
  | a :: rs' =>
      if compare_digest (chain_hash prev (row_fields a)) (py_text (pget "chain_hash" a))
      then pg_verify_rows (py_text (pget "chain_hash" a)) rs'
      else Some (as_int (pget "id" a))
  end.
(** [None] is [{"valid": True, "broken_at": None}]. *)
Definition pg_verify_audit_chain (tenant_id : string) : prog (option Z) :=
  let* rs := fetch (SELECT "audit_log" ("tenant_id" =. VText tenant_id) [("id", false)] None) in
  pret (pg_verify_rows "genesis" rs).

(** ** Usage *)

Definition pg_record_usage (tenant_id : string) (user_id : option string) (metric : string) (value : Z)
    (source : string) (model : option string) : prog prow :=
  execute "INSERT 0" (INSERT "usage_ledger"
    [("tenant_id", VText tenant_id); ("user_id", vtext user_id); ("metric", VText metric);
     ("value", VInt value); ("source", VText source); ("model", vtext model);
     ("bucket_hour", VTime (trunc_hour (pe_now pe)))]
    (DoUpdate ["tenant_id"; "bucket_hour"; "metric"; "source"; "model"] (fun ex =>
       [("value", Ex (fun r => match col "value" r, col "value" ex with
                               | VInt a, VInt b => VInt (a + b) | v, _ => v end))]))) ;;*
  pret [("tenant_id", PStr tenant_id); ("metric", PStr metric); ("value", PInt value); ("source", PStr source)].

Definition vint (v : sval) : Z := match v with VInt z => z | _ => 0 end.
(** [SELECT cols, sum(value) AS value, sum(1) AS buckets ... GROUP BY cols]: the
    groups in the order in which the rows come. *)
Definition group_sum (cols : list string) (rs : list row) : list row :=
  (fun g => let members := filter (fun r => proj cols r = g) rs in
            g ++ [("value", VInt (foldl (fun a r => a + vint (col "value" r)) 0 members));
                  ("buckets", VInt (zlen members))])
  <$> remove_dups (proj cols <$> rs).
Definition usage_where (tenant_id : string) (since until : option Z) : cond :=
  opt_cond (fun t => "bucket_hour" <=. VTime t) until
    (opt_cond (fun t => "bucket_hour" >=. VTime t) since ("tenant_id" =. VText tenant_id)).
Definition pg_aggregate_usage (tenant_id : string) (since until : option Z) (metric : option string)
    : prog (list prow) :=
  let groups := ["tenant_id"; "bucket_hour"; "metric"; "source"] in
  fetch (a_map (fun rs => proj (groups ++ ["value"]) <$>
                  sort_by (order_le [("bucket_hour", false)]) (group_sum groups rs))
    (SELECT "usage_ledger" (opt_cond (fun m => "metric" =. VText m) metric
                              (usage_where tenant_id since until)) [] None)).
(** [d[k] = d.get(k, 0) + value] is [Ledger.tally]. *)
Definition summary_row (acc : UsageSummary) (r : prow) : UsageSummary :=
  let value := as_int (pget "value" r) in
  mkUsageSummary (sm_events acc + as_int (pget "buckets" r))
    (tally (py_text (pget "metric" r)) value (sm_totals acc))
    (tally (or_default "unknown" (opt_text (pget "source" r))) value (sm_by_source acc))
    (tally (or_default "unspecified" (opt_text (pget "model" r))) value (sm_by_model acc)).
Definition pg_usage_summary (tenant_id : string) (since until : option Z) : prog UsageSummary :=
  let* rs := fetch (a_map (group_sum ["metric"; "source"; "model"])
               (SELECT "usage_ledger" (usage_where tenant_id since until) [] None)) in
  pret (foldl summary_row (mkUsageSummary 0 [] [] []) rs).

(** ** Counters *)

Definition pg_count (t : string) (w : cond) : prog Z :=
  let* n := fetchval (count_rows (SELECT t w [] None)) in pret (as_int n).
Definition pg_stats : prog Stats :=
  let* tenants := pg_count "tenants" ("status" <>. VText "deleted") in
  let* users := pg_count "users" c_true in
  let* members := pg_count "tenant_members" c_true in
  let* api_keys := pg_count "api_keys" (is_null "revoked_at") in
  let* audit_records := pg_count "audit_log" c_true in
  let* revoked := pg_count "revoked_jtis" c_true in
  let* refresh := pg_count "refresh_tokens" ("status" =. VText "active") in
  let* idps := pg_count "identity_providers" c_true in
  let* mfa := pg_count "user_mfa" c_true in
  let* legacy := pg_count "users" ("password_algo" =. VText "scrypt") in
  pret (mkStats tenants users members api_keys audit_records revoked refresh idps mfa legacy).

(** ** Identity providers *)

Definition pg_create_idp (idp_id tenant_id type : string)
    (issuer_url client_id client_secret_enc scopes : option string) (auto_provision : bool)
    : prog (option prow) :=
  fetchrow (INSERT "identity_providers"
    [("idp_id", VText idp_id); ("tenant_id", VText tenant_id); ("type", VText type);
     ("issuer_url", vtext issuer_url); ("client_id", vtext client_id);
     ("client_secret_enc", vtext client_secret_enc); ("scopes", vtext scopes);
     ("auto_provision", VBool auto_provision)] Fails).
Definition pg_get_idp (idp_id : string) : prog (option prow) :=
  fetchrow (SELECT "identity_providers" ("idp_id" =. VText idp_id) [] None).
Definition pg_list_idps (tenant_id : string) : prog (list prow) :=
  fetch (SELECT "identity_providers" ("tenant_id" =. VText tenant_id) [("created_at", false)] None).
Definition pg_list_all_idps : prog (list prow) :=
  fetch (SELECT "identity_providers" (not_null "client_secret_enc") [("created_at", false)] None).
(** [status.startswith("DELETE") and not status.endswith(" 0")] *)
Definition ends_zero (s : string) : bool :=
  match reverse (chars s) with c :: d :: _ => bool_decide (c = "0"%char /\ d = " "%char) | _ => false end.
Definition pg_delete_idp (idp_id : string) : prog bool :=
  let* status := execute "DELETE" (DELETE "identity_providers" ("idp_id" =. VText idp_id)) in
  pret (startswith "DELETE" status && negb (ends_zero status)).
Definition idp_sets (f : IdpFields) : list (string * setter) :=
  opt_set "type" VText (pf_type f) ++ opt_set "issuer_url" VText (pf_issuer_url f)
  ++ opt_set "client_id" VText (pf_client_id f)
  ++ opt_set "client_secret_enc" VText (pf_client_secret_enc f)
  ++ opt_set "scopes" VText (pf_scopes f) ++ opt_set "auto_provision" VBool (pf_auto_provision f).
Definition pg_update_idp (idp_id : string) (f : IdpFields) : prog (option prow) :=
  if decide (idp_sets f = []) then pg_get_idp idp_id
  else fetchrow (UPDATE "identity_providers" (idp_sets f) ("idp_id" =. VText idp_id)).
Definition pg_get_idp_summary (tenant_id : string) : prog IdpSummary :=
  let* rs := fetch (returning ["type"; "auto_provision"]
               (SELECT "identity_providers" ("tenant_id" =. VText tenant_id) [] None)) in
  pret (mkIdpSummary (0 <? zlen rs) (zlen rs) (sorted_set ((fun r => py_text (pget "type" r)) <$> rs))
          (existsb (fun r => bool_decide (pget "auto_provision" r = PBool true)) rs)).

(** ** Lease log *)

Definition pg_log_lease (tenant_id lease_id action_ : string) (reason : option string) : prog unit :=
  execute "INSERT 0" (INSERT "lease_log"
    [("tenant_id", VText tenant_id); ("lease_id", VText lease_id); ("action", VText action_);
     ("reason", vtext reason)] Fails) ;;*
  pret tt.
Definition pg_list_lease_log (tenant_id : string) (limit : Z) : prog (list prow) :=
  bind_int64 limit ;;*
  fetch (SELECT "lease_log" ("tenant_id" =. VText tenant_id) [("created_at", true)] (Some limit)).
End pg_ledger.
