(* ===== verification/PgSteps.v ===== *)
(** * PgStore as a transition system

    [pg_op] lists the methods of PgStore that change rows; [pg_call] is the
    program of one. [pg_step] is one action of one call, under any session, so
    [evolve] covers every interleaving of any number of workers; [pool_rel] runs
    the same calls as threads that keep what they read and wait for advisory
    locks. [keeps P] says
    that every action of a program relates the databases around it by [P]; the
    tactic [pg_keeps] reduces it to the statements. *)
From S2P Require Import Prelude PyText Json StoreState Sql Migrations Schema PgBase Prims Users Tenants.
From S2P Require Import Ledger PgTenants PgUsers PgTokens PgLedger.

Inductive pg_op : Type :=
  | PgCreateTenant (tenant_id display_name plan join_policy : string)
  | PgUpdateTenant (tenant_id : string) (fields : TenantFields)
  | PgSetJoinPolicy (tenant_id join_policy : string)
  | PgDeleteTenant (tenant_id : string)
  | PgCreateInvite (invite_id tenant_id token_hash role : string) (expires_at : Z)
      (email created_by : option string)
  | PgMarkInviteUsed (invite_id user_id : string)
  | PgCreateJoinRequest (request_id tenant_id user_id : string)
  | PgDecideJoinRequest (request_id status decided_by : string)
  | PgPutQuota (tenant_id : string) (fields : QuotaFields)
  | PgPutPlanTemplate (plan : string) (quota : QuotaFields)
  | PgPutIdempotency (idem_key endpoint : string) (response : json)
  | PgCreateUser (salt user_id username password : string) (email : option string)
      (must_change_password email_verified : bool) (display_name : option string)
  | PgSetEmailVerifyToken (user_id token_hash : string) (expires_at : Z)
  | PgVerifyEmailToken (token_hash : string)
  | PgSetPasswordResetToken (user_id token_hash : string) (expires_at : Z)
  | PgConsumePasswordResetToken (token_hash : string)
  | PgUpdateUser (user_id : string) (fields : UserFields)
  | PgAddMember (tenant_id user_id role : string) (added_by : option string)
  | PgUpdateMemberRole (tenant_id user_id role : string)
  | PgRemoveMember (tenant_id user_id : string)
  | PgUpsertMfa (user_id method secret_enc : string) (enabled : bool)
  | PgDeleteMfa (user_id method : string)
  | PgSetRoleMenus (tenant_id role_id : string) (menus : list string)
  | PgResetRoleMenus (tenant_id role_id : string)
  | PgAddKnownMenus (tenant_id : string) (menus : list string)
  | PgCreateCustomRole (tenant_id role_id display_name : string) (write_classes : list string)
  | PgUpdateCustomRole (tenant_id role_id : string) (display_name : option string)
      (write_classes : option (list string))
  | PgDeleteCustomRole (tenant_id role_id : string)
  | PgCreateApiKey (rnd_raw rnd_id tenant_id : string) (user_id : option string) (scopes : list string)
  | PgRevokeApiKey (key_id : string)
  | PgIssueAppSecret (rnd_raw rnd_id app_id : string) (grace_seconds : Z)
  | PgRevokeAppSecretVersion (app_id : string) (version : Z)
  | PgPutAppCredential (app_id name secret_enc : string)
  | PgGetAppCredential (app_id name : string)
  | PgRevokeJti (jti tenant_id : string) (user_id : option string) (reason : string)
      (expires_at : option Z)
  | PgInsertRefreshToken (jti family_id tenant_id user_id : string) (expires_at : Z)
      (replaced_by : option string) (status : string)
  | PgRotateRefreshToken (old_jti new_jti : string)
  | PgRevokeRefreshFamily (family_id : string)
  | PgRevokeUserSessions (user_id : string)
  | PgRecordIssuedJti (jwt_ttl : res Z) (jti tenant_id user_id : string)
  | PgRevokeUserIssuedJtis (user_id : string) (tenant_id : option string) (reason : string)
  | PgCreateSsoTicket (ticket_hash user_id tenant_id : string) (expires_at : Z)
  | PgConsumeSsoTicket (ticket_hash : string)
  | PgAppendEvent (rnd_id event_type tenant_id : string) (payload : json)
  | PgMarkEvent (event_id status : string) (attempts : option Z)
  | PgCreateDepartment (tenant_id name : string) (parent_id : option string)
      (tool_allowlist : option (list string))
  | PgUpdateDepartment (tenant_id dept_id : string) (name parent_id : option string)
      (tool_allowlist : option (list string))
  | PgDeleteDepartment (tenant_id dept_id : string)
  | PgAppendAudit (tenant_id : string) (user_id jti role : option string) (action_ : string)
      (resource : option string) (detail : json)
  | PgRecordUsage (tenant_id : string) (user_id : option string) (metric : string) (value : Z)
      (source : string) (model : option string)
  | PgCreateIdp (idp_id tenant_id type : string)
      (issuer_url client_id client_secret_enc scopes : option string) (auto_provision : bool)
  | PgUpdateIdp (idp_id : string) (fields : IdpFields)
  | PgDeleteIdp (idp_id : string)
  | PgLogLease (tenant_id lease_id action_ : string) (reason : option string).

Section steps.
Context `{HashLib, Argon2Lib, Asyncpg}.

Definition pg_call (pe : PgEnv) (op : pg_op) : prog unit :=
  match op with
  | PgCreateTenant t n p j => pg_create_tenant pe t n p j ;;* pret tt
  | PgUpdateTenant t f => pg_update_tenant pe t f ;;* pret tt
  | PgSetJoinPolicy t j => pg_set_join_policy pe t j ;;* pret tt
  | PgDeleteTenant t => pg_delete_tenant pe t ;;* pret tt
  | PgCreateInvite i t h r x e c => pg_create_invite pe i t h r x e c ;;* pret tt
  | PgMarkInviteUsed i u => pg_mark_invite_used pe i u ;;* pret tt
  | PgCreateJoinRequest r t u => pg_create_join_request pe r t u ;;* pret tt
  | PgDecideJoinRequest r s d => pg_decide_join_request pe r s d ;;* pret tt
  | PgPutQuota t f => pg_put_quota pe t f ;;* pret tt
  | PgPutPlanTemplate p q => pg_put_plan_template pe p q ;;* pret tt
  | PgPutIdempotency k e r => pg_put_idempotency pe k e r
  | PgCreateUser s u n p e m v d => pg_create_user pe s u n p e m v d ;;* pret tt
  | PgSetEmailVerifyToken u h x => pg_set_email_verify_token pe u h x ;;* pret tt
  | PgVerifyEmailToken h => pg_verify_email_token pe h ;;* pret tt
  | PgSetPasswordResetToken u h x => pg_set_password_reset_token pe u h x ;;* pret tt
  | PgConsumePasswordResetToken h => pg_consume_password_reset_token pe h ;;* pret tt
  | PgUpdateUser u f => pg_update_user pe u f ;;* pret tt
  | PgAddMember t u r a => pg_add_member pe t u r a ;;* pret tt
  | PgUpdateMemberRole t u r => pg_update_member_role pe t u r ;;* pret tt
  | PgRemoveMember t u => pg_remove_member pe t u ;;* pret tt
  | PgUpsertMfa u m s e => pg_upsert_mfa pe u m s e ;;* pret tt
  | PgDeleteMfa u m => pg_delete_mfa pe u m ;;* pret tt
  | PgSetRoleMenus t r m => pg_set_role_menus pe t r m ;;* pret tt
  | PgResetRoleMenus t r => pg_reset_role_menus pe t r ;;* pret tt
  | PgAddKnownMenus t m => pg_add_known_menus pe t m ;;* pret tt
  | PgCreateCustomRole t r d w => pg_create_custom_role pe t r d w ;;* pret tt
  | PgUpdateCustomRole t r d w => pg_update_custom_role pe t r d w ;;* pret tt
  | PgDeleteCustomRole t r => pg_delete_custom_role pe t r ;;* pret tt
  | PgCreateApiKey a b t u s => pg_create_api_key pe a b t u s ;;* pret tt
  | PgRevokeApiKey k => pg_revoke_api_key pe k ;;* pret tt
  | PgIssueAppSecret a b app g => pg_issue_app_secret pe a b app g ;;* pret tt
  | PgRevokeAppSecretVersion a v => pg_revoke_app_secret_version pe a v ;;* pret tt
  | PgPutAppCredential a n s => pg_put_app_credential pe a n s ;;* pret tt
  | PgGetAppCredential a n => pg_get_app_credential pe a n ;;* pret tt
  | PgRevokeJti j t u r e => pg_revoke_jti pe j t u r e
  | PgInsertRefreshToken j f t u x rb s => pg_insert_refresh_token pe j f t u x rb s ;;* pret tt
  | PgRotateRefreshToken a b => pg_rotate_refresh_token pe a b ;;* pret tt
  | PgRevokeRefreshFamily f => pg_revoke_refresh_family pe f ;;* pret tt
  | PgRevokeUserSessions u => pg_revoke_user_sessions pe u ;;* pret tt
  | PgRecordIssuedJti ttl j t u => pg_record_issued_jti pe ttl j t u
  | PgRevokeUserIssuedJtis u t r => pg_revoke_user_issued_jtis pe u t r ;;* pret tt
  | PgCreateSsoTicket h u t x => pg_create_sso_ticket pe h u t x
  | PgConsumeSsoTicket h => pg_consume_sso_ticket pe h ;;* pret tt
  | PgAppendEvent i e t p => pg_append_event pe i e t p ;;* pret tt
  | PgMarkEvent i s a => pg_mark_event pe i s a ;;* pret tt
  | PgCreateDepartment t n p l => pg_create_department pe t n p l ;;* pret tt
  | PgUpdateDepartment t d n p l => pg_update_department pe t d n p l ;;* pret tt
  | PgDeleteDepartment t d => pg_delete_department pe t d ;;* pret tt
  | PgAppendAudit t u j r a res d => pg_append_audit pe t u j r a res d ;;* pret tt
  | PgRecordUsage t u m v s md => pg_record_usage pe t u m v s md ;;* pret tt
  | PgCreateIdp i t ty a b c d e => pg_create_idp pe i t ty a b c d e ;;* pret tt
  | PgUpdateIdp i f => pg_update_idp pe i f ;;* pret tt
  | PgDeleteIdp i => pg_delete_idp pe i ;;* pret tt
  | PgLogLease t l a r => pg_log_lease pe t l a r
  end.

(** One action of some call, in some session that passes [ok]. *)
Definition pg_step (ok : PgEnv -> Prop) (db db' : Db) : Prop :=
  exists pe op a r, ok pe /\ act_in a (pg_call pe op) /\ a db = (r, db').
Definition evolve (ok : PgEnv -> Prop) : Db -> Db -> Prop := rtc (pg_step ok).

(** ** Workers and locks

    [pg_step] knows nothing of what a program has read before. In a [World]
    every call is a thread: what is left of its program, and the advisory locks
    of its connection. A thread that asks for a lock of another thread waits; a
    lost worker leaves its call where it is and its connection gives the locks
    back. *)
Record Thread : Type := mkThread { th_prog : prog unit; th_keys : list Z }.
Definition ended : Thread := mkThread (Return (Ok tt)) [].
Record World : Type := mkWorld { w_db : Db; w_threads : list Thread }.
Inductive event : Type :=
  | Start (pe : PgEnv) (op : pg_op)
  | Run (i : nat)
  | Lost (i : nat).

Definition thread_step (taken : Z -> bool) (th : Thread) (db : Db) : option (Db * Thread) :=
  match th_prog th with
  | Return _ => None
  | Act a k => let '(r, db') := a db in Some (db', mkThread (k r) (th_keys th))
  | Sync (Acquire key) m => if taken key then None else Some (db, mkThread m (key :: th_keys th))
  | Sync Release m => Some (db, mkThread m [])
  end.
Definition taken_by (ths : list Thread) (key : Z) : bool :=
  existsb (fun th => bool_decide (key ∈ th_keys th)) ths.
Definition pool_step (ev : event) (w : World) : option World :=
  match ev with
  | Start pe op => Some (mkWorld (w_db w) (w_threads w ++ [mkThread (pg_call pe op) []]))
  | Run i =>
      th ← w_threads w !! i;
      '(db', th') ← thread_step (taken_by (<[i := ended]> (w_threads w))) th (w_db w);
      Some (mkWorld db' (<[i := th']> (w_threads w)))
  | Lost i => Some (mkWorld (w_db w) (<[i := ended]> (w_threads w)))
  end.
Definition event_ok (ok : PgEnv -> Prop) (ev : event) : Prop :=
  match ev with Start pe _ => ok pe | _ => True end.
Definition pool_rel (ok : PgEnv -> Prop) (w w' : World) : Prop :=
  exists ev, event_ok ok ev /\ pool_step ev w = Some w'.
Fixpoint pool_run (evs : list event) (w : World) : option World :=
  match evs with [] => Some w | ev :: evs' => w' ← pool_step ev w; pool_run evs' w' end.
Lemma pool_run_rel ok evs w w' :
  Forall (event_ok ok) evs -> pool_run evs w = Some w' -> rtc (pool_rel ok) w w'.
Proof.
  revert w. induction evs as [|ev evs IH]; intros w Hok E; simpl in E; [simplify_eq; apply rtc_refl|].
  apply Forall_cons in Hok as [? ?]. destruct (pool_step ev w) as [w1|] eqn:E1; [|done].
  apply rtc_l with w1; [by exists ev|by apply IH].
Qed.

(** What a pool does to the database is a sequence of actions of its calls. *)
Definition from_call (ok : PgEnv -> Prop) (th : Thread) : Prop :=
  forall a, act_in a (th_prog th) -> exists pe op, ok pe /\ act_in a (pg_call pe op).
Lemma thread_step_evolves ok taken th db db' th' :
  from_call ok th -> thread_step taken th db = Some (db', th') -> evolve ok db db' /\ from_call ok th'.
Proof.
  intros Hin E. unfold thread_step, from_call in *. destruct th as [m ks]. simpl in *.
  destruct m as [r|a k|[key | ] m]; [done| | |].
  - destruct (a db) as [r db1] eqn:Ea. simplify_eq. split; [|intros b Hb; apply Hin; by econstructor].
    apply rtc_once. destruct (Hin a) as (pe & op & ? & ?); [constructor|]. by exists pe, op, a, r.
  - destruct (taken key); [done|]. simplify_eq. split; [apply rtc_refl|intros b Hb; apply Hin; by constructor].
  - simplify_eq. split; [apply rtc_refl|intros b Hb; apply Hin; by constructor].
Qed.
Lemma pool_evolves ok db w :
  rtc (pool_rel ok) (mkWorld db []) w -> evolve ok db (w_db w).
Proof.
  intros Hw. cut (evolve ok db (w_db w) /\ Forall (from_call ok) (w_threads w)); [by intros []|].
  revert w Hw. apply rtc_ind_r; [split; [apply rtc_refl|constructor]|].
  intros w w' _ ([pe op|i|i] & Hok & E) [Hev Hth]; simpl in E.
  - simplify_eq. split; [done|]. apply Forall_app. split; [done|]. constructor; [|done]. intros a Ha. by exists pe, op.
  - destruct (w_threads w !! i) as [th|] eqn:Hi; [|done]. simpl in E.
    destruct (thread_step _ th (w_db w)) as [[db' th']|] eqn:Et; [|done]. simplify_eq/=.
    pose proof (Forall_lookup_1 _ _ _ _ Hth Hi) as Hf.
    destruct (thread_step_evolves _ _ _ _ _ _ Hf Et).
    split; [etransitivity; eassumption|by apply Forall_insert].
  - simplify_eq. split; [done|]. apply Forall_insert; [done|]. intros a Ha. inversion Ha.
Qed.
End steps.

(** ** Properties of all actions of a program *)

Definition mkeeps (P : Db -> Db -> Prop) {A} (m : M Db A) : Prop :=
  forall db r db', m db = (r, db') -> P db db'.
Definition keeps (P : Db -> Db -> Prop) {A} (m : prog A) : Prop :=
  forall a, act_in a m -> mkeeps P a.

(** A relation that the growth of sequences does not affect and that composes. *)
Class Evolution (P : Db -> Db -> Prop) : Prop := {
  ev_same db db' : db_tables db = db_tables db' -> seqs_le db db' -> P db db';
  ev_trans : Transitive P
}.
#[export] Existing Instance ev_trans.
#[export] Instance seqs_le_evolution : Evolution seqs_le.
Proof. split; [done|apply _]. Qed.

Section keeps.
Context `{Asyncpg} (P : Db -> Db -> Prop) `{!Evolution P}.

Lemma keeps_return {A} (r : res A) : keeps P (Return r).
Proof. intros a Ha. inversion Ha. Qed.

Lemma keeps_bind {A B} (m : prog A) (f : A -> prog B) :
  keeps P m -> (forall x, keeps P (f x)) -> keeps P (pbind m f).
Proof.
  intros Hm Hf. induction m as [[x|e]|b k IH|l m IH]; simpl; [apply Hf|apply keeps_return| |].
  - intros a Ha. inversion Ha as [|? ? ? r Hin|]; subst.
    + apply Hm. constructor.
    + eapply (IH r); [|exact Hin]. intros a' Ha'. apply Hm. by econstructor.
  - intros a Ha. inversion Ha as [| |? ? ? Hin]; subst. eapply IH; [|exact Hin].
    intros a' Ha'. apply Hm. by constructor.
Qed.
Lemma keeps_sync {A} l (m : prog A) : keeps P m -> keeps P (Sync l m).
Proof. intros Hm a Ha. inversion Ha; subst. by apply Hm. Qed.
Lemma keeps_released {A} (m : prog A) : keeps P m -> keeps P (released m).
Proof.
  intros Hm. induction m as [r|b k IH|l m IH]; simpl.
  - apply keeps_sync, keeps_return.
  - intros a Ha. inversion Ha as [|? ? ? r Hin|]; subst.
    + apply Hm. constructor.
    + eapply (IH r); [|exact Hin]. intros a' Ha'. apply Hm. by econstructor.
  - apply keeps_sync, IH. intros a Ha. apply Hm. by constructor.
Qed.
Lemma keeps_locked {A} key (m : prog A) : keeps P m -> keeps P (locked_transaction key m).
Proof. intros Hm. by apply keeps_sync, keeps_released. Qed.

Lemma keeps_map_exn {A} f (m : prog A) : keeps P m -> keeps P (pmap_exn f m).
Proof.
  intros Hm. induction m as [[x|e]|b k IH|l m IH]; simpl; [apply keeps_return..| |].
  - intros a Ha. inversion Ha as [|? ? ? r Hin|]; subst.
    + apply Hm. constructor.
    + eapply (IH r); [|exact Hin]. intros a' Ha'. apply Hm. by econstructor.
  - apply keeps_sync, IH. intros a Ha. apply Hm. by constructor.
Qed.

Lemma keeps_send a : mkeeps P a -> keeps P (send a).
Proof.
  intros Ha b Hb. inversion Hb as [|? ? ? r Hin|]; subst; [done|]. inversion Hin.
Qed.
Lemma keeps_fetchrow a : mkeeps P a -> keeps P (fetchrow a).
Proof. intros. apply keeps_bind; [by apply keeps_send|intros; apply keeps_return]. Qed.
Lemma keeps_fetch a : mkeeps P a -> keeps P (fetch a).
Proof. intros. apply keeps_bind; [by apply keeps_send|intros; apply keeps_return]. Qed.
Lemma keeps_fetchval a : mkeeps P a -> keeps P (fetchval a).
Proof. intros. apply keeps_bind; [by apply keeps_send|intros; apply keeps_return]. Qed.
Lemma keeps_execute tag a : mkeeps P a -> keeps P (execute tag a).
Proof. intros. apply keeps_bind; [by apply keeps_send|intros; apply keeps_return]. Qed.

Lemma mkeeps_map f a : mkeeps P a -> mkeeps P (a_map f a).
Proof.
  intros Ha db r db' E. unfold a_map in E. destruct (a db) as [[rs|x] db1] eqn:E1; simplify_eq;
    by eapply Ha.
Qed.
Lemma mkeeps_refl {A} (m : M Db A) : (forall db, (m db).2 = db) -> mkeeps P m.
Proof. intros Hm db r db' E. specialize (Hm db). rewrite E in Hm. simpl in Hm. subst. by apply ev_same. Qed.
Lemma mkeeps_ret {A} (x : A) : mkeeps P (ret x).
Proof. by apply mkeeps_refl. Qed.
Lemma mkeeps_raise {A} (e : exn) : mkeeps P (@raise Db A e).
Proof. by apply mkeeps_refl. Qed.
Lemma mkeeps_bind {A B} (m : M Db A) (f : A -> M Db B) :
  mkeeps P m -> (forall x, mkeeps P (f x)) -> mkeeps P (bind m f).
Proof.
  intros Hm Hf db r db' E. unfold bind in E. destruct (m db) as [[x|e] db1] eqn:E1.
  - transitivity db1; [by eapply Hm|by eapply Hf].
  - simplify_eq. by eapply Hm.
Qed.
Lemma mkeeps_catch {A} (m : M Db A) h : mkeeps P m -> (forall e, mkeeps P (h e)) -> mkeeps P (catch m h).
Proof.
  intros Hm Hh db r db' E. unfold catch in E. destruct (m db) as [[x|e] db1] eqn:E1.
  - simplify_eq. by eapply Hm.
  - transitivity db1; [by eapply Hm|by eapply Hh].
Qed.
Lemma mkeeps_transaction m : mkeeps P m -> mkeeps seqs_le m -> mkeeps P (transaction m).
Proof.
  intros Hm Hq db r db' E. unfold transaction in E. destruct (m db) as [[x|e] db1] eqn:E1; simplify_eq.
  - by eapply Hm.
  - apply ev_same; [done|]. etransitivity; [by eapply Hq|]. by apply seqs_le_eq.
Qed.
Lemma mkeeps_nextval q : mkeeps P (nextval_row q).
Proof.
  intros db r db' E. unfold nextval_row in E. destruct (nextval q db) as [n db1] eqn:En. simplify_eq.
  apply ev_same; [|by eapply nextval_seqs]. unfold nextval in En. by simplify_eq.
Qed.
Lemma select_same sch e t w by_ limit db : (select sch e t w by_ limit db).2 = db.
Proof. unfold select, with_table, pg_raise, raise. by repeat case_match. Qed.
Lemma mkeeps_select sch e t w by_ limit : mkeeps P (select sch e t w by_ limit).
Proof. apply mkeeps_refl. intros. apply select_same. Qed.
End keeps.

Lemma insert_revoked_seqs e reason rs : mkeeps seqs_le (insert_revoked e reason rs).
Proof.
  induction rs as [|r rs IH]; cbn [insert_revoked]; [apply mkeeps_ret, _|].
  apply mkeeps_bind; [apply _|intros ? ? ?; apply insert_seqs|intros new].
  apply mkeeps_bind; [apply _|exact IH|intros more]. apply mkeeps_ret, _.
Qed.

(** Reduce [keeps] of a method to its writing statements. *)
Ltac pg_keeps_step :=
  match goal with
  | |- keeps _ (Return _) => apply keeps_return
  | |- keeps _ (pret _) => apply keeps_return
  | |- keeps _ (praise _) => apply keeps_return
  | |- keeps _ (pbind _ _) => apply keeps_bind; [|intros ?]
  | |- keeps _ (pmap_exn _ _) => apply keeps_map_exn
  | |- keeps _ (send _) => apply keeps_send
  | |- keeps _ (fetchrow _) => apply keeps_fetchrow
  | |- keeps _ (fetch _) => apply keeps_fetch
  | |- keeps _ (fetchval _) => apply keeps_fetchval
  | |- keeps _ (execute _ _) => apply keeps_execute
  | |- keeps _ (if ?b then _ else _) => destruct b
  | |- keeps _ (match ?x with _ => _ end) => destruct x
  | |- mkeeps _ (a_map _ _) => apply mkeeps_map
  | |- mkeeps _ (returning _ _) => apply mkeeps_map
  | |- mkeeps _ (no_returning _) => apply mkeeps_map
  | |- mkeeps _ (count_rows _) => apply mkeeps_map
  | |- mkeeps _ (returning_dept _) => apply mkeeps_map
  | |- mkeeps _ (select _ _ _ _ _ _) => apply mkeeps_select, _
  | |- mkeeps _ (transaction _) => apply mkeeps_transaction; [apply _| |]
  | |- mkeeps seqs_le (insert _ _ _ _ _) => intros ? ? ?; apply insert_seqs
  | |- mkeeps seqs_le (insert_revoked _ _ _) => apply insert_revoked_seqs
  | |- mkeeps seqs_le (update _ _ _ _ _) => intros ? ? ?; apply update_seqs
  | |- mkeeps _ (bind _ _) => apply mkeeps_bind; [apply _| |intros ?]
  | |- mkeeps _ (catch _ _) => apply mkeeps_catch; [apply _| |intros ?]
  | |- mkeeps _ (ret _) => apply mkeeps_ret, _
  | |- mkeeps _ (raise _) => apply mkeeps_raise, _
  | |- mkeeps _ (nextval_row _) => apply mkeeps_nextval, _
  | |- keeps _ (locked_transaction _ _) => apply keeps_locked
  | |- mkeeps _ (match ?x with _ => _ end) => destruct x
  end.
Ltac pg_keeps := repeat pg_keeps_step.

Section loops.
Context `{Asyncpg} (P : Db -> Db -> Prop).
Lemma keeps_check_menu_id m : keeps P (check_menu_id m).
Proof. unfold check_menu_id. pg_keeps. Qed.
Lemma keeps_check_menus known menus : keeps P (check_menus known menus).
Proof.
  induction menus as [|m menus IH]; simpl; [pg_keeps|].
  pg_keeps; [apply keeps_check_menu_id|exact IH].
Qed.
Lemma keeps_check_menu_ids menus : keeps P (check_menu_ids menus).
Proof.
  induction menus as [|m menus IH]; simpl; [pg_keeps|].
  pg_keeps; [apply keeps_check_menu_id|exact IH].
Qed.
Lemma keeps_insert_menus pe tenant_id menus :
  (forall m, mkeeps P (insert schema (_set_guc pe) "known_menus"
     [("tenant_id", VText tenant_id); ("menu", VText m)] (DoNothing (Some ["tenant_id"; "menu"])))) ->
  keeps P (insert_menus pe tenant_id menus).
Proof. intros Hi. induction menus as [|m menus IH]; cbn [insert_menus]; pg_keeps; (apply Hi || exact IH). Qed.
Lemma mkeeps_insert_revoked `{!Evolution P} e reason rs :
  (forall vals, mkeeps P (insert schema e "revoked_jtis" vals (DoNothing (Some ["jti"])))) ->
  mkeeps P (insert_revoked e reason rs).
Proof. intros Hi. induction rs as [|r rs IH]; cbn [insert_revoked]; pg_keeps; (apply Hi || exact IH). Qed.
End loops.

Create HintDb pgm.
#[export] Hint Unfold pg_create_tenant pg_get_tenant pg_update_tenant pg_set_join_policy pg_delete_tenant
  pg_create_invite pg_is_valid_role pg_mark_invite_used pg_create_join_request pg_get_join_request
  pg_decide_join_request pg_put_quota pg_put_plan_template pg_get_plan_template pg_put_idempotency
  pg_create_user pg_set_email_verify_token pg_verify_email_token pg_set_password_reset_token
  pg_consume_password_reset_token pg_update_user pg_get_user pg_add_member pg_update_member_role
  pg_remove_member pg_upsert_mfa pg_delete_mfa pg_set_role_menus pg_list_known_menus
  pg_reset_role_menus pg_add_known_menus pg_create_custom_role pg_update_custom_role
  pg_delete_custom_role pg_count_members_by_role pg_create_api_key pg_revoke_api_key
  pg_issue_app_secret issue_writes pg_revoke_app_secret_version bind_int32
  pg_put_app_credential pg_get_app_credential pg_revoke_jti pg_insert_refresh_token
  pg_rotate_refresh_token pg_revoke_refresh_family pg_revoke_user_sessions pg_revoke_where
  pg_record_issued_jti pg_revoke_user_issued_jtis pg_create_sso_ticket pg_consume_sso_ticket
  pg_append_event pg_mark_event pg_create_department pg_update_department pg_delete_department
  bind_uuid bind_uuid_opt pg_append_audit append_body append_seq append_row pg_record_usage pg_create_idp pg_get_idp
  pg_update_idp pg_delete_idp pg_log_lease : pgm.

(** Unfold a call and reduce it to its writing statements. *)
Ltac pg_open := cbn [pg_call]; autounfold with pgm; pg_keeps.

(** A relation that the statements keep is kept by every action of every
    call; the one transaction outside the tenant scope writes [app_secrets]. *)
Section all_calls.
Context `{HashLib, Argon2Lib, Asyncpg} (P : Db -> Db -> Prop) `{!Evolution P} (pe : PgEnv).
Hypotheses
  (HI : forall t vals oc, mkeeps P (insert schema (_set_guc pe) t vals oc))
  (HU : forall t sets w, mkeeps P (update schema (_set_guc pe) t sets w))
  (HD : forall t w, mkeeps P (delete schema (_set_guc pe) t w))
  (HI' : forall vals oc, mkeeps P (insert schema (pooled pe) "app_secrets" vals oc))
  (HU' : forall sets w, mkeeps P (update schema (pooled pe) "app_secrets" sets w)).

Lemma pg_call_keeps op : keeps P (pg_call pe op).
Proof.
  destruct op; pg_open;
    auto using keeps_check_menus, keeps_check_menu_ids, keeps_insert_menus, mkeeps_insert_revoked.
Qed.
End all_calls.
