(* ===== verification/PgProps.v ===== *)
(** * What PgStore guarantees under any interleaving of workers (db.py)

    That constraints hold and tenant isolation by row-level security, for [evolve]: any
    sequence of the actions of any calls. *)
From S2P Require Import Prelude PyText Json StoreState Sql Migrations Schema PgBase Prims Users.
From S2P Require Import Tenants Ledger PgTenants PgUsers PgTokens PgLedger PgSteps.

(** ** The schema *)

Lemma schema_wf : dict_wf schema.
Proof. apply (bool_decide_unpack _). vm_compute. exact I. Qed.

Definition db_okb (sch : catalog) (db : Db) : bool :=
  forallb (fun p => unique_ok p.2 (rows p.1 db) &&
    forallb (fun r => bool_decide (row_error p.2 r = None) && fkeys_ok p.2 db r) (rows p.1 db)) sch.
Lemma db_okb_ok sch db : db_okb sch db = true -> db_ok sch db.
Proof.
  unfold db_okb. rewrite forallb_Forall, Forall_forall. intros H t td Hin. specialize (H _ Hin).
  simpl in H. apply andb_true_iff in H as [? H]. split; [done|].
  rewrite forallb_Forall in H. eapply Forall_impl; [exact H|].
  intros r [?%bool_decide_eq_true ?]%andb_true_iff. by split.
Qed.

Lemma fresh_ok now : db_ok schema (fresh_db now).
Proof. apply db_okb_ok. vm_compute. reflexivity. Qed.

(** ** Actions and runs *)

Section runs.
Context `{HashLib, Argon2Lib, Asyncpg}.

Lemma evolve_keeps (ok : PgEnv -> Prop) (P : Db -> Db -> Prop) `{!Evolution P} db db' :
  (forall pe op, ok pe -> keeps P (pg_call pe op)) -> evolve ok db db' -> P db db'.
Proof.
  intros HP Hev. induction Hev as [db|db1 db2 db3 (pe & op & a & r & Hok & Hin & E) _ IH].
  - by apply ev_same.
  - transitivity db2; [|done]. by eapply HP.
Qed.

(** A program run alone is a sequence of its actions. *)
Lemma exec_keeps (P : Db -> Db -> Prop) `{!Evolution P} {A} (m : prog A) db r db' :
  keeps P m -> exec m db = (r, db') -> P db db'.
Proof.
  revert db. induction m as [x|a k IH|l m IH]; intros db Hm E; simpl in E.
  - simplify_eq. by apply ev_same.
  - destruct (a db) as [r1 db1] eqn:Ea. transitivity db1; [eapply Hm; [constructor|done]|].
    eapply (IH r1); [|done]. intros b Hb. apply Hm. by econstructor.
  - eapply IH; [|done]. intros b Hb. apply Hm. by constructor.
Qed.

(** A call run alone is a sequence of steps. *)
Lemma exec_steps {A} (ok : PgEnv -> Prop) pe op (m : prog A) db :
  ok pe -> (forall a, act_in a m -> act_in a (pg_call pe op)) -> evolve ok db (exec m db).2.
Proof.
  intros Hok. revert db. induction m as [x|a k IH|l m IH]; intros db Hin;
    [apply rtc_refl| |apply IH; intros b Hb; apply Hin; by constructor]. simpl.
  destruct (a db) as [r1 db1] eqn:Ea. apply rtc_l with db1.
  - exists pe, op, a, r1. split; [done|]. split; [apply Hin; constructor|done].
  - apply IH. intros b Hb. apply Hin. by econstructor.
Qed.
Lemma exec_evolves ok pe op db : ok pe -> evolve ok db (exec (pg_call pe op) db).2.
Proof. intros Hok. by eapply exec_steps. Qed.
End runs.

(** ** Constraints *)

Definition ok_kept (db db' : Db) : Prop := db_ok schema db -> db_ok schema db'.
Lemma effect_ok_kept e t db db' : effect schema e t db db' -> ok_kept db db'.
Proof. intros Heff Hok. eapply (effect_ok schema e schema_wf); eassumption. Qed.
#[export] Instance ok_kept_evolution : Evolution ok_kept.
Proof.
  split; [|by intros db1 db2 db3 H12 H23 ?; auto].
  intros db db' E _. apply (effect_ok_kept (operator 0) ""), eff_none. by symmetry.
Qed.

Section constraints.
Context `{HashLib, Argon2Lib, Asyncpg}.

Lemma insert_ok_kept e t vals oc : mkeeps ok_kept (insert schema e t vals oc).
Proof. intros db r db' E. by eapply effect_ok_kept, insert_effect. Qed.
Lemma update_ok_kept e t sets w : mkeeps ok_kept (update schema e t sets w).
Proof. intros db r db' [E _]%update_effect. by eapply effect_ok_kept. Qed.
Lemma delete_ok_kept e t w : mkeeps ok_kept (delete schema e t w).
Proof. intros db r db' [E _]%delete_effect. by eapply effect_ok_kept. Qed.

Lemma call_ok_kept pe op : keeps ok_kept (pg_call pe op).
Proof.
  apply pg_call_keeps; try apply _; intros; auto using insert_ok_kept, update_ok_kept, delete_ok_kept.
Qed.

Lemma evolve_ok ok db db' : evolve ok db db' -> db_ok schema db -> db_ok schema db'.
Proof. apply (evolve_keeps ok ok_kept). intros. apply call_ok_kept. Qed.
End constraints.

(** ** Row-level security *)

(** A worker that acts for a tenant, as the role of migration 0007. *)
Definition acts_for (tid : string) (pe : PgEnv) : Prop := pe_ctx pe = Some tid /\ pe_role pe = AppRole.
(** The tables with row-level security. *)
Definition fenced_of (sch : catalog) : list string :=
  omap (fun p => if decide (tb_rls p.2 = RlsOff) then None else Some p.1) sch.
Definition fenced : list string := fenced_of schema.
Lemma fenced_of_dget sch t :
  dict_wf sch -> t ∈ fenced_of sch -> exists td, dget t sch = Some td /\ tb_rls td <> RlsOff.
Proof.
  intros Hwf ([t' td] & Hp & E)%list_elem_of_omap. case_decide; simplify_eq. exists td.
  split; [by apply elem_of_dget|done].
Qed.
Lemma fenced_dget t : t ∈ fenced -> exists td, dget t schema = Some td /\ tb_rls td <> RlsOff.
Proof. apply fenced_of_dget, schema_wf. Qed.
#[local] Opaque schema fenced.

Section isolation.
Context `{HashLib, Argon2Lib, Asyncpg}.

Definition others_kept (tid : string) (db db' : Db) : Prop :=
  forall t td, dget t schema = Some td -> tb_rls td <> RlsOff -> others tid t db' = others tid t db.
#[local] Instance others_kept_evolution tid : Evolution (others_kept tid).
Proof.
  split; [|intros db1 db2 db3 H12 H23 t td Ht Hr; by rewrite (H23 t td), (H12 t td)].
  intros db db' E _ t td _ _. unfold others. by rewrite (rows_tables _ _ _ E).
Qed.

Lemma narrowed tid pe :
  acts_for tid pe -> tid <> "" -> ss_guc (_set_guc pe) = tid /\
  forall td, tb_rls td <> RlsOff -> rls_bound (_set_guc pe) td = true.
Proof.
  intros [Hc Hr] Hne. unfold _set_guc, _tenant_guc, rls_bound. simpl. rewrite Hc, Hr.
  unfold str_true. rewrite bool_decide_eq_true_2 by done. split; [done|]. intros td. by destruct (tb_rls td).
Qed.

Lemma effect_others tid pe t db db' :
  acts_for tid pe -> tid <> "" -> tid <> "_system" ->
  effect schema (_set_guc pe) t db db' -> others_kept tid db db'.
Proof.
  intros Ha Hne Hsys Heff t' td' Ht' Hrls. destruct (narrowed tid pe Ha Hne) as [Hg Hb].
  rewrite <- Hg. eapply effect_fence; [by rewrite Hg|done..|by apply Hb].
Qed.

(** [app_secrets] is not fenced, and no other table changes with it. *)
Lemma effect_app_secrets tid e db db' :
  effect schema e "app_secrets" db db' -> others_kept tid db db'.
Proof.
  intros Heff t td Ht Hrls. unfold others.
  assert (t <> "app_secrets") as Hne by (intros ->; vm_compute in Ht; by simplify_eq).
  destruct Heff as [E|? ? ? ? ? ? ? E|? ? ? ? ? ? ? ? ? E|? ? ? ? E];
    by rewrite (rows_tables _ _ _ E), ?rows_set_rows_ne.
Qed.

Lemma call_others_kept tid pe op :
  acts_for tid pe -> tid <> "" -> tid <> "_system" -> keeps (others_kept tid) (pg_call pe op).
Proof.
  intros Ha Hne Hsys. apply pg_call_keeps; try apply _.
  - intros t vals oc db r db' E. by eapply effect_others, insert_effect.
  - intros t sets w db r db' [E _]%update_effect. by eapply effect_others.
  - intros t w db r db' [E _]%delete_effect. by eapply effect_others.
  - intros vals oc db r db' E. by eapply effect_app_secrets, insert_effect.
  - intros sets w db r db' [E _]%update_effect. by eapply effect_app_secrets.
Qed.

(** [C6] Workers that act for one tenant as the application role, in any
    interleaving of any calls, leave every row of every other tenant as it was
    in all tables with row-level security, and what they read there belongs to
    their tenant. *)
Theorem pg_rls_isolates tid db db' :
  tid <> "" -> tid <> "_system" -> evolve (acts_for tid) db db' ->
  (forall t, t ∈ fenced -> others tid t db' = others tid t db) /\
  (forall pe t w by_ limit rs db2, acts_for tid pe -> t ∈ fenced ->
     select schema (_set_guc pe) t w by_ limit db' = (Ok rs, db2) ->
     Forall (fun r => col "tenant_id" r = VText tid) rs).
Proof.
  intros Hne Hsys Hev. split.
  - intros t (td & Ht & Hr)%fenced_dget. eapply (evolve_keeps (acts_for tid) (others_kept tid)); [|done..].
    intros pe op Ha. by apply call_others_kept.
  - intros pe t w by_ limit rs db2 Ha (td & Ht & Hr)%fenced_dget E.
    destruct (narrowed tid pe Ha Hne) as [Hg Hb]. rewrite <- Hg.
    eapply select_fence; [by rewrite Hg|exact Ht|by apply Hb|exact E].
Qed.

(** Tables with a tenant column that row-level security does not cover. *)
Theorem rls_uncovered :
  (fun p => p.1) <$> filter (fun p => find_col "tenant_id" (tb_cols p.2) <> None /\ tb_rls p.2 = RlsOff) schema
  = ["tenant_invites"; "join_requests"; "sso_tickets"].
Proof. vm_compute. reflexivity. Qed.

(** Tables whose owner it does not bind. *)
Theorem rls_owner_exempt :
  (fun p => p.1) <$> filter (fun p => tb_rls p.2 = RlsOn) schema
  = ["departments"; "custom_roles"; "role_menu_matrix"; "known_menus"; "event_outbox"].
Proof. vm_compute. reflexivity. Qed.
End isolation.
