(* ===== verification/PgSingleUse.v ===== *)
(** * Single use and permanence in PgStore (db.py)

    What one worker has spent or revoked no other worker finds usable, whatever
    calls of whatever workers come in between: SSO tickets, invites, decisions
    on join requests, refresh tokens, the revocation ledger. *)
From S2P Require Import Prelude PyText Json StoreState Prims Tenants Users Ledger Sql.
From S2P Require Import Migrations Schema PgBase PgTenants PgUsers PgTokens PgLedger.
From S2P Require Import PgSteps PgProps.

#[local] Opaque schema.

(** ** A row that stays *)

(** Some row of [t] satisfies [Q]. *)
Definition some_row (t : string) (Q : row -> Prop) (db : Db) : Prop := exists r, r ∈ rows t db /\ Q r.
Definition row_stays (t : string) (Q : row -> Prop) (db db' : Db) : Prop :=
  some_row t Q db -> some_row t Q db'.

#[export] Instance row_stays_evolution t Q : Evolution (row_stays t Q).
Proof.
  split; [|by intros db1 db2 db3 H12 H23 ?; auto].
  intros db db' E _ (r & Hr & HQ). exists r. by rewrite <- (rows_tables _ _ _ E).
Qed.

Section statements.
Context (sch : catalog) (e : Sess) (t : string) (Q : row -> Prop).

(** A statement on another table. *)
Lemma effect_stays_ne t' db db' : effect sch e t' db db' -> t' <> t -> row_stays t Q db db'.
Proof.
  intros Heff Hne (r & Hr & HQ). exists r. split; [|done].
  destruct Heff as [E|? ? ? ? ? ? ? E|? ? ? ? ? ? ? ? ? E|? ? ? ? E];
    by rewrite (rows_tables _ _ _ E), ?rows_set_rows_ne by done.
Qed.
Lemma insert_stays_ne t' vals oc : t' <> t -> mkeeps (row_stays t Q) (insert sch e t' vals oc).
Proof. intros Hne db r db' E%insert_effect. by eapply effect_stays_ne. Qed.
Lemma update_stays_ne t' sets w : t' <> t -> mkeeps (row_stays t Q) (update sch e t' sets w).
Proof. intros Hne db r db' [E _]%update_effect. by eapply effect_stays_ne. Qed.
Lemma delete_stays_ne t' w : t' <> t -> mkeeps (row_stays t Q) (delete sch e t' w).
Proof. intros Hne db r db' [E _]%delete_effect. by eapply effect_stays_ne. Qed.

(** An update whose assignments keep [Q]. *)
Lemma update_stays sets w :
  (forall r, Q r -> Q (set_row sets r)) -> mkeeps (row_stays t Q) (update sch e t sets w).
Proof.
  intros HQ db res db' E. apply update_effect in E as [_ E]. destruct res as [new|x]; [|subst; by apply ev_same].
  destruct E as (td & _ & _ & ->). intros (r & Hr & Hq).
  exists (if hit e td w r then set_row sets r else r). rewrite rows_set_rows_eq. split.
  - apply list_elem_of_fmap. eauto.
  - case_match; auto.
Qed.

(** An insert that does not update a row it meets. *)
Lemma add_row_stays td r0 db res db' :
  add_row t td r0 db = (res, db') -> row_stays t Q db db'.
Proof.
  unfold add_row. intros E (r & Hr & Hq). exists r. split; [|done].
  repeat case_match; simplify_eq; rewrite ?rows_set_rows_eq; set_solver.
Qed.
Lemma insert_stays vals oc :
  match oc with DoUpdate _ _ => False | _ => True end ->
  mkeeps (row_stays t Q) (insert sch e t vals oc).
Proof.
  intros Hoc db res db' E. unfold insert, with_table, pg_raise, raise in E.
  destruct (dget t sch) as [td|]; [|simplify_eq; by apply ev_same].
  case_match; [simplify_eq; by apply ev_same|]. destruct (build_row e (tb_cols td) vals db) as [r0 db1] eqn:Hb.
  apply build_row_tables in Hb as Hbt. apply build_row_seqs in Hb.
  transitivity db1; [by apply ev_same|].
  destruct (negb (visible e td r0)); [simplify_eq; by apply ev_same|].
  destruct (row_error td r0); [simplify_eq; by apply ev_same|].
  destruct oc as [|target|]; [by eapply add_row_stays| |done].
  case_match; [simplify_eq; by apply ev_same|by eapply add_row_stays].
Qed.
End statements.

(** ** One row per key *)

Lemma NoDup_omap_inj {A B} (f : A -> option B) (l : list A) x y k :
  NoDup (omap f l) -> x ∈ l -> y ∈ l -> f x = Some k -> f y = Some k -> x = y.
Proof.
  induction l as [|z l IH]; intros Hnd Hx Hy Ex Ey; [by apply not_elem_of_nil in Hx|].
  simpl in Hnd. apply elem_of_cons in Hx as [->|Hx], Hy as [->|Hy]; [done| | |].
  - rewrite Ex in Hnd. apply NoDup_cons in Hnd as [Hn _]. destruct Hn. apply list_elem_of_omap. eauto.
  - rewrite Ey in Hnd. apply NoDup_cons in Hnd as [Hn _]. destruct Hn. apply list_elem_of_omap. eauto.
  - apply IH; try done. destruct (f z); [by apply NoDup_cons in Hnd as [_ ?]|done].
Qed.

Lemma unique_row sch t td u c s db r r' :
  db_ok sch db -> (t, td) ∈ sch -> (u, [c]) ∈ tb_unique td ->
  r ∈ rows t db -> r' ∈ rows t db -> col c r = VText s -> col c r' = VText s -> r = r'.
Proof.
  intros Hok Ht Hu Hr Hr' E E'. destruct (Hok t td Ht) as [Huq _].
  unfold unique_ok in Huq. rewrite forallb_Forall, Forall_forall in Huq. specialize (Huq _ Hu).
  unfold key_ok in Huq. apply bool_decide_eq_true in Huq. simpl in Huq.
  assert (forall x, col c x = VText s -> key_of [c] x = Some [VText s]) as Hk.
  { intros x Ex. unfold key_of. simpl. rewrite Ex. by rewrite decide_False by set_solver. }
  by eapply NoDup_omap_inj; eauto.
Qed.

(** An update that meets no row. *)
Lemma update_idle sch e t td sets w db :
  db_ok sch db -> dget t sch = Some td -> params_error td (set_params sets) = None ->
  (forall r, r ∈ rows t db -> holds w r = false) ->
  exists db', update sch e t sets w db = (Ok [], db').
Proof.
  intros Hok Ht Hp Hw. unfold update, with_table. rewrite Ht, Hp.
  assert (forall r, r ∈ rows t db -> hit e td w r = false) as Hh.
  { intros r Hr. unfold hit. by rewrite Hw, andb_false_r. }
  assert (filter (fun r => hit e td w r = true) (rows t db) = []) as ->.
  { apply elem_of_nil_inv. intros r [E Hr]%list_elem_of_filter. by rewrite Hh in E. }
  assert ((fun r => if hit e td w r then set_row sets r else r) <$> rows t db = rows t db) as ->.
  { etransitivity; [|apply list_fmap_id]. apply list_fmap_ext. intros i r Hr%list_elem_of_lookup_2.
    by rewrite Hh. }
  simpl. rewrite rows_set_rows_eq. destruct (Hok t td) as [-> _]; [by apply dget_elem_of|].
  simpl. assert (refs_ok sch t (set_rows t (rows t db) db) = true) as ->; [|by eexists].
  assert (forall t', rows t' (set_rows t (rows t db) db) = rows t' db) as Er.
  { intros t'. rewrite rows_set_rows. by case_decide; subst. }
  unfold refs_ok. apply forallb_Forall, Forall_forall. intros [t' td'] Hin. simpl.
  apply forallb_Forall, Forall_forall. intros f Hf. rewrite orb_true_iff. right.
  rewrite Er. apply forallb_Forall, Forall_forall. intros r Hr.
  destruct (Hok t' td' Hin) as [_ Hrows]. rewrite Forall_forall in Hrows.
  destruct (Hrows r Hr) as [_ Hfk]. rewrite fkeys_ok_elim in Hfk.
  eapply fk_ok_rows; [|by apply Hfk]. by rewrite Er.
Qed.

(** An update that wrote a row. *)
Lemma update_hits sch e t sets w db rs db' x :
  update sch e t sets w db = (Ok rs, db') -> x ∈ rs ->
  exists r, r ∈ rows t db /\ holds w r = true /\ x = set_row sets r /\ x ∈ rows t db'.
Proof.
  intros E Hx. apply update_effect in E as [_ (td & _ & -> & ->)].
  apply list_elem_of_fmap in Hx as (r & -> & Hr). apply list_elem_of_filter in Hr as [Hh Hr].
  exists r. unfold hit in Hh. apply andb_true_iff in Hh as [Hv Hw]. do 3 (split; [done|]).
  rewrite rows_set_rows_eq. apply list_elem_of_fmap. exists r. split; [|done].
  unfold hit. by rewrite Hv, Hw.
Qed.

(** ** Spent things *)

Lemma col_dset c k v (r : row) : col c (dset k v r) = if decide (c = k) then v else col c r.
Proof. unfold col. rewrite dget_dset. by case_decide. Qed.

Lemma holds_and w w' r : holds (w &. w') r = holds w r && holds w' r.
Proof. unfold holds, c_and. destruct (w r) as [[]|], (w' r) as [[]|]; done. Qed.
Lemma holds_eq c s r : holds (c =. VText s) r = bool_decide (col c r = VText s).
Proof. unfold holds, c_eq, veq. case_decide as D; [|by repeat case_bool_decide; simplify_eq].
  destruct D as [D|]; [|done]. by rewrite D. Qed.
Lemma holds_null c r : holds (is_null c) r = bool_decide (col c r = VNull).
Proof. unfold holds, is_null. by repeat case_bool_decide; simplify_eq. Qed.

(** A row under the key [s] of the column [c] whose column [d] tells that it is spent. *)
Definition spent_row (c s d : string) (spent : sval -> Prop) (r : row) : Prop :=
  col c r = VText s /\ spent (col d r).

Lemma spent_set c s d (spent : sval -> Prop) sets r :
  Forall (fun kv => kv.1 <> c /\ (kv.1 = d -> spent (set_val kv.2 r))) sets ->
  spent_row c s d spent r -> spent_row c s d spent (set_row sets r).
Proof.
  intros Hs. unfold set_row.
  assert (forall r', spent_row c s d spent r' ->
    spent_row c s d spent (foldl (fun r' cs => dset cs.1 (set_val cs.2 r) r') r' sets)) as H; [|by apply H].
  induction Hs as [|[k v] sets [Hk Hd] _ IH]; intros r' [Hkey Hsp]; [done|]. simpl in *.
  apply IH. split; rewrite col_dset; case_decide as D; subst; auto. done.
Qed.

Lemma spent_idle c s d spent u t td e sets w db :
  db_ok schema db -> dget t schema = Some td -> (u, [c]) ∈ tb_unique td ->
  params_error td (set_params sets) = None ->
  (forall r, holds w r = true -> col c r = VText s /\ ~ spent (col d r)) ->
  some_row t (spent_row c s d spent) db -> exists db', update schema e t sets w db = (Ok [], db').
Proof.
  intros Hok Ht Hu Hp Hw (r0 & Hr0 & Hk0 & Hs0). eapply update_idle; try eassumption.
  intros r Hr. destruct (holds w r) eqn:Hh; [|done]. apply Hw in Hh as [Hk Hs]. destruct Hs.
  erewrite (unique_row schema t td u c s db r r0); eauto using dget_elem_of.
Qed.

(** Calls that keep a spent row: statements on other tables, inserts, and
    updates that leave the key and keep the row spent. *)
Ltac stays_step :=
  first [ apply insert_stays_ne; discriminate | apply update_stays_ne; discriminate
        | apply delete_stays_ne; discriminate | apply insert_stays; exact I
        | apply keeps_check_menus | apply keeps_check_menu_ids
        | apply keeps_insert_menus; intros ? | apply mkeeps_insert_revoked; [apply _|intros ?]
        | apply update_stays; intros ?; apply spent_set; repeat constructor; simpl;
            solve [ discriminate | intros; discriminate | done
                  | intros _ [= ->]; match goal with H : ~ (_ ∉ _) |- _ => apply H end; set_solver ] ].
Ltac stays := pg_open; repeat stays_step.

Definition used (v : sval) : Prop := v <> VNull.
Definition not_text (s : string) (v : sval) : Prop := v <> VText s.
Definition ticket_spent (h : string) : row -> Prop := spent_row "ticket_hash" h "used_at" used.
Definition invite_spent (i : string) : row -> Prop := spent_row "invite_id" i "used_at" used.
Definition request_decided (i : string) : row -> Prop := spent_row "request_id" i "status" (not_text "pending").
Definition refresh_spent (j : string) : row -> Prop := spent_row "jti" j "status" (not_text "active").
Definition jti_revoked (j : string) : row -> Prop := spent_row "jti" j "jti" used.

Section single_use.
Context `{HashLib, Argon2Lib, Asyncpg}.

Lemma call_ticket_stays pe h op : keeps (row_stays "sso_tickets" (ticket_spent h)) (pg_call pe op).
Proof. destruct op; stays. Qed.
Lemma call_invite_stays pe i op : keeps (row_stays "tenant_invites" (invite_spent i)) (pg_call pe op).
Proof. destruct op; stays. Qed.
Lemma call_request_stays pe i op : keeps (row_stays "join_requests" (request_decided i)) (pg_call pe op).
Proof. destruct op; stays. Qed.
Lemma call_refresh_stays pe j op : keeps (row_stays "refresh_tokens" (refresh_spent j)) (pg_call pe op).
Proof. destruct op; stays. Qed.
Lemma call_jti_stays pe j op : keeps (row_stays "revoked_jtis" (jti_revoked j)) (pg_call pe op).
Proof. destruct op; stays. Qed.

Lemma evolve_stays ok t Q db db' :
  (forall pe op, keeps (row_stays t Q) (pg_call pe op)) ->
  evolve ok db db' -> some_row t Q db -> some_row t Q db'.
Proof. intros HQ. apply (evolve_keeps ok (row_stays t Q)). auto. Qed.

Lemma pget_decode `{!AsyncpgLaws} c r : pget c (decode_row r) = decode (col c r).
Proof.
  unfold pget, col, decode_row. induction r as [|[k v] r IH]; simpl; [by rewrite decode_null|].
  by case_decide.
Qed.
(** What a session reads and writes of one method, for the single statement. *)
Lemma exec_fetchval a cs db :
  exec (fetchval (returning cs a)) db =
  match a db with
  | (Ok rs, db') => (Ok (first_value (proj cs <$> rs)), db')
  | (Raise x, db') => (Raise x, db')
  end.
Proof. simpl. unfold returning, a_map. by destruct (a db) as [[rs|x] db']. Qed.
Lemma exec_fetchrow a db :
  exec (fetchrow a) db =
  match a db with
  | (Ok rs, db') => (Ok (decode_row <$> head rs), db')
  | (Raise x, db') => (Raise x, db')
  end.
Proof. simpl. by destruct (a db) as [[rs|x] db']. Qed.

Lemma first_value_hit cs c rs : first_value (proj (c :: cs) <$> rs) <> PNone -> exists x, x ∈ rs.
Proof. destruct rs as [|x rs]; [done|]. exists x. set_solver. Qed.

(** A statement that spends a row, then any calls, then the same statement. *)
Lemma spend_once c s d (spent : sval -> Prop) u t td ok e e' sets sets' w w' db rs x db1 db2 :
  db_ok schema db -> dget t schema = Some td -> (u, [c]) ∈ tb_unique td ->
  (forall pe op, keeps (row_stays t (spent_row c s d spent)) (pg_call pe op)) ->
  (forall r, holds w r = true -> spent_row c s d spent (set_row sets r)) ->
  (forall r, holds w' r = true -> col c r = VText s /\ ~ spent (col d r)) ->
  params_error td (set_params sets') = None ->
  update schema e t sets w db = (Ok rs, db1) -> x ∈ rs -> evolve ok db1 db2 ->
  exists db3, update schema e' t sets' w' db2 = (Ok [], db3).
Proof.
  intros Hok Ht Hu Hstay Hspend Hlive Hp E Hx Hev.
  destruct (update_hits _ _ _ _ _ _ _ _ _ E Hx) as (r & Hr & Hw & -> & Hin).
  assert (db_ok schema db1) as Hok1 by (revert Hok; by eapply update_ok_kept).
  eapply spent_idle; try eassumption.
  - by eapply evolve_ok.
  - eapply evolve_stays; [done..|]. eexists. split; [exact Hin|]. by apply Hspend.
Qed.

Ltac spends :=
  split; unfold set_row, used, not_text; simpl; rewrite !col_dset; repeat case_decide; simplify_eq; auto.

(** [C17] An SSO ticket that one worker has consumed is spent: whatever calls of
    whatever workers follow, every later attempt to consume it finds nothing. *)
Theorem pg_ticket_single_use pe pe' ok h r db db1 db2 :
  db_ok schema db ->
  exec (pg_consume_sso_ticket pe h) db = (Ok (Some r), db1) ->
  evolve ok db1 db2 ->
  exists db3, exec (pg_consume_sso_ticket pe' h) db2 = (Ok None, db3).
Proof.
  intros Hok E Hev. unfold pg_consume_sso_ticket in *. rewrite exec_fetchrow in *.
  unfold returning, a_map in *. destruct (update _ _ _ _ _ db) as [[[|x rs]|] db1'] eqn:Eu; simplify_eq/=.
  edestruct (spend_once "ticket_hash" h "used_at" used) as [db3 ->];
    [exact Hok|reflexivity|by left|exact (fun pe op => call_ticket_stays pe h op)| | |reflexivity|exact Eu|by left|exact Hev|by eexists].
  - intros y. rewrite holds_and, holds_eq, andb_true_iff, bool_decide_eq_true. intros [? _]. by spends.
  - intros y. rewrite !holds_and, holds_eq, holds_null, !andb_true_iff, !bool_decide_eq_true.
    unfold used. intuition.
Qed.

(** An invite is accepted once: after [mark_invite_used] has returned true,
    it returns false to every worker, whatever happened in between. *)
Theorem pg_invite_single_use pe pe' ok i uid uid' db db1 db2 :
  db_ok schema db ->
  exec (pg_mark_invite_used pe i uid) db = (Ok true, db1) ->
  evolve ok db1 db2 ->
  exists db3, exec (pg_mark_invite_used pe' i uid') db2 = (Ok false, db3).
Proof.
  intros Hok E Hev. unfold pg_mark_invite_used in *. rewrite exec_bind in *. unfold bind in *.
  rewrite exec_fetchval in *.
  destruct (update _ _ _ _ _ db) as [[[|x rs]|] db1'] eqn:Eu; simplify_eq/=.
  edestruct (spend_once "invite_id" i "used_at" used) as [db3 ->];
    [exact Hok|reflexivity|by left|exact (fun pe op => call_invite_stays pe i op)| | |reflexivity
    |exact Eu|by left|exact Hev|by eexists].
  - intros y. rewrite holds_and, holds_eq, andb_true_iff, bool_decide_eq_true. intros [? _]. by spends.
  - intros y. rewrite holds_and, holds_eq, holds_null, andb_true_iff, !bool_decide_eq_true.
    unfold used. intuition.
Qed.

(** A token that is rotated or revoked never rotates again. *)
Lemma pg_refresh_spent_stays pe ok j new db db1 :
  db_ok schema db -> some_row "refresh_tokens" (refresh_spent j) db -> evolve ok db db1 ->
  exists db2, exec (pg_rotate_refresh_token pe j new) db1 = (Ok false, db2).
Proof.
  intros Hok Hsp Hev. unfold pg_rotate_refresh_token. rewrite exec_bind. unfold bind.
  rewrite exec_fetchval.
  edestruct (spent_idle "jti" j "status" (not_text "active")) as [db3 ->];
    [by eapply evolve_ok|reflexivity|by left|reflexivity| | |by eexists].
  - intros y. rewrite holds_and, !holds_eq, andb_true_iff, !bool_decide_eq_true.
    unfold not_text. intuition.
  - eapply evolve_stays; [|done..]. intros. apply call_refresh_stays.
Qed.

(** A worker outside a tenant context sees every row. *)
Lemma system_sees pe td r : tb_policy td = true -> pe_ctx pe = None -> visible (_set_guc pe) td r = true.
Proof.
  intros Hp Hc. unfold visible, policy_ok, _set_guc, _tenant_guc. rewrite Hp, Hc. simpl.
  by rewrite orb_true_r.
Qed.

(** The rows an update meets and their new versions. *)
Lemma update_reaches e t td sets w db rs db' r :
  dget t schema = Some td -> update schema e t sets w db = (Ok rs, db') ->
  r ∈ rows t db -> visible e td r = true ->
  (if holds w r then set_row sets r else r) ∈ rows t db'.
Proof.
  intros Ht E Hr Hv. apply update_effect in E as [_ (td' & Ht' & _ & ->)].
  simplify_eq. rewrite rows_set_rows_eq. apply list_elem_of_fmap.
  exists r. split; [|done]. unfold hit. by rewrite Hv.
Qed.

(** Revoking a family ends it: a token of the family that existed when a
    worker revoked it is never rotated again, whatever calls follow. *)
Theorem pg_family_revoked pe pe' ok f j new n r db db1 db2 :
  db_ok schema db -> pe_ctx pe = None ->
  r ∈ rows "refresh_tokens" db -> col "jti" r = VText j -> col "family_id" r = VText f ->
  exec (pg_revoke_refresh_family pe f) db = (Ok n, db1) -> evolve ok db1 db2 ->
  exists db3, exec (pg_rotate_refresh_token pe' j new) db2 = (Ok false, db3).
Proof.
  intros Hok Hc Hr Hj Hf E Hev.
  unfold pg_revoke_refresh_family, pg_revoke_where in E. rewrite exec_bind in E. unfold bind in E.
  simpl in E. unfold count_rows, a_map in E.
  destruct (update _ _ _ _ _ db) as [[rs|] db1'] eqn:Eu; simplify_eq/=.
  eapply pg_refresh_spent_stays; [|eexists; split|exact Hev].
  - revert Hok. by eapply update_ok_kept.
  - eapply update_reaches; [reflexivity|exact Eu|exact Hr|by apply system_sees].
  - case_match eqn:Hh; [by spends|]. split; [done|]. intros Hact. revert Hh. rewrite holds_and, holds_eq, bool_decide_eq_true_2 by done.
    unfold holds, c_ne, veq. simpl. by rewrite Hact.
Qed.

(** ** The revocation ledger *)

Definition scans (pe : PgEnv) : Prop := forall l, pe_scan pe l ≡ₚ l.

(** What a query finds. *)
Lemma select_finds e t td w by_ db r :
  dget t schema = Some td -> (forall l, ss_scan e l ≡ₚ l) -> r ∈ rows t db ->
  visible e td r = true -> holds w r = true ->
  exists rs, select schema e t w by_ None db = (Ok rs, db) /\ r ∈ rs.
Proof.
  intros Ht Hscan Hr Hv Hw. unfold select, with_table. rewrite Ht. eexists. split; [done|].
  rewrite sort_by_perm, list_elem_of_filter, Hscan. split; [|done]. unfold hit. by rewrite Hv, Hw.
Qed.

(** The definition of a table of the schema. *)
Definition table_of (t : string) : table := default (mkTable [] [] [] [] false RlsOff) (dget t schema).

(** [C10] A jti that a worker has revoked stays revoked for every worker outside a
    tenant context, whatever calls follow. *)
Theorem pg_revocation_permanent `{!AsyncpgLaws} pe pe' ok j tid uid reason exp db db1 db2 :
  exec (pg_revoke_jti pe j tid uid reason exp) db = (Ok tt, db1) -> evolve ok db1 db2 ->
  pe_ctx pe' = None -> scans pe' -> exec (pg_is_jti_revoked pe' j) db2 = (Ok true, db2).
Proof.
  intros E Hev Hc Hscan.
  assert (some_row "revoked_jtis" (jti_revoked j) db1) as Hsome.
  { unfold pg_revoke_jti, execute in E. simpl in E.
    destruct (insert _ _ _ _ _ db) as [[rs|] db1'] eqn:Ei; simplify_eq/=.
    destruct (insert_has_key schema (_set_guc pe) "revoked_jtis" (table_of "revoked_jtis") _ "jti" j _ _ _
                eq_refl Ei) as (r & Hr & Hj).
    - intros d r d' Hb. vm_compute in Hb. by simplify_eq/=.
    - exists r. split; [done|]. split; [done|]. unfold used. by rewrite Hj. }
  eapply evolve_stays in Hsome as (r & Hr & Hj & _); [|intros; apply call_jti_stays|exact Hev].
  destruct (select_finds (_set_guc pe') "revoked_jtis" (table_of "revoked_jtis")
              ("jti" =. VText j) [] db2 r) as (rs & Es & Hrs);
    [reflexivity|done|done|by apply system_sees|by rewrite holds_eq, bool_decide_eq_true_2|].
  unfold pg_is_jti_revoked. rewrite exec_bind. unfold bind. simpl. unfold a_map. rewrite Es. simpl.
  rewrite decode_bool, (bool_decide_eq_true_2 (rs <> [])); [done|]. intros ->. by apply elem_of_nil in Hrs.
Qed.
End single_use.

(** * What PgStore stores it gives back (db.py)

    A JSON value goes through [json.dumps], the [jsonb] column and
    [json.loads]; the answer recorded under an idempotency key is the one
    every worker replays. *)

#[local] Opaque schema.

Lemma to_jsonb_norm j : to_jsonb j = VJson (jsonb_norm j).
Proof. unfold to_jsonb. by rewrite json_loads_text. Qed.
Lemma loads_stored j : loads_or (PStr (jsonb_text (jsonb_norm j))) = PJson (jsonb_norm j).
Proof. simpl. by rewrite json_loads_jsonb, jsonb_norm_idem. Qed.

(** A query on a unique key finds the one row under it. *)
Lemma select_one sch e t td u c s db r :
  db_ok sch db -> dget t sch = Some td -> (u, [c]) ∈ tb_unique td -> (forall l, ss_scan e l ≡ₚ l) ->
  r ∈ rows t db -> visible e td r = true -> col c r = VText s ->
  exists rs, select sch e t (c =. VText s) [] None db = (Ok (r :: rs), db).
Proof.
  intros Hok Ht Hu Hscan Hr Hv Hc. unfold select, with_table. rewrite Ht.
  set (l := sort_by _ _).
  assert (forall x, x ∈ l <-> x ∈ rows t db /\ hit e td (c =. VText s) x = true) as Hl.
  { intros x. unfold l. rewrite sort_by_perm, list_elem_of_filter, Hscan. tauto. }
  assert (r ∈ l) as Hin.
  { apply Hl. split; [done|]. unfold hit. by rewrite Hv, holds_eq, bool_decide_eq_true_2. }
  destruct l as [|x l']; [by apply elem_of_nil in Hin|]. exists l'.
  destruct (Hl x) as [[Hx Hh] _]; [by left|]. unfold hit in Hh.
  apply andb_true_iff in Hh as [_ Hh]. rewrite holds_eq, bool_decide_eq_true in Hh.
  assert (x = r) as ->; [|done]. eapply (unique_row sch t td u c s); eauto using dget_elem_of.
Qed.

(** [INSERT ... ON CONFLICT DO NOTHING] of a new key adds the row. *)
Lemma insert_new sch e t td vals c s db rs db' :
  dget t sch = Some td -> insert sch e t vals (DoNothing (Some [c])) db = (Ok rs, db') ->
  c ∈ c_name <$> tb_cols td -> dget c vals = Some (VText s) ->
  (forall r, r ∈ rows t db -> col c r <> VText s) ->
  exists r dbx, build_row e (tb_cols td) vals db = (r, dbx) /\ r ∈ rows t db'.
Proof.
  intros Ht E Hc Hv Hnew. unfold insert, with_table in E. rewrite Ht in E. case_match; [done|].
  destruct (build_row _ _ _ _) as [r0 db0] eqn:Hb. exists r0, db0. split; [done|].
  pose proof (build_row_given _ _ _ _ _ _ _ _ Hb Hc Hv) as Hk. apply build_row_tables in Hb.
  destruct (negb _); [done|]. destruct (row_error td r0); [done|].
  destruct (clash _ _ _ _) eqn:Hcl.
  - apply existsb_exists in Hcl as (r & Hr%list_elem_of_In & Hsame).
    unfold same_key, key_of in Hsame. simpl in Hsame. rewrite Hk in Hsame.
    rewrite decide_False in Hsame by set_solver. apply bool_decide_eq_true in Hsame.
    case_decide; simplify_eq. exfalso. apply (Hnew r); [by rewrite <- (rows_tables _ _ _ Hb)|congruence].
  - unfold add_row in E. repeat case_match; simplify_eq. rewrite rows_set_rows_eq. set_solver.
Qed.

Section idempotency.
Context `{HashLib, Argon2Lib, Asyncpg}.

(** The row of a key with its recorded answer. *)
Definition answered (key endpoint : string) (response : json) (r : row) : Prop :=
  col "idem_key" r = VText key /\ col "endpoint" r = VText endpoint /\ col "response" r = VJson response.

Lemma call_answer_stays pe key ep j op :
  keeps (row_stays "idempotency_keys" (answered key ep j)) (pg_call pe op).
Proof. destruct op; stays. Qed.

(** [C31] The first answer recorded under an idempotency key is replayed: whatever
    calls of whatever workers follow, also with the same key, every worker
    reads back the response that was recorded, in the normal form of [jsonb],
    and its endpoint. *)
Theorem pg_idempotency_replays `{!AsyncpgLaws} pe pe' ok key ep resp db db1 db2 :
  db_ok schema db -> (forall r, r ∈ rows "idempotency_keys" db -> col "idem_key" r <> VText key) ->
  exec (pg_put_idempotency pe key ep resp) db = (Ok tt, db1) -> evolve ok db1 db2 -> scans pe' ->
  exists row, exec (pg_get_idempotency pe' key) db2 = (Ok (Some row), db2) /\
    pget "response" row = PJson (jsonb_norm resp) /\ pget "endpoint" row = PStr ep.
Proof.
  intros Hok Hnew E Hev Hscan.
  unfold pg_put_idempotency, execute in E. simpl in E.
  destruct (insert _ _ _ _ _ db) as [[rs|] db1'] eqn:Ei; simplify_eq/=.
  assert (db_ok schema db1) as Hok1 by (revert Hok; by eapply insert_ok_kept).
  assert (some_row "idempotency_keys" (answered key ep (jsonb_norm resp)) db1) as Hsome.
  { destruct (insert_new schema (_set_guc pe) "idempotency_keys" (table_of "idempotency_keys") _ "idem_key" key
      _ _ _ eq_refl Ei ltac:(apply (bool_decide_unpack _); vm_compute; exact I) eq_refl Hnew) as (r & dbx & Hb & Hr).
    exists r. split; [done|]. rewrite to_jsonb_norm in Hb.
    by split_and!; (eapply build_row_given; [exact Hb|apply (bool_decide_unpack _); vm_compute; exact I|]). }
  eapply evolve_stays in Hsome as (r & Hr & Hk & Hep & Hresp);
    [|intros; apply call_answer_stays|exact Hev].
  destruct (select_one schema (_set_guc pe') "idempotency_keys" (table_of "idempotency_keys")
              "idempotency_keys_pkey" "idem_key" key db2 r) as [rs' Es]; try done.
  { by eapply evolve_ok. }
  { by left. }
  eexists. split.
  { unfold pg_get_idempotency. cbn. unfold returning, a_map. rewrite Es. reflexivity. }
  simpl. unfold pget. simpl. rewrite Hep, Hresp, decode_text, decode_json. split; [|done]. unfold _decode_jsonb.
  by rewrite loads_stored.
Qed.
End idempotency.
