(* ===== verification/Crypto.v ===== *)
(** * Secret encryption at rest (crypto.py)

    UTF-8 and base64 are written out; HKDF and AES-GCM come from the
    [cryptography] package and are the class [AeadLib]. A byte string is a
    [string] of characters 0 to 255. *)
From S2P Require Import Prelude PyText.

(** ** UTF-8 on code points below 256 *)

Definition utf8_char (c : ascii) : list ascii :=
  if (chr c <? 128)%N then [c]
  else [ascii_of_N (192 + chr c / 64); ascii_of_N (128 + chr c mod 64)].
Definition utf8_encode (s : string) : string := of_chars (chars s ≫= utf8_char).

(** [bytes.decode()]: [None] is [UnicodeDecodeError]. Only the encodings of
    code points below 256 are texts of the model. *)
Fixpoint utf8_decode_chars (l : list ascii) : option (list ascii) :=
  match l with
  | [] => Some []
  | b :: l' =>
      if (chr b <? 128)%N then cons b <$> utf8_decode_chars l'
      else match l' with
           | b2 :: l'' =>
               if in_range 194 195 b && in_range 128 191 b2
               then cons (ascii_of_N ((chr b - 192) * 64 + (chr b2 - 128)))
                      <$> utf8_decode_chars l''
               else None
           | [] => None
           end
  end.
Definition utf8_decode (s : string) : option string :=
  of_chars <$> utf8_decode_chars (chars s).

(** ** base64, standard alphabet *)

Definition b64_char (n : N) : ascii :=
  if (n <? 26)%N then ascii_of_N (65 + n)
  else if (n <? 52)%N then ascii_of_N (71 + n)
  else if (n <? 62)%N then ascii_of_N (n - 4)
  else if (n =? 62)%N then "+"%char else "/"%char.
Definition b64_value (c : ascii) : option N :=
  if is_upper c then Some (chr c - 65)%N
  else if is_lower c then Some (chr c - 71)%N
  else if is_digit c then Some (chr c + 4)%N
  else if decide (c = "+"%char) then Some 62%N
  else if decide (c = "/"%char) then Some 63%N
  else None.
Definition pad : ascii := "="%char.

Fixpoint b64encode_chars (l : list ascii) : list ascii :=
  match l with
  | [] => []
  | [a] => [b64_char (chr a / 4); b64_char (chr a mod 4 * 16); pad; pad]
  | [a; b] =>
      [b64_char (chr a / 4); b64_char (chr a mod 4 * 16 + chr b / 16);
       b64_char (chr b mod 16 * 4); pad]
  | a :: b :: c :: l' =>
      [b64_char (chr a / 4); b64_char (chr a mod 4 * 16 + chr b / 16);
       b64_char (chr b mod 16 * 4 + chr c / 64); b64_char (chr c mod 64)] ++ b64encode_chars l'
  end.
Definition b64encode (s : string) : string := of_chars (b64encode_chars (chars s)).

(** [base64.b64decode(s, validate=True)]: groups of four characters of the
    alphabet, the last one padded; [None] is [binascii.Error]. *)
Fixpoint b64decode_chars (l : list ascii) : option (list ascii) :=
  match l with
  | [] => Some []
  | w :: x :: y :: z :: l' =>
      a ← b64_value w; b ← b64_value x;
      let b0 := ascii_of_N (a * 4 + b / 16) in
      match b64_value y with
      | None => if decide (y = pad /\ z = pad /\ l' = []) then Some [b0] else None
      | Some c =>
          let b1 := ascii_of_N (b mod 16 * 16 + c / 4) in
          match b64_value z with
          | None => if decide (z = pad /\ l' = []) then Some [b0; b1] else None
          | Some d =>
              rest ← b64decode_chars l';
              Some (b0 :: b1 :: ascii_of_N (c mod 4 * 64 + d) :: rest)
          end
      end
  | _ => None
  end.
Definition b64decode (s : string) : option string := of_chars <$> b64decode_chars (chars s).

(** ** Round trips of the two codecs *)

Lemma chr_bound c : (chr c < 256)%N.
Proof. apply N_ascii_bounded. Qed.
Lemma chr_of_N n : (n < 256)%N -> chr (ascii_of_N n) = n.
Proof. apply N_ascii_embedding. Qed.

Lemma in_range_true lo hi c : (lo <= chr c <= hi)%N -> in_range lo hi c = true.
Proof. unfold in_range. intros. apply andb_true_intro. split; apply N.leb_le; lia. Qed.

Ltac byte_arith :=
  repeat match goal with
         | c : ascii |- _ =>
             lazymatch goal with
             | H : (N_of_ascii c < 256)%N |- _ => fail
             | _ => pose proof (chr_bound c)
             end
         end;
  zify; Z.to_euclidean_division_equations; lia.

Lemma byte_eq n c : chr c = n -> ascii_of_N n = c.
Proof. intros <-. apply ascii_N_embedding. Qed.

Lemma utf8_roundtrip_chars l : utf8_decode_chars (l ≫= utf8_char) = Some l.
Proof.
  induction l as [|c l IH]; csimpl; [done|]. unfold utf8_char at 1.
  destruct (chr c <? 128)%N eqn:E; csimpl; rewrite ?E, ?IH; [done|].
  apply N.ltb_ge in E.
  rewrite !chr_of_N by byte_arith.
  replace (192 + chr c / 64 <? 128)%N with false
    by (symmetry; apply N.ltb_ge; byte_arith).
  rewrite (in_range_true 194 195) by (rewrite chr_of_N; byte_arith).
  rewrite (in_range_true 128 191) by (rewrite chr_of_N; byte_arith).
  cbn [andb fmap option_fmap option_map]. do 2 f_equal. apply byte_eq. byte_arith.
Qed.

Lemma utf8_roundtrip s : utf8_decode (utf8_encode s) = Some s.
Proof.
  unfold utf8_decode, utf8_encode. rewrite chars_of_chars, utf8_roundtrip_chars. simpl.
  by rewrite of_chars_chars.
Qed.

Lemma b64_value_char n : (n < 64)%N -> b64_value (b64_char n) = Some n.
Proof.
  intros Hn. assert (forall m, (m < 64)%nat -> b64_value (b64_char (N.of_nat m)) = Some (N.of_nat m)) as H.
  { intros m Hm. do 64 (destruct m as [|m]; [vm_compute; reflexivity|]). lia. }
  rewrite <- (N2Nat.id n). apply H. lia.
Qed.

Lemma b64_value_pad : b64_value pad = None.
Proof. done. Qed.

Lemma b64_roundtrip_chars l : b64decode_chars (b64encode_chars l) = Some l.
Proof.
  induction l as [l IH] using (induction_ltof1 _ length). unfold ltof in IH.
  destruct l as [|a [|b [|c l]]]; [done|..]; cbn -[N.div N.modulo N.add N.mul];
    repeat (rewrite b64_value_char by byte_arith; cbn -[N.div N.modulo N.add N.mul]);
    rewrite ?b64_value_pad; cbn -[N.div N.modulo N.add N.mul].
  - rewrite decide_True by done. do 2 f_equal. apply byte_eq. byte_arith.
  - rewrite decide_True by done. repeat f_equal; apply byte_eq; byte_arith.
  - rewrite IH by (simpl; lia). simpl. repeat f_equal; apply byte_eq; byte_arith.
Qed.

Lemma b64_roundtrip s : b64decode (b64encode s) = Some s.
Proof.
  unfold b64decode, b64encode. rewrite chars_of_chars, b64_roundtrip_chars. simpl.
  by rewrite of_chars_chars.
Qed.

(** ** Encryption *)

Definition NONCE_LEN : Z := 12.

(** [HKDF(...).derive], [AESGCM(key).encrypt] and [.decrypt] with [None]
    standing for [InvalidTag]. *)
Class AeadLib := {
  hkdf : string -> string;
  aes_encrypt : string -> string -> string -> string;
  aes_decrypt : string -> string -> string -> option string
}.
(** AES-GCM decrypts what it encrypted under the same key and nonce, and a
    ciphertext carries its 16-byte tag. *)
Class AeadLaws `{AeadLib} := {
  aes_correct : forall k n pt, aes_decrypt k n (aes_encrypt k n pt) = Some pt;
  aes_length : forall k n pt, slen (aes_encrypt k n pt) = slen pt + 16
}.

Section crypto.
Context `{AeadLib}.

Definition derive_kek (kek_material : string) : string := hkdf (utf8_encode kek_material).

(** [encrypt_secret], with the nonce it draws. *)
Definition encrypt_secret (nonce plaintext kek_material : string) : string :=
  b64encode (nonce +:+ aes_encrypt (derive_kek kek_material) nonce (utf8_encode plaintext)).

Definition decrypt_with (blob kek_material : string) : res string :=
  match b64decode blob with
  | None => Raise (ValueError "binascii.Error")
  | Some raw =>
      if decide (slen raw < NONCE_LEN + 1) then Raise (CryptoError "truncated ciphertext blob")
      else
        match aes_decrypt (derive_kek kek_material) (stake 12 raw) (sdrop 12 raw) with
        | None => Raise (CryptoError "ciphertext authentication failed")
        | Some pt =>
            match utf8_decode pt with
            | None => Raise (CryptoError "ciphertext decrypted to non-utf8")
            | Some pt => Ok pt
            end
        end
  end.

Definition decrypt_secret (blob kek_material : string) (prev_kek_material : option string)
    : res string :=
  match decrypt_with blob kek_material with
  | Ok pt => Ok pt
  | Raise (CryptoError e) =>
      match prev_kek_material with
      | None => Raise (CryptoError e)
      | Some prev =>
          if decide (prev = "" \/ prev = kek_material) then Raise (CryptoError e)
          else decrypt_with blob prev
      end
  | Raise (ValueError _) => Raise (CryptoError "malformed ciphertext blob")
  | Raise e => Raise e
  end.

Lemma stake_app n x y : String.length x = n -> stake n (x +:+ y) = x.
Proof.
  intros <-. unfold stake, chars. induction x as [|c x IH]; simpl; [done|].
  unfold of_chars in *. simpl. by rewrite IH.
Qed.
Lemma sdrop_app n x y : String.length x = n -> sdrop n (x +:+ y) = y.
Proof.
  intros <-. unfold sdrop, chars. induction x as [|c x IH]; simpl; [|done].
  apply of_chars_chars.
Qed.

(** What is decrypted under some key is what was sealed; under the sealing
    key it is the plaintext. *)
Lemma decrypt_with_sealed nonce plaintext k1 k2 :
  String.length nonce = 12%nat -> 1 <= slen (aes_encrypt (derive_kek k1) nonce (utf8_encode plaintext)) ->
  decrypt_with (encrypt_secret nonce plaintext k1) k2 =
  match aes_decrypt (derive_kek k2) nonce (aes_encrypt (derive_kek k1) nonce (utf8_encode plaintext)) with
  | None => Raise (CryptoError "ciphertext authentication failed")
  | Some pt => match utf8_decode pt with
               | None => Raise (CryptoError "ciphertext decrypted to non-utf8")
               | Some pt => Ok pt
               end
  end.
Proof.
  intros Hn Hl. unfold decrypt_with, encrypt_secret. rewrite b64_roundtrip.
  rewrite decide_False.
  - by rewrite stake_app, sdrop_app by done.
  - unfold slen, NONCE_LEN in *. rewrite slen_app. lia.
Qed.

Lemma decrypt_with_same `{!AeadLaws} nonce plaintext k :
  String.length nonce = 12%nat ->
  decrypt_with (encrypt_secret nonce plaintext k) k = Ok plaintext.
Proof.
  intros Hn. rewrite decrypt_with_sealed by (done || (rewrite aes_length; unfold slen; lia)).
  by rewrite aes_correct, utf8_roundtrip.
Qed.

(** The only failures of [decrypt_secret] are [CryptoError]s. *)
Lemma decrypt_with_errors blob k e :
  decrypt_with blob k = Raise e ->
  (exists m, e = CryptoError m) \/ (e = ValueError "binascii.Error" /\ b64decode blob = None).
Proof.
  unfold decrypt_with. destruct (b64decode blob) as [raw|]; [|naive_solver].
  case_decide; [naive_solver|]. destruct (aes_decrypt _ _ _) as [pt|]; [|naive_solver].
  destruct (utf8_decode pt); naive_solver.
Qed.
End crypto.

(** ** A stand-in cipher

    The ciphertext is the plaintext behind a tag made of the key. *)
Definition toy_tag (k : string) : string := of_chars (take 16 (chars k ++ replicate 16 "0"%char)).
Definition toy_aead : AeadLib := {|
  hkdf k := k;
  aes_encrypt k _ pt := toy_tag k +:+ pt;
  aes_decrypt k _ ct := if decide (stake 16 ct = toy_tag k) then Some (sdrop 16 ct) else None
|}.
Lemma toy_tag_length k : String.length (toy_tag k) = 16%nat.
Proof. unfold toy_tag. rewrite length_of_chars, length_take, length_app, length_replicate. lia. Qed.
Lemma toy_aead_laws : @AeadLaws toy_aead.
Proof.
  constructor; intros k n pt; simpl.
  - rewrite stake_app, sdrop_app by apply toy_tag_length. by rewrite decide_True.
  - unfold slen. rewrite slen_app, toy_tag_length. lia.
Qed.
