(* ===== verification/Jwt.v ===== *)
(** * Token signing and verification (jwt_utils.py)

    PyJWT is the class [JwtLib]; the facts of its documentation the program
    relies on are [JwtLaws]. *)
From S2P Require Import Prelude PyText StoreState.

(** The claims of a token. The first seven are those [verify_token] requires;
    the others are read with [claims.get]. Times are integer seconds. *)
Record Claims : Type := mkClaims {
  c_sub : string;
  c_tid : string;
  c_jti : string;
  c_iss : string;
  c_aud : string;
  c_iat : Z;
  c_exp : Z;
  c_nbf : option Z;
  c_tenant : option string;
  c_role : option string;
  c_scope : option (list string);
  c_type : option string
}.
Definition set_c_role (v : option string) (c : Claims) : Claims :=
  mkClaims (c_sub c) (c_tid c) (c_jti c) (c_iss c) (c_aud c) (c_iat c) (c_exp c) (c_nbf c)
    (c_tenant c) v (c_scope c) (c_type c).
Definition set_c_scope (v : option (list string)) (c : Claims) : Claims :=
  mkClaims (c_sub c) (c_tid c) (c_jti c) (c_iss c) (c_aud c) (c_iat c) (c_exp c) (c_nbf c)
    (c_tenant c) (c_role c) v (c_type c).
#[export] Instance claims_eq_dec : EqDecision Claims.
Proof. solve_decision. Defined.

Record Header : Type := mkHeader { h_alg : option string; h_kid : option string }.

(** The three outcomes of [jwt.decode] that [verify_token] tells apart. *)
Inductive decoded : Type :=
  | Decoded (c : Claims)
  | PyJWTError (msg : string)
  | Malformed.

(** [jwt.encode(payload, key, algorithm, headers)],
    [jwt.get_unverified_header(token)] ([inr] is the exception's text) and
    [jwt.decode(token, key, algorithms, issuer, audience, options=require)]
    at a clock reading. *)
Class JwtLib := {
  jwt_encode : Claims -> string -> string -> option string -> string;
  jwt_header : string -> Header + string;
  jwt_decode : Z -> string -> string -> list string -> string -> string -> decoded
}.

(** Documented behaviour of PyJWT: a decoded token has the issuer and the
    audience asked for and is inside its validity window; a token encoded
    under a key decodes under the matching key to the same claims inside its
    window; the header carries the algorithm and the key id. *)
Class JwtLaws `{JwtLib} := {
  keys_match : string -> string -> string -> Prop;
  keys_match_hs : forall k, keys_match "HS256" k k;
  jwt_decode_window : forall now tok key algs iss aud c,
    jwt_decode now tok key algs iss aud = Decoded c ->
    c_iss c = iss /\ c_aud c = aud /\ now < sec (c_exp c) /\ sec (c_iat c) <= now;
  jwt_decode_encode : forall now c sk vk alg kid algs,
    keys_match alg sk vk -> alg ∈ algs -> now < sec (c_exp c) -> sec (c_iat c) <= now ->
    (forall n, c_nbf c = Some n -> sec n <= now) ->
    jwt_decode now (jwt_encode c sk alg kid) vk algs (c_iss c) (c_aud c) = Decoded c;
  jwt_header_encode : forall c sk alg kid,
    jwt_header (jwt_encode c sk alg kid) = inl (mkHeader (Some alg) kid)
}.

(** [int(time.time())] *)
Definition int_time (now : Z) : Z := now / 1000000.

Section jwt.
Context `{JwtLib}.

Definition jwt_get_unverified_header (token : string) : res Header :=
  match jwt_header token with
  | inl h => Ok h
  | inr msg => Raise (JwtError ("invalid token header: " +:+ msg))
  end.

(** [issue_token], with the jti it draws: the token and the jti. *)
Definition issue_token (now : Z) (jti sub tid role : string) (scopes : list string)
    (signing_key issuer audience : string) (ttl_seconds : Z) (token_type algorithm : string)
    (kid : option string) : string * string :=
  let t := int_time now in
  let payload := mkClaims sub tid jti issuer audience t (t + ttl_seconds) (Some t)
                   (Some tid) (Some role) (Some scopes) (Some token_type) in
  let header_kid := match kid with
                    | Some k => if decide (k <> "" /\ algorithm = "RS256") then Some k else None
                    | None => None
                    end in
  (jwt_encode payload signing_key algorithm header_kid, jti).

Definition verify_token (now : Z) (token signing_key issuer audience : string)
    (token_type : option string) (algorithms : list string) : res Claims :=
  if decide (algorithms = []) then Raise (JwtError "verify_token requires explicit algorithms")
  else
    match jwt_header token with
    | inr msg => Raise (JwtError ("invalid token header: " +:+ msg))
    | inl header =>
        if decide (h_alg header = Some "none")
        then Raise (JwtError "algorithm 'none' is not allowed")
        else
          match jwt_decode now token signing_key algorithms issuer audience with
          | PyJWTError msg => Raise (JwtError ("invalid token: " +:+ msg))
          | Malformed => Raise (JwtError "invalid token: malformed")
          | Decoded claims =>
              match token_type with
              | Some ty => if decide (c_type claims <> Some ty)
                           then Raise (JwtError ("token type mismatch: expected " +:+ ty))
                           else Ok claims
              | None => Ok claims
              end
          end
    end.

Definition extract_bearer (header : string) : res string :=
  if negb (str_true header) then Raise (JwtError "missing authorization header")
  else if negb (startswith "bearer " (lower header))
  then Raise (JwtError "authorization header must be Bearer")
  else Ok (strip (sdrop 7 header)).

(** Every failure of verification is a [JwtError]. *)
Lemma verify_token_errors now token key iss aud ty algs e :
  verify_token now token key iss aud ty algs = Raise e -> exists m, e = JwtError m.
Proof.
  unfold verify_token. case_decide; [naive_solver|]. destruct (jwt_header token); [|naive_solver].
  case_decide; [naive_solver|]. destruct (jwt_decode _ _ _ _ _ _); [|naive_solver..].
  destruct ty; [case_decide|]; naive_solver.
Qed.

Lemma verify_token_ok now token key iss aud ty algs c :
  verify_token now token key iss aud ty algs = Ok c ->
  jwt_decode now token key algs iss aud = Decoded c /\
  (forall t, ty = Some t -> c_type c = Some t) /\ algs <> [] /\
  exists h, jwt_header token = inl h /\ h_alg h <> Some "none".
Proof.
  unfold verify_token. case_decide; [done|]. destruct (jwt_header token) as [h|]; [|done].
  case_decide; [done|]. destruct (jwt_decode _ _ _ _ _ _) as [c'| |]; [|done..].
  destruct ty as [t|]; [destruct (decide (c_type c' <> Some t)) as [|Ht%dec_stable]; [done|]|];
    intros [= ->]; split_and!; naive_solver.
Qed.

Lemma issue_token_verifies `{!JwtLaws} now now' jti sub tid role scopes sk vk iss aud ttl ty alg kid :
  keys_match alg sk vk -> alg <> "none" -> sec (int_time now) <= now' ->
  now' < sec (int_time now + ttl) ->
  verify_token now' (issue_token now jti sub tid role scopes sk iss aud ttl ty alg kid).1
    vk iss aud (Some ty) [alg] =
  Ok (mkClaims sub tid jti iss aud (int_time now) (int_time now + ttl) (Some (int_time now))
        (Some tid) (Some role) (Some scopes) (Some ty)).
Proof.
  intros Hk Ha H1 H2. unfold verify_token, issue_token. simpl.
  rewrite jwt_header_encode. simpl. rewrite decide_False by naive_solver.
  set (c := mkClaims _ _ _ _ _ _ _ _ _ _ _ _).
  rewrite (jwt_decode_encode now' c sk vk alg _ [alg]); simpl; try done.
  - by rewrite decide_False by (intros E; by apply E).
  - set_solver.
  - by intros n [= <-].
Qed.
End jwt.

(** ** A stand-in for PyJWT

    A token is the list of its fields, each character marked and each field
    ended by a dot; decoding checks key, algorithm, issuer, audience and
    window. It runs the definitions and shows that the laws can hold. *)
Fixpoint bits_of (p : positive) : string :=
  match p with
  | xH => ""
  | xO p => String "0" (bits_of p)
  | xI p => String "1" (bits_of p)
  end.
Fixpoint of_bits (s : string) : positive :=
  match s with
  | EmptyString => xH
  | String c s => if Ascii.eqb c "1" then xI (of_bits s) else xO (of_bits s)
  end.
Lemma of_bits_of p : of_bits (bits_of p) = p.
Proof. induction p as [p IH|p IH|]; simpl; by rewrite ?IH. Qed.

Fixpoint quote (x rest : string) : string :=
  match x with
  | EmptyString => String "." rest
  | String c x => String "+" (String c (quote x rest))
  end.
Definition frame (l : list string) : string := foldr quote "" l.
Fixpoint unframe (s : string) : list string :=
  match s with
  | EmptyString => []
  | String k s' =>
      if Ascii.eqb k "." then "" :: unframe s'
      else match s' with
           | EmptyString => []
           | String c s'' => match unframe s'' with x :: l => String c x :: l | [] => [] end
           end
  end.
Lemma unframe_quote x rest : unframe (quote x rest) = x :: unframe rest.
Proof. induction x as [|c x IH]; simpl; [done|]. by rewrite IH. Qed.
Lemma unframe_frame l : unframe (frame l) = l.
Proof. induction l as [|x l IH]; simpl; [done|]. by rewrite unframe_quote, IH. Qed.

Definition opt_text (o : option string) : string :=
  match o with Some x => String "1" x | None => "0" end.
Definition text_opt (s : string) : option string :=
  match s with String c x => if Ascii.eqb c "1" then Some x else None | EmptyString => None end.
Lemma text_opt_text o : text_opt (opt_text o) = o.
Proof. by destruct o. Qed.
Definition num_text (z : option Z) : string := bits_of (encode z).
Definition text_num (s : string) : option Z := default None (decode (of_bits s)).
Lemma text_num_text z : text_num (num_text z) = z.
Proof. unfold text_num, num_text. by rewrite of_bits_of, decode_encode. Qed.

Definition toy_token : Type := Claims * string * string * option string.
Definition toy_fields (t : toy_token) : list string :=
  let '(c, key, alg, kid) := t in
  [c_sub c; c_tid c; c_jti c; c_iss c; c_aud c; num_text (Some (c_iat c));
   num_text (Some (c_exp c)); num_text (c_nbf c); opt_text (c_tenant c); opt_text (c_role c);
   opt_text (c_type c); key; alg; opt_text kid] ++
  match c_scope c with Some l => "1" :: l | None => [] end.
Definition toy_parse (l : list string) : option toy_token :=
  match l with
  | sub :: tid :: jti :: iss :: aud :: iat :: exp :: nbf :: tenant :: role :: ty ::
      key :: alg :: kid :: scope =>
      Some (mkClaims sub tid jti iss aud (default 0 (text_num iat)) (default 0 (text_num exp))
              (text_num nbf) (text_opt tenant) (text_opt role)
              (match scope with _ :: l => Some l | [] => None end) (text_opt ty),
            key, alg, text_opt kid)
  | _ => None
  end.
Lemma toy_parse_frame t : toy_parse (unframe (frame (toy_fields t))) = Some t.
Proof.
  rewrite unframe_frame. destruct t as [[[c key] alg] kid]. simpl.
  rewrite !text_num_text, !text_opt_text. destruct c as [? ? ? ? ? ? ? ? ? ? sc ?]. simpl.
  by destruct sc.
Qed.

Definition toy_jwt : JwtLib := {|
  jwt_encode c key alg kid := frame (toy_fields (c, key, alg, kid));
  jwt_header tok :=
    match toy_parse (unframe tok) with
    | Some (_, _, alg, kid) => inl (mkHeader (Some alg) kid)
    | None => inr "Not enough segments"
    end;
  jwt_decode now tok key algs iss aud :=
    match toy_parse (unframe tok) with
    | Some (c, key', alg, _) =>
        if decide (key' = key /\ alg ∈ algs) then
          if decide (c_iss c = iss /\ c_aud c = aud /\ now < sec (c_exp c) /\
                     sec (c_iat c) <= now) then Decoded c
          else PyJWTError "claim check failed"
        else PyJWTError "Signature verification failed"
    | None => Malformed
    end
|}.
Definition toy_jwt_laws : @JwtLaws toy_jwt.
Proof.
  refine {| keys_match := fun _ sk vk => sk = vk |}; simpl.
  - done.
  - intros now tok key algs iss aud c. destruct (toy_parse _) as [[[[c' k'] a'] ?]|]; [|done].
    repeat (case_decide; [|done]). naive_solver.
  - intros now c sk vk alg kid algs -> Ha H1 H2 _.
    pose proof (toy_parse_frame (c, vk, alg, kid)) as E. simpl in E. rewrite E.
    by rewrite !decide_True.
  - intros c sk alg kid. pose proof (toy_parse_frame (c, sk, alg, kid)) as E. simpl in E. by rewrite E.
Defined.
