(* ===== verification/Jwks.v ===== *)
(** * The signing key ring (jwks.py)

    Current, retired and extra RSA keys, rotation, pruning and the file that
    makes a rotation survive a restart. RSA and PEM handling belong to the
    [cryptography] package: the class [RsaLib]. A generated pair is an
    argument of the operation that draws it. *)
From S2P Require Import Prelude PyText StoreState Prims Crypto Jwt.

Definition GRACE_SECONDS : Z := 24 * 3600.

Record RsaKey : Type := mkRsaKey {
  rk_kid : string;
  rk_private_pem : string;
  rk_public_pem : string;
  rk_created_at : Z
}.
#[export] Instance rsakey_eq_dec : EqDecision RsaKey.
Proof. solve_decision. Defined.

(** The dict of [_rsa_key_to_dict] as read back from JSON: any entry may be
    missing. *)
Record KeyDict : Type := mkKeyDict {
  kd_kid : option string;
  kd_private_pem : option string;
  kd_public_pem : option string;
  kd_created_at : option Z
}.
Definition rsa_key_to_dict (rk : RsaKey) : KeyDict :=
  mkKeyDict (Some (rk_kid rk)) (Some (rk_private_pem rk)) (Some (rk_public_pem rk))
    (Some (rk_created_at rk)).
Definition rsa_key_from_dict (d : KeyDict) : option RsaKey :=
  match kd_kid d, kd_public_pem d with
  | Some kid, Some pub =>
      if str_true kid && str_true pub
      then Some (mkRsaKey kid (default "" (kd_private_pem d)) pub (default 0 (kd_created_at d)))
      else None
  | _, _ => None
  end.

(** The persisted payload, and what the path holds. *)
Record KeyFile : Type := mkKeyFile {
  kf_algorithm : option string;
  kf_current : option KeyDict;
  kf_retired : list KeyDict
}.
Inductive disk : Type :=
  | Missing
  | Corrupt
  | Saved (f : KeyFile).

Record KeyRing : Type := mkKeyRing {
  kr_algorithm : string;
  kr_hs_key : string;
  kr_rsa_current : option RsaKey;
  kr_rsa_retired : list RsaKey;
  kr_kid_index : list (string * RsaKey);
  kr_persist_path : string
}.
Definition set_kr_rsa_current (v : option RsaKey) (r : KeyRing) : KeyRing :=
  mkKeyRing (kr_algorithm r) (kr_hs_key r) v (kr_rsa_retired r) (kr_kid_index r) (kr_persist_path r).
Definition set_kr_rsa_retired (v : list RsaKey) (r : KeyRing) : KeyRing :=
  mkKeyRing (kr_algorithm r) (kr_hs_key r) (kr_rsa_current r) v (kr_kid_index r) (kr_persist_path r).
Definition set_kr_kid_index (v : list (string * RsaKey)) (r : KeyRing) : KeyRing :=
  mkKeyRing (kr_algorithm r) (kr_hs_key r) (kr_rsa_current r) (kr_rsa_retired r) v (kr_persist_path r).

Definition hs256 (key : string) : KeyRing := mkKeyRing "HS256" key None [] [] "".

(** The ring and the file at its path, which the operations mutate. *)
Definition KR : Type := (KeyRing * disk)%type.

(** What the file system does to a write: the temporary file is written and
    renamed; writing or renaming fails, which is logged and leaves the old
    file; or no temporary file can be made, which raises. *)
Inductive write_outcome : Type := Written | WriteFailed | NoTempFile.

Definition persist (w : write_outcome) : M KR unit :=
  let! ring := gets fst in
  if negb (str_true (kr_persist_path ring)) || bool_decide (kr_algorithm ring <> "RS256")
  then ret tt
  else match kr_rsa_current ring with
       | None => ret tt
       | Some cur =>
           match w with
           | NoTempFile => raise (OSError "mkstemp")
           | WriteFailed => ret tt
           | Written =>
               modify (fun st =>
                 (st.1, Saved (mkKeyFile (Some (kr_algorithm ring)) (Some (rsa_key_to_dict cur))
                                 (rsa_key_to_dict <$> kr_rsa_retired ring))))
           end
       end.

(** [ring._kid_index[k.kid] = k] for a list of keys. *)
Definition index_keys (ks : list RsaKey) (ix : list (string * RsaKey)) : list (string * RsaKey) :=
  foldl (fun ix k => dset (rk_kid k) k ix) ix ks.

Definition load_persisted (persist_path : string) (file : disk) : option KeyRing :=
  if negb (str_true persist_path) then None
  else match file with
  | Missing | Corrupt => None
  | Saved f =>
      if decide (kf_algorithm f <> Some "RS256") then None
      else
        let retired := omap rsa_key_from_dict (kf_retired f) in
        match rsa_key_from_dict (default (mkKeyDict None None None None) (kf_current f)) with
        | None => None
        | Some cur =>
            Some (mkKeyRing "RS256" "" (Some cur) retired (index_keys (cur :: retired) [])
                    persist_path)
        end
  end.

(** [load_pem_private_key(...).public_key().public_bytes(...)] ([None]: the
    PEM does not load), whether a public PEM loads, and the modulus and
    exponent of an RSA public PEM. *)
Class RsaLib := {
  public_of_private : string -> option string;
  public_pem_loads : string -> bool;
  rsa_numbers : string -> option (N * N)
}.

(** ** Key ids and JWK integers *)

(** [n.to_bytes((n.bit_length() + 7) // 8, "big")] *)
Fixpoint big_endian (fuel : nat) (n : N) (acc : list ascii) : list ascii :=
  match fuel with
  | O => acc
  | S fuel => if (n =? 0)%N then acc
              else big_endian fuel (n / 256) (ascii_of_N (n mod 256) :: acc)
  end.
Definition to_bytes (n : N) : list ascii := big_endian (N.to_nat (N.size n)) n [].
Definition urlsafe_char (c : ascii) : ascii :=
  if decide (c = "+"%char) then "-"%char else if decide (c = "/"%char) then "_"%char else c.
Definition b64u_int (n : N) : string :=
  of_chars (urlsafe_char <$> filter (fun c => c <> pad) (b64encode_chars (to_bytes n))).

Definition hex_value (c : ascii) : N :=
  if is_digit c then (chr c - 48)%N else (chr c - 87)%N.
(** [int.from_bytes(digest[:10], "big")] from the hex digest. *)
Definition digest_int (hex : string) : N :=
  foldl (fun acc c => acc * 16 + hex_value c)%N 0%N (chars (stake 20 hex)).
Definition kid_for_pem `{HashLib} (public_pem : string) : string :=
  stake 16 (b64u_int (digest_int (sha256 public_pem))).

(** [s.split(sep)] for a non-empty separator: the pieces between matches.
    [skip] counts the characters of a match still to be passed over. *)
Fixpoint split_from (sep : list ascii) (skip : nat) (piece l : list ascii) : list (list ascii) :=
  match l with
  | [] => [reverse piece]
  | c :: l' =>
      match skip with
      | S k => split_from sep k piece l'
      | O => if decide (take (length sep) l = sep)
             then reverse piece :: split_from sep (length sep - 1) [] l'
             else split_from sep 0 (c :: piece) l'
      end
  end.
Definition split (sep s : string) : list string :=
  of_chars <$> split_from (chars sep) 0 [] (chars s).

Definition END_PUBLIC : string := "-----END PUBLIC KEY-----".

Section keyring.
Context `{HashLib, RsaLib}.

Definition load_extra_public_keys (now : Z) (public_keys_pem : string) (ring : KeyRing)
    : KeyRing :=
  let blocks := filter (fun b => contains "BEGIN" b = true) (split END_PUBLIC public_keys_pem) in
  foldl (fun ring block =>
    let pem := strip block +:+ of_chars [newline] +:+ END_PUBLIC in
    if public_pem_loads pem then
      let ekid := "kid-ext-" +:+ kid_for_pem pem in
      set_kr_kid_index (dset ekid (mkRsaKey ekid "" pem now) (kr_kid_index ring)) ring
    else ring) ring blocks.

(** [KeyRing.rs256]; [gen] is the pair generated when no material is given.
    Loading a bad private PEM raises. *)
Definition rs256 (now : Z) (gen : RsaKey) (private_pem public_keys_pem : option string)
    (persist_path : string) (file : disk) : res KeyRing :=
  let extra ring := match public_keys_pem with
                    | Some p => if str_true p then load_extra_public_keys now p ring else ring
                    | None => ring
                    end in
  let recovered := if str_true persist_path then load_persisted persist_path file else None in
  match recovered with
  | Some ring => Ok (extra ring)
  | None =>
      let key := match private_pem with
                 | Some p =>
                     if str_true p then
                       match public_of_private p with
                       | Some pub => Ok (mkRsaKey (kid_for_pem pub) p pub now)
                       | None => Raise (ValueError "could not deserialize key data")
                       end
                     else Ok gen
                 | None => Ok gen
                 end in
      match key with
      | Raise e => Raise e
      | Ok rk => Ok (extra (mkKeyRing "RS256" "" (Some rk) [] [(rk_kid rk, rk)] persist_path))
      end
  end.

Definition ring_kid (ring : KeyRing) : option string := rk_kid <$> kr_rsa_current ring.

Definition signing_key (ring : KeyRing) : string :=
  match kr_rsa_current ring with
  | Some cur => if decide (kr_algorithm ring = "RS256") then rk_private_pem cur else kr_hs_key ring
  | None => kr_hs_key ring
  end.

Definition verify_key_for (kid : option string) (ring : KeyRing) : res string :=
  if decide (kr_algorithm ring = "HS256") then Ok (kr_hs_key ring)
  else
    let hit := match kid with
               | Some k => if str_true k then dget k (kr_kid_index ring) else None
               | None => None
               end in
    match hit with
    | Some rk => Ok (rk_public_pem rk)
    | None => Raise (JwtError ("unknown key id: " +:+
                match kid with Some k => py_repr k | None => "None" end))
    end.

(** [rotate]; [new_key] is the generated pair, whose kid is drawn too. *)
Definition rotate (w : write_outcome) (new_key : RsaKey) : M KR (option string) :=
  let! ring := gets fst in
  match kr_rsa_current ring with
  | None => ret None
  | Some cur =>
      if decide (kr_algorithm ring <> "RS256") then ret None
      else
        modify (fun st =>
          (set_kr_kid_index (dset (rk_kid new_key) new_key (kr_kid_index st.1))
             (set_kr_rsa_current (Some new_key)
                (set_kr_rsa_retired (kr_rsa_retired st.1 ++ [cur]) st.1)), st.2)) ;;;
        persist w ;;;
        ret (Some (rk_kid new_key))
  end.

Definition past_grace (now : Z) (rk : RsaKey) : bool :=
  bool_decide (now - rk_created_at rk > sec GRACE_SECONDS).

Definition prune (w : write_outcome) (now : Z) : M KR Z :=
  let! ring := gets fst in
  let dead := filter (fun rk => past_grace now rk = true) (kr_rsa_retired ring) in
  let keep := filter (fun rk => past_grace now rk = false) (kr_rsa_retired ring) in
  modify (fun st =>
    (set_kr_rsa_retired keep
       (set_kr_kid_index (foldl (fun ix rk => dpop (rk_kid rk) ix) (kr_kid_index st.1) dead)
          st.1), st.2)) ;;;
  (if decide (zlen dead <> 0) then persist w else ret tt) ;;;
  ret (zlen dead).

Record Jwk : Type := mkJwk { jwk_kid : string; jwk_n : string; jwk_e : string }.
Definition rsa_public_jwk (kid public_pem : string) : res Jwk :=
  match rsa_numbers public_pem with
  | Some (n, e) => Ok (mkJwk kid (b64u_int n) (b64u_int e))
  | None => Raise (ValueError ("not an RSA public key (kid=" +:+ kid +:+ ")"))
  end.
Fixpoint jwk_list (ks : list RsaKey) : res (list Jwk) :=
  match ks with
  | [] => Ok []
  | rk :: ks' =>
      match rsa_public_jwk (rk_kid rk) (rk_public_pem rk) with
      | Raise e => Raise e
      | Ok j => match jwk_list ks' with Raise e => Raise e | Ok js => Ok (j :: js) end
      end
  end.
(** The keys a ring publishes: the current one and the retired ones. *)
Definition ring_keys (ring : KeyRing) : list RsaKey :=
  match kr_rsa_current ring with Some c => [c] | None => [] end ++ kr_rsa_retired ring.
Definition jwks (ring : KeyRing) : res (list Jwk) := jwk_list (ring_keys ring).

(** The handler of [GET /.well-known/jwks.json]: prune, then publish. *)
Definition get_jwks (w : write_outcome) (now : Z) : M KR (list Jwk) :=
  prune w now ;;;
  let! ring := gets fst in
  lift (jwks ring).
End keyring.

(** A stand-in for the RSA functions: a private key is its public key. *)
Definition toy_rsa : RsaLib := {|
  public_of_private p := Some p;
  public_pem_loads _ := true;
  rsa_numbers _ := Some (3233%N, 17%N)
|}.
