(* ===== verification/Auth.v ===== *)
(** * The authentication service (auth.py)

    [AuthService] over the store and the key ring: login with lockout, email
    gate and MFA; token issuance, verification, introspection and rotation;
    revocation, logout and password change; SSO tickets; bootstrap. The
    methods read the ring live and mutate the store. Random draws are
    arguments; an operation takes one clock reading [now]. *)
From S2P Require Import Prelude PyText StoreState Prims AuditLog Tenants Rbac Users Tokens.
From S2P Require Import Crypto Jwt Jwks.

(** [pyotp.TOTP(secret).verify(code, valid_window=1)] at a clock reading, and
    [provisioning_uri(name, issuer_name="fusion-identity")]. *)
Class TotpLib := {
  totp_verify : Z -> string -> string -> bool;
  totp_uri : string -> string -> string
}.

(** ** Errors *)

Definition http (code : Z) (d : string) : exn := HTTPException code (DText d).
Definition unauthorized (d : string) : exn := http 401 d.
Definition forbidden (d : string) : exn := http 403 d.
Definition locked_exn : exn := http 429 "account locked, retry later".
(** (The dash of the message stands as its UTF-8 bytes.) *)
Definition email_exn : exn :=
  http 403 "email not verified — check your inbox for the verification link".

(** ** Small predicates *)

Definition role_scopes (role : string) : list string :=
  match dget role ROLES_SEED with
  | None => []
  | Some seed =>
      concat (map (fun ra => map (fun a => ra.1 +:+ ":" +:+ a) ra.2) (rs_permissions seed))
  end.

Definition is_locked (now : Z) (u : User) : bool :=
  match u_locked_until u with None => false | Some lu => bool_decide (now < lu) end.

(** [tenant_status in (None, "disabled", "deleted")] *)
Definition tenant_denied (st : option string) : bool :=
  match st with None => true | Some st => bool_decide (st = "disabled" \/ st = "deleted") end.
(** [user_status in (None, "disabled", "locked")] *)
Definition user_denied (st : option string) : bool :=
  match st with None => true | Some st => bool_decide (st = "disabled" \/ st = "locked") end.

(** ** Requests, responses, configuration *)

Record LoginRequest : Type := mkLoginRequest {
  lr_username : string;
  lr_password : string;
  lr_tenant_id : option string;
  lr_mfa_code : option string
}.
Record TokenResponse : Type := mkTokenResponse {
  tr_access_token : string;
  tr_refresh_token : string;
  tr_expires_in : Z;
  tr_must_change_password : bool;
  tr_mfa_required : bool
}.
Record VerifyResponse : Type := mkVerifyResponse {
  vr_tid : string;
  vr_role : string;
  vr_scopes : list string;
  vr_quota : option TenantQuota;
  vr_tenant_status : string;
  vr_write_classes : list string;
  vr_allowed_menus : list string
}.

Record AuthConfig : Type := mkAuthConfig {
  ac_issuer : string;
  ac_audience : string;
  ac_ttl : Z;
  ac_refresh_ttl : Z;
  ac_kek : string;
  ac_kek_prev : option string;
  ac_mfa_enforce_admin : bool;
  ac_email_verification_required : bool;
  ac_sso_ticket_ttl : Z
}.
(** [AuthService.__init__]: the KEK defaults to the signing key, the ticket
    lifetime is clamped to 5..600 s. *)
Definition auth_init (signing_key issuer audience : string) (ttl refresh_ttl : Z)
    (kek kek_prev : option string) (mfa_enforce_admin email_verification_required : bool)
    (sso_ticket_ttl : Z) : AuthConfig :=
  mkAuthConfig issuer audience ttl refresh_ttl
    (match kek with Some k => if str_true k then k else signing_key | None => signing_key end)
    kek_prev mfa_enforce_admin email_verification_required
    (Z.max 5 (Z.min sso_ticket_ttl 600)).

(** The draws of a login: the salt of a rehash, the two jtis, the family. *)
Record LoginDraws : Type := mkLoginDraws {
  ld_salt : string;
  ld_jti : string;
  ld_rjti : string;
  ld_family : string
}.

Definition SESSION_DEFAULT_TTL : Z := 43200.
Definition SESSION_MAX_TTL : Z := 86400.

Section auth.
Context `{HashLib, Argon2Lib, JwtLib, AeadLib, RsaLib, TotpLib}.
Variables (cfg : AuthConfig) (ring : KeyRing) (now : Z).

(** ** Token verification *)

Definition verify_ (token : string) (token_type : option string) : res Claims :=
  let hk := match jwt_get_unverified_header token with Ok h => h_kid h | Raise _ => None end in
  match verify_key_for hk ring with
  | Raise e => Raise e
  | Ok key => verify_token now token key (ac_issuer cfg) (ac_audience cfg) token_type
                [kr_algorithm ring]
  end.

(** [_authorize]: the member's role, and the claims it refreshed. *)
Definition authorize (claims : Claims) : M Store (string * Claims) :=
  let! revoked := is_jti_revoked now (c_jti claims) in
  if (revoked : bool) then raise (unauthorized "revoked token") else
  let! tenant_status := gets (get_tenant_status (c_tid claims)) in
  if tenant_denied tenant_status then raise (unauthorized "tenant disabled") else
  let! user_status := gets (get_user_status (c_sub claims)) in
  if user_denied user_status then raise (unauthorized "account disabled") else
  let! role := gets (get_member_role (c_tid claims) (c_sub claims)) in
  match role with
  | None => raise (unauthorized "membership revoked")
  | Some role =>
      if decide (c_role claims <> Some role)
      then ret (role, set_c_scope (Some (role_scopes role)) (set_c_role (Some role) claims))
      else ret (role, claims)
  end.

(** ** Failed attempts and login *)

Definition record_failed_login (user : User) (tenant_id : option string) : M Store unit :=
  let attempts := u_failed_attempts user + 1 in
  let lock := bool_decide (LOCK_THRESHOLD <= attempts) in
  let fields := attempt_fields attempts (if lock then Some (now + LOCK_DURATION) else None) None in
  if opt_true tenant_id then
    let tid := default "" tenant_id in
    (if lock then
       append_audit now tid (Some (u_user_id user)) None None "auth.account_locked"
         (Some "session") (JObj [("attempts", JInt attempts)]) ;;; ret tt
     else ret tt) ;;;
    update_user (u_user_id user) fields ;;;
    append_audit now tid (Some (u_user_id user)) None None "auth.login_failed"
      (Some "session") (JObj [("username", JStr (u_username user))]) ;;;
    ret tt
  else update_user (u_user_id user) fields ;;; ret tt.

Definition verify_totp (rec : Mfa) (code : string) : res bool :=
  match decrypt_secret (mf_secret_enc rec) (ac_kek cfg) (ac_kek_prev cfg) with
  | Raise e => Raise e
  | Ok raw => Ok (totp_verify now raw code)
  end.

(** The memberships of a user in tenants whose status is ["active"]. *)
Definition active_memberships (user_id : string) (s : Store) : list (string * string) :=
  filter (fun m => get_tenant_status m.1 s = Some "active") (memberships_for_user user_id s).

Definition resolve_login_tenant (user : User) : M Store string :=
  let! active := gets (active_memberships (u_user_id user)) in
  match active with
  | [] => raise (unauthorized "invalid credentials")
  | [m] => ret m.1
  | _ =>
      let! tenants := gets (fun s =>
        (fun m => (m.1, t_display_name <$> get_tenant m.1 s)) <$> active) in
      raise (HTTPException 409 (DTenants "tenant_ambiguous" tenants))
  end.

(** One token under the ring's current key. *)
Definition issue (jti sub tid role : string) (ttl : Z) (token_type : string) : string * string :=
  issue_token now jti sub tid role (role_scopes role) (signing_key ring) (ac_issuer cfg)
    (ac_audience cfg) ttl token_type (kr_algorithm ring) (ring_kid ring).

Definition issue_login_pair (d : LoginDraws) (user : User) (tenant_id role username : string)
    (audit_action : string) : M Store TokenResponse :=
  let '(access, jti) := issue (ld_jti d) (u_user_id user) tenant_id role (ac_ttl cfg) "access" in
  record_issued_jti now jti tenant_id (u_user_id user) ;;;
  let '(refresh, rjti) :=
    issue (ld_rjti d) (u_user_id user) tenant_id role (ac_refresh_ttl cfg) "refresh" in
  insert_refresh_token now rjti (ld_family d) tenant_id (u_user_id user)
    (now + sec (ac_refresh_ttl cfg)) None "active" ;;;
  append_audit now tenant_id (Some (u_user_id user)) (Some jti) (Some role) audit_action
    (Some "session") (JObj [("username", JStr username)]) ;;;
  ret (mkTokenResponse access refresh (ac_ttl cfg) (u_must_change_password user) false).

(** The part of [login] after the password has been accepted. *)
Definition login_verified (d : LoginDraws) (req : LoginRequest) (user : User)
    : M Store TokenResponse :=
  let! tenant_id := if opt_true (lr_tenant_id req) then ret (default "" (lr_tenant_id req))
                    else resolve_login_tenant user in
  let! role := gets (get_member_role tenant_id (u_user_id user)) in
  match role with
  | None => raise (unauthorized "tenant_mismatch")
  | Some role =>
      let! mfa_rec := gets (get_mfa (u_user_id user) "totp") in
      let mfa_required := match mfa_rec with Some r => mf_enabled r | None => false end in
      let enforce := ac_mfa_enforce_admin cfg && bool_decide (role = "tenant_admin") in
      if enforce && negb mfa_required
      then raise (unauthorized "mfa enrollment required for admin")
      else if mfa_required && negb (opt_true (lr_mfa_code req))
      then ret (mkTokenResponse "" "" 0 false true)
      else
        (match mfa_rec with
         | Some r =>
             if mf_enabled r then
               let! ok := lift (verify_totp r (default "" (lr_mfa_code req))) in
               if (ok : bool) then ret tt
               else record_failed_login user (Some tenant_id) ;;;
                    raise (unauthorized "invalid mfa code")
             else ret tt
         | None => ret tt
         end) ;;;
        update_user (u_user_id user) (attempt_fields 0 None (Some now)) ;;;
        issue_login_pair d user tenant_id role (lr_username req) "auth.login"
  end.

Definition login (d : LoginDraws) (req : LoginRequest) (skip_email_verification : bool)
    : M Store TokenResponse :=
  let! tenant_status := gets (fun s =>
    if opt_true (lr_tenant_id req) then get_tenant_status (default "" (lr_tenant_id req)) s
    else Some "active") in
  if tenant_denied tenant_status then raise (unauthorized "invalid credentials") else
  let! user := gets (get_user_by_username (lr_username req)) in
  match user with
  | None => raise (unauthorized "invalid credentials")
  | Some user =>
      if is_locked now user then raise locked_exn
      else if user_denied (Some (u_status user)) then raise (unauthorized "account disabled")
      else if ac_email_verification_required cfg && negb skip_email_verification
              && negb (u_email_verified user)
      then raise email_exn
      else
        let '(ok, needs_rehash) :=
          verify_password (lr_password req) (u_password_hash_v user) (u_password_hash user)
            (u_salt user) (u_password_algo user) in
        if negb ok then
          record_failed_login user (lr_tenant_id req) ;;;
          raise (unauthorized "invalid credentials")
        else
          (if (needs_rehash : bool) then
             let '(h, salt, algo) := hash_password (lr_password req) (ld_salt d) in
             update_user (u_user_id user) (password_fields h salt algo None) ;;; ret tt
           else ret tt) ;;;
          login_verified d req user
  end.

(** ** SSO tickets *)

(** Returns the raw ticket and its lifetime; [rnd] is the draw. *)
Definition issue_sso_ticket (rnd user_id tenant_id role : string) : M Store (string * Z) :=
  let raw := "fsso_" +:+ rnd in
  create_sso_ticket now (sha256 raw) user_id tenant_id (now + sec (ac_sso_ticket_ttl cfg)) ;;;
  append_audit now tenant_id (Some user_id) None (Some role) "auth.ticket_issued"
    (Some "session") (JObj []) ;;;
  ret (raw, ac_sso_ticket_ttl cfg).

Definition exchange_sso_ticket (d : LoginDraws) (ticket : string) : M Store TokenResponse :=
  let! rec := consume_sso_ticket now (sha256 ticket) in
  match rec with
  | None => raise (unauthorized "invalid ticket")
  | Some rec =>
      let! user := gets (get_user (tk_user_id rec)) in
      match user with
      | None => raise (unauthorized "invalid ticket")
      | Some user =>
          if is_locked now user || user_denied (Some (u_status user))
          then raise (unauthorized "invalid ticket") else
          let! tenant_status := gets (get_tenant_status (tk_tenant_id rec)) in
          if decide (tenant_status <> Some "active") then raise (unauthorized "invalid ticket") else
          let! role := gets (get_member_role (tk_tenant_id rec) (tk_user_id rec)) in
          match role with
          | None => raise (unauthorized "invalid ticket")
          | Some role =>
              issue_login_pair d user (tk_tenant_id rec) role (u_username user)
                "auth.ticket_exchanged"
          end
      end
  end.

(** ** Verification endpoints *)

Definition verify (token : string) : M Store VerifyResponse :=
  let! claims := lift (verify_ token (Some "access")) in
  let! auth := authorize claims in
  let '(role, claims) := auth in
  let! tenant_status := gets (get_tenant_status (c_tid claims)) in
  let! quota := gets (get_quota (c_tid claims)) in
  let! role_rec := gets (get_role (c_tid claims) role) in
  match role_rec with
  | None => raise (unauthorized "role no longer resolvable")
  | Some rr =>
      ret (mkVerifyResponse (c_tid claims) role (default [] (c_scope claims)) quota
             (match tenant_status with
              | Some st => if str_true st then st else "active" | None => "active" end)
             (rv_write_classes rr) (rv_menus rr))
  end.

(** The claims refreshed with the member's current role. *)
Definition resolve_bearer_claims (auth_header : string) : M Store Claims :=
  let! claims := lift (
    match extract_bearer auth_header with
    | Raise _ => Raise (unauthorized "invalid token")
    | Ok token => match verify_ token (Some "access") with
                  | Raise (JwtError _) => Raise (unauthorized "invalid token")
                  | r => r
                  end
    end) in
  let! revoked := is_jti_revoked now (c_jti claims) in
  if (revoked : bool) then raise (unauthorized "revoked token") else
  let! tenant_status := gets (get_tenant_status (c_tid claims)) in
  if tenant_denied tenant_status then raise (unauthorized "tenant disabled") else
  let! user_status := gets (get_user_status (c_sub claims)) in
  if user_denied user_status then raise (unauthorized "account disabled") else
  let! role := gets (get_member_role (c_tid claims) (c_sub claims)) in
  match role with
  | None => raise (unauthorized "membership revoked")
  | Some role =>
      ret (set_c_scope (Some (role_scopes role)) (set_c_role (Some role) claims))
  end.

(** The active form of the introspection answer; [None] is
    [{"active": False}]. *)
Record Introspection : Type := mkIntrospection {
  in_scope : string;
  in_username : option string;
  in_role : string;
  in_claims : Claims
}.
Definition introspect (token : string) : M Store (option Introspection) :=
  match verify_ token (Some "access") with
  | Raise (JwtError _) => ret None
  | Raise e => raise e
  | Ok claims =>
      let! auth := catch (let! rc := authorize claims in ret (Some rc))
                         (fun e => match e with HTTPException _ _ => ret None | _ => raise e end) in
      match auth with
      | None => ret None
      | Some (role, claims) =>
          let! user := gets (get_user (c_sub claims)) in
          ret (Some (mkIntrospection (join " " (default [] (c_scope claims)))
                 (u_username <$> user) role claims))
      end
  end.

(** ** Browser session tokens *)

Record SessionIssue : Type := mkSessionIssue {
  si_access_token : string;
  si_jti : string;
  si_expires_in : Z;
  si_role : string
}.

(** [max(60, min(int(ttl_seconds or default), max))] *)
Definition session_ttl (ttl_seconds : option Z) : Z :=
  let ttl := match ttl_seconds with
             | Some t => if decide (t <> 0) then t else SESSION_DEFAULT_TTL
             | None => SESSION_DEFAULT_TTL
             end in
  Z.max 60 (Z.min ttl SESSION_MAX_TTL).

Definition issue_session_token (jti sub tenant_id role : string) (ttl_seconds : option Z)
    : M Store SessionIssue :=
  let ttl := session_ttl ttl_seconds in
  let! tenant_status := gets (get_tenant_status tenant_id) in
  let! tenant_status :=
    match tenant_status with
    | Some st => ret (Some st)
    | None =>
        if decide (tenant_id <> "local") then raise (unauthorized "tenant not found")
        else
          catch (create_tenant now tenant_id "Local (single-tenant mode)" "team" "invite" ;;; ret tt)
                (fun e => match e with StoreConflict _ => ret tt | _ => raise e end) ;;;
          gets (get_tenant_status tenant_id)
    end in
  if decide (tenant_status <> Some "active") then raise (unauthorized "tenant disabled") else
  let! valid := gets (is_valid_role tenant_id role) in
  if negb valid then raise (unauthorized "invalid role") else
  let '(access, jti) := issue jti sub tenant_id role ttl "session" in
  record_issued_jti now jti tenant_id sub ;;;
  append_audit now tenant_id (Some sub) (Some jti) (Some role) "auth.session_issue"
    (Some "session") (JObj [("ttl_seconds", JInt ttl); ("issued_for", JStr "gateway")]) ;;;
  ret (mkSessionIssue access jti ttl role).

Definition verify_session_token (token : string) : M Store Claims :=
  let! claims := lift (verify_ token (Some "session")) in
  let! revoked := is_jti_revoked now (c_jti claims) in
  if (revoked : bool) then raise (unauthorized "revoked token") else
  let! tenant_status := gets (get_tenant_status (c_tid claims)) in
  if tenant_denied tenant_status then raise (unauthorized "tenant disabled") else
  ret claims.

(** The counts of revoked jtis and of revoked refresh tokens. *)
Definition revoke_user_sessions_and_tokens (sub tenant_id : string) : M Store (Z * Z) :=
  let! tenant_status := gets (get_tenant_status tenant_id) in
  match tenant_status with
  | None => raise (http 404 "tenant not found")
  | Some _ =>
      let! revoked_jtis := revoke_user_issued_jtis now sub (Some tenant_id) "user_deletion" in
      let! revoked_refresh := revoke_user_sessions sub in
      append_audit now tenant_id (Some sub) None (Some "service") "auth.user_sessions_revoked"
        (Some sub) (JObj [("revoked_access_jtis", JInt revoked_jtis);
                          ("revoked_refresh_tokens", JInt revoked_refresh);
                          ("reason", JStr "user_deletion")]) ;;;
      ret (revoked_jtis, revoked_refresh)
  end.

(** ** Refresh *)

(** The reuse path: the family is revoked, the event audited, the request
    refused. *)
Definition refuse_reuse (claims : Claims) (family_id : string) (extra : list (string * json))
    : M Store TokenResponse :=
  revoke_refresh_family family_id ;;;
  append_audit now (c_tid claims) (Some (c_sub claims)) (Some (c_jti claims)) None
    "auth.refresh_reuse" (Some "session") (JObj (("family_id", JStr family_id) :: extra)) ;;;
  raise (unauthorized "refresh token reuse detected").

(** [ajti] and [nrjti] are the jtis drawn for the new pair. *)
Definition refresh (ajti nrjti refresh_token : string) : M Store TokenResponse :=
  let! claims := lift (verify_ refresh_token (Some "refresh")) in
  let! rt := gets (get_refresh_token (c_jti claims)) in
  match rt with
  | None => raise (unauthorized "invalid refresh token")
  | Some rt =>
      if decide (rt_status rt = "revoked") then raise (unauthorized "revoked refresh token")
      else if decide (rt_status rt = "rotated") then refuse_reuse claims (rt_family_id rt) []
      else
        let! tenant_status := gets (get_tenant_status (c_tid claims)) in
        if tenant_denied tenant_status then raise (unauthorized "tenant disabled") else
        let! user_status := gets (get_user_status (c_sub claims)) in
        if user_denied user_status then raise (unauthorized "account disabled") else
        let! role := gets (get_member_role (c_tid claims) (c_sub claims)) in
        match role with
        | None => raise (unauthorized "membership revoked")
        | Some role =>
            let '(new_refresh, nrjti) :=
              issue nrjti (c_sub claims) (c_tid claims) role (ac_refresh_ttl cfg) "refresh" in
            let! ok := rotate_refresh_token (c_jti claims) nrjti in
            if negb ok then
              refuse_reuse claims (rt_family_id rt) [("reason", JStr "cas_lost")]
            else
              let '(access, ajti) :=
                issue ajti (c_sub claims) (c_tid claims) role (ac_ttl cfg) "access" in
              record_issued_jti now ajti (c_tid claims) (c_sub claims) ;;;
              insert_refresh_token now nrjti (rt_family_id rt) (c_tid claims) (c_sub claims)
                (now + sec (ac_refresh_ttl cfg)) None "active" ;;;
              append_audit now (c_tid claims) (Some (c_sub claims)) (Some ajti) (Some role)
                "auth.refresh" (Some "session") (JObj [("rotated_from", JStr (c_jti claims))]) ;;;
              ret (mkTokenResponse access new_refresh (ac_ttl cfg) false false)
        end
  end.

(** ** Revocation, logout, password change *)

Definition revoke (jti caller_tid : string) (caller_uid : option string) : M Store bool :=
  let! owner := gets (get_jti_owner now jti) in
  match owner with
  | None => raise (forbidden "jti does not belong to caller tenant")
  | Some (owner_tid, _) =>
      if decide (owner_tid <> caller_tid)
      then raise (forbidden "jti does not belong to caller tenant")
      else
        revoke_jti now jti caller_tid caller_uid "admin_revoke" None ;;;
        append_audit now caller_tid caller_uid (Some jti) None "auth.revoke" (Some "session")
          (JObj [("jti", JStr jti)]) ;;;
        ret true
  end.

Definition logout (claims : Claims) (refresh_token : option string) : M Store bool :=
  revoke_jti now (c_jti claims) (c_tid claims) (Some (c_sub claims)) "logout"
    (Some (sec (c_exp claims))) ;;;
  (if opt_true refresh_token then
     match verify_ (default "" refresh_token) (Some "refresh") with
     | Raise _ => ret tt
     | Ok rclaims =>
         let! rt := gets (get_refresh_token (c_jti rclaims)) in
         match rt with
         | None => ret tt
         | Some rt => revoke_refresh_family (rt_family_id rt) ;;; ret tt
         end
     end
   else ret tt) ;;;
  append_audit now (c_tid claims) (Some (c_sub claims)) (Some (c_jti claims)) (c_role claims)
    "auth.logout" (Some "session") (JObj []) ;;;
  ret true.

Definition change_password (salt user_id old_password new_password tenant_id : string)
    : M Store bool :=
  let! user := gets (get_user user_id) in
  match user with
  | None => raise (unauthorized "user not found")
  | Some user =>
      if negb (verify_password old_password (u_password_hash_v user) (u_password_hash user)
                 (u_salt user) (u_password_algo user)).1
      then
        record_failed_login user (Some tenant_id) ;;;
        raise (unauthorized "invalid credentials")
      else
        let '(pw_hash, salt, algo) := hash_password new_password salt in
        update_user user_id (password_fields pw_hash salt algo (Some false)) ;;;
        let! revoked := revoke_user_sessions user_id in
        append_audit now tenant_id (Some user_id) None None "auth.password_change"
          (Some "session") (JObj [("revoked_sessions", JInt revoked)]) ;;;
        ret true
  end.

(** ** MFA *)

Record MfaEnrollment : Type := mkMfaEnrollment {
  me_secret : string;
  me_otpauth_uri : string;
  me_enabled : bool
}.

(** [raw] is the generated base32 secret, [nonce] that of its encryption. *)
Definition enroll_mfa (raw nonce user_id : string) : M Store MfaEnrollment :=
  let! rec := upsert_mfa now user_id "totp" (encrypt_secret nonce raw (ac_kek cfg)) false in
  let! user := gets (get_user user_id) in
  let label := match user with Some u => u_username u | None => user_id end in
  ret (mkMfaEnrollment raw (totp_uri raw label) (mf_enabled rec)).

(** The method, the flag and the enrolment time. *)
Definition verify_mfa (user_id code method : string) : M Store (string * bool * Z) :=
  let! rec := gets (get_mfa user_id method) in
  match rec with
  | None => raise (unauthorized "mfa not enrolled")
  | Some rec =>
      let! ok := lift (verify_totp rec code) in
      if negb ok then raise (unauthorized "invalid mfa code")
      else
        upsert_mfa now user_id method (mf_secret_enc rec) true ;;;
        ret (method, true, mf_enrolled_at rec)
  end.

Definition list_mfa_status (user_id : string) (s : Store) : list (string * bool * Z) :=
  (fun r => (mf_method r, mf_enabled r, mf_enrolled_at r)) <$> list_mfa user_id s.

(** ** Bootstrap *)

(** [isinstance(item, dict)] and [item.get("tenant_id")] truthy. *)
Definition json_true (j : json) : bool :=
  match j with
  | JNull => false
  | JBool b => b
  | JInt z => bool_decide (z <> 0)
  | JFloat us => bool_decide (us <> 0)
  | JStr s => str_true s
  | JArr l => match l with [] => false | _ => true end
  | JObj l => match l with [] => false | _ => true end
  end.
(** [repr] of a decoded JSON value, and [str] of it. *)
Fixpoint py_json_repr (j : json) : string :=
  match j with
  | JNull => "None"
  | JBool true => "True"
  | JBool false => "False"
  | JInt z => pretty z
  | JFloat us => float_repr us
  | JStr s => py_repr s
  | JArr l => "[" +:+ join ", " (map py_json_repr l) +:+ "]"
  | JObj kvs => "{" +:+ join ", " (map (fun kv => match kv with (k, v) =>
                   py_repr k +:+ ": " +:+ py_json_repr v end) kvs) +:+ "}"
  end.
Definition py_str (j : json) : string := match j with JStr s => s | _ => py_json_repr j end.

Definition seed_tenant (item : json) : M Store unit :=
  match item with
  | JObj kvs =>
      match dget "tenant_id" kvs with
      | Some t =>
          if json_true t then
            let tid := py_str t in
            let display := match dget "display_name" kvs with Some d => py_str d | None => tid end in
            let plan := match dget "plan" kvs with Some p => py_str p | None => "team" end in
            create_tenant now tid display plan "invite" ;;; ret tt
          else raise (RuntimeError "bootstrap tenant entry missing tenant_id")
      | None => raise (RuntimeError "bootstrap tenant entry missing tenant_id")
      end
  | _ => raise (RuntimeError "bootstrap tenant entry missing tenant_id")
  end.

(** [bootstrap_tenants] is [None] when unset or empty, else the outcome of
    [json.loads] ([inr] is the text of its error). *)
Definition bootstrap (salt : string) (admin_user admin_pass : option string)
    (bootstrap_tenants : option (json + string)) : M Store unit :=
  let! empty := gets is_empty_tenants in
  if negb empty then ret tt
  else if negb (opt_true admin_user) || negb (opt_true admin_pass)
  then raise (RuntimeError
    "bootstrap requires FUSION_BOOTSTRAP_ADMIN_USER and FUSION_BOOTSTRAP_ADMIN_PASS")
  else
    create_tenant now "default" "Default Tenant" "team" "invite" ;;;
    catch (create_user now salt "usr_admin" (default "" admin_user) (default "" admin_pass)
             None false true None ;;; ret tt)
      (fun e => match e with
                | StoreConflict _ => raise (RuntimeError "bootstrap conflict: usr_admin already exists")
                | _ => raise e end) ;;;
    add_member now "default" "usr_admin" "tenant_admin" None ;;;
    match bootstrap_tenants with
    | None => ret tt
    | Some (inr msg) => raise (RuntimeError ("invalid FUSION_BOOTSTRAP_TENANTS JSON: " +:+ msg))
    | Some (inl (JArr items)) => for_each items seed_tenant
    | Some (inl _) => raise (RuntimeError "FUSION_BOOTSTRAP_TENANTS must be a JSON array")
    end.
End auth.

(** A stand-in for pyotp: the code is the secret. *)
Definition toy_totp : TotpLib := {|
  totp_verify _ secret code := bool_decide (secret = code);
  totp_uri secret name := secret +:+ ":" +:+ name
|}.
