(* ===== verification/StoreSteps.v ===== *)
(** * The store as a transition system

    [store_op] lists every mutating method of [InMemoryStore] with its
    arguments, clock reading and draws; [exec] runs one. [reach ok] is
    reachability from the freshly constructed store by operations that satisfy
    [ok] when they run. [safe m] says that a program [m] over the store only
    acts through those operations: it lifts every invariant of the store to the
    services built on it. *)
From S2P Require Import Prelude PyText StoreState Prims AuditLog Tenants Rbac Users Keys.
From S2P Require Import Tokens Ledger.

Inductive store_op : Type :=
  | OpCreateTenant (now : Z) (tid name plan policy : string)
  | OpSetJoinPolicy (tid policy : string)
  | OpUpdateTenant (now : Z) (tid : string) (f : TenantFields)
  | OpDeleteTenant (now : Z) (tid : string)
  | OpPutQuota (now : Z) (tid : string) (f : QuotaFields)
  | OpPutPlanTemplate (plan : string) (f : QuotaFields)
  | OpPutIdempotency (now : Z) (key endpoint : string) (response : json)
  | OpCreateUser (now : Z) (salt uid username password : string) (email : option string)
      (must_change verified : bool) (name : option string)
  | OpUpdateUser (uid : string) (f : UserFields)
  | OpSetEmailVerifyToken (uid h : string) (expires : Z)
  | OpVerifyEmailToken (now : Z) (h : string)
  | OpSetPasswordResetToken (uid h : string) (expires : Z)
  | OpConsumePasswordResetToken (now : Z) (h : string)
  | OpUpsertMfa (now : Z) (uid method secret : string) (enabled : bool)
  | OpDeleteMfa (uid method : string)
  | OpCreateCustomRole (now : Z) (tid rid name : string) (wc : list string)
  | OpUpdateCustomRole (now : Z) (tid rid : string) (name : option string)
      (wc : option (list string))
  | OpDeleteCustomRole (tid rid : string)
  | OpSetRoleMenus (tid rid : string) (menus : list string)
  | OpResetRoleMenus (tid rid : string)
  | OpAddKnownMenus (tid : string) (menus : list string)
  | OpAddMember (now : Z) (tid uid role : string) (by_ : option string)
  | OpUpdateMemberRole (tid uid role : string)
  | OpRemoveMember (tid uid : string)
  | OpCreateApiKey (now : Z) (rnd_raw rnd_id tid : string) (uid : option string)
      (scopes : list string)
  | OpRevokeApiKey (now : Z) (kid : string)
  | OpIssueAppSecret (now : Z) (rnd_raw rnd_id app : string) (grace : Z)
  | OpRevokeAppSecretVersion (app : string) (version : Z)
  | OpPutAppCredential (now : Z) (app name secret : string)
  | OpGetAppCredential (now : Z) (app name : string)
  | OpRevokeJti (now : Z) (jti tid : string) (uid : option string) (reason : string)
      (expires : option Z)
  | OpIsJtiRevoked (now : Z) (jti : string)
  | OpInsertRefreshToken (now : Z) (jti family tid uid : string) (expires : Z)
      (replaced_by : option string) (status : string)
  | OpRotateRefreshToken (old_jti new_jti : string)
  | OpRevokeRefreshFamily (family : string)
  | OpRevokeUserSessions (uid : string)
  | OpRecordIssuedJti (now : Z) (jti tid uid : string)
  | OpRevokeUserIssuedJtis (now : Z) (uid : string) (tid : option string) (reason : string)
  | OpCreateSsoTicket (now : Z) (h uid tid : string) (expires : Z)
  | OpConsumeSsoTicket (now : Z) (h : string)
  | OpCreateInvite (now : Z) (iid tid h role : string) (expires : Z)
      (email created_by : option string)
  | OpMarkInviteUsed (now : Z) (iid uid : string)
  | OpCreateJoinRequest (now : Z) (rid tid uid : string)
  | OpDecideJoinRequest (now : Z) (rid status by_ : string)
  | OpAppendEvent (now : Z) (rnd_id type tid : string) (payload : json)
  | OpMarkEvent (now : Z) (eid status : string) (attempts : option Z)
  | OpLogLease (now : Z) (tid lease action : string) (reason : option string)
  | OpRecordUsage (now : Z) (tid : string) (uid : option string) (metric : string) (value : Z)
      (source : string) (model : option string)
  | OpCreateDepartment (now : Z) (rnd_id tid name : string) (parent : option string)
      (tools : option (list string))
  | OpUpdateDepartment (now : Z) (tid did : string) (name parent : option string)
      (tools : option (list string))
  | OpDeleteDepartment (tid did : string)
  | OpCreateIdp (now : Z) (iid tid type : string) (url client secret scopes : option string)
      (auto : bool)
  | OpDeleteIdp (iid : string)
  | OpUpdateIdp (iid : string) (f : IdpFields)
  | OpAppendAudit (now : Z) (tid : string) (uid jti role : option string) (action : string)
      (resource : option string) (detail : json).

Section steps.
Context `{HashLib, Argon2Lib}.

(** The store after the operation; the answer and the exception are dropped. *)
Definition exec (op : store_op) (s : Store) : Store :=
  match op with
  | OpCreateTenant now tid name plan policy => (create_tenant now tid name plan policy s).2
  | OpSetJoinPolicy tid policy => (set_join_policy tid policy s).2
  | OpUpdateTenant now tid f => (update_tenant now tid f s).2
  | OpDeleteTenant now tid => (delete_tenant now tid s).2
  | OpPutQuota now tid f => (put_quota now tid f s).2
  | OpPutPlanTemplate plan f => (put_plan_template plan f s).2
  | OpPutIdempotency now key endpoint response => (put_idempotency now key endpoint response s).2
  | OpCreateUser now salt uid username password email mc ver name =>
      (create_user now salt uid username password email mc ver name s).2
  | OpUpdateUser uid f => (update_user uid f s).2
  | OpSetEmailVerifyToken uid h expires => (set_email_verify_token uid h expires s).2
  | OpVerifyEmailToken now h => (verify_email_token now h s).2
  | OpSetPasswordResetToken uid h expires => (set_password_reset_token uid h expires s).2
  | OpConsumePasswordResetToken now h => (consume_password_reset_token now h s).2
  | OpUpsertMfa now uid method secret enabled => (upsert_mfa now uid method secret enabled s).2
  | OpDeleteMfa uid method => (delete_mfa uid method s).2
  | OpCreateCustomRole now tid rid name wc => (create_custom_role now tid rid name wc s).2
  | OpUpdateCustomRole now tid rid name wc => (update_custom_role now tid rid name wc s).2
  | OpDeleteCustomRole tid rid => (delete_custom_role tid rid s).2
  | OpSetRoleMenus tid rid menus => (set_role_menus tid rid menus s).2
  | OpResetRoleMenus tid rid => (reset_role_menus tid rid s).2
  | OpAddKnownMenus tid menus => (add_known_menus tid menus s).2
  | OpAddMember now tid uid role by_ => (add_member now tid uid role by_ s).2
  | OpUpdateMemberRole tid uid role => (update_member_role tid uid role s).2
  | OpRemoveMember tid uid => (remove_member tid uid s).2
  | OpCreateApiKey now rnd_raw rnd_id tid uid scopes =>
      (create_api_key now rnd_raw rnd_id tid uid scopes s).2
  | OpRevokeApiKey now kid => (revoke_api_key now kid s).2
  | OpIssueAppSecret now rnd_raw rnd_id app grace =>
      (issue_app_secret now rnd_raw rnd_id app grace s).2
  | OpRevokeAppSecretVersion app version => (revoke_app_secret_version app version s).2
  | OpPutAppCredential now app name secret => (put_app_credential now app name secret s).2
  | OpGetAppCredential now app name => (get_app_credential now app name s).2
  | OpRevokeJti now jti tid uid reason expires => (revoke_jti now jti tid uid reason expires s).2
  | OpIsJtiRevoked now jti => (is_jti_revoked now jti s).2
  | OpInsertRefreshToken now jti family tid uid expires rb status =>
      (insert_refresh_token now jti family tid uid expires rb status s).2
  | OpRotateRefreshToken old_jti new_jti => (rotate_refresh_token old_jti new_jti s).2
  | OpRevokeRefreshFamily family => (revoke_refresh_family family s).2
  | OpRevokeUserSessions uid => (revoke_user_sessions uid s).2
  | OpRecordIssuedJti now jti tid uid => (record_issued_jti now jti tid uid s).2
  | OpRevokeUserIssuedJtis now uid tid reason => (revoke_user_issued_jtis now uid tid reason s).2
  | OpCreateSsoTicket now h uid tid expires => (create_sso_ticket now h uid tid expires s).2
  | OpConsumeSsoTicket now h => (consume_sso_ticket now h s).2
  | OpCreateInvite now iid tid h role expires email by_ =>
      (create_invite now iid tid h role expires email by_ s).2
  | OpMarkInviteUsed now iid uid => (mark_invite_used now iid uid s).2
  | OpCreateJoinRequest now rid tid uid => (create_join_request now rid tid uid s).2
  | OpDecideJoinRequest now rid status by_ => (decide_join_request now rid status by_ s).2
  | OpAppendEvent now rnd_id type tid payload => (append_event now rnd_id type tid payload s).2
  | OpMarkEvent now eid status attempts => (mark_event now eid status attempts s).2
  | OpLogLease now tid lease action reason => (log_lease now tid lease action reason s).2
  | OpRecordUsage now tid uid metric value source model =>
      (record_usage now tid uid metric value source model s).2
  | OpCreateDepartment now rnd_id tid name parent tools =>
      (create_department now rnd_id tid name parent tools s).2
  | OpUpdateDepartment now tid did name parent tools =>
      (update_department now tid did name parent tools s).2
  | OpDeleteDepartment tid did => (delete_department tid did s).2
  | OpCreateIdp now iid tid type url client secret scopes auto =>
      (create_idp now iid tid type url client secret scopes auto s).2
  | OpDeleteIdp iid => (delete_idp iid s).2
  | OpUpdateIdp iid f => (update_idp iid f s).2
  | OpAppendAudit now tid uid jti role action resource detail =>
      (append_audit now tid uid jti role action resource detail s).2
  end.

Definition exec_all (ops : list store_op) (s : Store) : Store := foldl (fun s op => exec op s) s ops.

Inductive reach (ok : store_op -> Store -> Prop) : Store -> Prop :=
  | reach_init : reach ok init_store
  | reach_step s op : reach ok s -> ok op s -> reach ok (exec op s).
(** Reachability with no restriction on arguments and draws. *)
Definition reachable : Store -> Prop := reach (fun _ _ => True).

Definition store_step (s s' : Store) : Prop := exists op, s' = exec op s.

Lemma exec_all_snoc ops op s : exec_all (ops ++ [op]) s = exec op (exec_all ops s).
Proof. unfold exec_all. by rewrite foldl_app. Qed.

Lemma reachable_exec_all ops : reachable (exec_all ops init_store).
Proof.
  unfold exec_all. induction ops as [|op ops IH] using rev_ind; [constructor|].
  rewrite foldl_app. simpl. by constructor.
Qed.

Lemma reachable_steps s s' : reachable s -> rtc store_step s s' -> reachable s'.
Proof.
  intros Hs Hst. induction Hst as [|s1 s2 s3 [op ->] _ IH]; [done|]. apply IH. by constructor.
Qed.

(** An invariant of the store: holds initially and after every operation. *)
Lemma reach_invariant ok (I : Store -> Prop) :
  I init_store -> (forall s op, I s -> ok op s -> I (exec op s)) ->
  forall s, reach ok s -> I s.
Proof. intros Hinit Hst s Hs. induction Hs; auto. Qed.

(** ** Programs that act through the operations *)

Definition safe {A} (m : M Store A) : Prop := forall s, rtc store_step s (m s).2.

Lemma safe_ret {A} (a : A) : safe (ret a).
Proof. intros s. apply rtc_refl. Qed.
Lemma safe_raise {A} e : safe (raise e : M Store A).
Proof. intros s. apply rtc_refl. Qed.
Lemma safe_gets {A} (f : Store -> A) : safe (gets f).
Proof. intros s. apply rtc_refl. Qed.
Lemma safe_lift {A} (r : res A) : safe (lift r).
Proof. intros s. apply rtc_refl. Qed.
Lemma safe_bind {A B} (m : M Store A) (k : A -> M Store B) :
  safe m -> (forall a, safe (k a)) -> safe (bind m k).
Proof.
  intros Hm Hk s. specialize (Hm s). unfold bind. destruct (m s) as [[a|e] s1]; simpl in *; [|done].
  etrans; [exact Hm|apply Hk].
Qed.
Lemma safe_catch {A} (m : M Store A) h : safe m -> (forall e, safe (h e)) -> safe (catch m h).
Proof.
  intros Hm Hh s. specialize (Hm s). unfold catch. destruct (m s) as [[a|e] s1]; simpl in *; [done|].
  etrans; [exact Hm|apply Hh].
Qed.
Lemma safe_for_each {A} (l : list A) body : (forall x, safe (body x)) -> safe (for_each l body).
Proof.
  intros Hb. induction l as [|x l IH]; simpl; [apply safe_ret|]. by apply safe_bind.
Qed.
Lemma safe_exec {A} (m : M Store A) (op : store_op) : (forall s, exec op s = (m s).2) -> safe m.
Proof. intros Hop s. apply rtc_once. exists op. by rewrite Hop. Qed.

(** A safe program leaves a reachable store reachable. *)
Lemma safe_reachable {A} (m : M Store A) s : safe m -> reachable s -> reachable (m s).2.
Proof. intros Hm Hs. eapply reachable_steps; [done|apply Hm]. Qed.
End steps.

Create HintDb safe.
#[export] Hint Resolve safe_ret safe_raise safe_gets safe_lift safe_bind safe_catch
  safe_for_each : safe.

(** Every store operation is a one-step program. *)
Section safe_ops.
Context `{HashLib, Argon2Lib}.
Ltac one_step op := apply (safe_exec _ op); done.
Lemma safe_create_tenant now tid name plan policy : safe (create_tenant now tid name plan policy).
Proof. one_step (OpCreateTenant now tid name plan policy). Qed.
Lemma safe_set_join_policy tid policy : safe (set_join_policy tid policy).
Proof. one_step (OpSetJoinPolicy tid policy). Qed.
Lemma safe_update_tenant now tid f : safe (update_tenant now tid f).
Proof. one_step (OpUpdateTenant now tid f). Qed.
Lemma safe_delete_tenant now tid : safe (delete_tenant now tid).
Proof. one_step (OpDeleteTenant now tid). Qed.
Lemma safe_put_quota now tid f : safe (put_quota now tid f).
Proof. one_step (OpPutQuota now tid f). Qed.
Lemma safe_put_plan_template plan f : safe (put_plan_template plan f).
Proof. one_step (OpPutPlanTemplate plan f). Qed.
Lemma safe_put_idempotency now key endpoint response : safe (put_idempotency now key endpoint response).
Proof. one_step (OpPutIdempotency now key endpoint response). Qed.
Lemma safe_create_user now salt uid username password email mc ver name : safe (create_user now salt uid username password email mc ver name).
Proof. one_step (OpCreateUser now salt uid username password email mc ver name). Qed.
Lemma safe_update_user uid f : safe (update_user uid f).
Proof. one_step (OpUpdateUser uid f). Qed.
Lemma safe_set_email_verify_token uid h expires : safe (set_email_verify_token uid h expires).
Proof. one_step (OpSetEmailVerifyToken uid h expires). Qed.
Lemma safe_verify_email_token now h : safe (verify_email_token now h).
Proof. one_step (OpVerifyEmailToken now h). Qed.
Lemma safe_set_password_reset_token uid h expires : safe (set_password_reset_token uid h expires).
Proof. one_step (OpSetPasswordResetToken uid h expires). Qed.
Lemma safe_consume_password_reset_token now h : safe (consume_password_reset_token now h).
Proof. one_step (OpConsumePasswordResetToken now h). Qed.
Lemma safe_upsert_mfa now uid method secret enabled : safe (upsert_mfa now uid method secret enabled).
Proof. one_step (OpUpsertMfa now uid method secret enabled). Qed.
Lemma safe_delete_mfa uid method : safe (delete_mfa uid method).
Proof. one_step (OpDeleteMfa uid method). Qed.
Lemma safe_create_custom_role now tid rid name wc : safe (create_custom_role now tid rid name wc).
Proof. one_step (OpCreateCustomRole now tid rid name wc). Qed.
Lemma safe_update_custom_role now tid rid name wc : safe (update_custom_role now tid rid name wc).
Proof. one_step (OpUpdateCustomRole now tid rid name wc). Qed.
Lemma safe_delete_custom_role tid rid : safe (delete_custom_role tid rid).
Proof. one_step (OpDeleteCustomRole tid rid). Qed.
Lemma safe_set_role_menus tid rid menus : safe (set_role_menus tid rid menus).
Proof. one_step (OpSetRoleMenus tid rid menus). Qed.
Lemma safe_reset_role_menus tid rid : safe (reset_role_menus tid rid).
Proof. one_step (OpResetRoleMenus tid rid). Qed.
Lemma safe_add_known_menus tid menus : safe (add_known_menus tid menus).
Proof. one_step (OpAddKnownMenus tid menus). Qed.
Lemma safe_add_member now tid uid role by_ : safe (add_member now tid uid role by_).
Proof. one_step (OpAddMember now tid uid role by_). Qed.
Lemma safe_update_member_role tid uid role : safe (update_member_role tid uid role).
Proof. one_step (OpUpdateMemberRole tid uid role). Qed.
Lemma safe_remove_member tid uid : safe (remove_member tid uid).
Proof. one_step (OpRemoveMember tid uid). Qed.
Lemma safe_create_api_key now rnd_raw rnd_id tid uid scopes : safe (create_api_key now rnd_raw rnd_id tid uid scopes).
Proof. one_step (OpCreateApiKey now rnd_raw rnd_id tid uid scopes). Qed.
Lemma safe_revoke_api_key now kid : safe (revoke_api_key now kid).
Proof. one_step (OpRevokeApiKey now kid). Qed.
Lemma safe_issue_app_secret now rnd_raw rnd_id app grace : safe (issue_app_secret now rnd_raw rnd_id app grace).
Proof. one_step (OpIssueAppSecret now rnd_raw rnd_id app grace). Qed.
Lemma safe_revoke_app_secret_version app version : safe (revoke_app_secret_version app version).
Proof. one_step (OpRevokeAppSecretVersion app version). Qed.
Lemma safe_put_app_credential now app name secret : safe (put_app_credential now app name secret).
Proof. one_step (OpPutAppCredential now app name secret). Qed.
Lemma safe_get_app_credential now app name : safe (get_app_credential now app name).
Proof. one_step (OpGetAppCredential now app name). Qed.
Lemma safe_revoke_jti now jti tid uid reason expires : safe (revoke_jti now jti tid uid reason expires).
Proof. one_step (OpRevokeJti now jti tid uid reason expires). Qed.
Lemma safe_is_jti_revoked now jti : safe (is_jti_revoked now jti).
Proof. one_step (OpIsJtiRevoked now jti). Qed.
Lemma safe_insert_refresh_token now jti family tid uid expires rb status : safe (insert_refresh_token now jti family tid uid expires rb status).
Proof. one_step (OpInsertRefreshToken now jti family tid uid expires rb status). Qed.
Lemma safe_rotate_refresh_token old_jti new_jti : safe (rotate_refresh_token old_jti new_jti).
Proof. one_step (OpRotateRefreshToken old_jti new_jti). Qed.
Lemma safe_revoke_refresh_family family : safe (revoke_refresh_family family).
Proof. one_step (OpRevokeRefreshFamily family). Qed.
Lemma safe_revoke_user_sessions uid : safe (revoke_user_sessions uid).
Proof. one_step (OpRevokeUserSessions uid). Qed.
Lemma safe_record_issued_jti now jti tid uid : safe (record_issued_jti now jti tid uid).
Proof. one_step (OpRecordIssuedJti now jti tid uid). Qed.
Lemma safe_revoke_user_issued_jtis now uid tid reason : safe (revoke_user_issued_jtis now uid tid reason).
Proof. one_step (OpRevokeUserIssuedJtis now uid tid reason). Qed.
Lemma safe_create_sso_ticket now h uid tid expires : safe (create_sso_ticket now h uid tid expires).
Proof. one_step (OpCreateSsoTicket now h uid tid expires). Qed.
Lemma safe_consume_sso_ticket now h : safe (consume_sso_ticket now h).
Proof. one_step (OpConsumeSsoTicket now h). Qed.
Lemma safe_create_invite now iid tid h role expires email by_ : safe (create_invite now iid tid h role expires email by_).
Proof. one_step (OpCreateInvite now iid tid h role expires email by_). Qed.
Lemma safe_mark_invite_used now iid uid : safe (mark_invite_used now iid uid).
Proof. one_step (OpMarkInviteUsed now iid uid). Qed.
Lemma safe_create_join_request now rid tid uid : safe (create_join_request now rid tid uid).
Proof. one_step (OpCreateJoinRequest now rid tid uid). Qed.
Lemma safe_decide_join_request now rid status by_ : safe (decide_join_request now rid status by_).
Proof. one_step (OpDecideJoinRequest now rid status by_). Qed.
Lemma safe_append_event now rnd_id type tid payload : safe (append_event now rnd_id type tid payload).
Proof. one_step (OpAppendEvent now rnd_id type tid payload). Qed.
Lemma safe_mark_event now eid status attempts : safe (mark_event now eid status attempts).
Proof. one_step (OpMarkEvent now eid status attempts). Qed.
Lemma safe_log_lease now tid lease action reason : safe (log_lease now tid lease action reason).
Proof. one_step (OpLogLease now tid lease action reason). Qed.
Lemma safe_record_usage now tid uid metric value source model : safe (record_usage now tid uid metric value source model).
Proof. one_step (OpRecordUsage now tid uid metric value source model). Qed.
Lemma safe_create_department now rnd_id tid name parent tools : safe (create_department now rnd_id tid name parent tools).
Proof. one_step (OpCreateDepartment now rnd_id tid name parent tools). Qed.
Lemma safe_update_department now tid did name parent tools : safe (update_department now tid did name parent tools).
Proof. one_step (OpUpdateDepartment now tid did name parent tools). Qed.
Lemma safe_delete_department tid did : safe (delete_department tid did).
Proof. one_step (OpDeleteDepartment tid did). Qed.
Lemma safe_create_idp now iid tid type url client secret scopes auto : safe (create_idp now iid tid type url client secret scopes auto).
Proof. one_step (OpCreateIdp now iid tid type url client secret scopes auto). Qed.
Lemma safe_delete_idp iid : safe (delete_idp iid).
Proof. one_step (OpDeleteIdp iid). Qed.
Lemma safe_update_idp iid f : safe (update_idp iid f).
Proof. one_step (OpUpdateIdp iid f). Qed.
Lemma safe_append_audit now tid uid jti role action resource detail : safe (append_audit now tid uid jti role action resource detail).
Proof. one_step (OpAppendAudit now tid uid jti role action resource detail). Qed.
End safe_ops.
#[export] Hint Resolve safe_create_tenant safe_set_join_policy safe_update_tenant
  safe_delete_tenant safe_put_quota safe_put_plan_template safe_put_idempotency
  safe_create_user safe_update_user safe_set_email_verify_token safe_verify_email_token
  safe_set_password_reset_token safe_consume_password_reset_token safe_upsert_mfa
  safe_delete_mfa safe_create_custom_role safe_update_custom_role safe_delete_custom_role
  safe_set_role_menus safe_reset_role_menus safe_add_known_menus safe_add_member
  safe_update_member_role safe_remove_member safe_create_api_key safe_revoke_api_key
  safe_issue_app_secret safe_revoke_app_secret_version safe_put_app_credential
  safe_get_app_credential safe_revoke_jti safe_is_jti_revoked safe_insert_refresh_token
  safe_rotate_refresh_token safe_revoke_refresh_family safe_revoke_user_sessions
  safe_record_issued_jti safe_revoke_user_issued_jtis safe_create_sso_ticket
  safe_consume_sso_ticket safe_create_invite safe_mark_invite_used safe_create_join_request
  safe_decide_join_request safe_append_event safe_mark_event safe_log_lease
  safe_record_usage safe_create_department safe_update_department safe_delete_department
  safe_create_idp safe_delete_idp safe_update_idp safe_append_audit : safe.

(** Decide [safe] of a program by its structure. *)
Ltac solve_safe :=
  repeat match goal with
         | |- safe (if ?b then _ else _) => destruct b
         | |- safe (match ?x with _ => _ end) => destruct x
         | |- safe (bind _ _) => apply safe_bind
         | |- safe (catch _ _) => apply safe_catch
         | |- forall _, _ => intros ?
         | |- safe _ => solve [auto with safe]
         end.
