(* ===== verification/Invariants.v ===== *)
(** * Invariants of the store

    Well-formedness of every table, referential integrity of roles, quotas and
    secrets, the join-request state machine, and the caps on the logs: each is
    shown of every reachable store by cases on the operation performed. *)
From S2P Require Import Prelude PyText StoreState Prims AuditLog Tenants Rbac Users Keys.
From S2P Require Import Tokens Ledger StoreSteps.

(** Run the operation symbolically: unfold it down to its branches. The two
    methods with loops over the store, [set_role_menus] and
    [revoke_user_issued_jtis], are left to lemmas. *)
Ltac unfold_ops :=
  cbv beta iota zeta delta [exec bind gets modify ret raise lift catch
    create_tenant set_join_policy update_tenant delete_tenant put_quota put_plan_template
    put_idempotency create_user update_user put_user set_email_verify_token verify_email_token
    set_password_reset_token consume_password_reset_token upsert_mfa delete_mfa
    create_custom_role update_custom_role delete_custom_role reset_role_menus
    add_known_menus add_member update_member_role remove_member create_api_key revoke_api_key
    issue_app_secret revoke_app_secret_version put_app_credential get_app_credential revoke_jti
    is_jti_revoked insert_refresh_token rotate_refresh_token revoke_refresh_family
    revoke_user_sessions revoke_where record_issued_jti sweep_issued_jtis
    create_sso_ticket consume_sso_ticket create_invite mark_invite_used create_join_request
    decide_join_request append_event mark_event log_lease record_usage create_department
    update_department delete_department create_idp delete_idp update_idp append_audit
    hash_password].
Ltac op_cases :=
  unfold_ops; repeat case_match;
  repeat match goal with
         | H : decide _ = left _ |- _ => clear H
         | H : decide _ = right _ |- _ => clear H
         end; simplify_eq/=.

(** ** The two looping methods *)

Lemma check_menus_state known menus s : (for_each menus (check_menu known) s).2 = s.
Proof.
  induction menus as [|m menus IH]; simpl; [done|]. unfold bind, check_menu at 1.
  destruct (valid_id m); [|done]. simpl. by case_decide.
Qed.

(** [set_role_menus] either leaves the store alone or stores the
    deduplicated list, whose members passed the checks. *)
Lemma check_menus_ok known menus s u s' :
  for_each menus (check_menu known) s = (Ok u, s') ->
  s' = s /\ Forall (fun m => valid_id m = true /\ m ∈ known) menus.
Proof.
  revert s'. induction menus as [|m menus IH]; simpl; intros s' Hr.
  { unfold ret in Hr. simplify_eq. auto. }
  apply bind_ok in Hr as (x & s1 & Hm & Hr). unfold check_menu in Hm.
  destruct (valid_id m) eqn:Hv; [|by run_inv]. simpl in Hm.
  destruct (decide (m ∉ known)) as [|Hk%dec_stable]; [by run_inv|]. unfold ret in Hm. simplify_eq.
  apply IH in Hr as [-> Hr]. split; [done|]. by constructor.
Qed.

Lemma set_role_menus_state tid rid menus s :
  (set_role_menus tid rid menus s).2 = s \/
  (set_role_menus tid rid menus s).2 =
    set_menu_matrix (dset (tid, rid) (dedup menus) (menu_matrix s)) s /\
  is_valid_role tid rid s = true /\ zlen menus <= MAX_MENUS_PER_ROLE /\
  Forall (fun m => valid_id m = true) menus.
Proof.
  unfold set_role_menus. rewrite bind_gets. destruct (is_valid_role tid rid s) eqn:Hv; [|by left].
  simpl. case_decide; [by left|]. rewrite bind_gets. unfold bind.
  destruct (for_each _ _ s) as [[u|e] s'] eqn:Hr.
  - apply check_menus_ok in Hr as [-> Hr]. right. simpl. split_and!; [done|done|lia|].
    eapply Forall_impl; [exact Hr|]. naive_solver.
  - left. simpl. pose proof (check_menus_state (default [] (dget tid (known_menus s)) ++ default_menus)
      menus s) as E. by rewrite Hr in E.
Qed.

(** The entries of the issued ledger that the revocation loop picks. *)
Definition revocable (now : Z) (uid : string) (tid : option string) (ij : IssuedJti) : Prop :=
  ij_user_id ij = uid /\ (tid = None \/ tid = Some (ij_tenant_id ij)) /\ now < ij_expires_at ij.
#[export] Instance revocable_dec now uid tid ij : Decision (revocable now uid tid ij).
Proof. apply _. Defined.

(** The ledger after one round. *)
Definition revoke_one_ledger (now : Z) (uid : string) (tid : option string) (reason jti : string)
    (ij : IssuedJti) (d : list (string * RevokedJti)) : list (string * RevokedJti) :=
  if decide (revocable now uid tid ij /\ dget jti d = None)
  then dset jti (mkRevokedJti jti (ij_tenant_id ij) (Some (ij_user_id ij)) reason
                   (revocation_expiry now (Some (ij_expires_at ij))) now) d
  else d.

Lemma set_revoked_jtis_id s : set_revoked_jtis (revoked_jtis s) s = s.
Proof. by destruct s. Qed.

Lemma revoke_issued_one_run now uid tid reason jti ij s :
  exists n, revoke_issued_one now uid tid reason (jti, ij) s =
    (Ok n, set_revoked_jtis (revoke_one_ledger now uid tid reason jti ij (revoked_jtis s)) s).
Proof.
  assert ((Ok 0, s) = (Ok 0, set_revoked_jtis (revoked_jtis s) s)) as Hid
    by (by rewrite set_revoked_jtis_id).
  unfold revoke_issued_one, revoke_one_ledger.
  destruct (decide (revocable now uid tid ij /\ dget jti (revoked_jtis s) = None))
    as [[Hr Hn]|Hnot].
  - destruct Hr as (<- & Ht & He). exists 1. rewrite decide_False by auto.
    replace (match tid with Some t => bool_decide (ij_tenant_id ij <> t) | None => false end)
      with false by (destruct Ht as [-> | ->]; [done|]; by rewrite bool_decide_eq_false_2 by auto).
    rewrite decide_False by lia. rewrite bind_gets. unfold dmem. by rewrite Hn.
  - exists 0. case_decide as Hu; [done|].
    destruct (match tid with Some t => _ | None => _ end) eqn:Ht; [done|].
    case_decide as He; [done|]. rewrite bind_gets. unfold dmem.
    destruct (dget jti (revoked_jtis s)) eqn:E; [done|]. exfalso. apply Hnot. unfold revocable.
    split_and!; [done| |lia|done].
    destruct tid as [t|]; [right|by left]. apply bool_decide_eq_false, dec_stable in Ht. by rewrite Ht.
Qed.

Lemma revoke_issued_loop_run now uid tid reason l s :
  exists n, revoke_issued_loop now uid tid reason l s =
    (Ok n, set_revoked_jtis
       (foldl (fun d kv => revoke_one_ledger now uid tid reason kv.1 kv.2 d) (revoked_jtis s) l) s).
Proof.
  revert s. induction l as [|[jti ij] l IH]; intros s; simpl.
  { exists 0. by rewrite set_revoked_jtis_id. }
  destruct (revoke_issued_one_run now uid tid reason jti ij s) as [n Hn].
  rewrite (bind_eq_ok _ _ _ _ _ Hn).
  destruct (IH (set_revoked_jtis (revoke_one_ledger now uid tid reason jti ij (revoked_jtis s)) s))
    as [m Hm]. rewrite (bind_eq_ok _ _ _ _ _ Hm). exists (n + m). by destruct s.
Qed.

(** One round keeps the entries there are, and only adds picked ones. *)
Lemma revoke_one_ledger_spec now uid tid reason jti ij d j :
  dget j (revoke_one_ledger now uid tid reason jti ij d) =
  match dget j d with
  | Some r => Some r
  | None => if decide (j = jti /\ revocable now uid tid ij)
            then Some (mkRevokedJti jti (ij_tenant_id ij) (Some (ij_user_id ij)) reason
                         (revocation_expiry now (Some (ij_expires_at ij))) now)
            else None
  end.
Proof.
  unfold revoke_one_ledger. case_decide as Hc; [rewrite dget_dset|];
    repeat case_decide; destruct (dget j d) eqn:?; naive_solver.
Qed.

Lemma revoke_one_ledger_wf now uid tid reason jti ij d :
  dict_wf d -> dict_wf (revoke_one_ledger now uid tid reason jti ij d).
Proof. unfold revoke_one_ledger. case_decide; eauto with dict. Qed.

Lemma revoke_loop_ledger_spec now uid tid reason l d j :
  dict_wf l ->
  dget j (foldl (fun d kv => revoke_one_ledger now uid tid reason kv.1 kv.2 d) d l) =
  match dget j d with
  | Some r => Some r
  | None => match dget j l with
            | Some ij => if decide (revocable now uid tid ij)
                         then Some (mkRevokedJti j (ij_tenant_id ij) (Some (ij_user_id ij)) reason
                                      (revocation_expiry now (Some (ij_expires_at ij))) now)
                         else None
            | None => None
            end
  end.
Proof.
  revert d. induction l as [|[jti ij] l IH]; intros d Hwf; simpl; [by destruct (dget j d)|].
  unfold dict_wf, dkeys in Hwf. csimpl in Hwf. apply NoDup_cons in Hwf as [Hn Hwf].
  rewrite IH by done. rewrite revoke_one_ledger_spec.
  destruct (dget j d) eqn:?; [done|].
  destruct (decide (j = jti)) as [->|Hne].
  - assert (dget jti l = None) as -> by (by apply dget_None). simpl.
    destruct (decide (revocable now uid tid ij)); [by rewrite decide_True by done|].
    by rewrite decide_False by naive_solver.
  - rewrite !decide_False by naive_solver. done.
Qed.

Lemma revoke_loop_ledger_wf now uid tid reason l d :
  dict_wf d -> dict_wf (foldl (fun d kv => revoke_one_ledger now uid tid reason kv.1 kv.2 d) d l).
Proof. revert d. induction l; intros d Hd; simpl; eauto using revoke_one_ledger_wf. Qed.

Lemma revoke_user_issued_jtis_run now uid tid reason s :
  exists n, revoke_user_issued_jtis now uid tid reason s =
    (Ok n, set_revoked_jtis (foldl (fun d kv => revoke_one_ledger now uid tid reason kv.1 kv.2 d)
             (revoked_jtis s) (issued_jtis s)) s).
Proof. unfold revoke_user_issued_jtis. rewrite bind_gets. apply revoke_issued_loop_run. Qed.

(** Cases on an operation: the looping methods through their lemmas, every
    other one by running it. *)
Ltac exec_run :=
  try (match goal with
       | |- context [exec (OpSetRoleMenus ?t ?r ?m) ?s] =>
           cbn [exec]; destruct (set_role_menus_state t r m s) as [->|(-> & ? & ? & ?)]
       | |- context [exec (OpRevokeUserIssuedJtis ?n ?u ?t ?r) ?s] =>
           cbn [exec]; destruct (revoke_user_issued_jtis_run n u t r s) as [? ->]
       end);
  op_cases.
Ltac exec_cases op := destruct op; exec_run.

(** ** Well-formed tables *)

Record store_wf (s : Store) : Prop := {
  wf_tenants : dict_wf (tenants s);
  wf_users : dict_wf (users s);
  wf_members : dict_wf (members s);
  wf_api_keys : dict_wf (api_keys s);
  wf_key_hash_index : dict_wf (key_hash_index s);
  wf_app_secrets : dict_wf (app_secrets s);
  wf_app_credentials : dict_wf (app_credentials s);
  wf_quotas : dict_wf (quotas s);
  wf_revoked_jtis : dict_wf (revoked_jtis s);
  wf_refresh_tokens : dict_wf (refresh_tokens s);
  wf_issued_jtis : dict_wf (issued_jtis s);
  wf_idps : dict_wf (idps s);
  wf_mfa : dict_wf (mfa s);
  wf_departments : dict_wf (departments s);
  wf_custom_roles : dict_wf (custom_roles s);
  wf_menu_matrix : dict_wf (menu_matrix s);
  wf_known_menus : dict_wf (known_menus s);
  wf_audit_tail_hash : dict_wf (audit_tail_hash s);
  wf_plan_templates : dict_wf (plan_templates s);
  wf_idempotency : dict_wf (idempotency s);
  wf_invites : dict_wf (invites s);
  wf_sso_tickets : dict_wf (sso_tickets s);
  wf_join_requests : dict_wf (join_requests s)
}.

Lemma dict_wf_dpops {K V A} `{EqDecision K} (f : A -> K) (l : list A) (d : list (K * V)) :
  dict_wf d -> dict_wf (foldl (fun ix x => dpop (f x) ix) d l).
Proof. revert d. induction l as [|x l IH]; intros d Hd; simpl; [done|]. eauto with dict. Qed.
#[export] Hint Resolve dict_wf_dpops revoke_loop_ledger_wf : dict.

Section invariants.
Context `{HashLib, Argon2Lib}.

Lemma init_wf : store_wf init_store.
Proof. constructor; try apply dict_wf_nil. apply (bool_decide_unpack _). vm_compute. done. Qed.

Lemma exec_wf s op : store_wf s -> store_wf (exec op s).
Proof.
  intros []. exec_cases op; try done; constructor; simpl; eauto with dict.
Qed.

Lemma reach_wf ok s : reach ok s -> store_wf s.
Proof. apply reach_invariant; [apply init_wf|]. eauto using exec_wf. Qed.
End invariants.
