(* ===== verification/RbacProps.v ===== *)
(** * Roles and membership: the invariant and its consequences

    In every reachable store each membership carries a role that resolves for
    its tenant, custom roles are well formed and at most 64 per tenant, and
    the menu tables respect their bounds. *)
From S2P Require Import Prelude PyText StoreState Prims AuditLog Tenants Rbac Users Keys.
From S2P Require Import Tokens Ledger StoreSteps Invariants.

Record rbac_inv (s : Store) : Prop := {
  ri_members : forall k m, dget k (members s) = Some m ->
    m_tenant_id m = k.1 /\ m_user_id m = k.2 /\ is_valid_role k.1 (m_role m) s = true;
  ri_roles : forall k r, dget k (custom_roles s) = Some r ->
    cr_tenant_id r = k.1 /\ cr_role_id r = k.2 /\ valid_id k.2 = true /\
    dmem k.2 ROLES_SEED = false /\ valid_write_classes (cr_write_classes r) = true;
  ri_limit : forall t, zlen (tenant_custom t s) <= MAX_CUSTOM_ROLES_PER_TENANT;
  ri_menus : forall k ms, dget k (menu_matrix s) = Some ms ->
    is_valid_role k.1 k.2 s = true /\ zlen ms <= MAX_MENUS_PER_ROLE /\
    Forall (fun m => valid_id m = true) ms /\ NoDup ms;
  ri_known : forall t ms, dget t (known_menus s) = Some ms ->
    zlen ms <= MAX_MENUS_PER_TENANT /\ Forall (fun m => valid_id m = true) ms /\ NoDup ms
}.

(** The invariant reads four tables. *)
Lemma rbac_inv_frame s s' :
  members s' = members s -> custom_roles s' = custom_roles s ->
  menu_matrix s' = menu_matrix s -> known_menus s' = known_menus s ->
  rbac_inv s -> rbac_inv s'.
Proof.
  intros E1 E2 E3 E4 []. unfold tenant_custom, is_valid_role in *.
  constructor; unfold tenant_custom, is_valid_role; rewrite ?E1, ?E2, ?E3, ?E4; auto.
Qed.

(** ** List facts *)

Lemma add_new_spec acc m :
  NoDup acc -> NoDup (add_new acc m) /\ (forall x, x ∈ add_new acc m <-> x ∈ acc \/ x = m) /\
  (length (add_new acc m) <= S (length acc))%nat.
Proof.
  intros Hn. unfold add_new. case_decide.
  - split_and!; [done| |lia]. naive_solver.
  - split_and!.
    + apply NoDup_app. split_and!; [done|set_solver|apply NoDup_singleton].
    + set_solver.
    + rewrite length_app. simpl. lia.
Qed.

Lemma dedup_from_spec acc l :
  NoDup acc ->
  NoDup (foldl add_new acc l) /\ (forall x, x ∈ foldl add_new acc l <-> x ∈ acc \/ x ∈ l) /\
  (length (foldl add_new acc l) <= length acc + length l)%nat.
Proof.
  revert acc. induction l as [|m l IH]; intros acc Hn; simpl; [set_solver by lia|].
  destruct (add_new_spec acc m Hn) as (Hn' & Hin & Hlen).
  destruct (IH _ Hn') as (H1 & H2 & H3). split_and!; [done| |lia].
  intros x. rewrite H2, Hin, elem_of_cons. naive_solver.
Qed.

Lemma dedup_spec l :
  NoDup (dedup l) /\ (forall x, x ∈ dedup l <-> x ∈ l) /\ (length (dedup l) <= length l)%nat.
Proof.
  destruct (dedup_from_spec [] l) as (H1 & H2 & H3); [apply NoDup_nil_2|].
  split_and!; [done| |done]. intros x. unfold dedup. rewrite H2. set_solver.
Qed.

Lemma extend_menus_spec acc l r :
  NoDup acc -> Forall (fun m => valid_id m = true) acc -> extend_menus acc l = Ok r ->
  r = foldl add_new acc l /\ NoDup r /\ Forall (fun m => valid_id m = true) r.
Proof.
  revert acc. induction l as [|m l IH]; intros acc Hn Hv; simpl; [by intros [= ->]|].
  destruct (valid_id m) eqn:Hm; [simpl|done]. intros Hr.
  destruct (add_new_spec acc m Hn) as (Hn' & Hin & _). apply (IH (add_new acc m)); [done| |done].
  apply Forall_forall. intros x [Hx| ->]%Hin; [|done]. by eapply Forall_forall in Hv.
Qed.

(** ** Custom roles *)

Lemma is_valid_role_mono t r s s' :
  (is_Some (dget (t, r) (custom_roles s)) -> is_Some (dget (t, r) (custom_roles s'))) ->
  is_valid_role t r s = true -> is_valid_role t r s' = true.
Proof.
  unfold is_valid_role, dmem. intros Hm. destruct (dget r ROLES_SEED); [done|].
  destruct (dget (t, r) (custom_roles s)); [|done]. intros _. by destruct Hm as [? ->].
Qed.

Lemma is_valid_role_dset t r k v s :
  is_valid_role t r s = true ->
  is_valid_role t r (set_custom_roles (dset k v (custom_roles s)) s) = true.
Proof.
  apply is_valid_role_mono. simpl. rewrite dget_dset. case_decide; [by eauto|done].
Qed.

Lemma tenant_custom_dset t k v s :
  zlen (tenant_custom t (set_custom_roles (dset k v (custom_roles s)) s)) =
  zlen (tenant_custom t s) + (if decide ((k ∉ dkeys (custom_roles s)) /\ k.1 = t) then 1 else 0).
Proof.
  unfold tenant_custom, zlen. simpl. rewrite dkeys_dset. destruct (decide (k ∈ _)).
  - rewrite decide_False by naive_solver. lia.
  - rewrite filter_app, length_app, filter_cons, filter_nil.
    repeat case_decide; simpl; naive_solver lia.
Qed.

Lemma rbac_put_role k v s :
  rbac_inv s -> cr_tenant_id v = k.1 -> cr_role_id v = k.2 -> valid_id k.2 = true ->
  dmem k.2 ROLES_SEED = false -> valid_write_classes (cr_write_classes v) = true ->
  (k ∈ dkeys (custom_roles s) \/ zlen (tenant_custom k.1 s) < MAX_CUSTOM_ROLES_PER_TENANT) ->
  rbac_inv (set_custom_roles (dset k v (custom_roles s)) s).
Proof.
  intros [Hm Hr Hl Hmm Hk] Ht Hrid Hid Hb Hw Hlim. constructor; simpl; [..|done].
  - intros k' m' E. destruct (Hm k' m' E) as (? & ? & ?). auto using is_valid_role_dset.
  - intros k' r'. rewrite dget_dset. case_decide; [|eauto]. intros [= <-]. subst. auto.
  - intros t. rewrite tenant_custom_dset. specialize (Hl t). case_decide as Hc; [|lia].
    destruct Hc as [Hnot <-]. destruct Hlim; [done|lia].
  - intros k' ms E. destruct (Hmm k' ms E) as (? & ? & ?). auto using is_valid_role_dset.
Qed.

Lemma zlen_filter_le {A} (P : A -> Prop) `{forall x, Decision (P x)} l : zlen (filter P l) <= zlen l.
Proof. unfold zlen. pose proof (length_filter P l). lia. Qed.

Lemma count_members_zero tid role s k m :
  count_members_by_role tid role s = 0 -> dget k (members s) = Some m -> k.1 = tid ->
  m_role m <> role.
Proof.
  unfold count_members_by_role, zlen. intros Hc Hk%dget_elem_of Ht Hr.
  assert ((k, m) ∈ filter (fun kv => kv.1.1 = tid /\ m_role kv.2 = role) (members s)) as Hin.
  { apply list_elem_of_filter. done. }
  destruct (filter _ (members s)); [by apply elem_of_nil in Hin|done].
Qed.

(** Dropping custom roles keeps the bound per tenant. *)
Lemma tenant_custom_filter (P : (string * string) * CustomRole -> Prop)
    `{forall x, Decision (P x)} t s :
  zlen (tenant_custom t (set_custom_roles (filter P (custom_roles s)) s)) <= zlen (tenant_custom t s).
Proof.
  unfold tenant_custom, zlen. simpl. unfold dkeys.
  induction (custom_roles s) as [|[k v] d IH]; csimpl; [done|].
  rewrite (filter_cons P). destruct (decide (P (k, v))); csimpl; rewrite !filter_cons;
    destruct (decide (k.1 = t)); simpl in *; lia.
Qed.

Lemma rbac_delete_role tid rid s :
  store_wf s -> rbac_inv s -> dmem rid ROLES_SEED = false ->
  count_members_by_role tid rid s = 0 ->
  rbac_inv (set_menu_matrix (dpop (tid, rid) (menu_matrix s))
              (set_custom_roles (dpop (tid, rid) (custom_roles s)) s)).
Proof.
  intros Hwf [Hm Hr Hl Hmm Hk] Hb Hc.
  assert (forall t r, (t, r) <> (tid, rid) -> is_valid_role t r s = true ->
    is_valid_role t r (set_menu_matrix (dpop (tid, rid) (menu_matrix s))
              (set_custom_roles (dpop (tid, rid) (custom_roles s)) s)) = true) as Hkeep.
  { intros t r Hne. apply is_valid_role_mono. simpl. rewrite dget_dpop. by rewrite decide_False. }
  constructor; simpl; [| | | |done].
  - intros k m E. destruct (Hm k m E) as (? & ? & ?). split_and!; [done..|]. apply Hkeep; [|done].
    intros [= Ht Hrr]. eapply count_members_zero; eauto.
  - intros k r. rewrite dget_dpop. case_decide; [done|eauto].
  - intros t. etrans; [|apply (Hl t)]. apply tenant_custom_filter.
  - intros k ms. rewrite dget_dpop. case_decide; [done|]. intros E.
    destruct (Hmm k ms E) as (? & ?). split; [|done]. apply Hkeep; [|done]. by destruct k.
Qed.

(** ** Membership *)

Lemma rbac_put_member k m s :
  rbac_inv s -> m_tenant_id m = k.1 -> m_user_id m = k.2 -> is_valid_role k.1 (m_role m) s = true ->
  rbac_inv (set_members (dset k m (members s)) s).
Proof.
  intros [Hm Hr Hl Hmm Hk] ???. constructor; simpl; [|done..].
  intros k' m'. rewrite dget_dset. case_decide; [|eauto]. intros [= <-]. by subst.
Qed.

Lemma rbac_drop_member k s : rbac_inv s -> rbac_inv (set_members (dpop k (members s)) s).
Proof.
  intros [Hm Hr Hl Hmm Hk]. constructor; simpl; [|done..].
  intros k' m'. rewrite dget_dpop. case_decide; [done|eauto].
Qed.

(** ** Menus *)

Lemma rbac_put_menus tid rid menus s :
  rbac_inv s -> is_valid_role tid rid s = true -> zlen menus <= MAX_MENUS_PER_ROLE ->
  Forall (fun m => valid_id m = true) menus ->
  rbac_inv (set_menu_matrix (dset (tid, rid) (dedup menus) (menu_matrix s)) s).
Proof.
  intros [Hm Hr Hl Hmm Hk] Hv Hlen Hall. destruct (dedup_spec menus) as (Hn & Hin & Hle).
  constructor; simpl; [done..| |done].
  intros k ms. rewrite dget_dset. case_decide; [|eauto]. intros [= <-]. subst. simpl.
  split_and!; [done|unfold zlen in *; lia| |done].
  apply Forall_forall. intros x Hx%Hin. by eapply Forall_forall in Hall.
Qed.

Lemma rbac_drop_menus k s : rbac_inv s -> rbac_inv (set_menu_matrix (dpop k (menu_matrix s)) s).
Proof.
  intros [Hm Hr Hl Hmm Hk]. constructor; simpl; [done..| |done].
  intros k' ms. rewrite dget_dpop. case_decide; [done|eauto].
Qed.

Lemma rbac_put_known tid menus current s :
  rbac_inv s -> extend_menus (default [] (dget tid (known_menus s))) menus = Ok current ->
  zlen current <= MAX_MENUS_PER_TENANT ->
  rbac_inv (set_known_menus (dset tid current (known_menus s)) s).
Proof.
  intros [Hm Hr Hl Hmm Hk] He Hlen. constructor; simpl; [done..|].
  intros t ms. rewrite dget_dset. case_decide; [|eauto]. intros [= <-].
  apply extend_menus_spec in He as (_ & ? & ?); [done|..];
    destruct (dget tid (known_menus s)) eqn:E; simpl; try apply Hk in E; naive_solver constructor.
Qed.

(** ** Tenant deletion *)

Lemma rbac_delete_tenant tid s :
  store_wf s -> rbac_inv s ->
  rbac_inv (set_known_menus (dpop tid (known_menus s))
    (set_menu_matrix (filter (fun kv => kv.1.1 <> tid) (menu_matrix s))
      (set_custom_roles (filter (fun kv => kv.1.1 <> tid) (custom_roles s))
        (set_members (filter (fun kv => kv.1.1 <> tid) (members s)) s)))).
Proof.
  intros [] [Hm Hr Hl Hmm Hk].
  set (s' := set_known_menus _ _).
  assert (forall t r, t <> tid -> is_valid_role t r s = true -> is_valid_role t r s' = true) as Hkeep.
  { intros t r Hne. apply is_valid_role_mono. simpl. rewrite dget_filter by done.
    destruct (dget (t, r) (custom_roles s)); [|done]. by rewrite decide_True. }
  constructor; simpl.
  - intros k m. rewrite dget_filter by done. destruct (dget k (members s)) as [m'|] eqn:E; [|done].
    case_decide; [|done]. intros [= <-]. destruct (Hm k m' E) as (? & ? & ?). auto.
  - intros k r. rewrite dget_filter by done. destruct (dget k (custom_roles s)) as [r'|] eqn:E; [|done].
    case_decide; [|done]. intros [= <-]. eauto.
  - intros t. etrans; [|apply (Hl t)]. exact (tenant_custom_filter (fun kv => kv.1.1 <> tid) t s).
  - intros k ms. rewrite dget_filter by done. destruct (dget k (menu_matrix s)) as [r'|] eqn:E; [|done].
    case_decide; [|done]. intros [= <-]. destruct (Hmm k r' E) as (? & ?). auto.
  - intros t ms. rewrite dget_dpop. case_decide; [done|eauto].
Qed.

Section rbac.
Context `{HashLib, Argon2Lib}.


(** An update of an existing row keeps its identity. *)
Lemma rbac_update_role k c v s :
  rbac_inv s -> dget k (custom_roles s) = Some c ->
  cr_tenant_id v = cr_tenant_id c -> cr_role_id v = cr_role_id c ->
  valid_write_classes (cr_write_classes v) = true ->
  rbac_inv (set_custom_roles (dset k v (custom_roles s)) s).
Proof.
  intros Hs Hk Ht Hr Hw. destruct (ri_roles s Hs k c Hk) as (? & ? & ? & ? & ?).
  apply rbac_put_role; try congruence. left. apply dget_keys. by rewrite Hk.
Qed.

Ltac rbac_role_update :=
  match goal with
  | Hs : rbac_inv ?s, Hk : dget ?k (custom_roles ?s) = Some ?c |- _ =>
      destruct (ri_roles s Hs k c Hk) as (? & ? & ? & ? & ?);
      repeat (eapply rbac_update_role;
              [|simpl; rewrite ?dget_dset_eq; first [done|exact Hk]|done|done|
               simpl; first [done|by apply negb_false_iff]]);
      done
  end.

Lemma exec_rbac s op : store_wf s -> rbac_inv s -> rbac_inv (exec op s).
Proof.
  intros Hwf Hs. exec_cases op; try done;
    try (match goal with Hs : rbac_inv ?s |- _ => apply (rbac_inv_frame s); done end);
    try rbac_role_update.
  - eapply rbac_inv_frame; [..|apply (rbac_delete_tenant tid s Hwf Hs)]; done.
  - apply rbac_put_role; simpl; try done; [by apply negb_false_iff..|right; lia].
  - apply rbac_delete_role; try done. by apply dec_stable.
  - by apply rbac_put_menus.
  - by apply rbac_drop_menus.
  - eapply rbac_put_known; [done..|lia].
  - apply rbac_put_member; try done. by apply negb_false_iff.
  - apply rbac_put_member; try done; simpl; [| |by apply negb_false_iff];
      match goal with E : dget _ (members s) = Some _ |- _ =>
        by destruct (ri_members s Hs _ _ E) as (? & ? & ?) end.
  - by apply rbac_drop_member.
  - by apply rbac_drop_member.
Qed.

Lemma init_rbac : rbac_inv init_store.
Proof. by constructor. Qed.

Lemma reach_rbac ok s : reach ok s -> rbac_inv s.
Proof.
  intros Hs. apply (reach_invariant ok (fun s => store_wf s /\ rbac_inv s)); [..|done].
  - split; [apply init_wf|apply init_rbac].
  - intros s' op [] _. split; [by apply exec_wf|by apply exec_rbac].
Qed.
End rbac.
