(* ===== verification/KeyProps.v ===== *)
(** * API keys and application secrets: invariants

    At most one current secret per application and never two rows of one
    version; the hash index of the api keys and the key table agree as long as
    the draws of new keys are fresh. *)
From S2P Require Import Prelude PyText StoreState Prims AuditLog Tenants Rbac Users Keys.
From S2P Require Import Tokens Ledger StoreSteps Invariants.

(** ** Application secrets *)

Record secrets_inv (s : Store) : Prop := {
  si_current : forall k1 r1 k2 r2,
    dget k1 (app_secrets s) = Some r1 -> dget k2 (app_secrets s) = Some r2 ->
    s_app_id r1 = s_app_id r2 -> s_status r1 = "current" -> s_status r2 = "current" -> k1 = k2;
  si_versions : forall k1 r1 k2 r2,
    dget k1 (app_secrets s) = Some r1 -> dget k2 (app_secrets s) = Some r2 ->
    s_app_id r1 = s_app_id r2 -> s_version r1 = s_version r2 -> k1 = k2
}.

Lemma foldl_max_ge v vs x : x ∈ v :: vs -> x <= foldl Z.max v vs.
Proof.
  revert v x. induction vs as [|w vs IH]; intros v x; simpl.
  - intros ->%list_elem_of_singleton. done.
  - intros Hx. apply elem_of_cons in Hx as [->|[->|Hx]%elem_of_cons].
    + etrans; [|apply (IH _ (v `max` w)); left]. lia.
    + etrans; [|apply (IH _ (v `max` w)); left]. lia.
    + apply IH. by right.
Qed.

Lemma next_version_gt vs v : v ∈ vs -> v < next_version vs.
Proof.
  destruct vs as [|w vs]; [by intros ?%elem_of_nil|]. intros Hv. simpl.
  pose proof (foldl_max_ge w vs v Hv). lia.
Qed.

Lemma app_version_lt app s k r :
  dget k (app_secrets s) = Some r -> s_app_id r = app -> s_version r < next_version (app_versions app s).
Proof.
  intros Hk%dget_elem_of Ha. apply next_version_gt. unfold app_versions.
  apply list_elem_of_fmap. exists r. split; [done|]. apply list_elem_of_filter. split; [done|].
  apply list_elem_of_fmap. by exists (k, r).
Qed.

(** The rows after an issue: the current one is demoted, the new one stored. *)
Definition demote (now : Z) (app : string) (grace : Z) (d : list (string * AppSecret))
    : list (string * AppSecret) :=
  match dfind (is_current app) d with
  | Some (sid, r) => dset sid (set_s_grace_until (Some (now + sec grace)) (set_s_status "grace" r)) d
  | None => d
  end.

Lemma demote_lookup now app grace s k r :
  store_wf s -> secrets_inv s -> dget k (demote now app grace (app_secrets s)) = Some r ->
  exists r0, dget k (app_secrets s) = Some r0 /\ s_app_id r = s_app_id r0 /\
    s_version r = s_version r0 /\ (s_status r = "current" -> s_status r0 = "current") /\
    (s_app_id r = app -> s_status r <> "current").
Proof.
  intros Hwf [Hc _] Hk. unfold demote in Hk.
  destruct (dfind (is_current app) (app_secrets s)) as [[sid r1]|] eqn:Hf.
  - apply dfind_Some in Hf as [Hcur Hin]. apply bool_decide_eq_true in Hcur as [Ha Hst].
    apply elem_of_dget in Hin; [|apply Hwf]. rewrite dget_dset in Hk. case_decide.
    + simplify_eq. exists r1. by split_and!.
    + exists r. split_and!; try done. intros Hra Hrc.
      assert (k = sid) by (eapply Hc; eauto; congruence). done.
  - exists r. split_and!; try done. intros Hra Hrc. rewrite dfind_None in Hf.
    apply dget_elem_of in Hk. specialize (Hf _ _ Hk). apply bool_decide_eq_false in Hf. naive_solver.
Qed.

Lemma secrets_inv_frame s s' : app_secrets s' = app_secrets s -> secrets_inv s -> secrets_inv s'.
Proof. intros E []. constructor; rewrite E; done. Qed.

Lemma secrets_issue now app grace sid rec s :
  store_wf s -> secrets_inv s -> s_app_id rec = app ->
  s_version rec = next_version (app_versions app s) ->
  secrets_inv (set_app_secrets (dset sid rec (demote now app grace (app_secrets s))) s).
Proof.
  intros Hwf Hs Ha Hv.
  assert (forall k r, dget k (demote now app grace (app_secrets s)) = Some r ->
    s_app_id r = app -> s_status r <> "current" /\ s_version r < s_version rec) as Hold.
  { intros k r Hk Hr. destruct (demote_lookup _ _ _ _ _ _ Hwf Hs Hk) as (r0 & H0 & Ha0 & Hv0 & _ & Hn).
    split; [auto|]. rewrite Hv, Hv0. eapply app_version_lt; [done|]. congruence. }
  constructor; simpl; intros k1 r1 k2 r2 [[-> ->]|[N1 H1]]%dget_dset_inv
    [[-> ->]|[N2 H2]]%dget_dset_inv Happ; try done.
  - intros _ Hcur. destruct (Hold k2 r2 H2); [congruence|done].
  - intros Hcur _. destruct (Hold k1 r1 H1); [congruence|done].
  - destruct (demote_lookup _ _ _ _ _ _ Hwf Hs H1) as (p1 & E1 & A1 & _ & C1 & _).
    destruct (demote_lookup _ _ _ _ _ _ Hwf Hs H2) as (p2 & E2 & A2 & _ & C2 & _).
    intros. eapply (si_current s Hs); eauto. congruence.
  - intros E. destruct (Hold k2 r2 H2); [congruence|lia].
  - intros E. destruct (Hold k1 r1 H1); [congruence|lia].
  - destruct (demote_lookup _ _ _ _ _ _ Hwf Hs H1) as (p1 & E1 & A1 & V1 & _ & _).
    destruct (demote_lookup _ _ _ _ _ _ Hwf Hs H2) as (p2 & E2 & A2 & V2 & _ & _).
    intros. eapply (si_versions s Hs); eauto; congruence.
Qed.

Lemma secrets_revoke sid r s :
  secrets_inv s -> dget sid (app_secrets s) = Some r ->
  secrets_inv (set_app_secrets (dset sid (set_s_grace_until None (set_s_status "revoked" r))
                                  (app_secrets s)) s).
Proof.
  intros [Hc Hv] Hr. constructor; simpl; intros k1 r1 k2 r2 [[-> ->]|[N1 H1]]%dget_dset_inv
    [[-> ->]|[N2 H2]]%dget_dset_inv; simpl; eauto; done.
Qed.

Section secrets.
Context `{HashLib, Argon2Lib}.

Definition new_secret (now : Z) (rnd_raw rnd_id app : string) (s : Store) : AppSecret :=
  mkAppSecret ("sec_" +:+ rnd_id) app (next_version (app_versions app s))
    (sha256 ("fms_" +:+ rnd_raw)) (stake 8 ("fms_" +:+ rnd_raw) +:+ "****") "current" None now.

Lemma issue_app_secret_run now rnd_raw rnd_id app grace s :
  exists prev, issue_app_secret now rnd_raw rnd_id app grace s =
    (Ok ("fms_" +:+ rnd_raw, new_secret now rnd_raw rnd_id app s, prev),
     set_app_secrets (dset ("sec_" +:+ rnd_id) (new_secret now rnd_raw rnd_id app s)
                        (demote now app grace (app_secrets s))) s).
Proof.
  unfold issue_app_secret, demote. rewrite !bind_gets.
  destruct (dfind (is_current app) (app_secrets s)) as [[sid r]|]; eexists; by destruct s.
Qed.

Lemma exec_secrets s op : store_wf s -> secrets_inv s -> secrets_inv (exec op s).
Proof.
  intros Hwf Hs. destruct op;
    try match goal with
        | |- context [exec (OpIssueAppSecret ?n ?a ?b ?c ?d) s] =>
            cbn [exec]; destruct (issue_app_secret_run n a b c d s) as [? ->]; by apply secrets_issue
        | |- context [exec ?op s] =>
            assert (app_secrets (exec op s) = app_secrets s) by (exec_run; done);
            by eapply secrets_inv_frame
        end.
  cbn [exec]. unfold revoke_app_secret_version. rewrite bind_gets.
  destruct (dfind _ _) as [[sid r]|] eqn:Hf; [|done]. apply dfind_Some in Hf as [_ Hin].
  apply secrets_revoke; [done|]. apply elem_of_dget; [apply Hwf|done].
Qed.

Lemma reach_secrets ok s : reach ok s -> secrets_inv s.
Proof.
  intros Hs. apply (reach_invariant ok (fun s => store_wf s /\ secrets_inv s)); [..|done].
  - split; [apply init_wf|by constructor].
  - intros s' op [] _. split; [by apply exec_wf|by apply exec_secrets].
Qed.
End secrets.

(** ** API keys *)

(** Fresh draws and a clock past the epoch: a new key's id and hash are not in
    the table yet, and a revocation time is not the falsy 0. *)
Definition key_draws_ok `{HashLib} (op : store_op) (s : Store) : Prop :=
  match op with
  | OpCreateApiKey _ rnd_raw rnd_id _ _ _ =>
      dget ("key_" +:+ rnd_id) (api_keys s) = None /\
      forall k r, dget k (api_keys s) = Some r -> k_key_hash r <> sha256 ("fmu_" +:+ rnd_raw)
  | OpRevokeApiKey now _ | OpDeleteTenant now _ => now <> 0
  | _ => True
  end.

(** The index holds exactly the live keys, each under its own hash. *)
Record keys_inv (s : Store) : Prop := {
  ki_id : forall kid k, dget kid (api_keys s) = Some k -> k_key_id k = kid /\ kid <> "";
  ki_hash : forall kid k kid' k', dget kid (api_keys s) = Some k ->
    dget kid' (api_keys s) = Some k' -> k_key_hash k = k_key_hash k' -> kid = kid';
  ki_index : forall h kid, dget h (key_hash_index s) = Some kid <->
    exists k, dget kid (api_keys s) = Some k /\ k_key_hash k = h /\ time_true (k_revoked_at k) = false
}.

Lemma keys_inv_frame s s' :
  api_keys s' = api_keys s -> key_hash_index s' = key_hash_index s -> keys_inv s -> keys_inv s'.
Proof. intros E1 E2 []. constructor; rewrite ?E1, ?E2; done. Qed.

Lemma keys_create kid k s :
  keys_inv s -> dget kid (api_keys s) = None -> k_key_id k = kid -> kid <> "" ->
  k_revoked_at k = None ->
  (forall k' r, dget k' (api_keys s) = Some r -> k_key_hash r <> k_key_hash k) ->
  keys_inv (set_key_hash_index (dset (k_key_hash k) kid (key_hash_index s))
              (set_api_keys (dset kid k (api_keys s)) s)).
Proof.
  intros [Hi Hh Hx] Hn Hid Hne Hr Hf. constructor; simpl.
  - intros kid' k' [[-> ->]|[_ ?]]%dget_dset_inv; eauto.
  - intros k1 r1 k2 r2 [[-> ->]|[N1 H1]]%dget_dset_inv [[-> ->]|[N2 H2]]%dget_dset_inv; eauto.
    + intros E. by destruct (Hf k2 r2).
    + intros E. by destruct (Hf k1 r1).
  - intros h kid'. rewrite dget_dset. case_decide as Hc.
    + subst h. split.
      * intros [= <-]. exists k. rewrite dget_dset_eq, Hr. done.
      * intros (k' & [[-> ->]|[_ Hk']]%dget_dset_inv & E & _); [done|]. by destruct (Hf kid' k').
    + rewrite Hx. split; intros (k' & Hk' & E & ?).
      * exists k'. rewrite dget_dset_ne; [done|]. intros ->. congruence.
      * apply dget_dset_inv in Hk' as [[-> ->]|[_ Hk']]; [congruence|eauto].
Qed.

Lemma time_true_some t : t <> 0 -> time_true (Some t) = true.
Proof. intros. by apply bool_decide_eq_true. Qed.

Lemma keys_revoke now kid k s :
  keys_inv s -> dget kid (api_keys s) = Some k -> now <> 0 ->
  keys_inv (set_key_hash_index (dpop (k_key_hash k) (key_hash_index s))
              (set_api_keys (dset kid (set_k_revoked_at (Some now) k) (api_keys s)) s)).
Proof.
  intros [Hi Hh Hx] Hk Hnow. constructor; simpl.
  - intros kid' k' [[-> ->]|[_ ?]]%dget_dset_inv; simpl; eauto.
  - intros k1 r1 k2 r2 [[-> ->]|[N1 H1]]%dget_dset_inv [[-> ->]|[N2 H2]]%dget_dset_inv; simpl; eauto.
  - intros h kid'. rewrite dget_dpop. case_decide as Hc; [split; [done|]|rewrite Hx; split].
    + intros (k' & [[-> ->]|[Hne Hk']]%dget_dset_inv & E & Hrev); simpl in *.
      * by rewrite bool_decide_eq_true_2 in Hrev.
      * destruct Hne. eapply Hh; eauto. congruence.
    + intros (k' & Hk' & E & Hrev). exists k'. rewrite dget_dset_ne; [done|]. intros ->. congruence.
    + intros (k' & [[-> ->]|[Hne Hk']]%dget_dset_inv & E & Hrev); simpl in *; [congruence|eauto].
Qed.

Lemma dget_dpops (l : list ApiKey) h (ix : list (string * string)) :
  dget h (foldl (fun ix k => dpop (k_key_hash k) ix) ix l) =
  if decide (h ∈ k_key_hash <$> l) then None else dget h ix.
Proof.
  revert ix. induction l as [|k l IH]; intros ix; csimpl; [done|]. rewrite IH, dget_dpop.
  repeat case_decide; set_solver.
Qed.

(** What the deletion of a tenant does to the keys. *)
Lemma keys_delete_tenant now tid s :
  store_wf s -> keys_inv s -> now <> 0 ->
  keys_inv (set_api_keys (dmap (fun _ k =>
      if decide (live_key_of tid k) then set_k_revoked_at (Some now) k else k) (api_keys s))
    (set_key_hash_index (foldl (fun ix k => dpop (k_key_hash k) ix) (key_hash_index s)
      (filter (live_key_of tid) (dvalues (api_keys s)))) s)).
Proof.
  intros Hwf [Hi Hh Hx] Hnow.
  set (upd := fun k => if decide (live_key_of tid k) then set_k_revoked_at (Some now) k else k).
  assert (forall k, k_key_id (upd k) = k_key_id k /\ k_key_hash (upd k) = k_key_hash k) as Hupd.
  { intros k. unfold upd. by case_decide. }
  assert (forall kid k, dget kid (dmap (fun _ => upd) (api_keys s)) = Some k ->
    exists k0, dget kid (api_keys s) = Some k0 /\ k = upd k0) as Hget.
  { intros kid k. rewrite dget_dmap. destruct (dget kid (api_keys s)); naive_solver. }
  constructor; simpl.
  - intros kid k (k0 & Hk0 & ->)%Hget. destruct (Hupd k0) as [-> _]. eauto.
  - intros k1 r1 k2 r2 (p1 & E1 & ->)%Hget (p2 & E2 & ->)%Hget.
    destruct (Hupd p1) as [_ ->], (Hupd p2) as [_ ->]. eauto.
  - intros h kid. rewrite dget_dpops. case_decide as Hd.
    + split; [done|]. intros (k & (k0 & Hk0 & ->)%Hget & Hk & Hrev).
      apply list_elem_of_fmap in Hd as (k1 & -> & [Hl Hv]%list_elem_of_filter).
      apply elem_of_dvalues in Hv as [kid1 Hk1]; [|apply Hwf].
      destruct (Hupd k0) as [_ E]. rewrite E in Hk.
      assert (kid = kid1) as -> by eauto. assert (k0 = k1) as -> by congruence.
      unfold upd in Hrev. rewrite decide_True in Hrev by done. simpl in Hrev.
      by rewrite bool_decide_eq_true_2 in Hrev.
    + rewrite Hx. split.
      * intros (k & Hk & E & Hrev). exists k. rewrite dget_dmap, Hk. simpl. split; [|done].
        f_equal. unfold upd. rewrite decide_False; [done|]. intros Hl. apply Hd. subst h.
        apply list_elem_of_fmap. exists k. split; [done|]. apply list_elem_of_filter.
        split; [done|]. apply elem_of_dvalues; [apply Hwf|eauto].
      * intros (k & (k0 & Hk0 & ->)%Hget & E & Hrev). exists k0. destruct (Hupd k0) as [_ E0].
        rewrite E0 in E. split_and!; [done..|]. unfold upd in Hrev. case_decide as Hl; [|done].
        simpl in Hrev. by rewrite bool_decide_eq_true_2 in Hrev.
Qed.

Section api_keys.
Context `{HashLib, Argon2Lib}.

Lemma exec_keys s op : store_wf s -> keys_inv s -> key_draws_ok op s -> keys_inv (exec op s).
Proof.
  intros Hwf Hs Hok. destruct op;
    try match goal with
        | |- context [exec ?op s] =>
            assert (api_keys (exec op s) = api_keys s) by (exec_run; done);
            assert (key_hash_index (exec op s) = key_hash_index s) by (exec_run; done);
            by eapply keys_inv_frame
        end; cbn [exec].
  - unfold delete_tenant. rewrite bind_gets. destruct (dget tid (tenants s)); [|done].
    eapply keys_inv_frame; [..|by apply (keys_delete_tenant now tid s)]; done.
  - destruct Hok as [Hn Hf].
    by refine (keys_create _ (mkApiKey _ _ _ _ _ _ _ _) s Hs Hn eq_refl _ eq_refl Hf).
  - unfold revoke_api_key. rewrite bind_gets. destruct (dget kid (api_keys s)) eqn:E; [|done].
    exact (keys_revoke now kid _ s Hs E Hok).
Qed.

Lemma reach_keys s : reach key_draws_ok s -> keys_inv s.
Proof.
  intros Hs. apply (reach_invariant key_draws_ok (fun s => store_wf s /\ keys_inv s)); [..|done].
  - split; [apply init_wf|]. constructor; simpl; naive_solver.
  - intros s' op [] ?. split; [by apply exec_wf|by apply exec_keys].
Qed.

(** Lookup by hash finds a key exactly when a live key has that hash. *)
Lemma api_key_lookup s h k :
  keys_inv s -> get_api_key_by_hash h s = Some k <->
  dget (k_key_id k) (api_keys s) = Some k /\ k_key_hash k = h /\ time_true (k_revoked_at k) = false.
Proof.
  intros [Hi Hh Hx]. unfold get_api_key_by_hash. split.
  - destruct (dget h (key_hash_index s)) as [kid|] eqn:E; [|done].
    apply Hx in E as (k' & Hk' & Hhash & Hrev). destruct (Hi _ _ Hk') as [Hid Hne].
    unfold str_true. rewrite bool_decide_eq_true_2 by done. rewrite Hk', Hrev. intros [= <-].
    by rewrite Hid.
  - intros (Hk & Hhash & Hrev). destruct (Hi _ _ Hk) as [_ Hne].
    assert (dget h (key_hash_index s) = Some (k_key_id k)) as -> by (apply Hx; eauto).
    unfold str_true. rewrite bool_decide_eq_true_2 by done. by rewrite Hk, Hrev.
Qed.
End api_keys.
