(* ===== verification/TableProps.v ===== *)
(** * Tenants, users, join requests, tokens and logs: invariants

    Identity of rows and keys, one quota per tenant, the join-request and
    refresh-token state machines, and the numbering and caps of the logs. *)
From S2P Require Import Prelude PyText StoreState Prims AuditLog Tenants Rbac Users Keys Tokens.
From S2P Require Import Ledger StoreSteps Invariants.

(** Frame step of an invariant: the operations that do not touch the tables
    it reads. *)
Ltac frame_ops lem := try (apply lem; [by (exec_run; done)..|done]).

(** ** Rows carry their keys; every tenant has its quota *)

Record ids_inv (s : Store) : Prop := {
  id_tenant : forall k t, dget k (tenants s) = Some t ->
    t_tenant_id t = k /\ t_join_policy t ∈ JOIN_POLICIES;
  id_user : forall k u, dget k (users s) = Some u -> u_user_id u = k;
  id_refresh : forall k r, dget k (refresh_tokens s) = Some r -> rt_jti r = k;
  id_quota : forall k q, dget k (quotas s) = Some q -> tq_tenant_id q = k;
  id_quotas : dkeys (quotas s) = dkeys (tenants s)
}.

Lemma ids_inv_frame s s' :
  tenants s' = tenants s -> users s' = users s -> refresh_tokens s' = refresh_tokens s ->
  quotas s' = quotas s -> ids_inv s -> ids_inv s'.
Proof. intros E1 E2 E3 E4 []. constructor; rewrite ?E1, ?E2, ?E3, ?E4; done. Qed.

Lemma dkeys_dset_present {K V} `{EqDecision K} k (v v' : V) (d : list (K * V)) :
  dget k d = Some v' -> dkeys (dset k v d) = dkeys d.
Proof. intros E. rewrite dkeys_dset, decide_True; [done|]. apply dget_keys. by rewrite E. Qed.

Lemma ids_put_tenant k t t' s :
  ids_inv s -> dget k (tenants s) = Some t -> t_tenant_id t' = t_tenant_id t ->
  t_join_policy t' ∈ JOIN_POLICIES -> ids_inv (set_tenants (dset k t' (tenants s)) s).
Proof.
  intros [Ht Hu Hr Hq Hqs] Hk Hid Hp. destruct (Ht _ _ Hk) as [Hk1 _].
  constructor; simpl; [|done..|].
  - intros k' t'' [[-> ->]|[_ ?]]%dget_dset_inv; [split; congruence|eauto].
  - by rewrite (dkeys_dset_present k t' t).
Qed.

Lemma ids_new_tenant k t q s :
  ids_inv s -> dget k (tenants s) = None -> t_tenant_id t = k -> t_join_policy t ∈ JOIN_POLICIES ->
  tq_tenant_id q = k ->
  ids_inv (set_quotas (dset k q (quotas s)) (set_tenants (dset k t (tenants s)) s)).
Proof.
  intros [Ht Hu Hr Hq Hqs] Hk Hid Hp Hqid. constructor; simpl; [|done..| |].
  - intros k' t' [[-> ->]|[_ ?]]%dget_dset_inv; eauto.
  - intros k' q' [[-> ->]|[_ ?]]%dget_dset_inv; eauto.
  - by rewrite !dkeys_dset, Hqs.
Qed.

Lemma ids_put_user k u s :
  ids_inv s -> u_user_id u = k -> ids_inv (set_users (dset k u (users s)) s).
Proof.
  intros [Ht Hu Hr Hq Hqs] Hid. constructor; simpl; [done| |done..].
  intros k' u' [[-> ->]|[_ ?]]%dget_dset_inv; eauto.
Qed.

Lemma ids_put_refresh k r s :
  ids_inv s -> rt_jti r = k -> ids_inv (set_refresh_tokens (dset k r (refresh_tokens s)) s).
Proof.
  intros [Ht Hu Hr Hq Hqs] Hid. constructor; simpl; [done|done| |done..].
  intros k' u' [[-> ->]|[_ ?]]%dget_dset_inv; eauto.
Qed.

Lemma ids_map_refresh (f : RefreshToken -> RefreshToken) s :
  ids_inv s -> (forall r, rt_jti (f r) = rt_jti r) ->
  ids_inv (set_refresh_tokens (dmap (fun _ => f) (refresh_tokens s)) s).
Proof.
  intros [Ht Hu Hr Hq Hqs] Hf. constructor; simpl; [done|done| |done..].
  intros k r. rewrite dget_dmap. destruct (dget k (refresh_tokens s)) eqn:E; [|done].
  intros [= <-]. rewrite Hf. eauto.
Qed.

Lemma ids_put_quota k q q' s :
  ids_inv s -> dget k (quotas s) = Some q -> tq_tenant_id q' = tq_tenant_id q ->
  ids_inv (set_quotas (dset k q' (quotas s)) s).
Proof.
  intros [Ht Hu Hr Hq Hqs] Hk Hid. constructor; simpl; [done..| |].
  - intros k' q'' [[-> ->]|[_ ?]]%dget_dset_inv; [rewrite Hid; eauto|eauto].
  - by rewrite (dkeys_dset_present k q' q).
Qed.

Lemma stamp_disabled_ids now t :
  t_tenant_id (stamp_disabled now t) = t_tenant_id t /\
  t_join_policy (stamp_disabled now t) = t_join_policy t /\
  t_status (stamp_disabled now t) = t_status t.
Proof. unfold stamp_disabled. by repeat case_decide. Qed.

Lemma dfind_dget {K V} `{EqDecision K} (P : V -> bool) (d : list (K * V)) k v :
  dict_wf d -> dfind P d = Some (k, v) -> dget k d = Some v /\ P v = true.
Proof. intros Hd [HP Hin]%dfind_Some. split; [by apply elem_of_dget|done]. Qed.

Lemma ids_update_tenant now k t f s :
  ids_inv s -> dget k (tenants s) = Some t ->
  default (t_join_policy t) (tf_join_policy f) ∈ JOIN_POLICIES ->
  ids_inv (set_tenants (dset k (stamp_disabled now (apply_tenant_fields f t)) (tenants s)) s).
Proof.
  intros Hs Hk Hp. destruct (stamp_disabled_ids now (apply_tenant_fields f t)) as (E1 & E2 & _).
  eapply ids_put_tenant; [done..|by rewrite E1|by rewrite E2].
Qed.

Lemma not_notin_elem (x : string) (l : list string) : ~ (x ∉ l) -> x ∈ l.
Proof. apply dec_stable. Qed.

Section tables.
Context `{HashLib, Argon2Lib}.

(** Facts on the row an operation just looked up. *)
Ltac row_facts :=
  repeat match goal with
  | Hwf : store_wf ?s, E : dfind _ (users ?s) = Some (_, _) |- _ =>
      apply (dfind_dget _ _ _ _ (wf_users s Hwf)) in E as [E _]
  end;
  repeat match goal with
  | Hs : ids_inv ?s, E : dget ?k (users ?s) = Some ?u |- _ =>
      lazymatch goal with _ : u_user_id u = k |- _ => fail
      | _ => pose proof (id_user s Hs k u E) end
  | Hs : ids_inv ?s, E : dget ?k (refresh_tokens ?s) = Some ?u |- _ =>
      lazymatch goal with _ : rt_jti u = k |- _ => fail
      | _ => pose proof (id_refresh s Hs k u E) end
  end.

Lemma exec_ids s op : store_wf s -> ids_inv s -> ids_inv (exec op s).
Proof.
  intros Hwf Hs. destruct op; frame_ops (ids_inv_frame s); exec_run; try done; row_facts;
    try (by apply ids_put_user); try (by apply ids_put_refresh);
    try (apply ids_map_refresh; [done|intros r; by case_decide]).
  - apply ids_new_tenant; try done; [|by apply not_notin_elem].
    unfold dmem in *. by destruct (dget tid (tenants s)).
  - eapply ids_put_tenant; [done..|]. by apply not_notin_elem.
  - apply ids_update_tenant; [done..|]. rename select (tf_join_policy f = _) into E. rewrite E.
    by apply not_notin_elem.
  - apply ids_update_tenant; [done..|]. rename select (tf_join_policy f = _) into E. rewrite E.
    by eapply id_tenant.
  - match goal with |- ids_inv (set_refresh_tokens (dmap (fun _ => ?f) _) _) =>
      apply (ids_inv_frame (set_refresh_tokens (dmap (fun _ => f) (refresh_tokens s))
        (set_tenants (dset tid (set_t_deleted_at (Some now) (set_t_status "deleted" t)) (tenants s)) s)));
        [done..|] end.
    apply (ids_map_refresh _ (set_tenants _ s)); [|intros r; by case_decide].
    eapply ids_put_tenant; [done..|]. simpl. by eapply id_tenant.
  - by eapply ids_put_quota.
Qed.

Lemma reach_ids ok s : reach ok s -> ids_inv s.
Proof.
  intros Hs. apply (reach_invariant ok (fun s => store_wf s /\ ids_inv s)); [..|done].
  - split; [apply init_wf|by constructor].
  - intros s' op [] _. split; [by apply exec_wf|by apply exec_ids].
Qed.

(** ** Join requests *)

Definition DECISIONS : list string := ["approved"; "rejected"; "cancelled"].
Record join_inv (s : Store) : Prop := {
  ji_pending : forall k1 r1 k2 r2, dget k1 (join_requests s) = Some r1 ->
    dget k2 (join_requests s) = Some r2 -> j_tenant_id r1 = j_tenant_id r2 ->
    j_user_id r1 = j_user_id r2 -> j_status r1 = "pending" -> j_status r2 = "pending" -> k1 = k2;
  ji_status : forall k r, dget k (join_requests s) = Some r -> j_request_id r = k /\
    ((j_status r = "pending" /\ j_decided_by r = None /\ j_decided_at r = None) \/
     (j_status r ∈ DECISIONS /\ is_Some (j_decided_by r) /\ is_Some (j_decided_at r)));
  ji_invite : forall k i, dget k (invites s) = Some i -> i_invite_id i = k
}.

Lemma join_inv_frame s s' :
  join_requests s' = join_requests s -> invites s' = invites s -> join_inv s -> join_inv s'.
Proof. intros E1 E2 []. constructor; rewrite ?E1, ?E2; done. Qed.

Lemma join_put_invite k i s :
  join_inv s -> i_invite_id i = k -> join_inv (set_invites (dset k i (invites s)) s).
Proof.
  intros [Hp Hst Hi] Hk. constructor; simpl; [done..|].
  intros k' i' [[-> ->]|[_ G]]%dget_dset_inv; eauto.
Qed.

Lemma exec_join s op : store_wf s -> join_inv s -> join_inv (exec op s).
Proof.
  intros Hwf Hs. destruct op; frame_ops (join_inv_frame s); exec_run; try done.
  - by apply join_put_invite.
  - apply join_put_invite; [done|]. simpl. by eapply ji_invite.
  - rename select (dfind _ _ = None) into Hf. rewrite dfind_None in Hf.
    constructor; simpl.
    + intros k1 r1 k2 r2 [[-> ->]|[N1 G1]]%dget_dset_inv [[-> ->]|[N2 G2]]%dget_dset_inv; simpl.
      * done.
      * intros Et Eu _ Hp. apply dget_elem_of in G2. apply Hf in G2.
        apply bool_decide_eq_false in G2. naive_solver.
      * intros Et Eu Hp _. apply dget_elem_of in G1. apply Hf in G1.
        apply bool_decide_eq_false in G1. naive_solver.
      * by apply (ji_pending s Hs).
    + intros k r [[-> ->]|[N1 G1]]%dget_dset_inv; [simpl; auto|by apply (ji_status s Hs)].
    + by apply (ji_invite s Hs).
  - assert (status ∈ DECISIONS) as Hd by (by apply not_notin_elem).
    assert (status <> "pending") as Hne by (intros ->; unfold DECISIONS in Hd; set_solver).
    constructor; simpl.
    + by intros k1 r1 k2 r2 [[-> ->]|[N1 G1]]%dget_dset_inv [[-> ->]|[N2 G2]]%dget_dset_inv; simpl;
        [..|apply (ji_pending s Hs)].
    + intros k' r' [[-> ->]|[N1 G1]]%dget_dset_inv; [simpl|by apply (ji_status s Hs)].
      split; [by eapply (ji_status s Hs)|right]. split_and!; eauto.
    + by apply (ji_invite s Hs).
Qed.

Lemma reach_join ok s : reach ok s -> join_inv s.
Proof.
  intros Hs. apply (reach_invariant ok (fun s => store_wf s /\ join_inv s)); [..|done].
  - split; [apply init_wf|by constructor].
  - intros s' op [] _. split; [by apply exec_wf|by apply exec_join].
Qed.
End tables.

(** * What later operations cannot undo

    The status of a refresh token only moves [active -> rotated -> revoked]; a
    decided join request, a used invite and a consumed ticket stay so; the
    event log is numbered consecutively and bounded. *)

(** [op] does not insert a refresh token under [jti] (a new jti is drawn at
    random for every insertion). *)
Definition no_insert (jti : string) (op : store_op) : Prop :=
  match op with OpInsertRefreshToken _ j _ _ _ _ _ _ => j <> jti | _ => True end.
Definition no_ticket (h : string) (op : store_op) : Prop :=
  match op with OpCreateSsoTicket _ h' _ _ _ => h' <> h | _ => True end.
Definition no_request (rid : string) (op : store_op) : Prop :=
  match op with OpCreateJoinRequest _ r _ _ => r <> rid | _ => True end.
Definition no_invite (iid : string) (op : store_op) : Prop :=
  match op with OpCreateInvite _ i _ _ _ _ _ _ => i <> iid | _ => True end.

(** One step of the refresh-token state machine. *)
Inductive refresh_move : RefreshToken -> RefreshToken -> Prop :=
  | move_stay r : refresh_move r r
  | move_rotate r new : rt_status r = "active" ->
      refresh_move r (set_rt_replaced_by (Some new) (set_rt_status "rotated" r))
  | move_revoke r : rt_status r <> "revoked" -> refresh_move r (set_rt_status "revoked" r).

Section progress.
Context `{HashLib, Argon2Lib}.

Lemma refresh_step s op jti r :
  no_insert jti op -> dget jti (refresh_tokens s) = Some r ->
  exists r', dget jti (refresh_tokens (exec op s)) = Some r' /\ refresh_move r r'.
Proof.
  intros Hni Hr.
  destruct op; try (exists r; split; [exec_run; done|constructor]); exec_run; simpl;
    try (exists r; split; [done|constructor]).
  all: rewrite ?dget_dmap, ?dget_dset, ?Hr; simpl;
    try (case_decide; eexists; (split; [done|]); constructor; naive_solver).
  all: match goal with |- context [decide (@eq string ?i ?j)] => destruct (decide (i = j)) as [->|] end;
    simplify_eq; try done; eexists; (split; [done|]);
    first [by constructor | constructor; by apply dec_stable].
Qed.

Lemma refresh_moves ops s jti r :
  Forall (no_insert jti) ops -> dget jti (refresh_tokens s) = Some r ->
  exists r', dget jti (refresh_tokens (exec_all ops s)) = Some r' /\ rtc refresh_move r r'.
Proof.
  unfold exec_all. revert s r. induction ops as [|op ops IH]; intros s r Hops Hr; simpl; [by exists r|].
  apply Forall_cons in Hops as [Hop Hops].
  destruct (refresh_step s op jti r Hop Hr) as (r1 & Hr1 & Hm).
  destruct (IH _ _ Hops Hr1) as (r' & Hr' & Hm'). exists r'. split; [done|]. by eapply rtc_l.
Qed.

Lemma refresh_move_ids r r' :
  rtc refresh_move r r' ->
  rt_jti r' = rt_jti r /\ rt_family_id r' = rt_family_id r /\ rt_user_id r' = rt_user_id r /\
  rt_tenant_id r' = rt_tenant_id r.
Proof. induction 1 as [|? ? ? [] _ IH]; simpl in *; naive_solver. Qed.

Lemma refresh_move_forward r r' :
  rtc refresh_move r r' ->
  (rt_status r = "revoked" -> rt_status r' = "revoked") /\
  (rt_status r = "rotated" -> rt_status r' = "rotated" \/ rt_status r' = "revoked").
Proof.
  induction 1 as [|? ? ? Hm _ [IH1 IH2]]; [naive_solver|].
  inversion Hm; subst; simpl in *; split; intros E; try rewrite E in *; try done; auto.
Qed.

(** ** Tickets, invites, decisions *)

Lemma ticket_step s op h t :
  no_ticket h op -> dget h (sso_tickets s) = Some t -> tk_used_at t <> None ->
  dget h (sso_tickets (exec op s)) = Some t.
Proof.
  intros Hno Ht Hu. destruct op; try (by exec_run); exec_run; try done;
    rewrite dget_dset; case_decide; simplify_eq/=; try done; naive_solver.
Qed.

Lemma ticket_steps ops s h t :
  Forall (no_ticket h) ops -> dget h (sso_tickets s) = Some t -> tk_used_at t <> None ->
  dget h (sso_tickets (exec_all ops s)) = Some t.
Proof.
  unfold exec_all. revert s. induction ops as [|op ops IH]; intros s Hops Ht Hu; simpl; [done|].
  apply Forall_cons in Hops as [Hop Hops]. apply IH; [done| |done]. by apply ticket_step.
Qed.

Lemma request_step s op rid r :
  no_request rid op -> dget rid (join_requests s) = Some r -> j_status r <> "pending" ->
  dget rid (join_requests (exec op s)) = Some r.
Proof.
  intros Hno Hr Hp. destruct op; try (by exec_run); exec_run; try done;
    rewrite dget_dset; case_decide; simplify_eq/=; try done; naive_solver.
Qed.

Lemma invite_step s op iid i :
  no_invite iid op -> dget iid (invites s) = Some i -> i_used_at i <> None ->
  dget iid (invites (exec op s)) = Some i.
Proof.
  intros Hno Hr Hp. destruct op; try (by exec_run); exec_run; try done;
    rewrite dget_dset; case_decide; simplify_eq/=; try done; naive_solver.
Qed.

(** ** The event log *)

Definition numbered (lo : Z) (l : list Event) : Prop :=
  forall i e, l !! i = Some e -> e_seq e = lo + Z.of_nat i.
Record log_inv (s : Store) : Prop := {
  lg_events : numbered (event_seq s - zlen (events s) + 1) (events s);
  lg_events_cap : zlen (events s) <= AUDIT_CAP;
  lg_usage_cap : zlen (usage s) <= USAGE_CAP;
  lg_lease_cap : zlen (lease_log s) <= LEASE_LOG_CAP
}.

Lemma log_inv_frame s s' :
  events s' = events s -> event_seq s' = event_seq s -> usage s' = usage s ->
  lease_log s' = lease_log s -> log_inv s -> log_inv s'.
Proof. intros E1 E2 E3 E4 []. constructor; rewrite ?E1, ?E2, ?E3, ?E4; done. Qed.

Lemma mark_first_seqs now eid st att l l' :
  mark_first now eid st att l = Some l' -> e_seq <$> l' = e_seq <$> l.
Proof.
  revert l'. induction l as [|e l IH]; intros l'; simpl; [done|]. case_decide.
  - intros [= <-]. simpl. f_equal. unfold marked. by destruct att.
  - destruct (mark_first now eid st att l) as [l1|]; [|done]. intros [= <-]. simpl.
    f_equal. by apply IH.
Qed.

Lemma numbered_fmap lo l l' : e_seq <$> l' = e_seq <$> l -> numbered lo l -> numbered lo l'.
Proof.
  intros E Hn i e He. apply (f_equal (lookup i)) in E. rewrite !list_lookup_fmap, He in E.
  destruct (l !! i) as [e0|] eqn:H1; [|done]. simpl in E. injection E as ->. by apply Hn.
Qed.

Lemma zlen_fmap_eq {A B} (f : A -> B) l l' : f <$> l' = f <$> l -> zlen l' = zlen l.
Proof. intros E%(f_equal length). rewrite !length_fmap in E. unfold zlen. lia. Qed.

Lemma numbered_append cap seq l e :
  0 < cap -> e_seq e = seq + 1 -> numbered (seq - zlen l + 1) l ->
  numbered (seq + 1 - zlen (append_capped cap l e) + 1) (append_capped cap l e).
Proof.
  intros Hc He Hn. destruct (append_capped_suffix cap l e Hc) as (l0 & l1 & -> & -> & _ & _).
  intros i x Hx. unfold zlen in *. rewrite length_app. simpl.
  apply lookup_app_Some in Hx as [Hx|[Hi Hx]].
  - specialize (Hn (length l0 + i)%nat x). rewrite length_app in Hn.
    rewrite lookup_app_r, Nat.add_comm, Nat.add_sub in Hn by lia. rewrite Hn by done. lia.
  - destruct (i - length l1)%nat as [|n] eqn:E; [|done]. simpl in Hx. injection Hx as <-.
    rewrite He. lia.
Qed.

Lemma exec_log s op : log_inv s -> log_inv (exec op s).
Proof.
  intros Hs. destruct op; frame_ops (log_inv_frame s); destruct Hs as [Hn He Hu Hl]; cbn [exec].
  - constructor; simpl; [|by apply append_capped_len|done..].
    by apply numbered_append.
  - unfold mark_event. rewrite bind_gets. destruct (mark_first _ _ _ _ _) as [l|] eqn:E; [|done].
    apply mark_first_seqs in E. pose proof (zlen_fmap_eq _ _ _ E) as El.
    constructor; simpl; [..|done|done]; rewrite El; [by eapply numbered_fmap|done].
  - constructor; simpl; [done..|]. by apply append_capped_len.
  - constructor; simpl; [done..| |done]. by apply append_capped_len.
Qed.

Lemma reach_log ok s : reach ok s -> log_inv s.
Proof. apply reach_invariant; [by constructor|]. intros; by apply exec_log. Qed.
End progress.

(** ** What becomes of a user *)

(** Two rows of a user that differ in nothing that email verification reads. *)
Record user_alike (u u' : User) : Prop := {
  ua_id : u_user_id u' = u_user_id u;
  ua_name : u_username u' = u_username u;
  ua_verified : u_email_verified u' = u_email_verified u;
  ua_token : u_email_verify_token_hash u' = u_email_verify_token_hash u;
  ua_expires : u_email_verify_expires u' = u_email_verify_expires u
}.
Definition has_verify_hash (h : string) (u : User) : bool :=
  bool_decide (u_email_verify_token_hash u = Some h).
Inductive users_change (op : store_op) (d : list (string * User)) : list (string * User) -> Prop :=
  | uc_same : users_change op d d
  | uc_new k u : dget k d = None -> u_email_verify_token_hash u = None -> users_change op d (dset k u d)
  | uc_edit k u u' : dget k d = Some u -> user_alike u u' -> users_change op d (dset k u' d)
  | uc_issue k h x u : op = OpSetEmailVerifyToken k h x -> dget k d = Some u ->
      users_change op d (dset k (set_u_email_verify_expires (Some x)
                                   (set_u_email_verify_token_hash (Some h) u)) d)
  | uc_confirm now h k u : op = OpVerifyEmailToken now h -> dfind (has_verify_hash h) d = Some (k, u) ->
      token_expired now (u_email_verify_expires u) = false ->
      users_change op d (dset k (set_u_email_verify_expires None (set_u_email_verify_token_hash None
                                   (set_u_email_verified true u))) d).

Section users.
Context `{HashLib, Argon2Lib}.

Lemma dmem_false {V} k (d : list (string * V)) : dmem k d = false -> dget k d = None.
Proof. unfold dmem. by destruct (dget k d). Qed.

Lemma exec_users op s : store_wf s -> users_change op (users s) (users (exec op s)).
Proof.
  intros Hwf. destruct op; exec_run; try apply uc_same.
  - apply uc_new; [by apply dmem_false|done].
  - by eapply uc_edit.
  - by eapply uc_issue.
  - by eapply uc_confirm.
  - by eapply uc_edit.
  - match goal with E : dfind _ _ = Some _ |- _ => apply (dfind_dget _ _ _ _ (wf_users s Hwf)) in E as [E _] end.
    by eapply uc_edit.
Qed.
End users.
