(* ===== verification/AuditProps.v ===== *)
(** * The audit ledger in every reachable store *)
From S2P Require Import Prelude PyText StoreState Prims AuditLog Tenants Rbac Users Keys.
From S2P Require Import Tokens Ledger StoreSteps Invariants.

Section audit_props.
Context `{HashLib, Argon2Lib}.

Lemma audit_inv_frame start s s' :
  audit s' = audit s -> seq_audit s' = seq_audit s -> audit_tail_hash s' = audit_tail_hash s ->
  audit_inv start s -> audit_inv start s'.
Proof. intros E1 E2 E3 []. constructor; rewrite ?E1, ?E2, ?E3; done. Qed.

(** The ledger invariant, with the whole history present up to the cap. *)
Definition ledger_ok (s : Store) : Prop :=
  exists start, audit_inv start s /\ zlen (audit s) <= seq_audit s /\
    (seq_audit s <= AUDIT_CAP -> zlen (audit s) = seq_audit s /\ forall t, start t = "genesis").

Lemma zlen_append_capped {A} (l : list A) x :
  zlen l <= AUDIT_CAP -> zlen (append_capped AUDIT_CAP l x) = Z.min (zlen l + 1) AUDIT_CAP.
Proof.
  intros Hl. unfold append_capped, zlen in *. rewrite length_app. simpl.
  case_decide; rewrite ?length_drop, ?length_app; simpl; lia.
Qed.

Lemma exec_ledger s op : ledger_ok s -> ledger_ok (exec op s).
Proof.
  intros (start & Hinv & Hle & Hall).
  destruct op; try match goal with |- ledger_ok (exec ?op s) =>
    assert (audit (exec op s) = audit s) as E1 by (exec_run; done);
    assert (seq_audit (exec op s) = seq_audit s) as E2 by (exec_run; done);
    assert (audit_tail_hash (exec op s) = audit_tail_hash s) as E3 by (exec_run; done);
    exists start; rewrite ?E1, ?E2; split; [by eapply audit_inv_frame|done] end.
  cbn [exec]. destruct (append_audit_inv start now tid uid jti role action resource detail s Hinv)
    as (l0 & l1 & Hs & Hs0 & _ & Hinv').
  eexists. split; [exact Hinv'|]. rewrite append_audit_run. simpl.
  rewrite zlen_append_capped by apply Hinv. split; [lia|]. intros Hcap.
  destruct Hall as [Hlen Hst]; [lia|]. split; [lia|]. intros t. rewrite Hs0 by lia.
  unfold tenant_rows, chain_tail. rewrite filter_nil. simpl. apply Hst.
Qed.

Lemma reach_ledger ok s : reach ok s -> ledger_ok s.
Proof.
  apply reach_invariant; [|intros; by apply exec_ledger].
  exists (fun _ => "genesis"). split; [apply audit_inv_init|]. by split.
Qed.

(** The arguments of one [append_audit] call on a fixed tenant. *)
Record AuditCall : Type := mkAuditCall {
  ca_now : Z; ca_user : option string; ca_jti : option string; ca_role : option string;
  ca_action : string; ca_resource : option string; ca_detail : json
}.
Definition audit_ops (tid : string) (calls : list AuditCall) : list store_op :=
  (fun c => OpAppendAudit (ca_now c) tid (ca_user c) (ca_jti c) (ca_role c) (ca_action c)
              (ca_resource c) (ca_detail c)) <$> calls.

Definition audit_after (tid : string) (calls : list AuditCall) : Store :=
  exec_all (audit_ops tid calls) init_store.
Lemma audit_after_snoc tid calls c :
  audit_after tid (calls ++ [c]) =
  (append_audit (ca_now c) tid (ca_user c) (ca_jti c) (ca_role c) (ca_action c)
     (ca_resource c) (ca_detail c) (audit_after tid calls)).2.
Proof. unfold audit_after, audit_ops. rewrite fmap_app. by etrans; [apply exec_all_snoc|]. Qed.

(** Appending for one tenant only: all rows are that tenant's. *)
Lemma audit_after_rows tid calls :
  seq_audit (audit_after tid calls) = zlen calls /\
  tenant_rows tid (audit (audit_after tid calls)) = audit (audit_after tid calls) /\
  zlen (audit (audit_after tid calls)) = Z.min (zlen calls) AUDIT_CAP.
Proof.
  induction calls as [|c calls IH] using rev_ind; [done|]. rewrite audit_after_snoc.
  set (s := audit_after tid calls) in *. destruct IH as (IH1 & IH2 & IH3).
  assert (zlen (calls ++ [c]) = zlen calls + 1) as Hz by (unfold zlen; rewrite length_app; simpl; lia).
  rewrite append_audit_run. simpl. split_and!.
  - lia.
  - set (a := appended _ _ _ _ _ _ _ _ _).
    destruct (append_capped_suffix AUDIT_CAP (audit s) a) as (l0 & l1 & Hs & -> & _); [done|].
    rewrite tenant_rows_app. rewrite Hs, tenant_rows_app in IH2.
    assert (length (tenant_rows tid l0) <= length l0)%nat by apply length_filter.
    apply app_inj_1 in IH2 as [_ ->].
    + f_equal. unfold tenant_rows. rewrite filter_cons, filter_nil. simpl. by rewrite decide_True.
    + apply (f_equal length) in IH2. rewrite !length_app in IH2.
      assert (length (tenant_rows tid l1) <= length l1)%nat by apply length_filter. lia.
  - rewrite zlen_append_capped by lia. lia.
Qed.

Lemma chain_hash_not_genesis `{!HashLaws} prev f : chain_hash prev f <> "genesis".
Proof. intros E. pose proof (sha256_length (prev +:+ audit_text f)) as L. unfold chain_hash in E. by rewrite E in L. Qed.

(** [C12] In every reachable store whose audit counter has not passed the cap,
    the chain of every tenant verifies: no sequence of operations of the store
    breaks the tamper-evidence of the ledger before eviction starts. *)
Theorem audit_chain_verifies s tid :
  reachable s -> seq_audit s <= AUDIT_CAP -> verify_audit_chain tid s = None.
Proof.
  intros (start & Hinv & _ & Hall)%reach_ledger Hcap. destruct (Hall Hcap) as [_ Hst].
  by eapply audit_inv_verifies.
Qed.

(** Eviction at the cap breaks the verifier: after one record more than
    [AUDIT_CAP] for a single tenant, an untouched ledger is reported as broken
    at the first record left (number 2), unless SHA-256 maps that record's text
    behind ["genesis"] and behind its real predecessor to one digest. *)
Theorem audit_cap_breaks_chain `{!HashLaws} tid calls :
  zlen calls = AUDIT_CAP + 1 ->
  verify_audit_chain tid (audit_after tid calls) = Some 2 \/
  exists b prev, head (audit (audit_after tid calls)) = Some b /\ prev = a_prev_hash b /\
    collision_among ["genesis" +:+ audit_text (a_fields b); prev +:+ audit_text (a_fields b)].
Proof.
  intros Hlen. destruct calls as [|c calls _] using rev_ind; [done|].
  assert (zlen calls = AUDIT_CAP) as Hl.
  { unfold zlen in *. rewrite length_app in Hlen. simpl in Hlen. lia. }
  destruct (audit_after_rows tid (calls ++ [c])) as (Hseq' & Hrows' & Hz').
  destruct (audit_after_rows tid calls) as (Hseq & Hrows & Hz). rewrite audit_after_snoc in *.
  assert (ledger_ok (audit_after tid calls)) as (start & Hinv & _ & Hall)
    by (eapply reach_ledger, reachable_exec_all).
  set (s := audit_after tid calls) in *. destruct Hall as [_ Hst]; [lia|].
  destruct (append_audit_inv start (ca_now c) tid (ca_user c) (ca_jti c) (ca_role c) (ca_action c)
    (ca_resource c) (ca_detail c) s Hinv) as (l0 & l1 & Hs & _ & Hl0 & Hinv').
  specialize (Hl0 ltac:(lia)). destruct l0 as [|a [|]]; [done| |done].
  set (s' := (append_audit _ _ _ _ _ _ _ _ s).2) in *.
  destruct (audit s') as [|b rest] eqn:Hb; [by rewrite Hlen in Hz'|].
  assert (a_id b = 2) as Hid.
  { rewrite (inv_ids _ _ Hinv' 0%nat b) by (by rewrite Hb). rewrite Hb. lia. }
  rewrite <- Hid. pose proof (inv_linked _ _ Hinv' tid) as Hlk'. rewrite Hb, Hrows' in Hlk'.
  destruct Hlk' as (Hprev & _ & _).
  edestruct (audit_inv_broken _ s' tid b rest Hinv') as [|Hcol];
    [by rewrite Hb, Hrows'| |by left|right; exists b, (a_prev_hash b); by rewrite <- Hprev in Hcol].
  clear Hprev. simpl.
  assert (a_tenant a = tid) as Ha.
  { rewrite Hs in Hrows. simpl in Hrows. unfold tenant_rows in Hrows. rewrite filter_cons in Hrows.
    case_decide; [done|]. apply (f_equal length) in Hrows. pose proof (length_filter (fun a => a_tenant a = tid) l1).
    simpl in Hrows. lia. }
  unfold tenant_rows. rewrite filter_cons, decide_True by done. rewrite filter_nil.
  unfold chain_tail. simpl. pose proof (inv_linked _ _ Hinv tid) as Hlk. rewrite Hrows, Hs in Hlk.
  destruct Hlk as (_ & -> & _). apply chain_hash_not_genesis.
Qed.

(** [C28] The ledger is tamper-evident: two ledgers whose chains of a tenant
    both verify, have the same number of records and end in the same digest
    hold the same record texts in the same order, unless two of the texts the
    verifier hashed for them collide under SHA-256. *)
Theorem audit_tamper_evident `{!HashLaws} tid s1 s2 :
  let rows s := sort_by (fun a b => a_id a <=? a_id b) (tenant_rows tid (audit s)) in
  verify_audit_chain tid s1 = None -> verify_audit_chain tid s2 = None ->
  length (rows s1) = length (rows s2) ->
  chain_tail "genesis" (rows s1) = chain_tail "genesis" (rows s2) ->
  (audit_text ∘ a_fields) <$> rows s1 = (audit_text ∘ a_fields) <$> rows s2 \/
  collision_among (hashed_texts "genesis" (rows s1) ++ hashed_texts "genesis" (rows s2)).
Proof. intros rows V1 V2 Hl Ht. by apply verified_chains_agree. Qed.

(** [list_audit] pages through the ledger: in every reachable store the
    answer is the newest [limit] of the records of the tenant in the time
    window and before the cursor, newest first. *)
Theorem audit_listing s tid limit since until cursor :
  reachable s ->
  list_audit tid limit since until cursor s =
  py_take limit (reverse (filter (audit_selected tid since until cursor) (audit s))).
Proof. intros (start & Hinv & _)%reach_ledger. by eapply list_audit_spec. Qed.
End audit_props.
