(* ===== verification/PgAudit.v ===== *)
(** * The audit ledger of PgStore (db.py: [append_audit], [verify_audit_chain])

    [append_audit] reads the last digest of a tenant, draws a number and inserts
    in three statements, between which other workers act. The advisory lock of
    the tenant keeps other appends of the tenant out ([pool_step]), so in every
    world that a pool of workers reaches the records of each tenant are linked by
    their digests in the order of [seq] and of [id]. [stage] says what a call
    that is under way has done and what it still knows. Yet
    [verify_audit_chain] reports every ledger with a structured first record as
    broken, since it hashes the text of the [jsonb] column where [append_audit]
    hashed the value. *)
From Stdlib Require Import Sorting.Sorted.
From S2P Require Import Prelude PyText Json StoreState Sql Migrations Schema PgBase Prims Users AuditLog AuditProps.
From S2P Require Import Tenants Ledger PgTenants PgUsers PgTokens PgLedger PgSteps PgProps PgSingleUse.
#[local] Opaque schema.

(** ** The first row of a sorted selection *)

Lemma sort_by_head {A} (le : A -> A -> bool) (l : list A) (x : A) :
  x ∈ l -> le x x = true -> (forall y, y ∈ l -> y = x \/ (le x y = true /\ le y x = false)) ->
  head (sort_by le l) = Some x.
Proof.
  intros Hx Hxx. induction l as [|y l IH]; intros Hmin; [by apply elem_of_nil in Hx|]. simpl.
  assert (forall z, z ∈ sort_by le l -> le x z = true) as Hle.
  { intros z. rewrite sort_by_perm. intros Hz. destruct (Hmin z) as [->|[??]]; [by right|done..]. }
  destruct (Hmin y) as [->|[Hxy Hyx]]; [by left| |].
  - destruct (sort_by le l) as [|z s]; [done|]. simpl. by rewrite Hle by left.
  - apply elem_of_cons in Hx as [->|Hx]; [congruence|].
    specialize (IH Hx (fun z Hz => Hmin z (list_elem_of_further _ _ _ Hz))).
    destruct (sort_by le l) as [|z s]; [done|]. simplify_eq/=. by rewrite Hyx.
Qed.

(** ** The row an insert builds *)

Lemma build_row_cols e cs vals db r db' :
  build_row e cs vals db = (r, db') -> dkeys r = c_name <$> cs.
Proof.
  revert db r db'. induction cs as [|k cs IH]; simpl; intros db r db' E; [by simplify_eq|].
  destruct (match dget (c_name k) vals with Some _ => _ | None => _ end) as [v db1].
  destruct (build_row e cs vals db1) as [r1 db2] eqn:Eb. simplify_eq. simpl. f_equal. by eapply IH.
Qed.
Lemma build_row_serial e cs vals db r db' c ty nn q :
  build_row e cs vals db = (r, db') -> find_col c cs = Some (mkColumn c ty nn (DSerial q)) ->
  dget c vals = None ->
  exists n, col c r = VInt n /\ seq_last q db < n /\ n <= seq_last q db'.
Proof.
  revert db r db'. induction cs as [|[ck ct cn cd] cs IH]; simpl; intros db r db' E Hc Hv; [done|].
  destruct (match dget ck vals with Some _ => _ | None => _ end) as [v' db1] eqn:Ev.
  destruct (build_row e cs vals db1) as [r1 db2] eqn:Eb. simplify_eq. unfold col. simpl.
  case_decide as D; simplify_eq/=.
  - rewrite decide_True by done. rewrite Hv in Ev. unfold default_val, nextval in Ev. simplify_eq. simpl.
    eexists. split; [reflexivity|]. apply build_row_seqs in Eb. specialize (Eb q).
    unfold seq_last at 1 in Eb. simpl in Eb. rewrite dget_dset, decide_True in Eb by done. simpl in Eb. lia.
  - rewrite decide_False by done. destruct (IH _ _ _ Eb Hc Hv) as (n & Hn & Hlt & Hle). exists n.
    split; [done|]. split; [|done].
    assert (seqs_le db db1) as Hs; [|specialize (Hs q); lia].
    unfold default_val in Ev. repeat case_match; simplify_eq; try reflexivity. by eapply nextval_seqs.
Qed.

(** An insert without a conflict clause that succeeded. *)
Lemma insert_adds sch e t vals db rs db' :
  insert sch e t vals Fails db = (Ok rs, db') ->
  exists td r db1, dget t sch = Some td /\ build_row e (tb_cols td) vals db = (r, db1) /\
    visible e td r = true /\ rs = [r] /\ db' = set_rows t (rows t db1 ++ [r]) db1.
Proof.
  unfold insert, with_table, pg_raise, raise. intros E. destruct (dget t sch) as [td|]; [|done].
  case_match; [done|]. destruct (build_row _ _ _ _) as [r db1] eqn:Hb.
  destruct (visible e td r) eqn:Hv; [simpl in E|done]. destruct (row_error td r); [done|].
  unfold add_row in E. repeat case_match; simplify_eq. by exists td, r, db1.
Qed.

Lemma insert_raises sch e t vals db x db' :
  insert sch e t vals Fails db = (Raise x, db') -> db_tables db' = db_tables db.
Proof.
  unfold insert, with_table, pg_raise, raise. intros E. destruct (dget t sch) as [td|]; [|by simplify_eq].
  case_match; [by simplify_eq|]. destruct (build_row _ _ _ _) as [r db1] eqn:Hb.
  apply build_row_tables in Hb. unfold add_row in E. repeat case_match; by simplify_eq.
Qed.

(** ** The chain *)

Definition of_tenant (tid : string) (rs : list row) : list row :=
  filter (fun r => col "tenant_id" r = VText tid) rs.
(** Numbers of a column in order. *)
Definition below (c : string) (x y : row) : Prop :=
  match col c x, col c y with VInt a, VInt b => a < b | _, _ => False end.

Section chain.
Context `{HashLib, Argon2Lib, Asyncpg}.

(** A row that records [f] after the digest [prev]. *)
Record records (prev : string) (f : AuditFields) (r : row) : Prop := {
  rc_tenant : col "tenant_id" r = VText (af_tenant_id f);
  rc_user : col "user_id" r = vtext (af_user_id f);
  rc_jti : col "jti" r = vtext (af_jti f);
  rc_role : col "role" r = vtext (af_role f);
  rc_action : col "action" r = VText (af_action f);
  rc_resource : col "resource" r = vtext (af_resource f);
  rc_detail : col "detail" r = to_jsonb (af_detail f);
  rc_ts : col "ts" r = VTime (af_ts f);
  rc_prev : col "prev_hash" r = VText prev;
  rc_chain : col "chain_hash" r = VText (chain_hash prev f)
}.
(** Rows that continue a chain after the digest [prev]. *)
Inductive pg_linked : string -> list row -> Prop :=
  | linked_nil prev : pg_linked prev []
  | linked_cons prev f r rs :
      records prev f r -> pg_linked (chain_hash prev f) rs -> pg_linked prev (r :: rs).

Record audit_ok (db : Db) : Prop := {
  ao_seq : forall tid, StronglySorted (below "seq") (of_tenant tid (rows "audit_log" db));
  ao_id : StronglySorted (below "id") (rows "audit_log" db);
  ao_last : Forall (fun r => exists s i, col "seq" r = VInt s /\ s <= seq_last "audit_seq_seq" db /\
              col "id" r = VInt i /\ i <= seq_last "audit_log_id_seq" db) (rows "audit_log" db);
  ao_linked : forall tid, pg_linked "genesis" (of_tenant tid (rows "audit_log" db))
}.

Definition text_of (v : sval) : string := match v with VText s => s | _ => "" end.
Definition last_chain (prev : string) (rs : list row) : string :=
  match last rs with Some r => text_of (col "chain_hash" r) | None => prev end.
Lemma linked_snoc prev rs f r :
  pg_linked prev rs -> records (last_chain prev rs) f r -> pg_linked prev (rs ++ [r]).
Proof.
  induction 1 as [prev|prev g x rs Hx _ IH]; intros Hr; simpl.
  - econstructor; [exact Hr|constructor].
  - econstructor; [exact Hx|]. apply IH. revert Hr. unfold last_chain. rewrite last_cons.
    destruct (last rs); [done|]. by rewrite (rc_chain _ _ _ Hx).
Qed.

Lemma sorted_snoc {A} (R : A -> A -> Prop) l x :
  StronglySorted R l -> Forall (fun y => R y x) l -> StronglySorted R (l ++ [x]).
Proof.
  induction 1 as [|y l Hl IH Hy]; intros Hx; simpl; [by repeat constructor|].
  apply Forall_cons in Hx as [Hyx Hx]. constructor; [auto|]. apply Forall_app. auto.
Qed.
Lemma sorted_last {A} (R : A -> A -> Prop) l x y :
  StronglySorted R l -> last l = Some x -> y ∈ l -> y = x \/ R y x.
Proof.
  induction 1 as [|z l Hl IH Hz]; [done|]. rewrite last_cons. intros Hx Hy.
  destruct (last l) as [w|] eqn:Hw.
  - simplify_eq. apply elem_of_cons in Hy as [->|Hy]; [|by apply IH]. right.
    rewrite Forall_forall in Hz. apply Hz. by apply last_Some_elem_of.
  - apply last_None in Hw as ->. set_solver.
Qed.
Lemma sorted_filter {A} (R : A -> A -> Prop) (Q : A -> Prop) `{forall x, Decision (Q x)} l :
  StronglySorted R l -> StronglySorted R (filter Q l).
Proof.
  induction 1 as [|x l Hl IH Hx]; [constructor|]. rewrite filter_cons. case_decide; [|done].
  constructor; [done|]. rewrite Forall_forall in *. intros y [_ Hy]%list_elem_of_filter. auto.
Qed.

(** *** The previous record *)

Definition newest : list (string * bool) := [("seq", true)].
Definition oldest : list (string * bool) := [("id", false)].
Lemma order_first c (desc : bool) x y :
  (if desc then below c y x else below c x y) ->
  order_le [(c, desc)] x y = true /\ order_le [(c, desc)] y x = false.
Proof.
  unfold below, order_le, order_le1, vcompare. intros Hlt.
  destruct desc, (col c y) as [| |b| | | |], (col c x) as [| |a| | | |]; try done.
  - rewrite (Z.compare_antisym b a). apply Z.compare_lt_iff in Hlt as ->. done.
  - rewrite (Z.compare_antisym a b). apply Z.compare_lt_iff in Hlt as ->. done.
Qed.
Lemma order_refl c desc x : order_le [(c, desc)] x x = true.
Proof.
  unfold order_le, order_le1, vcompare.
  destruct (col c x) as [|s| | | | |]; rewrite ?Z.compare_refl; try done.
  pose proof (String.compare_antisym s s) as E. by destruct (String.compare s s).
Qed.

Lemma audit_table : dget "audit_log" schema = Some (table_of "audit_log").
Proof. reflexivity. Qed.
Lemma select_audit e w by_ db :
  select schema e "audit_log" w by_ None db =
  (Ok (sort_by (order_le by_) (filter (fun r => hit e (table_of "audit_log") w r = true)
                                 (ss_scan e (rows "audit_log" db)))), db).
Proof. reflexivity. Qed.
Lemma head_take_1 {A} (l : list A) : head (take (Z.to_nat 1) l) = head l.
Proof. by destruct l. Qed.
Lemma select_last e w td db rs db' :
  dget "audit_log" schema = Some td -> (forall l, ss_scan e l ≡ₚ l) ->
  StronglySorted (below "seq") (filter (fun r => hit e td w r = true) (rows "audit_log" db)) ->
  select schema e "audit_log" w newest (Some 1) db = (Ok rs, db') ->
  db' = db /\ head rs = last (filter (fun r => hit e td w r = true) (rows "audit_log" db)).
Proof.
  intros Ht Hscan Hs E. unfold select, with_table in E. rewrite Ht in E. simpl in E. injection E as <- <-.
  split; [done|]. set (l := filter _ (ss_scan e _)).
  assert (l ≡ₚ filter (fun r => hit e td w r = true) (rows "audit_log" db)) as Hp
    by (unfold l; by rewrite Hscan).
  set (l' := filter _ (rows _ _)) in *.
  rewrite head_take_1.
  destruct (last l') as [x|] eqn:Hx.
  - apply sort_by_head; [rewrite Hp; by apply last_Some_elem_of|apply order_refl|].
    intros y. rewrite Hp. intros Hy.
    destruct (sorted_last (below "seq") l' x y) as [|Hlt]; [done..|by left|].
    right. by apply order_first.
  - apply last_None in Hx. rewrite Hx in Hp. by apply Permutation_nil_r in Hp as ->.
Qed.

(** A row of a tenant is seen with the others of the tenant. *)
Lemma visible_tenant_all e td r r' :
  col "tenant_id" r = col "tenant_id" r' -> visible e td r = visible e td r'.
Proof. unfold visible, policy_ok. by intros ->. Qed.

(** What [SELECT chain_hash ... LIMIT 1] and the [or] after it give. *)
Definition sees_tenant (e : Sess) (tid : string) : Prop :=
  forall r, col "tenant_id" r = VText tid -> visible e (table_of "audit_log") r = true.
Definition knows (e : Sess) (tid prev : string) (db : Db) : Prop :=
  sees_tenant e tid -> prev = last_chain "genesis" (of_tenant tid (rows "audit_log" db)).

Lemma linked_last rs r :
  pg_linked "genesis" rs -> last rs = Some r -> exists prev f, col "chain_hash" r = VText (chain_hash prev f).
Proof.
  intros Hl. revert r. induction Hl as [|prev f x rs Hx _ IH]; [done|]. intros r. rewrite last_cons.
  destruct (last rs); [apply IH|]. intros [= <-]. exists prev, f. apply Hx.
Qed.
Lemma digest_tail `{!AsyncpgLaws} `{!HashLaws} rs l :
  pg_linked "genesis" rs -> head l = last rs ->
  or_genesis (first_value (proj ["chain_hash"] <$> l)) = last_chain "genesis" rs.
Proof.
  intros Hl Hh. unfold last_chain. rewrite <- Hh. destruct l as [|r l]; simpl; [done|].
  symmetry in Hh. destruct (linked_last _ _ Hl Hh) as (prev & f & ->). rewrite decode_text. simpl.
  unfold str_true. rewrite bool_decide_eq_true_2; [done|]. intros E.
  pose proof (sha256_length (prev +:+ audit_text f)) as L. unfold chain_hash in E. by rewrite E in L.
Qed.
Lemma audit_tail `{!AsyncpgLaws} `{!HashLaws} e tid db l db' :
  audit_ok db -> (forall l, ss_scan e l ≡ₚ l) ->
  select schema e "audit_log" ("tenant_id" =. VText tid) newest (Some 1) db = (Ok l, db') ->
  knows e tid (or_genesis (first_value (proj ["chain_hash"] <$> l))) db.
Proof.
  intros Hok Hscan E Hv. apply digest_tail; [apply Hok|].
  assert (filter (fun r => hit e (table_of "audit_log") ("tenant_id" =. VText tid) r = true) (rows "audit_log" db)
          = of_tenant tid (rows "audit_log" db)) as Hf.
  { apply list_filter_iff. intros r. unfold hit. rewrite holds_eq, andb_true_iff, bool_decide_eq_true.
    unfold sees_tenant in Hv. naive_solver. }
  apply (select_last _ _ (table_of "audit_log")) in E as [_ ->]; [by rewrite Hf|reflexivity|done|].
  rewrite Hf. apply Hok.
Qed.

(** *** Actions and the chain *)

(** The ledger stays, and the numbers drawn stay drawn. *)
Definition audit_same (db db' : Db) : Prop :=
  rows "audit_log" db' = rows "audit_log" db /\ seqs_le db db'.
Definition unchanged (tid : string) (db db' : Db) : Prop :=
  of_tenant tid (rows "audit_log" db') = of_tenant tid (rows "audit_log" db) /\ seqs_le db db'.
Lemma audit_same_unchanged tid db db' : audit_same db db' -> unchanged tid db db'.
Proof. intros [E ?]. split; [by rewrite E|done]. Qed.
Lemma audit_same_ok db db' : audit_same db db' -> audit_ok db -> audit_ok db'.
Proof.
  intros [E Hs] [Hseq Hid Hlast Hl]. split; rewrite E; try done.
  eapply Forall_impl; [exact Hlast|]. intros r (s & i & ? & ? & ? & ?). exists s, i.
  pose proof (Hs "audit_seq_seq"). pose proof (Hs "audit_log_id_seq"). split_and!; [done|lia|done|lia].
Qed.
#[local] Instance audit_same_evolution : Evolution audit_same.
Proof.
  split; [intros db db' E Hs; split; [symmetry; by apply rows_tables|done]|].
  intros db1 db2 db3 [E12 H12] [E23 H23]. split; [congruence|by transitivity db2].
Qed.

Lemma effect_audit_ne e t db db' :
  effect schema e t db db' -> seqs_le db db' -> t <> "audit_log" -> audit_same db db'.
Proof.
  intros Heff Hs Hne. split; [|done].
  destruct Heff as [E|? ? ? ? ? ? ? E|? ? ? ? ? ? ? ? ? E|? ? ? ? E];
    by rewrite (rows_tables _ _ _ E), ?rows_set_rows_ne by done.
Qed.
Lemma insert_audit_ne e t vals oc : t <> "audit_log" -> mkeeps audit_same (insert schema e t vals oc).
Proof. intros Hne db r db' E. eapply effect_audit_ne; [by eapply insert_effect|by eapply insert_seqs|done]. Qed.
Lemma update_audit_ne e t sets w : t <> "audit_log" -> mkeeps audit_same (update schema e t sets w).
Proof.
  intros Hne db r db' E. eapply effect_audit_ne; [|by eapply update_seqs|done].
  by apply update_effect in E as [? _].
Qed.
Lemma delete_audit_ne e t w : t <> "audit_log" -> mkeeps audit_same (delete schema e t w).
Proof.
  intros Hne db r db' E. eapply effect_audit_ne; [|by eapply delete_seqs|done].
  by apply delete_effect in E as [? _].
Qed.
Ltac audit_ne :=
  first [ apply insert_audit_ne; discriminate | apply update_audit_ne; discriminate
        | apply delete_audit_ne; discriminate | apply keeps_check_menus | apply keeps_check_menu_ids
        | apply keeps_insert_menus; intros ? | apply mkeeps_insert_revoked; [apply _|intros ?] ].
Definition is_append (op : pg_op) : bool := match op with PgAppendAudit _ _ _ _ _ _ _ => true | _ => false end.
Lemma call_audit_same pe op : is_append op = false -> keeps audit_same (pg_call pe op).
Proof. intros Hop. destruct op; try discriminate Hop; pg_open; repeat audit_ne. Qed.

Definition audit_vals (seq : Z) (f : AuditFields) (prev : string) : list (string * sval) :=
  [("seq", VInt seq); ("tenant_id", VText (af_tenant_id f)); ("user_id", vtext (af_user_id f));
   ("jti", vtext (af_jti f)); ("role", vtext (af_role f)); ("action", VText (af_action f));
   ("resource", vtext (af_resource f)); ("detail", to_jsonb (af_detail f));
   ("chain_hash", VText (chain_hash prev f)); ("prev_hash", VText prev); ("ts", VTime (af_ts f))].

Lemma built_records e seq f prev db r db' :
  build_row e (tb_cols (table_of "audit_log")) (audit_vals seq f prev) db = (r, db') ->
  records prev f r /\ col "seq" r = VInt seq /\
  exists i, col "id" r = VInt i /\ seq_last "audit_log_id_seq" db < i /\ i <= seq_last "audit_log_id_seq" db'.
Proof.
  intros Hb. split; [|split].
  - by split; (eapply build_row_given; [exact Hb|apply (bool_decide_unpack _); vm_compute; exact I|]).
  - by eapply build_row_given; [exact Hb|apply (bool_decide_unpack _); vm_compute; exact I|].
  - by eapply build_row_serial; [exact Hb|vm_compute|].
Qed.

(** A number drawn for the next record of a tenant. *)
Definition numbered (tid : string) (n : Z) (db : Db) : Prop :=
  Forall (fun r => exists s, col "seq" r = VInt s /\ s < n) (of_tenant tid (rows "audit_log" db)) /\
  n <= seq_last "audit_seq_seq" db.

Lemma add_audit_row e n f db rs db' :
  audit_ok db -> numbered (af_tenant_id f) n db ->
  insert schema e "audit_log"
    (audit_vals n f (last_chain "genesis" (of_tenant (af_tenant_id f) (rows "audit_log" db)))) Fails db = (Ok rs, db') ->
  audit_ok db' /\ (forall tid, tid <> af_tenant_id f -> unchanged tid db db').
Proof.
  intros [Hseq Hid Hlast Hl] [Hnum Hn] E.
  apply insert_adds in E as (td & r0 & db2 & Ht & Hb & _ & -> & ->).
  assert (td = table_of "audit_log") as -> by (unfold table_of; by rewrite Ht).
  pose proof (build_row_tables _ _ _ _ _ _ Hb) as Htab. pose proof (build_row_seqs _ _ _ _ _ _ Hb) as Hs.
  apply built_records in Hb as (Hrec & Hrseq & i & Hri & Hi1 & Hi2).
  assert (rows "audit_log" db2 = rows "audit_log" db) as Er by by apply rows_tables.
  pose proof (Hs "audit_seq_seq") as Hsq.
  assert (forall tid, of_tenant tid (rows "audit_log" db ++ [r0]) = of_tenant tid (rows "audit_log" db) ++
            (if decide (tid = af_tenant_id f) then [r0] else [])) as Hof.
  { intros tid. unfold of_tenant. rewrite filter_app, filter_cons, filter_nil, (rc_tenant _ _ _ Hrec).
    repeat case_decide; congruence. }
  unfold unchanged. rewrite rows_set_rows_eq, Er. split.
  - split; rewrite ?rows_set_rows_eq, ?Er.
    + intros tid. rewrite Hof. case_decide as D; [subst|by rewrite app_nil_r]. apply sorted_snoc; [done|].
      eapply Forall_impl; [exact Hnum|]. intros y (s & Hy & ?). unfold below. by rewrite Hy, Hrseq.
    + apply sorted_snoc; [done|]. eapply Forall_impl; [exact Hlast|]. intros y (_ & j & _ & _ & Hy & ?).
      unfold below. rewrite Hy, Hri. lia.
    + apply Forall_app. split.
      * eapply Forall_impl; [exact Hlast|]. intros y (s & j & ? & ? & ? & ?). exists s, j.
        change (seq_last ?q (set_rows _ _ db2)) with (seq_last q db2). split_and!; [done|lia|done|lia].
      * repeat constructor. exists n, i. change (seq_last ?q (set_rows _ _ db2)) with (seq_last q db2).
        split_and!; [done|lia|done..].
    + intros tid. rewrite Hof. case_decide as D; [subst|rewrite app_nil_r; apply Hl].
      eapply linked_snoc; [apply Hl|exact Hrec].
  - intros tid Hne. rewrite Hof, decide_False by done. by rewrite app_nil_r.
Qed.

(** *** Calls under way *)

Definition append_call (m : prog (option prow)) : prog unit := pbind (released m) (fun _ => pret tt).

(** What a thread still has to do, with what it has read. *)
Inductive stage (db : Db) : Thread -> Prop :=
  | st_quiet m ks : keeps audit_same m -> stage db (mkThread m ks)
  | st_waits pe f ks : scans pe ->
      stage db (mkThread (Sync (Acquire (hashtext (af_tenant_id f))) (append_call (append_body pe f))) ks)
  | st_locked pe f ks : scans pe -> hashtext (af_tenant_id f) ∈ ks ->
      stage db (mkThread (append_call (append_body pe f)) ks)
  | st_read pe f prev ks : hashtext (af_tenant_id f) ∈ ks -> knows (_set_guc pe) (af_tenant_id f) prev db ->
      stage db (mkThread (append_call (append_seq pe f prev)) ks)
  | st_numbered pe f prev n ks : hashtext (af_tenant_id f) ∈ ks ->
      knows (_set_guc pe) (af_tenant_id f) prev db -> numbered (af_tenant_id f) n db ->
      stage db (mkThread (append_call (append_row pe f prev (decode (VInt n)))) ks).

Lemma stage_unchanged db db' th :
  stage db th -> (forall tid, hashtext tid ∈ th_keys th -> unchanged tid db db') -> stage db' th.
Proof.
  intros Hst Hun. destruct Hst as [m ks Hm|pe f ks Hs|pe f ks Hs Hk|pe f prev ks Hk Hp|pe f prev n ks Hk Hp [Hn Hle]];
    simpl in Hun; [by constructor..| |].
  - constructor; [done|]. destruct (Hun _ Hk) as [E _]. unfold knows in *. by rewrite E.
  - destruct (Hun _ Hk) as [E Hq]. specialize (Hq "audit_seq_seq").
    constructor; [done|unfold knows in *; by rewrite E|]. split; [by rewrite E|lia].
Qed.
Lemma call_stage db pe op : scans pe -> stage db (mkThread (pg_call pe op) []).
Proof.
  intros Hs. destruct (is_append op) eqn:Hop; [|by apply st_quiet, call_audit_same].
  destruct op; try discriminate Hop. cbn [pg_call]. unfold pg_append_audit, locked_transaction. cbn [pbind].
  by apply (st_waits db pe (mkAuditFields _ _ _ _ _ _ _ _)).
Qed.
Lemma quiet_step taken m ks db db' th' :
  keeps audit_same m -> thread_step taken (mkThread m ks) db = Some (db', th') ->
  audit_same db db' /\ stage db' th'.
Proof.
  intros Hm E. unfold thread_step in E. simpl in E.
  assert (audit_same db db) by by apply ev_same.
  destruct m as [r|a k|[key | ] m]; [done| | |].
  - destruct (a db) as [r db1] eqn:Ea. simplify_eq. split; [by eapply Hm; [constructor|]|].
    apply st_quiet. intros b Hb. apply Hm. by econstructor.
  - destruct (taken key); [done|]. simplify_eq. split; [done|]. apply st_quiet. intros b Hb. apply Hm. by constructor.
  - simplify_eq. split; [done|]. apply st_quiet. intros b Hb. apply Hm. by constructor.
Qed.

Lemma read_step `{!AsyncpgLaws} `{!HashLaws} taken pe f ks db db' th' :
  scans pe -> hashtext (af_tenant_id f) ∈ ks -> audit_ok db ->
  thread_step taken (mkThread (append_call (append_body pe f)) ks) db = Some (db', th') ->
  db' = db /\ stage db' th'.
Proof.
  intros Hs Hk Hok E. cbn in E. unfold returning, a_map in E.
  destruct (select _ _ _ _ _ _ db) as [r db1] eqn:Es.
  assert (db1 = db) as -> by (apply (f_equal snd) in Es; rewrite select_same in Es; by symmetry).
  destruct r as [l|e]; simplify_eq. split; [done|]. apply st_read; [done|]. by eapply audit_tail.
Qed.

Lemma number_step taken pe f prev ks db db' th' :
  hashtext (af_tenant_id f) ∈ ks -> knows (_set_guc pe) (af_tenant_id f) prev db -> audit_ok db ->
  thread_step taken (mkThread (append_call (append_seq pe f prev)) ks) db = Some (db', th') ->
  audit_same db db' /\ stage db' th'.
Proof.
  intros Hk Hp Hok E. cbn in E. simplify_eq.
  match goal with |- audit_same _ ?d /\ _ => assert (audit_same db d) as Hsame end.
  { split; [done|]. by apply (nextval_seqs "audit_seq_seq" _ _ _ eq_refl). }
  split; [done|]. apply st_numbered; [done|done|]. split.
  - apply Forall_forall. intros r [_ Hr]%list_elem_of_filter.
    pose proof (ao_last _ Hok) as Hl. rewrite Forall_forall in Hl.
    destruct (Hl r Hr) as (s & _ & Hs & Hle & _). exists s. split; [exact Hs|lia].
  - unfold seq_last. simpl. rewrite dget_dset, decide_True by done. simpl. lia.
Qed.

Lemma write_step `{!AsyncpgLaws} taken pe f prev n ks db db' th' :
  knows (_set_guc pe) (af_tenant_id f) prev db -> numbered (af_tenant_id f) n db -> audit_ok db ->
  thread_step taken (mkThread (append_call (append_row pe f prev (decode (VInt n)))) ks) db = Some (db', th') ->
  audit_ok db' /\ stage db' th' /\ (forall tid, tid <> af_tenant_id f -> unchanged tid db db').
Proof.
  intros Hp Hn Hok E. cbn -[insert] in E. rewrite decode_int in E. cbn -[insert] in E.
  destruct (insert _ _ _ _ _ db) as [r db1] eqn:Ei. destruct r as [l|e]; simplify_eq.
  - assert (sees_tenant (_set_guc pe) (af_tenant_id f)) as Hsees.
    { pose proof Ei as (td & r0 & db2 & Ht & Hb & Hv & _)%insert_adds.
      assert (td = table_of "audit_log") as -> by (unfold table_of; by rewrite Ht).
      intros y Hy. etransitivity; [|exact Hv]. apply visible_tenant_all. rewrite Hy.
      by apply (built_records _ _ f) in Hb as [Hb _]; rewrite (rc_tenant _ _ _ Hb). }
    specialize (Hp Hsees). subst prev.
    destruct (add_audit_row _ _ _ _ _ _ Hok Hn Ei). split; [done|]. split; [|done].
    apply st_quiet, keeps_sync, keeps_return.
  - assert (audit_same db db') as Hsame.
    { split; [by eapply rows_tables, insert_raises|by eapply insert_seqs]. }
    split; [by eapply audit_same_ok|]. split; [apply st_quiet, keeps_sync, keeps_return|].
    intros tid _. by apply audit_same_unchanged.
Qed.

(** A step keeps the ledger, and touches only the chains that it has locked. *)
Lemma stage_step `{!AsyncpgLaws} `{!HashLaws} taken th db db' th' :
  audit_ok db -> stage db th -> thread_step taken th db = Some (db', th') ->
  audit_ok db' /\ stage db' th' /\ (forall tid, hashtext tid ∈ th_keys th \/ unchanged tid db db').
Proof.
  intros Hok Hst E.
  assert (forall P : Prop, audit_same db db' /\ P ->
    audit_ok db' /\ P /\ forall tid, hashtext tid ∈ th_keys th \/ unchanged tid db db') as Hq.
  { intros P [Hs HP]. split_and!; [by eapply audit_same_ok|done|].
    intros tid. right. by apply audit_same_unchanged. }
  destruct Hst as [m ks Hm|pe f ks Hs|pe f ks Hs Hk|pe f prev ks Hk Hp|pe f prev n ks Hk Hp Hn].
  - apply Hq. by eapply quiet_step.
  - apply Hq. cbn in E. case_match; [done|]. simplify_eq. split; [by apply ev_same|].
    apply st_locked; [done|by left].
  - apply Hq. destruct (read_step _ _ _ _ _ _ _ Hs Hk Hok E) as [-> ?]. split; [by apply ev_same|done].
  - apply Hq. by eapply number_step.
  - destruct (write_step _ _ _ _ _ _ _ _ _ Hp Hn Hok E) as (? & ? & Hne). split_and!; [done..|].
    intros tid. destruct (decide (tid = af_tenant_id f)) as [->|]; [by left|right; auto].
Qed.

(** *** Worlds *)

Record world_ok (w : World) : Prop := {
  wo_audit : audit_ok (w_db w);
  wo_stage i th : w_threads w !! i = Some th -> stage (w_db w) th;
  wo_locks i j th th' key : w_threads w !! i = Some th -> w_threads w !! j = Some th' -> i <> j ->
    key ∈ th_keys th -> key ∉ th_keys th'
}.

Lemma taken_by_false ths i key j th :
  taken_by (<[i := ended]> ths) key = false -> ths !! j = Some th -> i <> j -> key ∉ th_keys th.
Proof.
  intros Ht Hj Hne Hk. apply not_true_iff_false in Ht. apply Ht. apply existsb_exists. exists th.
  split; [|by apply bool_decide_eq_true]. apply list_elem_of_In, list_elem_of_lookup. exists j.
  by rewrite list_lookup_insert_ne.
Qed.
(** The locks of a thread after a step: one it had, or one nobody else had. *)
Lemma step_keys taken th db db' th' key :
  thread_step taken th db = Some (db', th') -> key ∈ th_keys th' -> key ∈ th_keys th \/ taken key = false.
Proof.
  unfold thread_step. destruct th as [m ks]. simpl. intros E Hk. destruct m as [r|a k|[q | ] m]; [done| | |].
  - destruct (a db). simplify_eq. by left.
  - destruct (taken q) eqn:Ht; [done|]. simplify_eq. simpl in Hk.
    apply elem_of_cons in Hk as [->|]; [by right|by left].
  - simplify_eq. simpl in Hk. by apply elem_of_nil in Hk.
Qed.

Lemma pool_step_ok `{!AsyncpgLaws} `{!HashLaws} ev w w' :
  event_ok scans ev -> pool_step ev w = Some w' -> world_ok w -> world_ok w'.
Proof.
  intros Hev E [Ha Hst Hlk]. destruct ev as [pe op|i|i]; simpl in *.
  - simplify_eq. split; simpl; [done| |].
    + intros i th [[_ ?]|[_ <-]]%lookup_snoc_Some; [eauto|by apply call_stage].
    + intros i j th th' key Hi Hj Hne Hk Hk'.
      apply lookup_snoc_Some in Hi as [[_ Hi]|[_ <-]]; [|by apply elem_of_nil in Hk].
      apply lookup_snoc_Some in Hj as [[_ Hj]|[_ <-]]; [|by apply elem_of_nil in Hk'].
      by destruct (Hlk _ _ _ _ _ Hi Hj Hne Hk).
  - destruct (w_threads w !! i) as [th|] eqn:Hi; [|done]. simpl in E.
    destruct (thread_step _ th (w_db w)) as [[db' th']|] eqn:Et; [|done]. simplify_eq/=.
    pose proof (stage_step _ _ _ _ _ Ha (Hst _ _ Hi) Et) as (Ha' & Hst' & Hun). split; simpl; [done| |].
    + intros j tj Hj. apply list_lookup_insert_Some in Hj as [(<- & <- & _)|[Hne Hj]]; [done|].
      eapply stage_unchanged; [by eauto|]. intros tid Hk. destruct (Hun tid) as [Hk'|]; [|done].
      by destruct (Hlk _ _ _ _ _ Hi Hj Hne Hk').
    + intros j1 j2 t1 t2 key G1 G2 Hne Hk1 Hk2.
      apply list_lookup_insert_Some in G1 as [(<- & <- & _)|[Hn1 G1]];
        apply list_lookup_insert_Some in G2 as [(<- & <- & _)|[Hn2 G2]]; [done| | |].
      * destruct (step_keys _ _ _ _ _ _ Et Hk1) as [Hk|Ht]; [by destruct (Hlk _ _ _ _ _ Hi G2 Hne Hk)|].
        by destruct (taken_by_false _ _ _ _ _ Ht G2 Hne).
      * destruct (step_keys _ _ _ _ _ _ Et Hk2) as [Hk|Ht]; [by destruct (Hlk _ _ _ _ _ G1 Hi Hne Hk1)|].
        by destruct (taken_by_false _ _ _ _ _ Ht G1 Hn1).
      * by destruct (Hlk _ _ _ _ _ G1 G2 Hne Hk1).
  - simplify_eq. split; simpl; [done| |].
    + intros j tj Hj. apply list_lookup_insert_Some in Hj as [(<- & <- & _)|[Hne Hj]]; [|eauto].
      apply st_quiet, keeps_return.
    + intros j1 j2 t1 t2 key G1 G2 Hne Hk1 Hk2.
      apply list_lookup_insert_Some in G1 as [(<- & <- & _)|[Hn1 G1]]; [by apply elem_of_nil in Hk1|].
      apply list_lookup_insert_Some in G2 as [(<- & <- & _)|[Hn2 G2]]; [by apply elem_of_nil in Hk2|].
      by destruct (Hlk _ _ _ _ _ G1 G2 Hne Hk1).
Qed.

Lemma fresh_audit_ok now : audit_ok (fresh_db now).
Proof. split; [intros tid; constructor|constructor..|]. intros tid. constructor. Qed.
Lemma pool_audit_ok `{!AsyncpgLaws} `{!HashLaws} now w :
  rtc (pool_rel scans) (mkWorld (fresh_db now) []) w -> audit_ok (w_db w).
Proof.
  intros Hw. apply wo_audit. revert w Hw. apply rtc_ind_r.
  - split; [apply fresh_audit_ok|done..].
  - intros w w' _ (ev & Hok & E). by eapply pool_step_ok.
Qed.

(** [C13] However the statements of the calls of any number of workers interleave
    on a migrated database, an append waiting only where it asks for the advisory
    lock of its tenant, and whichever workers are lost on the way, the audit
    records of every tenant form one chain in the order of [seq]: each holds
    the digest of its fields after the digest of the one before it. *)
Theorem pg_audit_chain `{!AsyncpgLaws} `{!HashLaws} now w tid :
  rtc (pool_rel scans) (mkWorld (fresh_db now) []) w ->
  StronglySorted (below "seq") (of_tenant tid (rows "audit_log" (w_db w))) /\
  pg_linked "genesis" (of_tenant tid (rows "audit_log" (w_db w))).
Proof. intros Hw. pose proof (pool_audit_ok _ _ Hw) as []. done. Qed.

(** *** The verifier *)

(** The fields as [verify_audit_chain] reads them back. *)
Definition as_read (f : AuditFields) : AuditFields :=
  mkAuditFields (af_tenant_id f) (af_user_id f) (af_jti f) (af_role f) (af_action f) (af_resource f)
    (match to_jsonb (af_detail f) with VJson j => JStr (jsonb_text j) | _ => JNull end) (af_ts f).
Definition is_dict_or_none (j : json) : bool := match j with JObj _ | JNull => true | _ => false end.

Lemma audit_text_eq t u j r a re d ts :
  audit_text (mkAuditFields t u j r a re d ts) =
  "{" +:+ join "," ((fun kv => json_string kv.1 +:+ ":" +:+ kv.2) <$>
    [("action", json_string a); ("detail", json_dumps d); ("jti", json_dumps (jopt j));
     ("resource", json_dumps (jopt re)); ("role", json_dumps (jopt r)); ("tenant_id", json_string t);
     ("ts", float_repr ts); ("user_id", json_dumps (jopt u))]) +:+ "}".
Proof. reflexivity. Qed.
Lemma audit_text_read f :
  is_dict_or_none (af_detail f) = true -> audit_text f <> audit_text (as_read f).
Proof.
  destruct f as [t u j r a re d ts]. unfold as_read, to_jsonb. simpl. intros Hd. rewrite !audit_text_eq.
  cbn [join fmap list_fmap fst snd]. intros E.
  apply (f_equal chars) in E. rewrite !chars_app, <- !app_assoc in E.
  do 7 apply app_inv_head in E. destruct d; done.
Qed.

Lemma read_fields `{!AsyncpgLaws} f prev r : records prev f r -> row_fields (decode_row r) = as_read f.
Proof.
  intros Hr. unfold row_fields, as_read, to_jsonb. rewrite !pget_decode.
  destruct f, Hr as [-> -> -> -> -> -> -> -> _ _]; simpl in *. 
  f_equal; repeat match goal with |- context [vtext ?o] => is_var o; destruct o end; simpl;
    unfold to_jsonb; by autorewrite with asyncpg.
Qed.

(** [verify_audit_chain] of PgStore reports an untouched ledger as broken:
    whenever a tenant has records and the detail of the first was a dict or
    [None], the verdict names that record, unless two texts that it hashed
    collide under SHA-256. *)
Theorem pg_verify_rejects `{!AsyncpgLaws} pe tid f r rs db :
  audit_ok db -> of_tenant tid (rows "audit_log" db) = r :: rs -> records "genesis" f r ->
  is_dict_or_none (af_detail f) = true -> pe_ctx pe = None -> scans pe ->
  exec (pg_verify_audit_chain pe tid) db = (Ok (Some (vint (col "id" r))), db) \/
  collision_among ["genesis" +:+ audit_text f; "genesis" +:+ audit_text (as_read f)].
Proof.
  intros Hok Hrs Hr Hd Hc Hscan. pose proof (rc_chain _ _ _ Hr) as Hchain.
  destruct (decide (chain_hash "genesis" (as_read f) = chain_hash "genesis" f)) as [Ecol|Hne].
  { right. exists ("genesis" +:+ audit_text f), ("genesis" +:+ audit_text (as_read f)).
    split_and!; [set_solver..| |by symmetry]. intros E%(f_equal chars).
    rewrite !chars_app in E. apply app_inv_head in E. apply (audit_text_read f Hd).
    apply (f_equal of_chars) in E. by rewrite !of_chars_chars in E. }
  left. unfold pg_verify_audit_chain. rewrite exec_bind. unfold bind, fetch. simpl.
  rewrite select_audit. set (l := filter _ _).
  assert (l ≡ₚ of_tenant tid (rows "audit_log" db)) as Hp.
  { unfold l. simpl. rewrite (Hscan _). apply reflexive_eq, list_filter_iff. intros x.
    unfold hit. rewrite system_sees, holds_eq, andb_true_l, bool_decide_eq_true by done. done. }
  pose proof (sorted_filter _ (fun r => col "tenant_id" r = VText tid) _ (ao_id _ Hok)) as Hs.
  fold (of_tenant tid (rows "audit_log" db)) in Hs. rewrite Hrs in Hs, Hp.
  assert (head (sort_by (order_le oldest) l) = Some r) as Hh.
  { apply sort_by_head; [rewrite Hp; by left|apply order_refl|]. intros y. rewrite Hp.
    intros [->|Hy]%elem_of_cons; [by left|]. right. apply order_first.
    apply StronglySorted_inv in Hs as [_ Hs]. rewrite Forall_forall in Hs. auto. }
  change [("id", false)] with oldest. destruct (sort_by (order_le oldest) l) as [|x s]; simplify_eq/=.
  rewrite (read_fields f "genesis" r Hr), !pget_decode, Hchain, decode_text. simpl. unfold compare_digest.
  rewrite bool_decide_eq_false_2 by done. by destruct (col "id" r); autorewrite with asyncpg.
Qed.
End chain.
