(* ===== verification/PgGaps.v ===== *)
(** * Where PgStore does not do what its callers expect (db.py, auth.py)

    The in-memory store accepts the order of calls of auth.py and the types of
    its values; under the constraints and codecs of PostgreSQL the same calls
    fail or have no effect. *)
From S2P Require Import Prelude PyText Json StoreState Sql Migrations Schema PgBase Prims Users.
From S2P Require Import Tenants Ledger PgTenants PgUsers PgTokens PgLedger PgSteps PgProps PgSingleUse.
#[local] Opaque schema.

(** ** Assigning a column *)

(** The value may stand in the column. *)
Definition val_fits (td : table) (c : string) (v : sval) : bool :=
  forallb (fun k => negb (bool_decide (c_name k = c)) ||
                    (type_ok (c_type k) v && negb (c_notnull k && bool_decide (v = VNull)))) (tb_cols td)
  && forallb (fun ck => negb (bool_decide (ck.2.1 = c)) || bool_decide (v = VNull \/ v ∈ VText <$> ck.2.2))
       (tb_check td).

Lemma existsb_false {A} (f : A -> bool) l : existsb f l = false <-> Forall (fun x => f x = false) l.
Proof.
  induction l as [|x l IH]; simpl; [split; constructor|]. rewrite orb_false_iff, Forall_cons. tauto.
Qed.
Lemma row_error_None td r :
  row_error td r = None <->
  row_types_ok td r = true /\ null_error td r = false /\ forallb (fun ck => check_ok ck r) (tb_check td) = true.
Proof.
  unfold row_error. destruct (row_types_ok td r), (null_error td r), (forallb _ _); naive_solver.
Qed.

Lemma row_error_dset td c v r :
  val_fits td c v = true -> row_error td r = None -> row_error td (dset c v r) = None.
Proof.
  rewrite !row_error_None. unfold val_fits, row_types_ok, null_error.
  rewrite andb_true_iff, !forallb_Forall, !existsb_false, !Forall_forall.
  intros [Hf Hck] (Ht & Hn & Hc). split_and!; intros k Hk.
  - specialize (Hf k Hk). rewrite col_dset. destruct (decide (c_name k = c)) as [D|D]; [|by apply Ht].
    rewrite bool_decide_eq_true_2 in Hf by done. by apply andb_true_iff in Hf as [? _].
  - specialize (Hf k Hk). rewrite col_dset. destruct (decide (c_name k = c)) as [D|D]; [|by apply Hn].
    rewrite bool_decide_eq_true_2 in Hf by done. apply andb_true_iff in Hf as [_ Hf].
    by apply negb_true_iff in Hf.
  - specialize (Hck k Hk). specialize (Hc k Hk). unfold check_ok in *. rewrite col_dset.
    destruct (decide (k.2.1 = c)) as [D|D]; [|done]. rewrite bool_decide_eq_true_2 in Hck by done. simpl in Hck.
    apply bool_decide_eq_true in Hck as [->|Hin]; [done|]. destruct v; try done; by apply bool_decide_eq_true_2.
Qed.

(** Assignments that touch no key column keep every key. *)
Lemma col_set_row c sets r : c ∉ sets.*1 -> col c (set_row sets r) = col c r.
Proof.
  unfold set_row. intros Hc.
  assert (forall r', col c (foldl (fun r' cs => dset cs.1 (set_val cs.2 r) r') r' sets) = col c r') as E; [|done].
  revert Hc. induction sets as [|[k v] sets IH]; intros Hc r'; [done|]. simpl in *.
  rewrite IH by set_solver. rewrite col_dset, decide_False; [done|]. set_solver.
Qed.
Lemma unique_ok_updated e td sets w rs :
  Forall (fun u => Forall (fun c => c ∉ sets.*1) u.2) (tb_unique td) ->
  unique_ok td (updated e td sets w rs) = unique_ok td rs.
Proof.
  unfold unique_ok. induction 1 as [|u us Hu _ IH]; [done|]. simpl. rewrite IH. f_equal.
  unfold key_ok. apply bool_decide_ext.
  assert (omap (key_of u.2) (updated e td sets w rs) = omap (key_of u.2) rs) as ->; [|done].
  clear IH. unfold updated. induction rs as [|r rs IH]; [done|]. simpl.
  assert (key_of u.2 (if hit e td w r then set_row sets r else r) = key_of u.2 r) as ->; [|destruct (key_of u.2 r); [f_equal|]; exact IH].
  case_match; [|done]. unfold key_of.
  assert ((fun c => col c (set_row sets r)) <$> u.2 = (fun c => col c r) <$> u.2) as ->; [|done].
  apply list_fmap_ext. intros i c Hc%list_elem_of_lookup_2. rewrite Forall_forall in Hu.
  by apply col_set_row, Hu.
Qed.

(** An update whose new rows are well-formed: keys and references decide. *)
Lemma update_run e t td sets w db :
  dget t schema = Some td -> params_error td (set_params sets) = None ->
  Forall (fun x => visible e td x = true /\ row_error td x = None) (written e td sets w (rows t db)) ->
  let db' := set_rows t (updated e td sets w (rows t db)) db in
  update schema e t sets w db =
  if unique_ok td (updated e td sets w (rows t db))
  then if forallb (fkeys_ok td db') (written e td sets w (rows t db)) && refs_ok schema t db'
       then (Ok (written e td sets w (rows t db)), db')
       else (Raise (PgError ForeignKeyViolationError), db)
  else (Raise (PgError UniqueViolationError), db).
Proof.
  intros Ht Hp Hw db'. unfold update, with_table. rewrite Ht, Hp.
  fold (updated e td sets w (rows t db)). fold (written e td sets w (rows t db)). fold db'.
  unfold db' at 1. rewrite rows_set_rows_eq. rewrite Forall_forall in Hw.
  assert (forallb (visible e td) (written e td sets w (rows t db)) = true) as ->.
  { apply forallb_Forall, Forall_forall. naive_solver. }
  assert (head (omap (row_error td) (written e td sets w (rows t db))) = None) as ->.
  { destruct (omap _ _) as [|x l] eqn:Ex; [done|]. assert (x ∈ x :: l) as Hx by left. rewrite <- Ex in Hx.
    apply list_elem_of_omap in Hx as (y & Hy & E). apply Hw in Hy as [_ Hy]. congruence. }
  by destruct (unique_ok _ _), (_ && _).
Qed.

Section rotation.
Context `{HashLib, Argon2Lib, Asyncpg}.

(** [rotate_refresh_token] refuses a successor that is not stored yet: the
    foreign key of [replaced_by] fails. [AuthService.refresh] rotates before it
    inserts the new token, so that every refresh of a live token fails. *)
Theorem pg_rotate_before_insert pe old new r db :
  db_ok schema db -> pe_ctx pe = None ->
  r ∈ rows "refresh_tokens" db -> col "jti" r = VText old -> col "status" r = VText "active" ->
  (forall r', r' ∈ rows "refresh_tokens" db -> col "jti" r' <> VText new) ->
  exec (pg_rotate_refresh_token pe old new) db = (Raise (PgError ForeignKeyViolationError), db).
Proof.
  intros Hok Hc Hr Hj Hs Hnew. unfold pg_rotate_refresh_token. rewrite exec_bind. unfold bind.
  rewrite exec_fetchval.
  pose proof (Hok "refresh_tokens" (table_of "refresh_tokens")) as [Hu Hrows]; [by apply dget_elem_of|].
  rewrite (update_run _ _ (table_of "refresh_tokens")); [|done..|].
  - rewrite unique_ok_updated, Hu; cycle 1.
    { repeat constructor; apply (bool_decide_unpack _); vm_compute; exact I. }
    set (db' := set_rows _ _ db). set (ws := written _ _ _ _ _).
    assert (forallb (fkeys_ok (table_of "refresh_tokens") db') ws = false) as ->; [|done].
    apply not_true_iff_false. rewrite forallb_Forall, Forall_forall. intros Hall.
    assert (set_row [("status", Ex (fun _ => VText "rotated")); ("replaced_by", Par (VText new))] r ∈ ws) as Hin.
    { apply list_elem_of_fmap. exists r. split; [done|]. apply list_elem_of_filter. split; [|done].
      unfold hit. rewrite system_sees, holds_and, !holds_eq, !bool_decide_eq_true_2 by done. done. }
    specialize (Hall _ Hin). rewrite fkeys_ok_elim in Hall.
    specialize (Hall (refs "refresh_tokens" "replaced_by" "refresh_tokens" "jti")
                  ltac:(apply (bool_decide_unpack _); vm_compute; exact I)).
    unfold fk_ok in Hall. unfold set_row in Hall. simpl in Hall. rewrite col_dset, decide_True in Hall by done.
    apply existsb_exists in Hall as (x & Hx%list_elem_of_In & Ex%bool_decide_eq_true).
    unfold db' in Hx. rewrite rows_set_rows_eq in Hx. apply list_elem_of_fmap in Hx as (y & -> & Hy).
    apply (Hnew y Hy). rewrite <- Ex. case_match; [|done]. symmetry. apply col_set_row. set_solver.
  - apply Forall_forall. intros x (y & -> & [_ Hy]%list_elem_of_filter)%list_elem_of_fmap.
    split; [by apply system_sees|]. rewrite Forall_forall in Hrows. destruct (Hrows y Hy) as [Hy1 _].
    by do 2 (apply row_error_dset; [reflexivity|]).
Qed.
End rotation.

(** ** The lockout *)

(** [_is_locked(user)] of auth.py on the row of PgStore: only an [int] or a
    [float] counts. *)
Definition _is_locked_row (now : Z) (user : prow) : bool :=
  match pget "locked_until" user with
  | PInt z => now <? sec z
  | PFloat us => now <? us
  | _ => false
  end.

Section lockout.
Context `{HashLib, Argon2Lib, Asyncpg}.

Lemma selected sch e t td w by_ limit db rs db' r :
  dget t sch = Some td -> (forall l, ss_scan e l ≡ₚ l) ->
  select sch e t w by_ limit db = (Ok rs, db') -> r ∈ rs -> r ∈ rows t db /\ holds w r = true.
Proof.
  intros Ht Hscan E Hr. unfold select, with_table in E. rewrite Ht in E.
  assert (r ∈ sort_by (order_le by_) (filter (fun r => hit e td w r = true) (ss_scan e (rows t db)))) as Hin.
  { repeat case_match; simplify_eq; [|done]. by apply elem_of_take in Hr as (i & ?%list_elem_of_lookup_2 & _). }
  rewrite sort_by_perm in Hin. apply list_elem_of_filter in Hin as [Hh Hin]. rewrite Hscan in Hin.
  unfold hit in Hh. by apply andb_true_iff in Hh as [_ ?].
Qed.

(** The lockout has no effect on PgStore: the column comes back as a
    [datetime], which [_is_locked] does not count, so that no stored user is
    ever locked, whatever time was stored. *)
Theorem pg_lockout_ignored `{!AsyncpgLaws} pe uid u now db db' :
  db_ok schema db -> scans pe -> exec (pg_get_user pe uid) db = (Ok (Some u), db') ->
  _is_locked_row now u = false.
Proof.
  intros Hok Hscan E. unfold pg_get_user in E. rewrite exec_fetchrow in E.
  destruct (select _ _ _ _ _ _ db) as [[[|r rs]|] db1] eqn:Es; simplify_eq/=.
  destruct (selected schema (_set_guc pe) "users" (table_of "users") _ _ _ _ _ _ r eq_refl Hscan Es) as [Hr _]; [by left|].
  destruct (Hok "users" (table_of "users")) as [_ Hrows]; [by apply dget_elem_of|].
  rewrite Forall_forall in Hrows. destruct (Hrows r Hr) as [Herr _].
  apply row_error_None in Herr as (Ht & _ & _). unfold row_types_ok in Ht.
  rewrite forallb_Forall, Forall_forall in Ht.
  specialize (Ht (ts_null "locked_until") ltac:(apply (bool_decide_unpack _); vm_compute; exact I)).
  simpl in Ht. unfold _is_locked_row. rewrite pget_decode.
  by destruct (col "locked_until" r); autorewrite with asyncpg.
Qed.
End lockout.

(** ** Departments *)

Section departments.
Context `{HashLib, Argon2Lib, Asyncpg}.

(** [delete_department] always answers false, also when it has deleted the
    department: the statement returns no row. *)
Theorem pg_delete_department_false pe tid d b db db' :
  exec (pg_delete_department pe tid d) db = (Ok b, db') -> b = false.
Proof.
  unfold pg_delete_department, bind_uuid. destruct (uuid_of d); [|done].
  rewrite !exec_bind. unfold bind. simpl. unfold no_returning, a_map.
  destruct (delete _ _ _ _ db) as [[rs|] db1]; simpl; intros E; by simplify_eq.
Qed.
End departments.

(** ** Join requests *)

Section joins.
Context `{HashLib, Argon2Lib, Asyncpg}.

(** A user whose earlier request was decided one way cannot be decided that way
    again: the unique constraint over the status refuses the update, and the
    error is not one that [decide_join_request] translates. *)
Theorem pg_second_decision_fails pe rid rid' tid uid st by_ r r' db :
  db_ok schema db -> st ∈ ["approved"; "rejected"; "cancelled"] ->
  r ∈ rows "join_requests" db -> r' ∈ rows "join_requests" db ->
  col "request_id" r = VText rid -> col "status" r = VText "pending" ->
  col "request_id" r' = VText rid' -> col "status" r' = VText st ->
  Forall (fun x => col "tenant_id" x = VText tid /\ col "user_id" x = VText uid) [r; r'] ->
  exec (pg_decide_join_request pe rid st by_) db = (Raise (PgError UniqueViolationError), db).
Proof.
  intros Hok Hst Hr Hr' Hid Hs Hid' Hs' Hsame.
  pose proof (Hok "join_requests" (table_of "join_requests")) as [Hu Hrows]; [by apply dget_elem_of|].
  assert (st <> "pending") as Hne by (intros ->; set_solver).
  unfold pg_decide_join_request. rewrite decide_False by (intros Hn; by apply Hn).
  rewrite exec_bind. unfold bind. rewrite exec_fetchrow, (update_run _ _ (table_of "join_requests")); [|done..|].
  - set (sets := [_; _; _]). set (us := updated _ _ _ _ _).
    assert (unique_ok (table_of "join_requests") us = false) as ->; [|done].
    apply not_true_iff_false. unfold unique_ok. rewrite forallb_Forall, Forall_forall. intros Hall.
    specialize (Hall ("join_requests_unique_pending", ["tenant_id"; "user_id"; "status"])
                  ltac:(apply (bool_decide_unpack _); vm_compute; exact I)).
    unfold key_ok in Hall. apply bool_decide_eq_true in Hall.
    apply Forall_cons in Hsame as [[Ht1 Hu1] Hsame]. apply Forall_cons in Hsame as [[Ht2 Hu2] _].
    assert (set_row sets r = r') as E.
    { apply (NoDup_omap_inj _ us _ _ [VText tid; VText uid; VText st] Hall).
      - apply list_elem_of_fmap. exists r. split; [|done]. unfold hit, visible, rls_bound. simpl.
        by rewrite holds_and, !holds_eq, !bool_decide_eq_true_2.
      - apply list_elem_of_fmap. exists r'. split; [|done]. unfold hit.
        rewrite holds_and, (holds_eq "status"), Hs', (bool_decide_eq_false_2 (VText st = _)) by congruence.
        by rewrite !andb_false_r.
      - unfold key_of, set_row. simpl. rewrite !col_dset. simpl. rewrite Ht1, Hu1.
        rewrite decide_False; [done|]. set_solver.
      - unfold key_of. simpl. rewrite Ht2, Hu2, Hs'. rewrite decide_False; [done|]. set_solver. }
    assert (col "request_id" r' = VText rid) as Hid2.
    { rewrite <- E, col_set_row; [done|]. subst sets. set_solver. }
    assert (r = r') as <-; [|congruence].
    eapply (unique_row schema "join_requests" (table_of "join_requests") "join_requests_pkey" "request_id" rid);
      eauto; [by apply dget_elem_of|]. by left.
  - apply Forall_forall. intros x (y & -> & [_ Hy]%list_elem_of_filter)%list_elem_of_fmap.
    split; [done|]. rewrite Forall_forall in Hrows. destruct (Hrows y Hy) as [Hy1 _].
    apply row_error_dset; [reflexivity|]. apply row_error_dset; [reflexivity|].
    apply row_error_dset; [|done].
    assert (st = "approved" \/ st = "rejected" \/ st = "cancelled") as [->|[->| ->]] by set_solver; reflexivity.
Qed.
End joins.

(** ** Issued tokens *)

Lemma select_answers e t td w by_ db :
  dget t schema = Some td -> exists rs, select schema e t w by_ None db = (Ok rs, db).
Proof. intros Ht. unfold select, with_table. rewrite Ht. by eexists. Qed.

Section issued.
Context `{HashLib, Argon2Lib, Asyncpg}.

(** The revocation of a user's tokens misses every token that was recorded
    longer ago than the lifetime PgStore assumes ([FUSION_IDENTITY_JWT_TTL], 900
    seconds by default, where config.py issues tokens for eight hours). *)
Theorem pg_revoke_misses_expired `{!AsyncpgLaws} pe uid tid reason db :
  scans pe ->
  (forall r, r ∈ rows "issued_jtis" db -> col "user_id" r = VText uid ->
     exists x, col "expires_at" r = VTime x /\ x <= pe_now pe) ->
  exec (pg_revoke_user_issued_jtis pe uid tid reason) db = (Ok 0, db).
Proof.
  intros Hscan Hold. unfold pg_revoke_user_issued_jtis. rewrite exec_bind. unfold bind. simpl.
  unfold count_rows, a_map, transaction, bind.
  destruct (select_answers (_set_guc pe) "issued_jtis" (table_of "issued_jtis")
    ("user_id" =. VText uid &. tenant_or_any tid &. "expires_at" >. VTime (pe_now pe)) [] db eq_refl) as [rs Es].
  rewrite Es.
  assert (rs = []) as ->; [|simpl; by rewrite decode_int]. apply elem_of_nil_inv. intros r Hr.
  destruct (selected schema (_set_guc pe) "issued_jtis" (table_of "issued_jtis") _ _ _ _ _ _ r eq_refl Hscan Es Hr)
    as [Hin Hw].
  rewrite !holds_and, holds_eq, !andb_true_iff, bool_decide_eq_true in Hw. destruct Hw as (Hu & _ & Hx).
  destruct (Hold r Hin Hu) as (x & Ex & Hle). unfold holds, c_gt, c_cmp in Hx. rewrite Ex in Hx. simpl in Hx.
  apply bool_decide_eq_true in Hx. destruct (Z.compare_spec x (pe_now pe)); simplify_eq; lia.
Qed.
End issued.
