(* ===== verification/Sessions.v ===== *)
(** * The session ledger that auth.py asks of its store ([StoreProto])

    [StoreProto] names the calls that [AuthService] makes; two classes of the
    repository implement it, [InMemoryStore] and [PgStore]. For the calls on
    refresh tokens, [session_spec] is what they promise, as a function on a
    finite map; [SessionStore] is the interface and [SessionLaws] the promise.
    The calls of both stores keep it ([mem_session_laws], [pg_session_laws]), so
    the stores agree, and what follows from the promise is stated of each. *)
From S2P Require Import Prelude PyText Json StoreState Prims Rbac Users Tokens Ledger Sql Migrations.
From S2P Require Import Schema PgBase PgTenants PgUsers PgTokens PgLedger PgSteps PgProps PgSingleUse.
From S2P Require Import PgAudit PgGaps.
#[local] Opaque schema.

(** ** The promise *)

Inductive session_op : Type :=
  | InsertToken (jti family_id tenant_id user_id : string) (expires_at : Z)
      (replaced_by : option string) (status : string)
  | GetToken (jti : string)
  | RotateToken (old_jti new_jti : string)
  | RevokeFamily (family_id : string)
  | RevokeSessions (user_id : string).
Inductive session_answer : Type :=
  | Token (o : option RefreshToken)
  | Rotated (b : bool)
  | Revoked (n : Z)
  | Mistyped.

Abbreviation ledger := (gmap string RefreshToken).
Definition rotated_to (new_jti : string) (r : RefreshToken) : RefreshToken :=
  set_rt_replaced_by (Some new_jti) (set_rt_status "rotated" r).
Definition revoked_if (P : RefreshToken -> bool) (r : RefreshToken) : RefreshToken :=
  if P r && bool_decide (rt_status r <> "revoked") then set_rt_status "revoked" r else r.
Definition to_revoke (P : RefreshToken -> bool) (L : ledger) : ledger :=
  filter (fun kv => P kv.2 && bool_decide (rt_status kv.2 <> "revoked") = true) L.
Definition session_spec (now : Z) (op : session_op) (L : ledger) : session_answer * ledger :=
  match op with
  | InsertToken jti f t u exp rb st =>
      let r := mkRefreshToken jti f t u st now exp rb in (Token (Some r), <[jti := r]> L)
  | GetToken jti => (Token (L !! jti), L)
  | RotateToken old new =>
      match L !! old with
      | Some r => if decide (rt_status r = "active") then (Rotated true, <[old := rotated_to new r]> L)
                  else (Rotated false, L)
      | None => (Rotated false, L)
      end
  | RevokeFamily f =>
      let P r := bool_decide (rt_family_id r = f) in
      (Revoked (Z.of_nat (size (to_revoke P L))), revoked_if P <$> L)
  | RevokeSessions u =>
      let P r := bool_decide (rt_user_id r = u) in
      (Revoked (Z.of_nat (size (to_revoke P L))), revoked_if P <$> L)
  end.

(** A store for workers [Wk] with a clock: the calls, the ledger it holds, the
    states it can be in and the workers the promise is made to. *)
Class SessionStore (Wk St : Type) := {
  session_do : Wk -> session_op -> M St session_answer;
  session_clock : Wk -> Z;
  session_view : St -> ledger;
  session_ok : St -> Prop;
  session_able : Wk -> Prop
}.
(** An answer is the one of the promise; a call that raises has changed nothing. *)
Class SessionLaws (Wk St : Type) `{SessionStore Wk St} : Prop := {
  session_keeps wk op s : session_ok s -> session_ok (session_do wk op s).2;
  session_meets wk op s a s' :
    session_ok s -> session_able wk -> session_do wk op s = (Ok a, s') ->
    session_spec (session_clock wk) op (session_view s) = (a, session_view s');
  session_raises wk op s x s' :
    session_ok s -> session_able wk -> session_do wk op s = (Raise x, s') ->
    session_view s' = session_view s
}.

(** ** Dicts and maps *)

Section dicts.
Context {V : Type}.
Implicit Types d : list (string * V).

Lemma map_dset k v d : (list_to_map (dset k v d) : gmap string V) = <[k := v]> (list_to_map d).
Proof.
  apply map_eq. intros k'. rewrite <- dget_list_to_map, dget_dset, lookup_insert, <- dget_list_to_map.
  by repeat case_decide; subst.
Qed.
Lemma map_dmap (f : V -> V) d :
  (list_to_map (dmap (fun _ => f) d) : gmap string V) = f <$> list_to_map d.
Proof. apply map_eq. intros k. by rewrite lookup_fmap, <- !dget_list_to_map, dget_dmap. Qed.
(** Counting the selected values of a dict. *)
Lemma size_selected (Q : V -> bool) d : dict_wf d ->
  size (filter (fun kv => Q kv.2 = true) (list_to_map d : gmap string V)) =
  length (filter (fun v => Q v = true) (dvalues d)).
Proof.
  unfold dict_wf, dvalues, dkeys. induction d as [|[k v] d IH]; intros Hwf; [done|].
  csimpl in *. apply NoDup_cons in Hwf as [Hk Hwf]. apply (not_elem_of_list_to_map_1 (M:=gmap string)) in Hk.
  rewrite map_filter_insert, filter_cons. csimpl. case_decide.
  - rewrite map_size_insert_None by (by apply map_lookup_filter_None; left). csimpl. by rewrite IH.
  - by rewrite delete_id, IH.
Qed.
End dicts.

(** ** InMemoryStore *)

Definition mem_session (now : Z) (op : session_op) : M Store session_answer :=
  match op with
  | InsertToken jti f t u exp rb st =>
      let! r := insert_refresh_token now jti f t u exp rb st in ret (Token (Some r))
  | GetToken jti => let! o := gets (get_refresh_token jti) in ret (Token o)
  | RotateToken old new => let! b := rotate_refresh_token old new in ret (Rotated b)
  | RevokeFamily f => let! n := revoke_refresh_family f in ret (Revoked n)
  | RevokeSessions u => let! n := revoke_user_sessions u in ret (Revoked n)
  end.
#[export] Instance mem_sessions : SessionStore Z Store := {|
  session_do := mem_session;
  session_clock := id;
  session_view s := list_to_map (refresh_tokens s);
  session_ok s := dict_wf (refresh_tokens s);
  session_able _ := True
|}.

Lemma revoke_where_ledger (Q : RefreshToken -> Prop) `{forall r, Decision (Q r)} (P : RefreshToken -> bool) s :
  (forall r, P r = bool_decide (Q r)) -> dict_wf (refresh_tokens s) ->
  exists s', revoke_where Q s = (Ok (Z.of_nat (size (to_revoke P (list_to_map (refresh_tokens s))))), s') /\
    refresh_tokens s' = dmap (fun _ => revoked_if P) (refresh_tokens s).
Proof.
  intros HP Hwf. unfold revoke_where, bind, gets, modify, ret. eexists. split; [f_equal; f_equal|].
  - unfold to_revoke, zlen. f_equal.
    etrans; [|symmetry; exact (size_selected (fun r => P r && bool_decide (rt_status r <> "revoked")) _ Hwf)].
    f_equal. apply list_filter_iff. intros r. rewrite HP, andb_true_iff, !bool_decide_eq_true. done.
  - simpl. unfold dmap. apply list_fmap_ext. intros i [k r] _. simpl. f_equal. unfold revoked_if. rewrite HP.
    repeat case_decide; repeat case_bool_decide; naive_solver.
Qed.

Lemma mem_session_run now op s :
  dict_wf (refresh_tokens s) ->
  exists a s', mem_session now op s = (Ok a, s') /\ dict_wf (refresh_tokens s') /\
    session_spec now op (list_to_map (refresh_tokens s)) = (a, list_to_map (refresh_tokens s')).
Proof.
  intros Hwf. destruct op as [jti f t u exp rb st|jti|old new|f|u]; simpl.
  - eexists _, _. split; [done|]. simpl. rewrite map_dset. split; [by apply dict_wf_dset|done].
  - eexists _, _. split; [done|]. split; [done|]. simpl. unfold get_refresh_token. by rewrite dget_list_to_map.
  - unfold rotate_refresh_token, bind, gets. rewrite <- dget_list_to_map.
    destruct (dget old (refresh_tokens s)) as [r|]; [|by eexists _, _].
    unfold rotated_to. repeat case_decide; try done; eexists _, _; (split; [done|]); simpl.
    + done.
    + rewrite map_dset. split; [by apply dict_wf_dset|done].
  - destruct (revoke_where_ledger (fun r => rt_family_id r = f) (fun r => bool_decide (rt_family_id r = f)) s)
      as (s' & E & Es); [done..|].
    unfold revoke_refresh_family, bind. rewrite E. eexists _, _. split; [done|].
    rewrite Es, map_dmap. split; [by apply dict_wf_dmap|done].
  - destruct (revoke_where_ledger (fun r => rt_user_id r = u) (fun r => bool_decide (rt_user_id r = u)) s)
      as (s' & E & Es); [done..|].
    unfold revoke_user_sessions, bind. rewrite E. eexists _, _. split; [done|].
    rewrite Es, map_dmap. split; [by apply dict_wf_dmap|done].
Qed.

#[export] Instance mem_session_laws : SessionLaws Z Store.
Proof.
  split; simpl; unfold id; intros wk op s; [intros Hok|intros ? ? Hok _|intros ? ? Hok _];
    destruct (mem_session_run wk op s Hok) as (a1 & s1 & -> & Hwf & E); intros; by simplify_eq.
Qed.

(** ** PgStore *)

Definition sv_text (v : sval) : string := match v with VText s => s | _ => "" end.
Definition sv_opt (v : sval) : option string := match v with VText s => Some s | _ => None end.
Definition sv_time (v : sval) : Z := match v with VTime t => t | _ => 0 end.
Definition row_token (r : row) : RefreshToken :=
  mkRefreshToken (sv_text (col "jti" r)) (sv_text (col "family_id" r)) (sv_text (col "tenant_id" r))
    (sv_text (col "user_id" r)) (sv_text (col "status" r)) (sv_time (col "issued_at" r))
    (sv_time (col "expires_at" r)) (sv_opt (col "replaced_by" r)).
Definition token_rows (db : Db) : list (string * RefreshToken) :=
  (fun r => (sv_text (col "jti" r), row_token r)) <$> rows "refresh_tokens" db.

(** The fields of a row, read at their exact Python type. A time is read as the
    [float] that the in-process store has or as the [datetime] of asyncpg: both
    stand for the same number of microseconds, but only the reader of the type at
    hand answers. *)
Definition pv_text (v : pyval) : option string := match v with PStr s => Some s | _ => None end.
Definition pv_opt (v : pyval) : option (option string) :=
  match v with PStr s => Some (Some s) | PNone => Some None | _ => None end.
Definition pv_float (v : pyval) : option Z := match v with PFloat t => Some t | _ => None end.
Definition pv_datetime (v : pyval) : option Z := match v with PDatetime t => Some t | _ => None end.
Definition prow_token (issued expires : pyval -> option Z) (r : prow) : option RefreshToken :=
  j ← pv_text (pget "jti" r); f ← pv_text (pget "family_id" r); t ← pv_text (pget "tenant_id" r);
  u ← pv_text (pget "user_id" r); st ← pv_text (pget "status" r); i ← issued (pget "issued_at" r);
  x ← expires (pget "expires_at" r); rb ← pv_opt (pget "replaced_by" r);
  Some (mkRefreshToken j f t u st i x rb).
Definition token_answer (issued expires : pyval -> option Z) (o : option prow) : session_answer :=
  match o with
  | None => Token None
  | Some r => from_option (fun t => Token (Some t)) Mistyped (prow_token issued expires r)
  end.

Section pg_sessions.
Context `{Asyncpg}.

Definition pg_session (pe : PgEnv) (op : session_op) : prog session_answer :=
  match op with
  | InsertToken jti f t u exp rb st =>
      let* o := pg_insert_refresh_token pe jti f t u exp rb st in pret (token_answer pv_datetime pv_datetime o)
  | GetToken jti => let* o := pg_get_refresh_token pe jti in pret (token_answer pv_datetime pv_float o)
  | RotateToken old new => let* b := pg_rotate_refresh_token pe old new in pret (Rotated b)
  | RevokeFamily f => let* n := pg_revoke_refresh_family pe f in pret (Revoked n)
  | RevokeSessions u => let* n := pg_revoke_user_sessions pe u in pret (Revoked n)
  end.
#[export] Instance pg_sessions : SessionStore PgEnv Db := {|
  session_do pe op := exec (pg_session pe op);
  session_clock := pe_now;
  session_view db := list_to_map (token_rows db);
  session_ok := db_ok schema;
  session_able pe := pe_ctx pe = None /\ scans pe
|}.

(** Every call is one statement, so that the calls of any number of workers
    take effect one after the other. *)
Lemma pg_session_atomic pe op :
  exists a k, pg_session pe op = Act a k /\ forall r, exists x, k r = Return x.
Proof. destruct op; eexists _, _; (split; [reflexivity|]); intros [rs|x]; by eexists. Qed.

Abbreviation tokens_table := (table_of "refresh_tokens").
Lemma tokens_dget : dget "refresh_tokens" schema = Some tokens_table.
Proof. vm_compute. reflexivity. Qed.

(** *** Rows of the table *)

Record typed_row (r : row) : Prop := {
  ty_texts : Forall (fun c => col c r = VText (sv_text (col c r)))
               ["jti"; "family_id"; "tenant_id"; "user_id"; "status"];
  ty_times : Forall (fun c => col c r = VTime (sv_time (col c r))) ["issued_at"; "expires_at"];
  ty_next : col "replaced_by" r = vtext (sv_opt (col "replaced_by" r))
}.
Lemma col_typed td r k : row_error td r = None -> k ∈ tb_cols td ->
  type_ok (c_type k) (col (c_name k) r) = true /\ (c_notnull k = true -> col (c_name k) r <> VNull).
Proof.
  intros (Ht & Hn & _)%row_error_None Hk. unfold row_types_ok in Ht.
  rewrite forallb_Forall, Forall_forall in Ht. split; [by apply Ht|].
  unfold null_error in Hn. rewrite existsb_false, Forall_forall in Hn. specialize (Hn k Hk).
  intros Hnn. rewrite Hnn in Hn. simpl in Hn. by apply bool_decide_eq_false in Hn.
Qed.
Lemma row_typed db r : db_ok schema db -> r ∈ rows "refresh_tokens" db -> typed_row r.
Proof.
  intros Hok Hr. destruct (Hok "refresh_tokens" tokens_table) as [_ Hrows].
  { apply dget_elem_of, tokens_dget. }
  rewrite Forall_forall in Hrows. destruct (Hrows r Hr) as [He _].
  assert (forall k, k ∈ tb_cols tokens_table -> type_ok (c_type k) (col (c_name k) r) = true /\
    (c_notnull k = true -> col (c_name k) r <> VNull)) as Hc by (intros k; by apply col_typed).
  assert (forall c, mkColumn c TText true DNone ∈ tb_cols tokens_table \/
      mkColumn c TText true (DLit (VText "active")) ∈ tb_cols tokens_table ->
    col c r = VText (sv_text (col c r))) as Htext.
  { intros c [Hk|Hk]; destruct (Hc _ Hk) as [Ht Hn]; simpl in *; specialize (Hn eq_refl);
      by destruct (col c r). }
  assert (forall c d, mkColumn c TTime true d ∈ tb_cols tokens_table ->
    col c r = VTime (sv_time (col c r))) as Htime.
  { intros c d Hk; destruct (Hc _ Hk) as [Ht Hn]; simpl in *; specialize (Hn eq_refl); by destruct (col c r). }
  split.
  - repeat constructor; apply Htext; apply (bool_decide_unpack _); vm_compute; exact I.
  - repeat constructor; [apply (Htime _ DNow)|apply (Htime _ DNone)]; apply (bool_decide_unpack _); vm_compute; exact I.
  - assert (mkColumn "replaced_by" TText false DNone ∈ tb_cols tokens_table) as Hk.
    { apply (bool_decide_unpack _); vm_compute; exact I. }
    destruct (Hc _ Hk) as [Ht _]. simpl in Ht. by destruct (col "replaced_by" r).
Qed.
Lemma typed_text r c : typed_row r -> c ∈ ["jti"; "family_id"; "tenant_id"; "user_id"; "status"] ->
  col c r = VText (sv_text (col c r)).
Proof. intros [Ht _ _] Hc. by rewrite Forall_forall in Ht; apply Ht. Qed.

Lemma tokens_wf db : db_ok schema db -> dict_wf (token_rows db).
Proof.
  intros Hok. destruct (Hok "refresh_tokens" tokens_table) as [Hu _]; [apply dget_elem_of, tokens_dget|].
  unfold unique_ok in Hu. rewrite forallb_Forall, Forall_forall in Hu.
  specialize (Hu (pkey "refresh_tokens" ["jti"])). unfold key_ok in Hu.
  rewrite bool_decide_eq_true in Hu. simpl in Hu.
  assert (NoDup (omap (key_of ["jti"]) (rows "refresh_tokens" db))) as Hnd.
  { apply Hu. apply (bool_decide_unpack _). vm_compute. exact I. }
  clear Hu. unfold dict_wf, dkeys, token_rows. rewrite <- list_fmap_compose. simpl.
  assert (Forall (fun r => key_of ["jti"] r = Some [VText (sv_text (col "jti" r))]) (rows "refresh_tokens" db)) as Hk.
  { apply Forall_forall. intros r Hr. unfold key_of. simpl.
    rewrite (typed_text r "jti") by (eauto using row_typed; left). rewrite decide_False; [done|set_solver]. }
  assert (omap (key_of ["jti"]) (rows "refresh_tokens" db) =
          (fun t => [VText t]) <$> ((fun r => sv_text (col "jti" r)) <$> rows "refresh_tokens" db)) as E.
  { clear Hnd. induction Hk as [|r rs Hr _ IH]; csimpl; [done|]. by rewrite Hr, IH. }
  rewrite E in Hnd. by apply NoDup_fmap_1 in Hnd.
Qed.

(** What an update by a worker outside a tenant context does to the ledger. *)
Definition picks (w : cond) (P : RefreshToken -> bool) : Prop :=
  forall r, typed_row r -> holds w r = P (row_token r).
Lemma update_tokens pe sets w P g db rs db' :
  db_ok schema db -> pe_ctx pe = None -> picks w P -> "jti" ∉ sets.*1 ->
  (forall r, typed_row r -> row_token (set_row sets r) = g (row_token r)) ->
  update schema (_set_guc pe) "refresh_tokens" sets w db = (Ok rs, db') ->
  rs = set_row sets <$> filter (fun r => holds w r = true) (rows "refresh_tokens" db) /\
  length rs = length (filter (fun v => P v = true) (dvalues (token_rows db))) /\
  token_rows db' = dmap (fun _ v => if P v then g v else v) (token_rows db).
Proof.
  intros Hok Hc Hw Hj Hg E. apply update_effect in E as [_ (td & Htd & -> & ->)].
  rewrite tokens_dget in Htd. simplify_eq.
  assert (forall r, hit (_set_guc pe) tokens_table w r = holds w r) as Hh.
  { intros r. unfold hit. rewrite system_sees; [done|vm_compute; reflexivity|done]. }
  unfold written, updated, token_rows. rewrite rows_set_rows_eq.
  assert (Forall typed_row (rows "refresh_tokens" db)) as Hty.
  { apply Forall_forall. intros r. by apply row_typed. }
  assert (filter (fun r => hit (_set_guc pe) tokens_table w r = true) (rows "refresh_tokens" db) =
          filter (fun r => holds w r = true) (rows "refresh_tokens" db)) as ->.
  { apply list_filter_iff. intros r. by rewrite Hh. }
  split; [done|]. clear Hok. unfold dvalues, dmap. rewrite length_fmap, <- !list_fmap_compose. simpl.
  induction Hty as [|r l Hr _ [IH1 IH2]]; [done|]. csimpl. rewrite Hh, !filter_cons.
  rewrite (Hw r Hr). destruct (P (row_token r)) eqn:EP; csimpl.
  - rewrite Hg, IH2 by done. split; [by rewrite IH1|]. do 2 f_equal. by rewrite col_set_row.
  - by rewrite IH2.
Qed.

Lemma token_row_get db k v :
  db_ok schema db -> dget k (token_rows db) = Some v ->
  exists r, r ∈ rows "refresh_tokens" db /\ typed_row r /\ col "jti" r = VText k /\ v = row_token r.
Proof.
  intros Hok E%dget_elem_of. apply list_elem_of_fmap in E as (r & [= -> ->] & Hr).
  exists r. pose proof (row_typed _ _ Hok Hr) as Ht. split_and!; [done|done| |done].
  apply typed_text; [done|left].
Qed.
Lemma token_key db k v : db_ok schema db -> dget k (token_rows db) = Some v -> rt_jti v = k.
Proof.
  intros Hok E. destruct (token_row_get db k v Hok E) as (r & _ & _ & Hj & ->). simpl. by rewrite Hj.
Qed.

Lemma typed_fields `{!AsyncpgLaws} r : typed_row r ->
  Forall (fun c => pget c (decode_row r) = PStr (sv_text (col c r)))
    ["jti"; "family_id"; "tenant_id"; "user_id"; "status"] /\
  Forall (fun c => pget c (decode_row r) = PDatetime (sv_time (col c r))) ["issued_at"; "expires_at"] /\
  pv_opt (pget "replaced_by" (decode_row r)) = Some (sv_opt (col "replaced_by" r)).
Proof.
  intros [Ht Hm Hn]. split_and!.
  - eapply Forall_impl; [exact Ht|]. simpl. intros c Hc. by rewrite pget_decode, Hc, decode_text.
  - eapply Forall_impl; [exact Hm|]. simpl. intros c Hc. by rewrite pget_decode, Hc, decode_time.
  - rewrite pget_decode, Hn. destruct (sv_opt _); simpl; by autorewrite with asyncpg.
Qed.
(** A row as the driver gives it, and one whose [expires_at] went through
    [.timestamp()]. *)
Lemma decoded_token `{!AsyncpgLaws} r : typed_row r ->
  prow_token pv_datetime pv_datetime (decode_row r) = Some (row_token r).
Proof.
  intros (Ht & Hm & Hn)%typed_fields. unfold prow_token, row_token. rewrite Hn.
  repeat match goal with Hf : Forall _ (_ :: _) |- _ => apply Forall_cons in Hf as [-> Hf] end. done.
Qed.
Lemma decoded_got `{!AsyncpgLaws} r : typed_row r ->
  prow_token pv_datetime pv_float
    (pset "expires_at" (timestamp_or (pget "expires_at" (decode_row r))) (decode_row r)) = Some (row_token r).
Proof.
  intros (Ht & Hm & Hn)%typed_fields. unfold prow_token, row_token.
  assert (forall c, c <> "expires_at" -> forall v, pget c (pset "expires_at" v (decode_row r)) = pget c (decode_row r))
    as Hne by (intros c Hc v; unfold pget, pset; by rewrite dget_dset, decide_False).
  assert (forall v, pget "expires_at" (pset "expires_at" v (decode_row r)) = v) as He
    by (intros v; unfold pget, pset; by rewrite dget_dset, decide_True).
  rewrite He, !Hne, Hn by done.
  repeat match goal with Hf : Forall _ (_ :: _) |- _ => apply Forall_cons in Hf as [-> Hf] end. done.
Qed.

(** *** One call *)

Lemma typed_eq r c t : typed_row r -> c ∈ ["jti"; "family_id"; "tenant_id"; "user_id"; "status"] ->
  bool_decide (col c r = VText t) = bool_decide (sv_text (col c r) = t).
Proof.
  intros Hr Hc. pose proof (typed_text r c Hr Hc) as E. apply bool_decide_ext. split; [by intros ->|].
  intros Ht. by rewrite E, Ht.
Qed.

Lemma pg_insert_meets `{!AsyncpgLaws} pe jti f t u exp rb st db o db' :
  db_ok schema db -> pe_ctx pe = None ->
  exec (pg_insert_refresh_token pe jti f t u exp rb st) db = (Ok o, db') ->
  let r := mkRefreshToken jti f t u st (pe_now pe) exp rb in
  token_answer pv_datetime pv_datetime o = Token (Some r) /\
  list_to_map (token_rows db') = <[jti := r]> (list_to_map (token_rows db) : ledger).
Proof.
  intros Hok Hc E r. unfold pg_insert_refresh_token in E. rewrite exec_fetchrow in E.
  destruct (insert _ _ _ _ _ db) as [[rs|] db1] eqn:Ei; simplify_eq/=.
  assert (db_ok schema db') as Hok' by (revert Hok; by eapply insert_ok_kept).
  apply insert_adds in Ei as (td & x & db1 & Htd & Hb & _ & -> & ->). rewrite tokens_dget in Htd. simplify_eq/=.
  pose proof (build_row_tables _ _ _ _ _ _ Hb) as Htb.
  assert (rows "refresh_tokens" db1 = rows "refresh_tokens" db) as Er by (unfold rows; by rewrite Htb).
  assert (x ∈ rows "refresh_tokens" (set_rows "refresh_tokens" (rows "refresh_tokens" db1 ++ [x]) db1)) as Hx.
  { rewrite rows_set_rows_eq. set_solver. }
  pose proof (row_typed _ _ Hok' Hx) as Hty. pose proof (tokens_wf _ Hok') as Hwf.
  unfold token_rows in *. rewrite rows_set_rows_eq, Er, fmap_app in *. simpl in *.
  assert (sv_text (col "jti" x) = jti /\ row_token x = r) as [Hj Hr].
  { vm_compute in Hb. simplify_eq/=. by destruct rb. }
  rewrite decoded_token by done. rewrite Hj, Hr in *. split; [done|].
  rewrite <- map_dset, dset_fresh; [done|]. unfold dict_wf, dkeys in Hwf. rewrite fmap_app in Hwf.
  apply NoDup_app in Hwf as (_ & Hn & _). intros Hin. apply (Hn jti Hin). simpl. set_solver.
Qed.

Lemma pg_get_meets `{!AsyncpgLaws} pe jti db o db' :
  db_ok schema db -> pe_ctx pe = None -> scans pe ->
  exec (pg_get_refresh_token pe jti) db = (Ok o, db') ->
  token_answer pv_datetime pv_float o = Token ((list_to_map (token_rows db) : ledger) !! jti) /\ db' = db.
Proof.
  intros Hok Hc Hscan E. rewrite <- dget_list_to_map. unfold pg_get_refresh_token in E.
  rewrite exec_bind in E. unfold bind in E. rewrite exec_fetchrow in E.
  destruct (dget jti (token_rows db)) as [v|] eqn:Ev.
  - destruct (token_row_get _ _ _ Hok Ev) as (r & Hr & Hty & Hj & ->).
    destruct (select_one schema (_set_guc pe) "refresh_tokens" tokens_table "refresh_tokens_pkey" "jti" jti db r)
      as [rs Es]; [done|apply tokens_dget|apply (bool_decide_unpack _); vm_compute; exact I|done|done| |done|].
    { apply system_sees; [vm_compute; reflexivity|done]. }
    rewrite Es in E. simplify_eq/=. split; [|done]. by rewrite decoded_got.
  - destruct (select_answers (_set_guc pe) "refresh_tokens" tokens_table ("jti" =. VText jti) [] db tokens_dget)
      as [rs Es].
    rewrite Es in E. simplify_eq/=. split; [|done]. destruct rs as [|x rs]; [done|]. exfalso.
    destruct (selected schema (_set_guc pe) "refresh_tokens" tokens_table _ _ _ _ _ _ x tokens_dget Hscan Es) as [Hx Hw];
      [by left|]. rewrite holds_eq, bool_decide_eq_true in Hw.
    apply dget_None in Ev. apply Ev.
    unfold dkeys, token_rows. rewrite <- list_fmap_compose. apply list_elem_of_fmap. exists x. simpl. by rewrite Hw.
Qed.

(** The token under [old], if it may rotate. *)
Definition may_rotate (old : string) (v : RefreshToken) : bool :=
  bool_decide (rt_jti v = old) && bool_decide (rt_status v = "active").
Lemma may_rotate_key db old i v :
  db_ok schema db -> dget i (token_rows db) = Some v ->
  may_rotate old v = bool_decide (i = old /\ rt_status v = "active").
Proof.
  intros Hok Hv. unfold may_rotate. rewrite (token_key _ _ _ Hok Hv). by repeat case_bool_decide; naive_solver.
Qed.
Lemma rotation_target db old :
  db_ok schema db ->
  filter (fun v => may_rotate old v = true) (dvalues (token_rows db)) <> [] <->
  exists v, dget old (token_rows db) = Some v /\ rt_status v = "active".
Proof.
  intros Hok. split.
  - intros Hne. destruct (filter _ _) as [|v l] eqn:Ef; [done|]. exists v.
    assert (v ∈ v :: l) as Hv by left. rewrite <- Ef in Hv. apply list_elem_of_filter in Hv as [Hp Hv].
    apply elem_of_dvalues in Hv as [k Hk]; [|by apply tokens_wf].
    rewrite (may_rotate_key _ _ _ _ Hok Hk), bool_decide_eq_true in Hp. by destruct Hp as [-> ?].
  - intros (v & Hv & Hs) Ef. apply (not_elem_of_nil v). rewrite <- Ef. apply list_elem_of_filter.
    rewrite (may_rotate_key _ _ _ _ Hok Hv), bool_decide_eq_true_2 by done. split; [done|].
    apply elem_of_dvalues; [by apply tokens_wf|eauto].
Qed.
Lemma rotated_map db old new :
  db_ok schema db ->
  (fun v => if may_rotate old v then rotated_to new v else v) <$> (list_to_map (token_rows db) : ledger) =
  match dget old (token_rows db) with
  | Some r => if decide (rt_status r = "active") then <[old := rotated_to new r]> (list_to_map (token_rows db))
              else list_to_map (token_rows db)
  | None => list_to_map (token_rows db)
  end.
Proof.
  intros Hok. apply map_eq. intros i. rewrite lookup_fmap, <- dget_list_to_map.
  destruct (dget i (token_rows db)) as [v|] eqn:Ei; simpl.
  - rewrite (may_rotate_key _ _ _ _ Hok Ei). case_bool_decide as D.
    + destruct D as [-> Hs]. by rewrite Ei, decide_True, lookup_insert, decide_True.
    + destruct (dget old _) as [r|] eqn:Eo; [case_decide|]; rewrite ?lookup_insert, <- ?dget_list_to_map, ?Ei; [|done..].
      rewrite decide_False; [done|]. intros ->. naive_solver.
  - destruct (dget old _) as [r|] eqn:Eo; [case_decide|]; rewrite ?lookup_insert, <- ?dget_list_to_map, ?Ei; [|done..].
    rewrite decide_False; [done|]. intros ->. congruence.
Qed.

Lemma first_jti `{!AsyncpgLaws} sets l : Forall typed_row l -> "jti" ∉ sets.*1 ->
  val_is_not_none (first_value (proj ["jti"] <$> (set_row sets <$> l))) = bool_decide (l <> []).
Proof.
  intros Hl Hj. destruct Hl as [|r l Hr _]; [done|]. simpl. rewrite col_set_row by done.
  rewrite (typed_text r "jti") by (done || left). by rewrite decode_text.
Qed.

Lemma pg_rotate_meets `{!AsyncpgLaws} pe old new db b db' :
  db_ok schema db -> pe_ctx pe = None ->
  exec (pg_rotate_refresh_token pe old new) db = (Ok b, db') ->
  session_spec (pe_now pe) (RotateToken old new) (list_to_map (token_rows db)) =
    (Rotated b, list_to_map (token_rows db')).
Proof.
  intros Hok Hc E. unfold pg_rotate_refresh_token in E. rewrite exec_bind in E. unfold bind in E.
  rewrite exec_fetchval in E. destruct (update _ _ _ _ _ db) as [[rs|] db1] eqn:Eu; simplify_eq/=.
  eapply (update_tokens _ _ _ (may_rotate old) (rotated_to new)) in Eu as (Ers & Hn & Ht);
    [|done|done| |set_solver|].
  2: { intros r Hr. rewrite holds_and, !holds_eq, !typed_eq by (done || set_solver). done. }
  2: { intros r Hr. unfold row_token, rotated_to, set_row. simpl. by rewrite !col_dset. }
  assert (val_is_not_none (first_value (proj ["jti"] <$> rs)) =
          bool_decide (filter (fun v => may_rotate old v = true) (dvalues (token_rows db)) <> [])) as ->.
  { rewrite Ers, first_jti; [|apply Forall_forall; intros r [_ Hr]%list_elem_of_filter; by eapply row_typed|set_solver].
    apply bool_decide_ext. rewrite Ers, length_fmap in Hn.
    by destruct (filter _ (rows _ _)), (filter _ (dvalues _)). }
  pose proof (rotation_target db old Hok) as Htgt.
  rewrite Ht, map_dmap, rotated_map, <- dget_list_to_map by done.
  destruct (dget old (token_rows db)) as [v|] eqn:Ev; [case_decide as Hs|].
  - by rewrite bool_decide_eq_true_2 by (apply Htgt; eauto).
  - by rewrite bool_decide_eq_false_2 by (rewrite Htgt; naive_solver).
  - by rewrite bool_decide_eq_false_2 by (rewrite Htgt; naive_solver).
Qed.

Lemma pg_revoke_meets `{!AsyncpgLaws} pe w P db n db' :
  db_ok schema db -> pe_ctx pe = None -> picks w P ->
  exec (pg_revoke_where pe w) db = (Ok n, db') ->
  n = Z.of_nat (size (to_revoke P (list_to_map (token_rows db)))) /\
  list_to_map (token_rows db') = revoked_if P <$> (list_to_map (token_rows db) : ledger).
Proof.
  intros Hok Hc Hw E. unfold pg_revoke_where in E. rewrite exec_bind in E. unfold bind in E. simpl in E.
  unfold count_rows, a_map in E. destruct (update _ _ _ _ _ db) as [[rs|] db1] eqn:Eu; simplify_eq/=.
  rewrite decode_int. simpl.
  eapply (update_tokens _ _ _ (fun v => P v && bool_decide (rt_status v <> "revoked")) (set_rt_status "revoked"))
    in Eu as (_ & Hn & Ht); [|done|done| |set_solver|].
  2: { intros r Hr. rewrite holds_and, (Hw r Hr). f_equal. unfold holds, c_ne, veq. simpl.
       rewrite (typed_text r "status" Hr) by set_solver. rewrite decide_False by naive_solver.
       simpl. destruct (decide (sv_text (col "status" r) = "revoked")) as [->|D]; [done|].
       rewrite (bool_decide_eq_false_2 (VText _ = _)) by congruence. by rewrite !bool_decide_eq_true_2. }
  2: { intros r Hr. unfold row_token, set_row. simpl. by rewrite !col_dset. }
  split.
  - unfold zlen. rewrite Hn. f_equal. symmetry.
    exact (size_selected (fun v => P v && bool_decide (rt_status v <> "revoked")) _ (tokens_wf _ Hok)).
  - by rewrite Ht, map_dmap.
Qed.

Lemma pg_session_keeps pe op : keeps ok_kept (pg_session pe op).
Proof.
  destruct op; cbn [pg_session]; autounfold with pgm; unfold pg_get_refresh_token; pg_keeps;
    first [apply insert_ok_kept | apply update_ok_kept].
Qed.
(** A call that raises has written nothing. *)
Lemma pg_session_unchanged pe op db x db' :
  exec (pg_session pe op) db = (Raise x, db') -> db_tables db' = db_tables db.
Proof.
  destruct op; simpl; unfold pg_get_refresh_token, pg_rotate_refresh_token, pg_revoke_refresh_family,
    pg_revoke_user_sessions, pg_revoke_where, fetchval, fetchrow; simpl; unfold returning, count_rows, a_map.
  - destruct (insert _ _ _ _ _ db) as [[rs|y] db1] eqn:E; intros; simplify_eq/=. by eapply insert_raises.
  - destruct (select _ _ _ _ _ _ db) as [[rs|y] db1] eqn:E; intros; simplify_eq/=.
  - destruct (update _ _ _ _ _ db) as [[rs|y] db1] eqn:E; intros; simplify_eq/=. by apply update_effect in E as [_ ->].
  - destruct (update _ _ _ _ _ db) as [[rs|y] db1] eqn:E; intros; simplify_eq/=. by apply update_effect in E as [_ ->].
  - destruct (update _ _ _ _ _ db) as [[rs|y] db1] eqn:E; intros; simplify_eq/=. by apply update_effect in E as [_ ->].
Qed.

Lemma exec_bind_ok {A B} (m : prog A) (f : A -> B) db b db' :
  exec (let* a := m in pret (f a)) db = (Ok b, db') -> exists a, exec m db = (Ok a, db') /\ b = f a.
Proof.
  rewrite exec_bind. unfold bind. destruct (exec m db) as [[a|] db1]; [|done]. simpl. intros. simplify_eq. eauto.
Qed.
Lemma picks_eq (c t : string) (f : RefreshToken -> string) :
  c ∈ ["jti"; "family_id"; "tenant_id"; "user_id"; "status"] ->
  (forall r, f (row_token r) = sv_text (col c r)) -> picks (c =. VText t) (fun v => bool_decide (f v = t)).
Proof. intros Hc Hf r Hr. by rewrite holds_eq, typed_eq, Hf. Qed.

#[export] Instance pg_session_laws `{!AsyncpgLaws} : SessionLaws PgEnv Db.
Proof.
  split; simpl.
  - intros pe op db. destruct (exec _ db) as [r db'] eqn:E. by eapply (exec_keeps ok_kept), E; apply pg_session_keeps.
  - intros pe op db a db' Hok [Hc Hscan] E.
    destruct op as [jti f t u exp rb st|jti|old new|f|u]; cbn [pg_session] in E; apply exec_bind_ok in E as (y & E & ->).
    + apply pg_insert_meets in E as [-> ->]; done.
    + apply pg_get_meets in E as [-> ->]; done.
    + by apply pg_rotate_meets.
    + eapply pg_revoke_meets in E as [-> ->]; [done..|]. by apply (picks_eq "family_id" f rt_family_id); [set_solver|].
    + eapply pg_revoke_meets in E as [-> ->]; [done..|]. by apply (picks_eq "user_id" u rt_user_id); [set_solver|].
  - intros pe op db x db' _ _ E%pg_session_unchanged. unfold token_rows, rows. by rewrite E.
Qed.
End pg_sessions.

(** ** Histories *)

(** The calls of any number of workers in the order in which they take effect;
    [None] is a call that raised. *)
Fixpoint session_run `{SessionStore Wk St} (l : list (Wk * session_op)) (s : St)
    : list (option session_answer) * St :=
  match l with
  | [] => ([], s)
  | (wk, op) :: l' =>
      let '(r, s1) := session_do wk op s in
      let '(rs, s2) := session_run l' s1 in
      (match r with Ok a => Some a | Raise _ => None end :: rs, s2)
  end.
(** The calls that were answered, with their clock. *)
Definition answered_calls `{SessionStore Wk St} (l : list (Wk * session_op)) (ans : list (option session_answer))
    : list (Z * session_op) :=
  omap (fun p => (fun _ => (session_clock p.1.1, p.1.2)) <$> p.2) (zip l ans).
(** How often [j] was rotated. *)
Definition rotates (j : string) (op : session_op) : bool :=
  match op with RotateToken old _ => bool_decide (old = j) | _ => false end.
Definition was_rotated (o : option session_answer) : bool :=
  match o with Some (Rotated b) => b | _ => false end.
Definition rotations {Wk} (j : string) (l : list (Wk * session_op)) (ans : list (option session_answer)) : nat :=
  length (filter (fun p => rotates j p.1.2 && was_rotated p.2 = true) (zip l ans)).
Definition inserts (j : string) (op : session_op) : bool :=
  match op with InsertToken jti _ _ _ _ _ _ => bool_decide (jti = j) | _ => false end.

(** [1] while the token may rotate. *)
Definition rotations_left (j : string) (L : ledger) : nat :=
  match L !! j with Some r => if decide (rt_status r = "active") then 1 else 0 | None => 0 end.
Lemma spec_rotations now op j L a L' :
  session_spec now op L = (a, L') -> inserts j op = false ->
  ((if rotates j op && was_rotated (Some a) then 1 else 0) + rotations_left j L' <= rotations_left j L)%nat.
Proof.
  unfold rotations_left. intros E Hi. destruct op as [jti f t u exp rb st|jti|old new|f|u]; simplify_eq/=.
  - apply bool_decide_eq_false in Hi. rewrite lookup_insert_ne by done. lia.
  - lia.
  - destruct (L !! old) as [r|] eqn:Eo; [case_decide as Hs|]; simplify_eq/=; [|rewrite andb_false_r; lia..].
    case_bool_decide as D; simpl; [subst|rewrite lookup_insert_ne by done; lia].
    rewrite lookup_insert, Eo. repeat case_decide; simplify_eq/=; lia.
  - rewrite lookup_fmap. destruct (L !! j) as [r|]; [|done]. simpl. unfold revoked_if. case_match; [|lia].
    simpl. repeat case_decide; simplify_eq/=; lia.
  - rewrite lookup_fmap. destruct (L !! j) as [r|]; [|done]. simpl. unfold revoked_if. case_match; [|lia].
    simpl. repeat case_decide; simplify_eq/=; lia.
Qed.

Section clients.
Context `{SessionLaws Wk St}.

Lemma run_rotations j l s ans s' :
  session_ok s -> Forall (fun c => session_able c.1 /\ inserts j c.2 = false) l ->
  session_run l s = (ans, s') -> (rotations j l ans <= rotations_left j (session_view s))%nat.
Proof.
  intros Hok Hl. revert s ans Hok. induction Hl as [|[wk op] l [Hab Hin] _ IH]; intros s ans Hok E; simpl in E.
  { simplify_eq. unfold rotations. simpl. lia. }
  destruct (session_do wk op s) as [r s1] eqn:Ed. destruct (session_run l s1) as [rs s2] eqn:Er. simplify_eq.
  pose proof (session_keeps wk op s Hok) as Hok1. rewrite Ed in Hok1. specialize (IH s1 rs Hok1 Er).
  unfold rotations in *. simpl. rewrite filter_cons. simpl in *. destruct r as [a|x].
  - pose proof (spec_rotations _ _ j _ _ _ (session_meets _ _ _ _ _ Hok Hab Ed) Hin) as Hle.
    case_decide as D; [|apply not_true_is_false in D]; rewrite D in Hle; simpl; lia.
  - rewrite <- (session_raises _ _ _ _ _ Hok Hab Ed), andb_false_r. by rewrite decide_False.
Qed.

Lemma client_rotations j l s ans s' :
  session_ok s -> Forall (fun c => session_able c.1 /\ inserts j c.2 = false) l ->
  session_run l s = (ans, s') ->
  (rotations j l ans <= 1)%nat /\
  (forall r, session_view s !! j = Some r -> rt_status r <> "active" -> rotations j l ans = 0%nat).
Proof.
  intros Hok Hl E. pose proof (run_rotations j l s ans s' Hok Hl E) as Hle. unfold rotations_left in Hle. split.
  - repeat case_match; lia.
  - intros r Hr Hs. rewrite Hr, decide_False in Hle by done. lia.
Qed.
End clients.

(** [C27] In either store a refresh token is rotated at most once, whatever calls
    on refresh tokens are made in whatever order, and never when it was not
    active to begin with: in the in-process store, and in PostgreSQL for the
    workers outside a tenant context, whose calls are one statement each
    ([pg_session_atomic]). Inserting its jti again is excluded. *)
Theorem rotates_once `{Asyncpg, !AsyncpgLaws} j :
  (forall (l : list (Z * session_op)) (s : Store) ans s',
     dict_wf (refresh_tokens s) -> Forall (fun c => inserts j c.2 = false) l -> session_run l s = (ans, s') ->
     (rotations j l ans <= 1)%nat /\
     (forall r, dget j (refresh_tokens s) = Some r -> rt_status r <> "active" -> rotations j l ans = 0%nat)) /\
  (forall (l : list (PgEnv * session_op)) (db : Db) ans db',
     db_ok schema db -> Forall (fun c => (pe_ctx c.1 = None /\ scans c.1) /\ inserts j c.2 = false) l ->
     session_run l db = (ans, db') ->
     (rotations j l ans <= 1)%nat /\
     (forall r, r ∈ rows "refresh_tokens" db -> col "jti" r = VText j -> col "status" r <> VText "active" ->
        rotations j l ans = 0%nat)).
Proof.
  split.
  - intros l s ans s' Hwf Hl E. destruct (client_rotations j l s ans s') as [? Hz]; [done| |done|split; [done|]].
    { eapply Forall_impl; [exact Hl|]. by split. }
    intros r Hr. apply Hz. simpl. by rewrite <- dget_list_to_map.
  - intros l db ans db' Hok Hl E. destruct (client_rotations j l db ans db') as [? Hz]; [done..|split; [done|]].
    intros r Hr Hj Hs. pose proof (row_typed _ _ Hok Hr) as Hty. apply (Hz (row_token r)).
    + simpl. rewrite <- dget_list_to_map. apply elem_of_dget; [by apply tokens_wf|].
      apply list_elem_of_fmap. exists r. by rewrite Hj.
    + simpl. intros Ha. apply Hs. by rewrite (typed_text r "status"), Ha by (done || set_solver).
Qed.

(** [C7] The two stores agree: whatever calls on refresh tokens the workers of
    PgStore make, outside a tenant context, the in-memory store with the same
    tokens gives the same answers to the calls that PgStore answered, made in
    the same order at the same times, and holds the same tokens afterwards. The
    in-memory store answers with times as [float]; of PgStore the insert answers
    with both times as [datetime], the get with [issued_at] as [datetime] and
    [expires_at] as [float] ([token_answer]), and the answers are the same up to
    exactly that. *)
Theorem stores_agree `{Asyncpg, !AsyncpgLaws} (l : list (PgEnv * session_op)) db ans db' s :
  db_ok schema db -> Forall (fun c => session_able c.1) l -> dict_wf (refresh_tokens s) ->
  session_view s = session_view db -> session_run l db = (ans, db') ->
  exists s', session_run (answered_calls l ans) s = (Some <$> omap id ans, s') /\
    session_view s' = session_view db'.
Proof.
  intros Hok Hl. revert db ans s Hok. induction Hl as [|[pe op] l Hab _ IH]; intros db ans s Hok Hwf Hv E; simpl in E.
  { simplify_eq. by exists s. }
  destruct (exec (pg_session pe op) db) as [r db1] eqn:Ed. destruct (session_run l db1) as [rs db2] eqn:Er. simplify_eq.
  pose proof (session_keeps pe op db Hok) as Hok1. simpl in Hok1. rewrite Ed in Hok1. simpl in Hok1.
  destruct r as [a|x].
  - pose proof (session_meets pe op db a db1 Hok Hab Ed) as Hm.
    destruct (mem_session_run (pe_now pe) op s Hwf) as (a' & s1 & Em & Hwf1 & Hs).
    simpl in Hv, Hm. rewrite Hv, Hm in Hs. simplify_eq.
    destruct (IH db1 rs s1 Hok1 Hwf1 ltac:(done) Er) as (s' & Es & Hv').
    exists s'. split; [|done].
    change (answered_calls ((pe, op) :: l) (Some a' :: rs)) with ((pe_now pe, op) :: answered_calls l rs).
    cbn [session_run]. change (session_do (pe_now pe) op s) with (mem_session (pe_now pe) op s). by rewrite Em, Es.
  - pose proof (session_raises pe op db x db1 Hok Hab Ed) as Hr.
    destruct (IH db1 rs s Hok1 Hwf ltac:(by rewrite Hv, Hr) Er) as (s' & Es & Hv').
    exists s'. split; [|done]. exact Es.
Qed.
