(* ===== verification/AuthLemmas.v ===== *)
(** * Lemmas on the authentication service

    Every method acts through store operations; closed forms of the methods
    on the branches the properties need. *)
From S2P Require Import Prelude PyText StoreState Prims AuditLog Tenants Rbac Users Keys.
From S2P Require Import Tokens Ledger Crypto Jwt Jwks Auth StoreSteps Invariants.
From S2P Require Import TableProps.

(** ** The service acts through the store *)
Section auth_safe.
Context `{HashLib, Argon2Lib, JwtLib, AeadLib, RsaLib, TotpLib}.
Variables (cfg : AuthConfig) (ring : KeyRing) (now : Z).

Lemma safe_authorize c : safe (authorize now c).
Proof. unfold authorize. solve_safe. Qed.
Lemma safe_record_failed_login u t : safe (record_failed_login now u t).
Proof. unfold record_failed_login. solve_safe. Qed.
Lemma safe_resolve_login_tenant u : safe (resolve_login_tenant u).
Proof. unfold resolve_login_tenant. solve_safe. Qed.
Lemma safe_issue_login_pair d u t r n a : safe (issue_login_pair cfg ring now d u t r n a).
Proof. unfold issue_login_pair. destruct (issue _ _ _ _ _ _ _ _ "access"), (issue _ _ _ _ _ _ _ _ _). solve_safe. Qed.
#[local] Hint Resolve safe_authorize safe_record_failed_login safe_resolve_login_tenant
  safe_issue_login_pair : safe.
Lemma safe_login_verified d req u : safe (login_verified cfg ring now d req u).
Proof. unfold login_verified. solve_safe. Qed.
#[local] Hint Resolve safe_login_verified : safe.
Lemma safe_login d req skip : safe (login cfg ring now d req skip).
Proof. unfold login, hash_password. solve_safe. Qed.
Lemma safe_issue_sso_ticket rnd u t r : safe (issue_sso_ticket cfg now rnd u t r).
Proof. unfold issue_sso_ticket. solve_safe. Qed.
Lemma safe_exchange_sso_ticket d t : safe (exchange_sso_ticket cfg ring now d t).
Proof. unfold exchange_sso_ticket. solve_safe. Qed.
Lemma safe_verify t : safe (verify cfg ring now t).
Proof. unfold verify. solve_safe. Qed.
Lemma safe_resolve_bearer_claims h : safe (resolve_bearer_claims cfg ring now h).
Proof. unfold resolve_bearer_claims. solve_safe. Qed.
Lemma safe_introspect t : safe (introspect cfg ring now t).
Proof. unfold introspect. solve_safe. Qed.
Lemma safe_issue_session_token j s t r ttl : safe (issue_session_token cfg ring now j s t r ttl).
Proof. unfold issue_session_token. solve_safe. Qed.
Lemma safe_verify_session_token t : safe (verify_session_token cfg ring now t).
Proof. unfold verify_session_token. solve_safe. Qed.
Lemma safe_revoke_user_sessions_and_tokens s t : safe (revoke_user_sessions_and_tokens now s t).
Proof. unfold revoke_user_sessions_and_tokens. solve_safe. Qed.
Lemma safe_refresh a n t : safe (refresh cfg ring now a n t).
Proof. unfold refresh, refuse_reuse. solve_safe. Qed.
Lemma safe_revoke j t u : safe (revoke now j t u).
Proof. unfold revoke. solve_safe. Qed.
Lemma safe_logout c t : safe (logout cfg ring now c t).
Proof. unfold logout. solve_safe. Qed.
Lemma safe_change_password a u o n t : safe (change_password now a u o n t).
Proof. unfold change_password, hash_password. solve_safe. Qed.
Lemma safe_enroll_mfa r n u : safe (enroll_mfa cfg now r n u).
Proof. unfold enroll_mfa. solve_safe. Qed.
Lemma safe_verify_mfa u c m : safe (verify_mfa cfg now u c m).
Proof. unfold verify_mfa. solve_safe. Qed.
Lemma safe_bootstrap salt a p t : safe (bootstrap now salt a p t).
Proof.
  unfold bootstrap. solve_safe. apply safe_for_each. intros j. unfold seed_tenant. solve_safe.
Qed.
End auth_safe.

(** ** The revocation ledger *)

(** [jti] is on the ledger at [now], its entry not expired. *)
Definition revoked_now (now : Z) (jti : string) (s : Store) : bool :=
  match dget jti (revoked_jtis s) with
  | Some r => bool_decide (now <= r_expires_at r)
  | None => false
  end.
(** The store after the sweep of [is_jti_revoked]. *)
Definition swept (now : Z) (s : Store) : Store :=
  set_revoked_jtis (filter (fun kv => now <= r_expires_at kv.2) (revoked_jtis s)) s.

Lemma is_jti_revoked_run now jti s :
  dict_wf (revoked_jtis s) -> is_jti_revoked now jti s = (Ok (revoked_now now jti s), swept now s).
Proof.
  intros Hwf. unfold is_jti_revoked, bind, modify, gets, swept, revoked_now, dmem. simpl.
  rewrite dget_filter by done. destruct (dget jti (revoked_jtis s)) as [r|]; [|done]. simpl.
  repeat case_decide; by repeat case_bool_decide.
Qed.

Lemma revoke_jti_revoked now now' jti tid uid reason e s :
  now' <= revocation_expiry now e -> revoked_now now' jti (revoke_jti now jti tid uid reason e s).2 = true.
Proof.
  intros Hle. unfold revoke_jti, modify, revoked_now. simpl. rewrite dget_dset_eq. simpl.
  by apply bool_decide_eq_true.
Qed.

(** ** The authorization predicate *)

(** What the service requires of a token's claims beyond its signature. *)
Definition access_ok (now : Z) (c : Claims) (role : string) (s : Store) : Prop :=
  revoked_now now (c_jti c) s = false /\
  (exists st, get_tenant_status (c_tid c) s = Some st /\ st <> "disabled" /\ st <> "deleted") /\
  (exists st, get_user_status (c_sub c) s = Some st /\ st <> "disabled" /\ st <> "locked") /\
  get_member_role (c_tid c) (c_sub c) s = Some role.

(** The claims with the member's current role and its scopes. *)
Definition refresh_claims (role : string) (c : Claims) : Claims :=
  if decide (c_role c <> Some role)
  then set_c_scope (Some (role_scopes role)) (set_c_role (Some role) c) else c.

Lemma tenant_denied_false st :
  tenant_denied st = false <-> exists x, st = Some x /\ x <> "disabled" /\ x <> "deleted".
Proof.
  unfold tenant_denied. destruct st as [x|]; [|naive_solver].
  rewrite bool_decide_eq_false. naive_solver.
Qed.
Lemma user_denied_false st :
  user_denied st = false <-> exists x, st = Some x /\ x <> "disabled" /\ x <> "locked".
Proof.
  unfold user_denied. destruct st as [x|]; [|naive_solver].
  rewrite bool_decide_eq_false. naive_solver.
Qed.

Lemma authorize_run now c s :
  store_wf s ->
  match (if revoked_now now (c_jti c) s || tenant_denied (get_tenant_status (c_tid c) s)
            || user_denied (get_user_status (c_sub c) s)
         then None else get_member_role (c_tid c) (c_sub c) s) with
  | Some role => authorize now c s = (Ok (role, refresh_claims role c), swept now s)
  | None => exists d, authorize now c s = (Raise (unauthorized d), swept now s)
  end.
Proof.
  intros Hwf. unfold authorize.
  rewrite (bind_eq_ok _ _ _ _ _ (is_jti_revoked_run now (c_jti c) s (wf_revoked_jtis s Hwf))).
  destruct (revoked_now now (c_jti c) s); simpl; [by eexists|]. rewrite bind_gets.
  change (get_tenant_status (c_tid c) (swept now s)) with (get_tenant_status (c_tid c) s).
  destruct (tenant_denied _); simpl; [by eexists|]. rewrite bind_gets.
  change (get_user_status (c_sub c) (swept now s)) with (get_user_status (c_sub c) s).
  destruct (user_denied _); simpl; [by eexists|]. rewrite bind_gets.
  change (get_member_role (c_tid c) (c_sub c) (swept now s)) with (get_member_role (c_tid c) (c_sub c) s).
  destruct (get_member_role _ _ _) as [role|]; [|by eexists].
  unfold refresh_claims. by case_decide.
Qed.

Lemma authorize_ok now c s role c' s' :
  store_wf s ->
  authorize now c s = (Ok (role, c'), s') <->
  access_ok now c role s /\ c' = refresh_claims role c /\ s' = swept now s.
Proof.
  intros Hwf. pose proof (authorize_run now c s Hwf) as Hrun. unfold access_ok.
  rewrite <- tenant_denied_false, <- user_denied_false.
  destruct (revoked_now now (c_jti c) s), (tenant_denied (get_tenant_status (c_tid c) s)),
    (user_denied (get_user_status (c_sub c) s)); simpl in Hrun;
    try (destruct Hrun as [d ->]; naive_solver).
  destruct (get_member_role (c_tid c) (c_sub c) s) as [r|].
  - rewrite Hrun. naive_solver.
  - destruct Hrun as [d ->]. naive_solver.
Qed.

Lemma authorize_revoked now c s :
  store_wf s -> revoked_now now (c_jti c) s = true ->
  authorize now c s = (Raise (unauthorized "revoked token"), swept now s).
Proof.
  intros Hwf Hr. unfold authorize.
  rewrite (bind_eq_ok _ _ _ _ _ (is_jti_revoked_run now (c_jti c) s (wf_revoked_jtis s Hwf))).
  by rewrite Hr.
Qed.

(** ** Users found by name *)

Lemma dfind_dset_hit {K V} `{EqDecision K} (P : V -> bool) (d : list (K * V)) k v v' :
  dict_wf d -> dfind P d = Some (k, v) -> P v' = true -> dfind P (dset k v' d) = Some (k, v').
Proof.
  unfold dict_wf, dkeys. induction d as [|[k1 v1] d IH]; csimpl; [done|].
  intros [Hn Hd]%NoDup_cons. destruct (P v1) eqn:E1.
  - intros [= -> ->] HP. rewrite decide_True by done. simpl. by rewrite HP.
  - intros Hf HP. rewrite decide_False; simpl.
    + rewrite E1. by apply IH.
    + intros ->. apply dfind_Some in Hf as [_ Hin]. apply Hn, list_elem_of_fmap. by exists (k1, v).
Qed.

(** [u] is the row the username lookup finds, stored under its id. *)
Definition found (username : string) (u : User) (s : Store) : Prop :=
  dfind (fun u => bool_decide (u_username u = username)) (users s) = Some (u_user_id u, u).

Lemma found_iff username u s :
  store_wf s -> ids_inv s -> get_user_by_username username s = Some u <-> found username u s.
Proof.
  intros Hwf Hids. unfold get_user_by_username, found. split; [|by intros ->].
  destruct (dfind _ (users s)) as [[k u']|] eqn:E; [|done]. intros [= ->].
  apply (dfind_dget _ _ _ _ (wf_users s Hwf)) in E as [Hk _].
  by rewrite (id_user s Hids k u Hk).
Qed.

Lemma found_dget username u s :
  store_wf s -> found username u s -> dget (u_user_id u) (users s) = Some u /\ u_username u = username.
Proof.
  intros Hwf Hf. apply (dfind_dget _ _ _ _ (wf_users s Hwf)) in Hf as [Hk Hu].
  by apply bool_decide_eq_true in Hu.
Qed.

Lemma update_user_run uid f u s :
  dget uid (users s) = Some u ->
  update_user uid f s =
  (Ok (Some (apply_user_fields f u)), set_users (dset uid (apply_user_fields f u) (users s)) s).
Proof. intros Hu. unfold update_user. rewrite bind_gets, Hu. done. Qed.

Lemma found_update username u f s s' :
  store_wf s -> found username u s -> users s' = dset (u_user_id u) (apply_user_fields f u) (users s) ->
  found username (apply_user_fields f u) s'.
Proof.
  intros Hwf Hf E. destruct (found_dget _ _ _ Hwf Hf) as [_ Hn]. unfold found. rewrite E.
  change (u_user_id (apply_user_fields f u)) with (u_user_id u).
  eapply dfind_dset_hit; [apply Hwf|exact Hf|]. by apply bool_decide_eq_true.
Qed.

(** ** Failed logins *)

(** The fields a failed attempt writes. *)
Definition failed_fields (now : Z) (u : User) : UserFields :=
  let attempts := u_failed_attempts u + 1 in
  attempt_fields attempts
    (if bool_decide (LOCK_THRESHOLD <= attempts) then Some (now + LOCK_DURATION) else None) None.

Section failed.
Context `{HashLib, Argon2Lib, JwtLib, AeadLib, RsaLib, TotpLib}.

Lemma record_failed_login_run now u tid s :
  dget (u_user_id u) (users s) = Some u ->
  exists s', record_failed_login now u tid s = (Ok tt, s') /\
    users s' = dset (u_user_id u) (apply_user_fields (failed_fields now u) u) (users s) /\
    tenants s' = tenants s /\ members s' = members s.
Proof.
  intros Hu. unfold record_failed_login.
  set (f := attempt_fields _ _ _). change f with (failed_fields now u).
  destruct (opt_true tid).
  - destruct (bool_decide (LOCK_THRESHOLD <= u_failed_attempts u + 1)).
    + erewrite bind_eq_ok; [|erewrite bind_eq_ok by apply append_audit_run; done].
      erewrite bind_eq_ok; [|apply update_user_run; exact Hu].
      erewrite bind_eq_ok by apply append_audit_run. by eexists.
    + rewrite bind_ret_l. erewrite bind_eq_ok; [|apply update_user_run; exact Hu].
      erewrite bind_eq_ok by apply append_audit_run. by eexists.
  - erewrite bind_eq_ok; [|apply update_user_run; exact Hu]. by eexists.
Qed.

Definition password_ok (pw : string) (u : User) : bool :=
  (verify_password pw (u_password_hash_v u) (u_password_hash u) (u_salt u) (u_password_algo u)).1.

(** A login of a known, unlocked user of an open tenant with a wrong password. *)
Lemma login_wrong_password cfg ring now d req skip u s :
  store_wf s -> ids_inv s -> found (lr_username req) u s ->
  (opt_true (lr_tenant_id req) = true ->
     tenant_denied (get_tenant_status (default "" (lr_tenant_id req)) s) = false) ->
  is_locked now u = false -> user_denied (Some (u_status u)) = false ->
  ac_email_verification_required cfg && negb skip && negb (u_email_verified u) = false ->
  password_ok (lr_password req) u = false ->
  exists s', login cfg ring now d req skip s = (Raise (unauthorized "invalid credentials"), s') /\
    users s' = dset (u_user_id u) (apply_user_fields (failed_fields now u) u) (users s) /\
    tenants s' = tenants s.
Proof.
  intros Hwf Hids Hf Ht Hl Hd Hem Hp. unfold login. rewrite bind_gets.
  replace (tenant_denied (if opt_true (lr_tenant_id req) then _ else _)) with false.
  2:{ destruct (opt_true (lr_tenant_id req)); [by rewrite Ht|done]. }
  rewrite bind_gets. apply found_iff in Hf as Hg; [|done..]. rewrite Hg, Hl, Hd, Hem.
  unfold password_ok in Hp. destruct (verify_password _ _ _ _ _) as [ok rehash]. simpl in Hp. subst ok.
  simpl. destruct (found_dget _ _ _ Hwf Hf) as [Hk _].
  destruct (record_failed_login_run now u (lr_tenant_id req) s Hk) as (s' & Hr & Hu & Htn & _).
  erewrite bind_eq_ok by exact Hr. by exists s'.
Qed.

Lemma login_locked cfg ring now d req skip u s :
  store_wf s -> ids_inv s -> found (lr_username req) u s ->
  (opt_true (lr_tenant_id req) = true ->
     tenant_denied (get_tenant_status (default "" (lr_tenant_id req)) s) = false) ->
  is_locked now u = true -> login cfg ring now d req skip s = (Raise locked_exn, s).
Proof.
  intros Hwf Hids Hf Ht Hl. unfold login. rewrite bind_gets.
  replace (tenant_denied (if opt_true (lr_tenant_id req) then _ else _)) with false.
  2:{ destruct (opt_true (lr_tenant_id req)); [by rewrite Ht|done]. }
  rewrite bind_gets. apply found_iff in Hf as Hg; [|done..]. by rewrite Hg, Hl.
Qed.
End failed.

(** ** Issued tokens verify under the ring that issued them *)

(** The ring can verify what it signs: symmetric, or its current RSA key is
    indexed under a non-empty kid and the pair matches. *)
Definition ring_ok `{JwtLib, !JwtLaws} (ring : KeyRing) : Prop :=
  kr_algorithm ring = "HS256" \/
  (kr_algorithm ring = "RS256" /\ exists rk, kr_rsa_current ring = Some rk /\ rk_kid rk <> "" /\
     dget (rk_kid rk) (kr_kid_index ring) = Some rk /\
     keys_match "RS256" (rk_private_pem rk) (rk_public_pem rk)).

Section issued.
Context `{HashLib, Argon2Lib, JwtLib, !JwtLaws, AeadLib, RsaLib, TotpLib}.
Variables (cfg : AuthConfig) (ring : KeyRing).

Definition issued_claims (now : Z) (jti sub tid role : string) (ttl : Z) (ty : string) : Claims :=
  mkClaims sub tid jti (ac_issuer cfg) (ac_audience cfg) (int_time now) (int_time now + ttl)
    (Some (int_time now)) (Some tid) (Some role) (Some (role_scopes role)) (Some ty).

Lemma int_time_le now : sec (int_time now) <= now.
Proof. unfold sec, int_time. pose proof (Z.mul_div_le now 1000000). lia. Qed.
Lemma int_time_gt now : now < sec (int_time now + 1).
Proof. unfold sec, int_time. pose proof (Z.mul_succ_div_gt now 1000000). lia. Qed.

Lemma issue_jti now jti sub tid role ttl ty : (issue cfg ring now jti sub tid role ttl ty).2 = jti.
Proof. done. Qed.

Lemma issue_verifies now now' jti sub tid role ttl ty :
  ring_ok ring -> now <= now' -> now' < sec (int_time now + ttl) ->
  verify_ cfg ring now' (issue cfg ring now jti sub tid role ttl ty).1 (Some ty) =
  Ok (issued_claims now jti sub tid role ttl ty).
Proof.
  intros Hring Hle Hlt. unfold verify_, issue. pose proof (int_time_le now).
  assert (exists vk, keys_match (kr_algorithm ring) (signing_key ring) vk /\
    kr_algorithm ring <> "none" /\
    forall m, verify_key_for (match jwt_get_unverified_header (issue_token now jti sub tid role
      (role_scopes role) (signing_key ring) (ac_issuer cfg) (ac_audience cfg) ttl ty
      (kr_algorithm ring) (ring_kid ring)).1 with Ok h => h_kid h | Raise _ => m end) ring = Ok vk)
    as (vk & Hk & Hn & Hv).
  { unfold jwt_get_unverified_header, issue_token. simpl. rewrite jwt_header_encode.
    unfold verify_key_for, signing_key, ring_kid.
    destruct Hring as [E|(E & rk & -> & Hne & Hix & Hm)]; rewrite E.
    - exists (kr_hs_key ring). split_and!; [|done|done].
      destruct (kr_rsa_current ring); simpl; apply keys_match_hs.
    - exists (rk_public_pem rk). split_and!; [by rewrite decide_True|done|]. intros m.
      rewrite decide_False by done. simpl. rewrite decide_True by done. simpl.
      unfold str_true. rewrite bool_decide_eq_true_2 by done. by rewrite Hix. }
  rewrite (Hv None). apply issue_token_verifies; [done|done|lia|done].
Qed.
End issued.

(** ** Refresh tokens *)

Lemma revoke_where_lookup (P : RefreshToken -> Prop) `{forall r, Decision (P r)} jti s :
  dget jti (refresh_tokens (revoke_where P s).2) =
  (fun r => if decide (P r /\ rt_status r <> "revoked") then set_rt_status "revoked" r else r)
    <$> dget jti (refresh_tokens s).
Proof. unfold revoke_where, bind, gets, modify, ret. simpl. by rewrite dget_dmap. Qed.

(** After a revocation loop no selected token is left unrevoked. *)
Lemma revoke_where_all (P : RefreshToken -> Prop) `{forall r, Decision (P r)} jti r s :
  (forall r, P (set_rt_status "revoked" r) <-> P r) ->
  dget jti (refresh_tokens (revoke_where P s).2) = Some r -> P r -> rt_status r = "revoked".
Proof.
  intros Hst. rewrite revoke_where_lookup. destruct (dget jti (refresh_tokens s)) as [r0|]; [|done].
  simpl. case_decide as Hc; intros [= <-] HP; [done|].
  destruct (decide (rt_status r0 = "revoked")); naive_solver.
Qed.

Lemma revoke_where_run (P : RefreshToken -> Prop) `{forall r, Decision (P r)} s :
  exists n d, revoke_where P s = (Ok n, set_refresh_tokens d s).
Proof. unfold revoke_where, bind, gets, modify, ret. eauto. Qed.

(** ** Successful logins *)
Section login_ok.
Context `{HashLib, Argon2Lib, JwtLib, AeadLib, RsaLib, TotpLib}.
Variables (cfg : AuthConfig) (ring : KeyRing) (now : Z).

(** The tenant a login is for: the one asked for, else the only active one. *)
Definition login_tenant (req : LoginRequest) (u : User) (tid : string) (s : Store) : Prop :=
  if opt_true (lr_tenant_id req)
  then lr_tenant_id req = Some tid /\ tenant_denied (get_tenant_status tid s) = false
  else exists role, active_memberships (u_user_id u) s = [(tid, role)].

(** The second factor: an enabled one was answered with a valid code, and an
    administrator has one when the configuration demands it. *)
Definition mfa_passed (req : LoginRequest) (u : User) (role : string) (s : Store) : Prop :=
  match get_mfa (u_user_id u) "totp" s with
  | Some r => mf_enabled r = true ->
      exists raw, decrypt_secret (mf_secret_enc r) (ac_kek cfg) (ac_kek_prev cfg) = Ok raw /\
        totp_verify now raw (default "" (lr_mfa_code req)) = true
  | None => True
  end /\
  (ac_mfa_enforce_admin cfg = true -> role = "tenant_admin" ->
     exists r, get_mfa (u_user_id u) "totp" s = Some r /\ mf_enabled r = true).

Lemma issue_login_pair_ok d u tid role name act s tr s' :
  issue_login_pair cfg ring now d u tid role name act s = (Ok tr, s') ->
  tr = mkTokenResponse (issue cfg ring now (ld_jti d) (u_user_id u) tid role (ac_ttl cfg) "access").1
         (issue cfg ring now (ld_rjti d) (u_user_id u) tid role (ac_refresh_ttl cfg) "refresh").1
         (ac_ttl cfg) (u_must_change_password u) false.
Proof. unfold issue_login_pair. simpl. intros Hr. run_inv. done. Qed.

Lemma resolve_login_tenant_ok u s tid s' :
  resolve_login_tenant u s = (Ok tid, s') ->
  s' = s /\ exists role, active_memberships (u_user_id u) s = [(tid, role)].
Proof.
  unfold resolve_login_tenant. rewrite bind_gets.
  destruct (active_memberships (u_user_id u) s) as [|[t r] [|]]; [done| |done].
  intros Hr. run_inv. eauto.
Qed.

Lemma login_verified_ok d req u s tr s' :
  login_verified cfg ring now d req u s = (Ok tr, s') -> tr_mfa_required tr = false ->
  exists tid role,
    (if opt_true (lr_tenant_id req) then lr_tenant_id req = Some tid
     else exists role, active_memberships (u_user_id u) s = [(tid, role)]) /\
    get_member_role tid (u_user_id u) s = Some role /\ mfa_passed req u role s /\
    tr_access_token tr =
      (issue cfg ring now (ld_jti d) (u_user_id u) tid role (ac_ttl cfg) "access").1 /\
    tr_refresh_token tr =
      (issue cfg ring now (ld_rjti d) (u_user_id u) tid role (ac_refresh_ttl cfg) "refresh").1.
Proof.
  unfold login_verified. intros Hr Hm. apply bind_ok in Hr as (tid & s1 & Ht & Hr).
  assert (s1 = s /\ if opt_true (lr_tenant_id req) then lr_tenant_id req = Some tid
     else exists role, active_memberships (u_user_id u) s = [(tid, role)]) as [-> Htid].
  { destruct (opt_true (lr_tenant_id req)) eqn:E; [|by apply resolve_login_tenant_ok].
    unfold ret in Ht. simplify_eq. split; [done|]. by destruct (lr_tenant_id req). }
  clear Ht. rewrite bind_gets in Hr.
  destruct (get_member_role tid (u_user_id u) s) as [role|] eqn:Erole; [|done].
  rewrite bind_gets in Hr. exists tid, role. split; [done|]. split; [done|]. unfold mfa_passed.
  destruct (ac_mfa_enforce_admin cfg && bool_decide (role = "tenant_admin") && negb _) eqn:Enf; [done|].
  destruct (get_mfa (u_user_id u) "totp" s) as [r|] eqn:Er.
  - destruct (mf_enabled r) eqn:Een; simpl in Hr.
    + destruct (opt_true (lr_mfa_code req)); simpl in Hr; [|run_inv; done].
      apply bind_ok in Hr as (? & s2 & Hv & Hr). apply bind_ok in Hv as (ok & s3 & Hv & Hok).
      unfold lift, verify_totp in Hv. destruct (decrypt_secret _ _ _) as [raw|]; [|done].
      simplify_eq. apply bind_ok in Hr as (? & ? & _ & Hr). apply issue_login_pair_ok in Hr as ->.
      destruct (totp_verify now raw _) eqn:Etotp; [|run_inv].
      split_and!; [|eauto|done|done]. intros _. eauto.
    + rewrite bind_ret_l in Hr. apply bind_ok in Hr as (? & ? & _ & Hr).
      apply issue_login_pair_ok in Hr as ->. split_and!; [done| |done|done].
      intros He ->. by rewrite He in Enf.
  - simpl in Hr. rewrite bind_ret_l in Hr. apply bind_ok in Hr as (? & ? & _ & Hr).
    apply issue_login_pair_ok in Hr as ->. split_and!; [done| |done|done].
    intros He ->. by rewrite He in Enf.
Qed.

(** Rehashing a password touches the password entries only. *)
Lemma rehash_frame u f s s' a :
  update_user (u_user_id u) f s = (Ok a, s') ->
  tenants s' = tenants s /\ members s' = members s /\ mfa s' = mfa s.
Proof.
  unfold update_user, put_user. rewrite bind_gets. destruct (dget _ _); intros Hr; run_inv; done.
Qed.

Lemma login_ok d req skip s tr s' :
  store_wf s -> ids_inv s ->
  login cfg ring now d req skip s = (Ok tr, s') -> tr_mfa_required tr = false ->
  exists u tid role,
    found (lr_username req) u s /\ is_locked now u = false /\
    user_denied (Some (u_status u)) = false /\ password_ok (lr_password req) u = true /\
    (ac_email_verification_required cfg = true -> skip = false -> u_email_verified u = true) /\
    login_tenant req u tid s /\ get_member_role tid (u_user_id u) s = Some role /\
    mfa_passed req u role s /\
    tr_access_token tr =
      (issue cfg ring now (ld_jti d) (u_user_id u) tid role (ac_ttl cfg) "access").1 /\
    tr_refresh_token tr =
      (issue cfg ring now (ld_rjti d) (u_user_id u) tid role (ac_refresh_ttl cfg) "refresh").1.
Proof.
  intros Hwf Hids Hr Hm. unfold login in Hr. rewrite bind_gets in Hr.
  destruct (tenant_denied _) eqn:Et; [done|]. rewrite bind_gets in Hr.
  destruct (get_user_by_username _ s) as [u|] eqn:Eu; [|done].
  apply found_iff in Eu; [|done..]. exists u.
  destruct (is_locked now u) eqn:El; [done|]. destruct (user_denied _) eqn:Ed; [done|].
  destruct (ac_email_verification_required cfg && negb skip && negb (u_email_verified u)) eqn:Ee; [done|].
  unfold password_ok. destruct (verify_password _ _ _ _ _) as [ok rehash]. destruct ok; [simpl in Hr|].
  2:{ simpl in Hr. apply bind_ok in Hr as (? & ? & _ & Hr). done. }
  apply bind_ok in Hr as (? & s1 & Hre & Hr).
  assert (tenants s1 = tenants s /\ members s1 = members s /\ mfa s1 = mfa s) as (E1 & E2 & E3).
  { destruct rehash; [|unfold ret in Hre; by simplify_eq].
    apply bind_ok in Hre as (? & ? & Hre & Hx). unfold ret in Hx. simplify_eq. by eapply rehash_frame. }
  apply login_verified_ok in Hr as (tid & role & Ht & Hrole & Hmfa & Ha & Hf); [|done].
  unfold active_memberships, memberships_for_user, get_tenant_status, get_member_role in *.
  unfold mfa_passed, get_mfa in *. rewrite ?E1, ?E2, ?E3 in *.
  exists tid, role. split_and!; try done.
  - intros ? ->. destruct (u_email_verified u); [done|]. by destruct (ac_email_verification_required cfg).
  - unfold login_tenant. destruct (opt_true (lr_tenant_id req)); [|exact Ht]. split; [done|].
    by rewrite Ht in Et.
  - unfold mfa_passed. naive_solver.
  - unfold mfa_passed. naive_solver.
Qed.

(** A login with valid credentials and no second factor succeeds. *)
Lemma login_complete d req skip u tid role s :
  store_wf s -> ids_inv s -> found (lr_username req) u s -> is_locked now u = false ->
  user_denied (Some (u_status u)) = false ->
  ac_email_verification_required cfg && negb skip && negb (u_email_verified u) = false ->
  verify_password (lr_password req) (u_password_hash_v u) (u_password_hash u) (u_salt u)
    (u_password_algo u) = (true, false) ->
  login_tenant req u tid s -> get_member_role tid (u_user_id u) s = Some role ->
  get_mfa (u_user_id u) "totp" s = None ->
  ac_mfa_enforce_admin cfg && bool_decide (role = "tenant_admin") = false ->
  exists tr s', login cfg ring now d req skip s = (Ok tr, s') /\ tr_mfa_required tr = false /\
    tr_access_token tr =
      (issue cfg ring now (ld_jti d) (u_user_id u) tid role (ac_ttl cfg) "access").1 /\
    tenants s' = tenants s /\ members s' = members s /\ custom_roles s' = custom_roles s /\
    revoked_jtis s' = revoked_jtis s /\
    get_user_status (u_user_id u) s' = Some (u_status u).
Proof.
  intros Hwf Hids Hf Hl Hd He Hp Ht Hr Hm Hen. unfold login. rewrite bind_gets.
  assert (tenant_denied (if opt_true (lr_tenant_id req)
    then get_tenant_status (default "" (lr_tenant_id req)) s else Some "active") = false) as ->.
  { unfold login_tenant in Ht. destruct (opt_true _); [|done]. by destruct Ht as [-> ?]. }
  rewrite bind_gets. apply found_iff in Hf as Hg; [|done..]. rewrite Hg, Hl, Hd, He, Hp. simpl.
  rewrite bind_ret_l. unfold login_verified.
  assert ((if opt_true (lr_tenant_id req) then ret (default "" (lr_tenant_id req))
    else resolve_login_tenant u) s = (Ok tid, s)) as E.
  { unfold login_tenant in Ht. destruct (opt_true _); [by destruct Ht as [-> _]|].
    destruct Ht as [r0 Hact]. unfold resolve_login_tenant. by rewrite bind_gets, Hact. }
  rewrite (bind_eq_ok _ _ _ _ _ E), bind_gets, Hr, bind_gets, Hm, Hen. simpl. rewrite bind_ret_l.
  destruct (found_dget _ _ _ Hwf Hf) as [Hk _].
  rewrite (bind_eq_ok _ _ _ _ _ (update_user_run _ (attempt_fields 0 None (Some now)) u s Hk)).
  unfold issue_login_pair. simpl. eexists _, _. split; [reflexivity|]. simpl. split_and!; try done.
  unfold get_user_status. simpl. by rewrite dget_dset_eq.
Qed.
End login_ok.
