(* ===== verification/AuthProps.v ===== *)
(** * Properties of the authentication service *)
From S2P Require Import Prelude PyText StoreState Prims AuditLog Tenants Rbac Users Keys.
From S2P Require Import Tokens Ledger Crypto Jwt Jwks Auth StoreSteps Invariants.
From S2P Require Import RbacProps KeyProps TableProps AuditProps AuthLemmas.

(** ** Interleavings of the service's methods *)
Section service.
Context `{HashLib, Argon2Lib, JwtLib, AeadLib, RsaLib, TotpLib}.

(** One call of the service or one direct operation on the store, at any
    configuration, key ring, time, arguments and draws. *)
Inductive service_step (s : Store) : Store -> Prop :=
  | sv_store op : service_step s (exec op s)
  | sv_login cfg ring now d req skip : service_step s (login cfg ring now d req skip s).2
  | sv_issue_sso cfg now rnd u t r : service_step s (issue_sso_ticket cfg now rnd u t r s).2
  | sv_exchange cfg ring now d t : service_step s (exchange_sso_ticket cfg ring now d t s).2
  | sv_verify cfg ring now t : service_step s (verify cfg ring now t s).2
  | sv_bearer cfg ring now h : service_step s (resolve_bearer_claims cfg ring now h s).2
  | sv_introspect cfg ring now t : service_step s (introspect cfg ring now t s).2
  | sv_issue_session cfg ring now j u t r ttl :
      service_step s (issue_session_token cfg ring now j u t r ttl s).2
  | sv_verify_session cfg ring now t : service_step s (verify_session_token cfg ring now t s).2
  | sv_revoke_user now u t : service_step s (revoke_user_sessions_and_tokens now u t s).2
  | sv_refresh cfg ring now a n t : service_step s (refresh cfg ring now a n t s).2
  | sv_revoke now j t u : service_step s (revoke now j t u s).2
  | sv_logout cfg ring now c t : service_step s (logout cfg ring now c t s).2
  | sv_change_password now salt u o n t : service_step s (change_password now salt u o n t s).2
  | sv_enroll cfg now r n u : service_step s (enroll_mfa cfg now r n u s).2
  | sv_verify_mfa cfg now u c m : service_step s (verify_mfa cfg now u c m s).2
  | sv_bootstrap now salt a p t : service_step s (bootstrap now salt a p t s).2.

Lemma service_step_steps s s' : service_step s s' -> rtc store_step s s'.
Proof.
  destruct 1; [apply rtc_once; by eexists|..].
  - apply safe_login.
  - apply safe_issue_sso_ticket.
  - apply safe_exchange_sso_ticket.
  - apply safe_verify.
  - apply safe_resolve_bearer_claims.
  - apply safe_introspect.
  - apply safe_issue_session_token.
  - apply safe_verify_session_token.
  - apply safe_revoke_user_sessions_and_tokens.
  - apply safe_refresh.
  - apply safe_revoke.
  - apply safe_logout.
  - apply safe_change_password.
  - apply safe_enroll_mfa.
  - apply safe_verify_mfa.
  - apply safe_bootstrap.
Qed.

Lemma service_reachable s : rtc service_step init_store s -> reachable s.
Proof.
  intros Hr. apply (reachable_steps init_store); [constructor|].
  induction Hr as [|s1 s2 s3 Hst _ IH]; [done|]. etrans; [by apply service_step_steps|done].
Qed.

(** [C1] Every store the service can reach, by any interleaving of its
    methods and of direct store operations, satisfies the data invariants:
    tables without duplicate keys, every membership with a role that resolves
    for its tenant, custom roles and menus within their limits, one quota per
    tenant, at most one current secret per application, at most one pending
    join request per user and tenant, bounded and consecutively numbered
    logs. *)
Theorem service_keeps_invariants s :
  rtc service_step init_store s ->
  store_wf s /\ rbac_inv s /\ ids_inv s /\ secrets_inv s /\ join_inv s /\ log_inv s.
Proof.
  intros Hr%service_reachable. split_and!; [by eapply reach_wf|by eapply reach_rbac|
    by eapply reach_ids|by eapply reach_secrets|by eapply reach_join|by eapply reach_log].
Qed.

(** ** Authorization *)

(** [C2] The authorization predicate of every protected request: it accepts
    exactly when the jti is not on the revocation ledger, the tenant exists
    and is neither disabled nor deleted, the user exists and is neither
    disabled nor locked, and the user is a member of the tenant; the role
    returned is the stored one, and a stale role in the token is replaced
    together with its scopes. Every refusal is a 401. *)
Theorem authorize_exact now c s :
  reachable s ->
  (forall role c' s', authorize now c s = (Ok (role, c'), s') <->
     access_ok now c role s /\ c' = refresh_claims role c /\ s' = swept now s) /\
  (forall e s', authorize now c s = (Raise e, s') -> exists d, e = unauthorized d).
Proof.
  intros Hwf%reach_wf. split; [intros; by apply authorize_ok|].
  intros e s' Hr. pose proof (authorize_run now c s Hwf) as Hrun. rewrite Hr in Hrun.
  case_match; [done|]. destruct Hrun as [d [= -> _]]. by exists d.
Qed.

(** ** Login *)

(** [C3] A login that hands out tokens has checked everything it claims to:
    the username is known, the account is neither locked out nor disabled, the
    password verifies against the stored hash, the email gate is satisfied,
    the user is a member of the tenant (which is open, or is the only active
    one), an enabled second factor was answered correctly and an enforced one
    exists; the two tokens carry the stored role. *)
Theorem login_sound cfg ring now d req skip s tr s' :
  reachable s -> login cfg ring now d req skip s = (Ok tr, s') -> tr_mfa_required tr = false ->
  exists u tid role,
    found (lr_username req) u s /\ is_locked now u = false /\
    user_denied (Some (u_status u)) = false /\ password_ok (lr_password req) u = true /\
    (ac_email_verification_required cfg = true -> skip = false -> u_email_verified u = true) /\
    login_tenant req u tid s /\ get_member_role tid (u_user_id u) s = Some role /\
    mfa_passed cfg now req u role s /\
    tr_access_token tr =
      (issue cfg ring now (ld_jti d) (u_user_id u) tid role (ac_ttl cfg) "access").1 /\
    tr_refresh_token tr =
      (issue cfg ring now (ld_rjti d) (u_user_id u) tid role (ac_refresh_ttl cfg) "refresh").1.
Proof. intros Hr. apply login_ok; [by eapply reach_wf|by eapply reach_ids]. Qed.

(** An attempt: its time, draws and request. *)
Definition attempt : Type := Z * LoginDraws * LoginRequest.
Fixpoint try_logins (cfg : AuthConfig) (ring : KeyRing) (l : list attempt) (s : Store) : Store :=
  match l with
  | [] => s
  | (now, d, req) :: l' => try_logins cfg ring l' (login cfg ring now d req false s).2
  end.

(** The requests of [l] name [username] and a tenant that is open (or none),
    with a wrong password. *)
Definition wrong_attempts (username : string) (u : User) (s : Store) (l : list attempt) : Prop :=
  Forall (fun a : attempt => lr_username a.2 = username /\ password_ok (lr_password a.2) u = false /\
    (opt_true (lr_tenant_id a.2) = true ->
       tenant_denied (get_tenant_status (default "" (lr_tenant_id a.2)) s) = false)) l.

(** Below the threshold the attempts only count. *)
Lemma try_logins_count cfg ring l username u s :
  reachable s -> found username u s -> u_locked_until u = None ->
  user_denied (Some (u_status u)) = false -> u_email_verified u = true ->
  wrong_attempts username u s l -> u_failed_attempts u + zlen l < LOCK_THRESHOLD ->
  exists u', reachable (try_logins cfg ring l s) /\ found username u' (try_logins cfg ring l s) /\
    u_locked_until u' = None /\ u_status u' = u_status u /\ u_email_verified u' = true /\
    u_failed_attempts u' = u_failed_attempts u + zlen l /\
    (forall pw, password_ok pw u' = password_ok pw u) /\
    tenants (try_logins cfg ring l s) = tenants s.
Proof.
  revert u s. induction l as [|[[now d] req] l IH]; intros u s Hs Hf Hl Hd Hv Hw Hlt.
  { exists u. unfold zlen. simpl. split_and!; try done. lia. }
  apply Forall_cons in Hw as [(Hn & Hp & Ht) Hw]. simpl in Hn, Hp, Ht. subst username.
  assert (zlen (@cons attempt (now, d, req) l) = zlen l + 1) as Hz by (unfold zlen; rewrite length_cons; lia).
  rewrite Hz in Hlt |- *.
  pose proof (reach_wf _ _ Hs) as Hwf. pose proof (reach_ids _ _ Hs) as Hids.
  destruct (login_wrong_password cfg ring now d req false u s) as (s1 & Hr & Hu & Htn); try done.
  { unfold is_locked. by rewrite Hl. }
  { rewrite Hv. by rewrite andb_false_r. }
  simpl. set (u1 := apply_user_fields (failed_fields now u) u) in *.
  assert (0 <= zlen l) by (unfold zlen; lia).
  assert (u_locked_until u1 = None) as Hl1.
  { unfold u1, failed_fields. simpl. rewrite bool_decide_eq_false_2 by lia. simpl. by rewrite Hl. }
  destruct (IH u1 (login cfg ring now d req false s).2) as (u' & ? & ? & ? & ? & ? & Hfa & ? & Htn');
    try done.
  - eapply safe_reachable; [apply safe_login|done].
  - rewrite Hr. eapply found_update; [exact Hwf|exact Hf|exact Hu].
  - unfold wrong_attempts in *. eapply Forall_impl; [exact Hw|]. intros a (Ha & Hb & Hc).
    split_and!; [done|done|]. unfold get_tenant_status. rewrite Hr. simpl. rewrite Htn. exact Hc.
  - unfold u1, failed_fields, attempt_fields. simpl. lia.
  - exists u'. split_and!; try done.
    + rewrite Hfa. unfold u1, failed_fields, attempt_fields. simpl. lia.
    + by rewrite Htn', Hr, <- Htn.
Qed.

(** [C29] Lockout: five wrong passwords for an account in good standing lock
    it. Whatever is presented within fifteen minutes of the fifth attempt,
    the right password included, is refused with 429 and changes nothing. *)
Theorem lockout_after_five cfg ring username u s (l : list attempt) now d req now' d' req' skip :
  reachable s -> found username u s -> u_locked_until u = None -> u_failed_attempts u = 0 ->
  user_denied (Some (u_status u)) = false -> u_email_verified u = true ->
  zlen l = 4 -> wrong_attempts username u s (l ++ [(now, d, req)]) ->
  lr_username req' = username -> now' < now + LOCK_DURATION ->
  let s5 := try_logins cfg ring (l ++ [(now, d, req)]) s in
  (opt_true (lr_tenant_id req') = true ->
     tenant_denied (get_tenant_status (default "" (lr_tenant_id req')) s5) = false) ->
  login cfg ring now' d' req' skip s5 = (Raise locked_exn, s5).
Proof.
  intros Hs Hf Hl H0' Hd Hv Hlen Hw Hn Hnow s5 Ht'.
  apply Forall_app in Hw as [Hw4 Hw5]. apply Forall_singleton in Hw5 as (Hn5 & Hp5 & Ht5).
  simpl in Hn5, Hp5, Ht5.
  destruct (try_logins_count cfg ring l username u s) as (u4 & Hs4 & Hf4 & Hl4 & Hst4 & Hv4 & Hfa & Hpw & Htn);
    try done; [by rewrite Hlen, H0'|].
  assert (s5 = (login cfg ring now d req false (try_logins cfg ring l s)).2) as E5.
  { unfold s5. clear. revert s. induction l as [|[[? ?] ?] l IH]; intros s; simpl; auto. }
  set (s4 := try_logins cfg ring l s) in *.
  destruct (login_wrong_password cfg ring now d req false u4 s4) as (s' & Hr & Hu & Htn5); try done.
  { by eapply reach_wf. } { by eapply reach_ids. } { by rewrite Hn5. }
  { unfold get_tenant_status. by rewrite Htn. }
  { unfold is_locked. by rewrite Hl4. } { by rewrite Hst4. }
  { rewrite Hv4. by rewrite andb_false_r. } { by rewrite Hpw. }
  assert (reachable s5) as Hs5.
  { rewrite E5. eapply safe_reachable; [apply safe_login|done]. }
  eapply (login_locked _ _ _ _ _ _ (apply_user_fields (failed_fields now u4) u4)).
  - by eapply reach_wf.
  - by eapply reach_ids.
  - rewrite Hn, E5, Hr. apply (found_update _ _ _ s4); [by eapply reach_wf|exact Hf4|exact Hu].
  - exact Ht'.
  - unfold is_locked, failed_fields. simpl. rewrite Hfa, Hlen, H0'.
    rewrite bool_decide_eq_true_2 by done. simpl. by apply bool_decide_eq_true.
Qed.
End service.
