(* ===== verification/TokenProps.v ===== *)
(** * Properties of tokens: rotation, revocation, tickets, passwords *)
From S2P Require Import Prelude PyText StoreState Prims AuditLog Tenants Rbac Users Keys.
From S2P Require Import Tokens Ledger Crypto Jwt Jwks Auth StoreSteps Invariants.
From S2P Require Import RbacProps KeyProps TableProps AuditProps AuthLemmas.

Section tokens.
Context `{HashLib, Argon2Lib, JwtLib, AeadLib, RsaLib, TotpLib}.

(** ** Refresh-token rotation *)

(** The reuse path revokes the family. *)
Lemma refuse_reuse_run now c fam extra s :
  exists s', refuse_reuse now c fam extra s =
    (Raise (unauthorized "refresh token reuse detected"), s') /\
    refresh_tokens s' = refresh_tokens (revoke_refresh_family fam s).2.
Proof.
  unfold refuse_reuse, revoke_refresh_family.
  destruct (revoke_where_run (fun r => rt_family_id r = fam) s) as (n & d & E).
  erewrite bind_eq_ok by exact E. erewrite bind_eq_ok by apply append_audit_run.
  eexists. split; [done|]. by rewrite E.
Qed.

(** The shape of a successful refresh. *)
Lemma refresh_ok cfg ring now ajti nrjti tok s tr s' :
  refresh cfg ring now ajti nrjti tok s = (Ok tr, s') ->
  exists c rt role,
    verify_ cfg ring now tok (Some "refresh") = Ok c /\
    dget (c_jti c) (refresh_tokens s) = Some rt /\ rt_status rt = "active" /\
    tenant_denied (get_tenant_status (c_tid c) s) = false /\
    user_denied (get_user_status (c_sub c) s) = false /\
    get_member_role (c_tid c) (c_sub c) s = Some role /\
    tr = mkTokenResponse (issue cfg ring now ajti (c_sub c) (c_tid c) role (ac_ttl cfg) "access").1
           (issue cfg ring now nrjti (c_sub c) (c_tid c) role (ac_refresh_ttl cfg) "refresh").1
           (ac_ttl cfg) false false /\
    refresh_tokens s' =
      dset nrjti (mkRefreshToken nrjti (rt_family_id rt) (c_tid c) (c_sub c) "active" now
                    (now + sec (ac_refresh_ttl cfg)) None)
        (dset (c_jti c) (set_rt_replaced_by (Some nrjti) (set_rt_status "rotated" rt))
           (refresh_tokens s)).
Proof.
  unfold refresh. intros Hr. apply bind_ok in Hr as (c & s1 & Hc & Hr). unfold lift in Hc. simplify_eq.
  rewrite bind_gets in Hr. unfold get_refresh_token in Hr.
  destruct (dget (c_jti c) (refresh_tokens s1)) as [rt|] eqn:Ert; [|done].
  case_decide; [done|]. case_decide.
  { destruct (refuse_reuse_run now c (rt_family_id rt) [] s1) as (? & E & _). by rewrite E in Hr. }
  rewrite bind_gets in Hr. destruct (tenant_denied _) eqn:Et; [done|].
  rewrite bind_gets in Hr. destruct (user_denied _) eqn:Eu; [done|].
  rewrite bind_gets in Hr. destruct (get_member_role _ _ s1) as [role|] eqn:Er; [|done].
  simpl in Hr. unfold rotate_refresh_token in Hr at 1. unfold bind at 1 2 in Hr. unfold gets at 1 in Hr.
  rewrite Ert in Hr. exists c, rt, role.
  destruct (decide (rt_status rt <> "active")) as [Hna|Hact].
  { simpl in Hr. destruct (refuse_reuse_run now c (rt_family_id rt) [("reason", JStr "cas_lost")] s1)
      as (? & E & _). by rewrite E in Hr. }
  apply dec_stable in Hact. simpl in Hr. unfold record_issued_jti, sweep_issued_jtis, insert_refresh_token, append_audit in Hr.
  run_inv. by split_and!.
Qed.

(** [C4] Rotation is one-shot and theft-detecting. A successful refresh marks the
    presented token as rotated. After any further operations of the store that do
    not reuse its jti, presenting the same token again (while its signature still
    verifies) is refused with 401, and what happens is decided by the status
    stored for it: while that is still "rotated" the replay revokes every token
    of the family, the successor included; if one of the operations revoked the
    token, nothing is left to do and the store stays as it is. *)
Theorem refresh_replay_revokes_family cfg ring now a n tok s tr s1 ops cfg' ring' now' a' n' c c' rt :
  refresh cfg ring now a n tok s = (Ok tr, s1) ->
  verify_ cfg ring now tok (Some "refresh") = Ok c -> n <> c_jti c ->
  dget (c_jti c) (refresh_tokens s) = Some rt ->
  Forall (no_insert (c_jti c)) ops ->
  verify_ cfg' ring' now' tok (Some "refresh") = Ok c' -> c_jti c' = c_jti c ->
  (exists rt1, dget (c_jti c) (refresh_tokens s1) = Some rt1 /\ rt_status rt1 = "rotated" /\
     rt_replaced_by rt1 = Some n) /\
  exists rt2 s2, dget (c_jti c) (refresh_tokens (exec_all ops s1)) = Some rt2 /\
    (rt_status rt2 = "rotated" /\
     refresh cfg' ring' now' a' n' tok (exec_all ops s1) =
       (Raise (unauthorized "refresh token reuse detected"), s2) /\
     (forall jti r, dget jti (refresh_tokens s2) = Some r -> rt_family_id r = rt_family_id rt ->
        rt_status r = "revoked") \/
     rt_status rt2 = "revoked" /\ s2 = exec_all ops s1 /\
     refresh cfg' ring' now' a' n' tok (exec_all ops s1) =
       (Raise (unauthorized "revoked refresh token"), s2)).
Proof.
  intros Hr Hc Hn Hrt Hops Hc' Hj.
  apply refresh_ok in Hr as (c0 & rt0 & role & Hc0 & Hrt0 & _ & _ & _ & _ & _ & Hrts).
  assert (c0 = c) as -> by congruence. assert (rt0 = rt) as -> by congruence.
  set (rt1 := set_rt_replaced_by (Some n) (set_rt_status "rotated" rt)) in *.
  assert (dget (c_jti c) (refresh_tokens s1) = Some rt1) as Hrt1.
  { rewrite Hrts, dget_dset_ne, dget_dset_eq by done. done. }
  split; [by exists rt1|].
  destruct (refresh_moves ops s1 (c_jti c) rt1 Hops Hrt1) as (rt2 & Hrt2 & Hmv).
  destruct (refresh_move_ids _ _ Hmv) as (_ & Hfam & _).
  apply refresh_move_forward in Hmv as [_ Hmv]. specialize (Hmv eq_refl).
  unfold refresh. rewrite Hc', bind_lift_ok, bind_gets. unfold get_refresh_token. rewrite Hj, Hrt2.
  exists rt2. destruct Hmv as [Hst|Hst]; rewrite Hst; simpl.
  - destruct (refuse_reuse_run now' c' (rt_family_id rt2) [] (exec_all ops s1)) as (s2 & -> & E2).
    exists s2. split; [done|]. left. split_and!; [done..|]. intros jti r Hg Hf.
    rewrite E2 in Hg. simpl in Hfam.
    eapply revoke_where_all; [|exact Hg|]; [done|congruence].
  - eexists. split; [done|]. right. by split_and!.
Qed.

(** [C33] A refresh succeeds only for an active token of the ledger whose
    tenant is open, whose user is in good standing and still a member; both
    tokens of the new pair carry the member's current role, the refresh token
    under the jti of the new record; the old token is rotated and its successor
    joins the same family, active and with the configured lifetime. *)
Theorem refresh_sound cfg ring now ajti nrjti tok s tr s' :
  refresh cfg ring now ajti nrjti tok s = (Ok tr, s') ->
  exists c rt role,
    verify_ cfg ring now tok (Some "refresh") = Ok c /\
    dget (c_jti c) (refresh_tokens s) = Some rt /\ rt_status rt = "active" /\
    tenant_denied (get_tenant_status (c_tid c) s) = false /\
    user_denied (get_user_status (c_sub c) s) = false /\
    get_member_role (c_tid c) (c_sub c) s = Some role /\
    tr_access_token tr =
      (issue cfg ring now ajti (c_sub c) (c_tid c) role (ac_ttl cfg) "access").1 /\
    tr_refresh_token tr =
      (issue cfg ring now nrjti (c_sub c) (c_tid c) role (ac_refresh_ttl cfg) "refresh").1 /\
    tr_expires_in tr = ac_ttl cfg /\
    (exists rt', dget nrjti (refresh_tokens s') = Some rt' /\ rt_status rt' = "active" /\
       rt_family_id rt' = rt_family_id rt /\ rt_user_id rt' = c_sub c /\ rt_tenant_id rt' = c_tid c /\
       rt_expires_at rt' = now + sec (ac_refresh_ttl cfg)) /\
    (nrjti <> c_jti c -> exists rt', dget (c_jti c) (refresh_tokens s') = Some rt' /\
       rt_status rt' = "rotated" /\ rt_replaced_by rt' = Some nrjti).
Proof.
  intros (c & rt & role & ? & ? & ? & ? & ? & ? & -> & E)%refresh_ok. exists c, rt, role.
  split_and!; try done.
  - eexists. by rewrite E, dget_dset_eq.
  - intros Hne. eexists. by rewrite E, dget_dset_ne, dget_dset_eq.
Qed.

(** ** Revocation *)

(** Cross-tenant revocation is impossible: a revoke request for a jti
    that has no known owner, or whose owner is another tenant, is refused with
    403 and leaves the store untouched. *)
Theorem revoke_cross_tenant_denied now jti caller_tid caller_uid s :
  (forall uid, get_jti_owner now jti s <> Some (caller_tid, uid)) ->
  revoke now jti caller_tid caller_uid s =
    (Raise (forbidden "jti does not belong to caller tenant"), s).
Proof.
  intros Hno. unfold revoke. rewrite bind_gets.
  destruct (get_jti_owner now jti s) as [[tid uid]|]; [|done].
  case_decide as Hc; [done|]. subst. by destruct (Hno uid).
Qed.

(** [C34] A revocation by the owning tenant takes effect at once and for 24
    hours: every token with that jti is then refused by the authorization
    predicate. *)
Theorem revoke_effective now jti caller_tid caller_uid s uid c now' :
  reachable s -> get_jti_owner now jti s = Some (caller_tid, uid) ->
  c_jti c = jti -> now' <= now + sec 86400 ->
  exists s1, revoke now jti caller_tid caller_uid s = (Ok true, s1) /\
    authorize now' c s1 = (Raise (unauthorized "revoked token"), swept now' s1).
Proof.
  intros Hs Ho Hc Hle. unfold revoke. rewrite bind_gets, Ho. rewrite decide_False by auto.
  eexists. split; [done|]. apply authorize_revoked.
  - assert (rtc store_step s (revoke now jti caller_tid caller_uid s).2) as Hst by apply safe_revoke.
    unfold revoke in Hst. rewrite bind_gets, Ho in Hst. rewrite decide_False in Hst by auto.
    by eapply reach_wf, reachable_steps.
  - rewrite Hc. unfold revoked_now. simpl. rewrite dget_dset_eq. simpl. by apply bool_decide_eq_true.
Qed.

(** Logging out kills the presented access token until it expires, and
    revokes the whole family of the refresh token presented with it. *)
Theorem logout_effective cfg ring now c rtok s :
  reachable s -> c_exp c <> 0 ->
  exists s1, logout cfg ring now c rtok s = (Ok true, s1) /\
    (forall now', now' <= sec (c_exp c) ->
       authorize now' c s1 = (Raise (unauthorized "revoked token"), swept now' s1)) /\
    (forall t rc rt, rtok = Some t -> t <> "" -> verify_ cfg ring now t (Some "refresh") = Ok rc ->
       dget (c_jti rc) (refresh_tokens s) = Some rt ->
       forall jti r, dget jti (refresh_tokens s1) = Some r -> rt_family_id r = rt_family_id rt ->
         rt_status r = "revoked").
Proof.
  intros Hs Hexp.
  assert (exists s1, logout cfg ring now c rtok s = (Ok true, s1) /\
    revoked_jtis s1 = dset (c_jti c) (mkRevokedJti (c_jti c) (c_tid c) (Some (c_sub c)) "logout"
      (revocation_expiry now (Some (sec (c_exp c)))) now) (revoked_jtis s)) as (s1 & Hrun & Hrev).
  { unfold logout. unfold bind at 1. unfold revoke_jti, modify. simpl.
    unfold bind at 1. destruct (opt_true rtok); [|by eexists].
    destruct (verify_ cfg ring now _ _) as [rc|]; [|by eexists]. rewrite bind_gets.
    destruct (get_refresh_token _ _); by eexists. }
  assert (reachable s1) as Hs1.
  { replace s1 with (logout cfg ring now c rtok s).2 by (by rewrite Hrun).
    eapply safe_reachable; [apply safe_logout|done]. }
  exists s1. split_and!; [done|..].
  - intros now' Hle. apply authorize_revoked; [by eapply reach_wf|].
    unfold revoked_now. rewrite Hrev, dget_dset_eq. simpl. apply bool_decide_eq_true.
    rewrite decide_True; [done|]. unfold sec. lia.
  - intros t rc rt -> Ht Hv Hrt jti r Hg Hf. revert Hrun. unfold logout. unfold bind at 1.
    unfold revoke_jti, modify. simpl. unfold bind at 1, str_true.
    rewrite bool_decide_eq_true_2 by done. rewrite Hv, bind_gets.
    unfold get_refresh_token. simpl. rewrite Hrt. intros [= <-].
    eapply (revoke_where_all (fun r => rt_family_id r = rt_family_id rt)); [|exact Hg|exact Hf]. done.
Qed.

(** ** One-time secrets *)

(** An SSO ticket is exchanged at most once: after an exchange that
    handed out tokens, and after any further store operations that do not
    create a ticket with the same hash, every later exchange of that ticket is
    refused with 401 and changes nothing. *)
Theorem sso_ticket_single_use cfg ring now d ticket s tr s1 ops cfg' ring' now' d' :
  exchange_sso_ticket cfg ring now d ticket s = (Ok tr, s1) ->
  Forall (no_ticket (sha256 ticket)) ops ->
  exchange_sso_ticket cfg' ring' now' d' ticket (exec_all ops s1) =
    (Raise (unauthorized "invalid ticket"), exec_all ops s1).
Proof.
  intros Hx Hops. unfold exchange_sso_ticket in Hx. apply bind_ok in Hx as (rec & s0 & Hc & Hx).
  destruct rec as [rec|]; [|done].
  assert (dget (sha256 ticket) (sso_tickets s0) = Some rec /\ tk_used_at rec <> None) as [Hg Hu].
  { unfold consume_sso_ticket in Hc. rewrite bind_gets in Hc.
    destruct (dget (sha256 ticket) (sso_tickets s)) as [r0|]; [|done].
    case_decide; [done|]. run_inv. simpl. by rewrite dget_dset_eq. }
  assert (sso_tickets s1 = sso_tickets s0) as E1.
  { rewrite bind_gets in Hx. destruct (get_user _ _); [|done]. destruct (_ || _); [done|].
    rewrite bind_gets in Hx. case_decide; [done|]. rewrite bind_gets in Hx.
    destruct (get_member_role _ _ _); [|done]. unfold issue_login_pair in Hx. simpl in Hx.
    unfold record_issued_jti, sweep_issued_jtis, insert_refresh_token, append_audit in Hx.
    by run_inv. }
  assert (dget (sha256 ticket) (sso_tickets (exec_all ops s1)) = Some rec) as Hg'.
  { apply ticket_steps; [done|by rewrite E1|done]. }
  unfold exchange_sso_ticket, consume_sso_ticket. unfold bind at 1. rewrite bind_gets, Hg'.
  by rewrite decide_True by (by left).
Qed.

(** A password-reset token cannot be redeemed twice for an account, nor
    after its expiry: a redemption clears it, so the next one with the same
    token never answers the same user; an expired token answers nobody. *)
Theorem reset_token_single_use now now' h s uid s1 :
  reachable s -> consume_password_reset_token now h s = (Ok (Some uid), s1) ->
  (exists u, dget uid (users s) = Some u /\ u_password_reset_token_hash u = Some h /\
     token_expired now (u_password_reset_expires u) = false) /\
  (consume_password_reset_token now' h s1).1 <> Ok (Some uid).
Proof.
  intros Hs Hc. pose proof (reach_wf _ _ Hs) as Hwf. pose proof (reach_ids _ _ Hs) as Hids.
  assert (reachable s1) as Hs1.
  { replace s1 with (consume_password_reset_token now h s).2 by (by rewrite Hc).
    eapply safe_reachable; [auto with safe|done]. }
  unfold consume_password_reset_token in Hc. rewrite bind_gets in Hc.
  destruct (dfind _ (users s)) as [[k u]|] eqn:Hf; [|done].
  apply (dfind_dget _ _ _ _ (wf_users s Hwf)) in Hf as [Hk Hh]. apply bool_decide_eq_true in Hh.
  destruct (token_expired now (u_password_reset_expires u)) eqn:He; [done|].
  pose proof (id_user s Hids k u Hk) as Hid. unfold put_user in Hc. run_inv.
  split; [eauto|]. unfold consume_password_reset_token. rewrite bind_gets.
  destruct (dfind _ _) as [[k2 u2]|] eqn:Hf; [|done].
  apply (dfind_dget _ _ _ _ (wf_users _ (reach_wf _ _ Hs1))) in Hf as [Hk2 Hh2].
  apply bool_decide_eq_true in Hh2. simpl in Hk2.
  destruct (token_expired now' _); [done|]. simpl. intros [= Eid].
  apply dget_dset_inv in Hk2 as [[-> ->]|[Hne Hk2]]; [done|].
  apply (id_user s Hids) in Hk2. congruence.
Qed.

(** Changing the password replaces the credential and ends the sessions:
    on success the new password verifies for the user and the forced-change
    flag is cleared, and every refresh token of the user, in whatever tenant,
    is revoked; a wrong old password changes neither and counts as a failed
    login. *)
Theorem change_password_effective `{!Argon2Laws} now salt uid old new tid u s :
  reachable s -> dget uid (users s) = Some u ->
  (password_ok old u = true ->
   exists s1 u1, change_password now salt uid old new tid s = (Ok true, s1) /\
     dget uid (users s1) = Some u1 /\ password_ok new u1 = true /\
     u_must_change_password u1 = false /\
     forall jti r, dget jti (refresh_tokens s1) = Some r -> rt_user_id r = uid ->
       rt_status r = "revoked") /\
  (password_ok old u = false ->
   exists s1, change_password now salt uid old new tid s =
       (Raise (unauthorized "invalid credentials"), s1) /\
     refresh_tokens s1 = refresh_tokens s /\
     dget uid (users s1) = Some (apply_user_fields (failed_fields now u) u)).
Proof.
  intros Hs Hu. pose proof (id_user _ (reach_ids _ _ Hs) uid u Hu) as Hid.
  unfold change_password, get_user, password_ok. rewrite bind_gets, Hu. split; intros Hp.
  - rewrite Hp. simpl. pose proof (argon2_nonempty new salt) as Hne.
    erewrite bind_eq_ok by (apply update_user_run; exact Hu).
    set (u1 := apply_user_fields _ u). set (s1 := set_users _ s).
    destruct (revoke_where_run (fun r => rt_user_id r = uid) s1) as (n & d & E).
    unfold revoke_user_sessions. erewrite bind_eq_ok by exact E.
    erewrite bind_eq_ok by apply append_audit_run. eexists _, u1. split; [done|]. simpl.
    split_and!; [by rewrite dget_dset_eq| |done|].
    + unfold verify_password. simpl. by rewrite decide_True, argon2_verify_hash by done.
    + intros jti r Hg Hr. eapply (revoke_where_all (fun r => rt_user_id r = uid) jti r s1); [done| |done].
      by rewrite E.
  - rewrite Hp. simpl. rewrite <- Hid in Hu.
    destruct (record_failed_login_run now u (Some tid) s Hu) as (s1 & Hr & Hus & _).
    erewrite bind_eq_ok by exact Hr. exists s1. split; [done|]. split.
    + pose proof Hr as Hr2. unfold record_failed_login in Hr2.
      assert (refresh_tokens (record_failed_login now u (Some tid) s).2 = refresh_tokens s) as E.
      { unfold record_failed_login, update_user, put_user, append_audit.
        unfold bind, gets, modify, ret. repeat case_match; by simplify_eq/=. }
      by rewrite Hr in E.
    + rewrite Hus, Hid. by rewrite dget_dset_eq.
Qed.
End tokens.
