(* ===== verification/StoreProps.v ===== *)
(** * Properties of the store's tables

    The life of an API key, the deletion of a tenant, the rotation of an
    application secret, the decision of a join request, paging through the
    event log, the usage figures. *)
From S2P Require Import Prelude PyText StoreState Prims AuditLog Tenants Rbac Users Keys.
From S2P Require Import Tokens Ledger Crypto Jwt Jwks Auth StoreSteps Invariants KeyProps.
From S2P Require Import TableProps AuthLemmas.

(** ** API keys *)
Section api_keys.
Context `{HashLib, Argon2Lib}.

(** A step with fresh draws. *)
Definition fresh_step (s s' : Store) : Prop := exists op, key_draws_ok op s /\ s' = exec op s.

(** A revoked row is never changed back. *)
Definition revoked_row (kid h : string) (s : Store) : Prop :=
  exists k, dget kid (api_keys s) = Some k /\ k_key_hash k = h /\ time_true (k_revoked_at k) = true.

Lemma revoked_row_step kid h s op :
  key_draws_ok op s -> revoked_row kid h s -> revoked_row kid h (exec op s).
Proof.
  intros Hok (k & Hk & Hh & Hr).
  destruct op; try (exists k; split; [by exec_run|done]); cbn [exec].
  - unfold delete_tenant. rewrite bind_gets. destruct (dget tid (tenants s)); [|by exists k].
    exists k. split; [|done]. unfold bind, modify, ret. simpl. rewrite dget_dmap, Hk. simpl.
    rewrite decide_False; [done|]. intros [_ E]. congruence.
  - destruct Hok as [Hn _]. exists k. split; [|done]. unfold create_api_key, bind, modify, ret. simpl.
    rewrite dget_dset_ne; [done|]. intros ->. congruence.
  - unfold revoke_api_key. rewrite bind_gets. destruct (dget kid0 (api_keys s)) as [k0|] eqn:E; [|by exists k].
    unfold bind, modify, ret. simpl. unfold revoked_row. simpl. rewrite dget_dset. case_decide.
    + subst. eexists. split; [done|]. simpl. split; [congruence|]. by apply bool_decide_eq_true.
    + by exists k.
Qed.

Lemma revoked_row_refused kid h s :
  keys_inv s -> revoked_row kid h s -> get_api_key_by_hash h s = None.
Proof.
  intros Hi (k & Hk & Hh & Hr). destruct (get_api_key_by_hash h s) as [k'|] eqn:E; [|done].
  apply api_key_lookup in E as (Hk' & Hh' & Hr'); [|done].
  assert (kid = k_key_id k') as -> by (eapply (ki_hash _ Hi); eauto; congruence). congruence.
Qed.

(** The life of an API key, in a store whose random draws do not repeat:
    the raw key handed out is found by its hash at once, with the tenant and
    the scopes it was created for; after its revocation it is refused, and
    stays refused whatever operations follow. *)
Theorem api_key_lifecycle now rnd_raw rnd_id tid uid scopes s :
  reach key_draws_ok s -> key_draws_ok (OpCreateApiKey now rnd_raw rnd_id tid uid scopes) s ->
  exists raw k s1, create_api_key now rnd_raw rnd_id tid uid scopes s = (Ok (raw, k), s1) /\
    get_api_key_by_hash (sha256 raw) s1 = Some k /\ k_tenant_id k = tid /\ k_scopes k = scopes /\
    forall now' s3, now' <> 0 ->
      rtc fresh_step (revoke_api_key now' (k_key_id k) s1).2 s3 ->
      (revoke_api_key now' (k_key_id k) s1).1 = Ok true /\
      get_api_key_by_hash (sha256 raw) s3 = None.
Proof.
  intros Hs Hok. eexists _, _, _. split; [reflexivity|]. set (s1 := set_key_hash_index _ _).
  assert (reach key_draws_ok s1) as Hs1
    by exact (reach_step _ _ (OpCreateApiKey now rnd_raw rnd_id tid uid scopes) Hs Hok).
  set (k := mkApiKey _ _ _ _ _ _ _ _).
  assert (dget (k_key_id k) (api_keys s1) = Some k) as Hk by (simpl; by rewrite dget_dset_eq).
  split_and!; [apply api_key_lookup; [by apply reach_keys|done]|done|done|].
  intros now' s3 Hnow Hsteps.
  assert (reach key_draws_ok (revoke_api_key now' (k_key_id k) s1).2) as Hs2
    by exact (reach_step _ _ (OpRevokeApiKey now' (k_key_id k)) Hs1 Hnow).
  assert (revoked_row (k_key_id k) (sha256 ("fmu_" +:+ rnd_raw)) (revoke_api_key now' (k_key_id k) s1).2)
    as Hrow.
  { unfold revoke_api_key. rewrite bind_gets, Hk. eexists. split; [apply dget_dset_eq|].
    split; [done|]. by apply bool_decide_eq_true. }
  split; [unfold revoke_api_key; by rewrite bind_gets, Hk|].
  assert (reach key_draws_ok s3 /\ revoked_row (k_key_id k) (sha256 ("fmu_" +:+ rnd_raw)) s3)
    as [Hs3 Hr3].
  { clear -Hsteps Hs2 Hrow. induction Hsteps as [|a b c (op & Hop & ->) _ IH]; [done|].
    apply IH; [by constructor|by apply revoked_row_step]. }
  eapply revoked_row_refused; [by apply reach_keys|done].
Qed.
End api_keys.

(** ** Deleting a tenant *)
Section tenants.
Context `{HashLib, Argon2Lib}.

Lemma dget_filter_pair {V} tid k (d : list ((string * string) * V)) :
  dget k (filter (fun kv => kv.1.1 <> tid) d) = if decide (k.1 = tid) then None else dget k d.
Proof.
  induction d as [|[k' v] d IH]; [by case_decide|]. rewrite filter_cons. simpl.
  destruct (decide (k'.1 <> tid)) as [Hne|Heq%dec_stable]; simpl; rewrite IH.
  - repeat case_decide; simplify_eq; done.
  - repeat case_decide; subst; done.
Qed.

Lemma filter_dmap_other (f : ApiKey -> ApiKey) (P : ApiKey -> Prop) `{forall k, Decision (P k)}
    (d : list (string * ApiKey)) :
  (forall k, P (f k) <-> P k) -> (forall k, P k -> f k = k) ->
  filter P (dvalues (dmap (fun _ => f) d)) = filter P (dvalues d).
Proof.
  intros Hp Hf. unfold dvalues, dmap. induction d as [|[k v] d IH]; [done|]. rewrite !fmap_cons.
  cbn [fst snd]. rewrite !filter_cons, IH. specialize (Hp v). specialize (Hf v).
  destruct (decide (P (f v))), (decide (P v)); try tauto. by rewrite Hf.
Qed.

Lemma filter_dmap_none (f : ApiKey -> ApiKey) (P : ApiKey -> Prop) `{forall k, Decision (P k)}
    (d : list (string * ApiKey)) :
  (forall k, ~ P (f k)) -> filter P (dvalues (dmap (fun _ => f) d)) = [].
Proof.
  intros Hp. unfold dvalues, dmap. induction d as [|[k v] d IH]; [done|]. rewrite !fmap_cons.
  cbn [fst snd]. by rewrite filter_cons, decide_False, IH.
Qed.

Lemma delete_tenant_keys now tid s :
  now <> 0 ->
  let upd := fun k => if decide (live_key_of tid k) then set_k_revoked_at (Some now) k else k in
  let s1 := set_api_keys (dmap (fun _ => upd) (api_keys s)) s in
  list_api_keys tid s1 = [] /\ forall tid', tid' <> tid -> list_api_keys tid' s1 = list_api_keys tid' s.
Proof.
  intros Hnow upd s1. unfold list_api_keys, s1. simpl. split.
  - apply filter_dmap_none. intros k. unfold upd. destruct (decide (live_key_of tid k)) as [|Hn]; [|done].
    simpl. intros [_ E]. by apply bool_decide_eq_false in E.
  - intros tid' Hne. apply filter_dmap_other.
    + intros k. unfold upd. destruct (decide (live_key_of tid k)) as [[E _]|]; [|done]. simpl.
      naive_solver.
    + intros k [E _]. unfold upd. rewrite decide_False; [done|]. intros [? _]. congruence.
Qed.

Lemma delete_tenant_tokens tid j (d : list (string * RefreshToken)) :
  let d' := dmap (fun _ r => if decide (rt_tenant_id r = tid /\ rt_status r <> "revoked")
                             then set_rt_status "revoked" r else r) d in
  (forall r, dget j d' = Some r -> rt_tenant_id r = tid -> rt_status r = "revoked") /\
  (forall r, rt_tenant_id r <> tid -> dget j d' = Some r <-> dget j d = Some r).
Proof.
  simpl. rewrite dget_dmap. split; intros r.
  - destruct (dget j d) as [r0|]; [|done]. simpl. case_decide as Hc; intros [= <-]; [done|].
    intros Ht. destruct (decide (rt_status r0 = "revoked")); naive_solver.
  - intros Hne. destruct (dget j d) as [r0|]; [|done]. simpl.
    case_decide as Hc; split; intros [= <-]; naive_solver.
Qed.

(** Deleting a tenant closes it and nothing else: the row stays with
    status ["deleted"], every membership is gone, every key and every refresh
    token of the tenant is revoked, every access token for it is refused from
    then on; the row, memberships, keys and refresh tokens of any other tenant
    are as before. *)
Theorem delete_tenant_isolates now tid t s :
  reachable s -> dget tid (tenants s) = Some t -> now <> 0 ->
  exists s1, delete_tenant now tid s = (Ok true, s1) /\
    get_tenant_status tid s1 = Some "deleted" /\
    (forall uid, get_member_role tid uid s1 = None) /\ list_api_keys tid s1 = [] /\
    (forall j r, dget j (refresh_tokens s1) = Some r -> rt_tenant_id r = tid -> rt_status r = "revoked") /\
    (forall now' c, c_tid c = tid -> exists d, authorize now' c s1 = (Raise (unauthorized d), swept now' s1)) /\
    forall tid', tid' <> tid ->
      get_tenant tid' s1 = get_tenant tid' s /\
      (forall uid, get_member_role tid' uid s1 = get_member_role tid' uid s) /\
      list_api_keys tid' s1 = list_api_keys tid' s /\
      (forall j r, rt_tenant_id r = tid' ->
         dget j (refresh_tokens s1) = Some r <-> dget j (refresh_tokens s) = Some r).
Proof.
  intros Hs Ht Hnow. pose proof (reach_wf _ _ Hs) as Hwf. eexists.
  split; [unfold delete_tenant; rewrite bind_gets, Ht; reflexivity|]. set (s1 := set_refresh_tokens _ _).
  destruct (delete_tenant_keys now tid s Hnow) as [Hk0 Hk1].
  assert (get_tenant_status tid s1 = Some "deleted") as Hst
    by (unfold get_tenant_status; simpl; by rewrite dget_dset_eq).
  assert (reachable s1) as Hs1.
  { replace s1 with (exec (OpDeleteTenant now tid) s) by
      (cbn [exec]; unfold delete_tenant; rewrite bind_gets, Ht; reflexivity). by constructor. }
  assert (forall uid, get_member_role tid uid s1 = None) as Hm.
  { intros uid. unfold get_member_role. simpl. by rewrite dget_filter_pair, decide_True. }
  split_and!; [done|done|exact Hk0| | |].
  - intros j. apply (proj1 (delete_tenant_tokens tid j (refresh_tokens s))).
  - intros now' c Hc. pose proof (authorize_run now' c s1 (reach_wf _ _ Hs1)) as Hrun.
    rewrite Hc, Hst in Hrun. simpl in Hrun. by rewrite !orb_true_r in Hrun.
  - intros tid' Hne. split_and!.
    + unfold get_tenant. simpl. by rewrite dget_dset_ne.
    + intros uid. unfold get_member_role. simpl. by rewrite dget_filter_pair, decide_False.
    + exact (Hk1 tid' Hne).
    + intros j r Hr. apply (proj2 (delete_tenant_tokens tid j (refresh_tokens s))). congruence.
Qed.
End tenants.

(** ** Application secrets *)
Section app_secrets.
Context `{HashLib, Argon2Lib}.

(** What becomes of one row when a new version is issued. *)
Lemma demote_row now app grace s sid r :
  store_wf s -> secrets_inv s -> dget sid (app_secrets s) = Some r ->
  dget sid (demote now app grace (app_secrets s)) =
  Some (if is_current app r
        then set_s_grace_until (Some (now + sec grace)) (set_s_status "grace" r) else r).
Proof.
  intros Hwf Hi Hr. unfold demote. destruct (dfind _ _) as [[sid' r']|] eqn:Hf.
  - apply dfind_dget in Hf as [Hr' Hc']; [|apply Hwf]. rewrite dget_dset. case_decide as Hs.
    + subst. assert (r = r') as -> by congruence. by rewrite Hc'.
    + rewrite Hr. destruct (is_current app r) eqn:Hc; [|done]. destruct Hs.
      unfold is_current in *. apply bool_decide_eq_true in Hc as [? ?], Hc' as [? ?].
      eapply (si_current s Hi); eauto. congruence.
  - rewrite Hr. rewrite dfind_None in Hf. apply dget_elem_of in Hr. by rewrite (Hf _ _ Hr).
Qed.

(** Issuing or rotating an application secret: the answer is the only
    current version of the application, with the hash of the raw secret and a
    version number above all earlier ones; the version that was current, if
    any, is demoted to its grace window and handed back; every other row, of
    this and of other applications, is left alone. *)
Theorem app_secret_rotation now rnd_raw rnd_id app grace s :
  reachable s -> dget ("sec_" +:+ rnd_id) (app_secrets s) = None ->
  exists raw rec prev s1, issue_app_secret now rnd_raw rnd_id app grace s = (Ok (raw, rec, prev), s1) /\
    get_current_app_secret app s1 = Some rec /\ s_secret_hash rec = sha256 raw /\
    (forall sid r, dget sid (app_secrets s1) = Some r -> s_app_id r = app ->
       s_version r <= s_version rec /\ (s_status r = "current" -> r = rec)) /\
    (forall sid r, dget sid (app_secrets s) = Some r ->
       dget sid (app_secrets s1) =
       Some (if is_current app r
             then set_s_grace_until (Some (now + sec grace)) (set_s_status "grace" r) else r)) /\
    prev = (fun r => set_s_grace_until (Some (now + sec grace)) (set_s_status "grace" r)) <$>
             get_current_app_secret app s.
Proof.
  intros Hs Hn. pose proof (reach_wf _ _ Hs) as Hwf. pose proof (reach_secrets _ _ Hs) as Hi.
  destruct (issue_app_secret_run now rnd_raw rnd_id app grace s) as [prev Hrun].
  set (rec := new_secret now rnd_raw rnd_id app s) in *. set (s1 := set_app_secrets _ _) in Hrun.
  exists ("fms_" +:+ rnd_raw), rec, prev, s1. split; [done|].
  assert (reachable s1) as Hs1.
  { replace s1 with (exec (OpIssueAppSecret now rnd_raw rnd_id app grace) s) by
      (cbn [exec]; by rewrite Hrun). by constructor. }
  pose proof (reach_wf _ _ Hs1) as Hwf1. pose proof (reach_secrets _ _ Hs1) as Hi1.
  assert (dget ("sec_" +:+ rnd_id) (app_secrets s1) = Some rec) as Hrec by apply dget_dset_eq.
  assert (forall sid r, dget sid (app_secrets s1) = Some r -> s_app_id r = app ->
       s_version r <= s_version rec /\ (s_status r = "current" -> r = rec)) as Hall.
  { intros sid r Hr Ha. split.
    - apply dget_dset_inv in Hr as [[-> ->]|[_ Hr]]; [done|].
      destruct (demote_lookup _ _ _ _ _ _ Hwf Hi Hr) as (r0 & Hr0 & Ha0 & -> & _).
      apply Z.lt_le_incl. eapply (app_version_lt app s); [done|congruence].
    - intros Hc. assert (sid = "sec_" +:+ rnd_id) as -> by (eapply (si_current s1 Hi1); eauto).
      congruence. }
  split_and!; [|done|done| |].
  - unfold get_current_app_secret. destruct (dfind _ (app_secrets s1)) as [[sid r]|] eqn:Hf.
    + apply dfind_dget in Hf as [Hr Hc]; [|apply Hwf1]. unfold is_current in Hc.
      apply bool_decide_eq_true in Hc as [? ?]. simpl. f_equal. eapply Hall; eauto.
    + rewrite dfind_None in Hf. apply dget_elem_of in Hrec. apply Hf in Hrec.
      unfold is_current in Hrec. apply bool_decide_eq_false in Hrec. naive_solver.
  - intros sid r Hr. assert (sid <> "sec_" +:+ rnd_id) by congruence. simpl.
    rewrite dget_dset_ne by done. by apply demote_row.
  - unfold issue_app_secret in Hrun. rewrite !bind_gets in Hrun. unfold get_current_app_secret.
    destruct (dfind (is_current app) (app_secrets s)) as [[sid r]|]; simpl in *;
      unfold bind, modify, ret in Hrun; by simplify_eq.
Qed.
End app_secrets.

(** ** Join requests *)
Section join.
Context `{HashLib, Argon2Lib}.

(** A decision on a join request is final: once decided, the request
    keeps its status, its decider and its time through any operations that do
    not draw its id again, and every further decision is refused and changes
    nothing. *)
Theorem join_decision_final now rid status by_ s r s1 ops now' status' by' :
  reachable s -> decide_join_request now rid status by_ s = (Ok (Some r), s1) ->
  Forall (no_request rid) ops ->
  j_status r = status /\ j_decided_by r = Some by_ /\ status ∈ DECISIONS /\
  get_join_request rid s = Some (mkJoinRequest (j_request_id r) (j_tenant_id r) (j_user_id r)
                                   "pending" None None (j_created_at r)) /\
  get_join_request rid (exec_all ops s1) = Some r /\
  exists m, decide_join_request now' rid status' by' (exec_all ops s1) =
              (Raise (StoreConflict m), exec_all ops s1).
Proof.
  intros Hs Hd Hops. unfold decide_join_request in Hd. case_decide as Hst; [done|].
  rewrite bind_gets in Hd. destruct (dget rid (join_requests s)) as [r0|] eqn:Hr0; [|done].
  destruct (decide (j_status r0 <> "pending")) as [|Hp%dec_stable]; [done|].
  unfold bind, modify, ret in Hd. simplify_eq. simpl.
  destruct (ji_status _ (reach_join _ _ Hs) _ _ Hr0) as [_ [(_ & Hb & Ha)|[Hin _]]];
    [|rewrite Hp in Hin; set_solver].
  set (r := set_j_decided_at _ _). set (s1 := set_join_requests _ _).
  assert (j_status r <> "pending") as Hnp by (simpl; set_solver).
  assert (get_join_request rid (exec_all ops s1) = Some r) as Hr.
  { assert (get_join_request rid s1 = Some r) as E by apply dget_dset_eq. clearbody s1. clear -Hops E Hnp.
    unfold get_join_request, exec_all in *. revert s1 E.
    induction Hops as [|op ops Hop _ IH]; intros s1 E; simpl; [done|]. apply IH. by apply request_step. }
  split_and!; try done.
  - unfold get_join_request. rewrite Hr0. destruct r0; simpl in *. by subst.
  - unfold decide_join_request. case_decide; [by eexists|]. rewrite bind_gets.
    unfold get_join_request in Hr. rewrite Hr, decide_True by done. by eexists.
Qed.
End join.

(** ** Paging through the events *)
Section events.
Context `{HashLib, Argon2Lib}.

Lemma numbered_after lo l c :
  numbered lo l -> filter (fun e => c < e_seq e) l = drop (Z.to_nat (c - lo + 1)) l.
Proof.
  revert lo. induction l as [|e l IH]; intros lo Hn; [by rewrite drop_nil|].
  pose proof (Hn 0%nat e eq_refl) as He. simpl in He.
  assert (numbered (lo + 1) l) as Hn' by (intros i x Hx; rewrite (Hn (S i) x Hx); lia).
  rewrite filter_cons, (IH _ Hn'). destruct (decide (c < e_seq e)).
  - replace (Z.to_nat (c - lo + 1)) with 0%nat by lia. replace (Z.to_nat (c - (lo + 1) + 1)) with 0%nat by lia.
    done.
  - replace (Z.to_nat (c - lo + 1)) with (S (Z.to_nat (c - (lo + 1) + 1))) by lia. done.
Qed.

(** The page after [c] of a numbered log. *)
Lemma list_events_page s c limit :
  log_inv s -> 0 <= limit ->
  let k := Z.to_nat (c - (event_seq s - zlen (events s) + 1) + 1) in
  list_events c limit s = take (Z.to_nat limit) (drop k (events s)).
Proof.
  intros Hl Hlim. unfold list_events, py_take. rewrite decide_False by lia.
  by rewrite (numbered_after _ _ _ (lg_events s Hl)).
Qed.

(** A consumer that follows the cursor misses nothing and sees nothing
    twice: in every reachable store, a page followed by the page after its
    last event is the longer page; and an empty page means that no event of
    the log is younger than the cursor. *)
Theorem event_paging s c limit limit' :
  reachable s -> 0 < limit -> 0 <= limit' ->
  match last (list_events c limit s) with
  | Some e => list_events c (limit + limit') s =
              list_events c limit s ++ list_events (e_seq e) limit' s
  | None => forall e, e ∈ events s -> e_seq e <= c
  end.
Proof.
  intros Hl%reach_log Hlim Hlim'. pose proof (lg_events s Hl) as Hn.
  rewrite (list_events_page s c limit), (list_events_page s c (limit + limit')) by (done || lia).
  set (lo := event_seq s - zlen (events s) + 1) in *. set (k := Z.to_nat (c - lo + 1)).
  set (n := Z.to_nat limit). destruct (last (take n (drop k (events s)))) as [e|] eqn:He.
  - rewrite last_lookup in He.
    set (m := length (take n (drop k (events s)))) in *.
    assert (m = min n (length (events s) - k)) as Hm by (unfold m; by rewrite length_take, length_drop).
    assert (m <> 0)%nat as Hm0.
    { intros E. apply lookup_lt_Some in He. unfold m in *. lia. }
    rewrite lookup_take_lt, lookup_drop in He by lia. apply Hn in He as Hseq.
    rewrite list_events_page by done. fold lo. rewrite Hseq.
    replace (Z.to_nat (lo + Z.of_nat (k + Init.Nat.pred m) - lo + 1)) with (k + m)%nat by lia.
    rewrite Z2Nat.inj_add by lia. fold n. rewrite <- take_take_drop, drop_drop. f_equal. f_equal.
    destruct (decide (m = n)) as [->|]; [done|]. rewrite !drop_ge; [done|lia..].
  - apply last_None in He. intros e [i Hi]%list_elem_of_lookup.
    assert (length (events s) <= k)%nat as Hk.
    { apply (f_equal length) in He. rewrite length_take, length_drop in He. simpl in He. lia. }
    apply lookup_lt_Some in Hi as Hlt. rewrite (Hn i e Hi). lia.
Qed.
End events.

(** ** Usage figures *)
Section usage.

(** The sum of the values of the records that satisfy [P]. *)
Definition usage_total (P : UsageRecord -> bool) (l : list UsageRecord) : Z :=
  foldr (fun u acc => if P u then us_value u + acc else acc) 0 l.

Lemma tally_get k k' v d :
  default 0 (dget k (tally k' v d)) = default 0 (dget k d) + if bool_decide (k' = k) then v else 0.
Proof.
  unfold tally. rewrite dget_dset. case_decide; subst.
  - by rewrite bool_decide_eq_true_2.
  - rewrite bool_decide_eq_false_2 by auto. lia.
Qed.

(** A fold of [tally] over selected records counts by key. *)
Lemma tally_fold (sel : UsageRecord -> bool) (key : UsageRecord -> string) l d k :
  default 0 (dget k (foldl (fun d u => if sel u then tally (key u) (us_value u) d else d) d l)) =
  default 0 (dget k d) + usage_total (fun u => sel u && bool_decide (key u = k)) l.
Proof.
  revert d. induction l as [|u l IH]; intros d; simpl; [lia|]. rewrite IH. destruct (sel u); simpl; [|done].
  rewrite tally_get. case_bool_decide; lia.
Qed.
Lemma tally_fold_wf (sel : UsageRecord -> bool) (key : UsageRecord -> string) l d :
  dict_wf d -> dict_wf (foldl (fun d u => if sel u then tally (key u) (us_value u) d else d) d l).
Proof.
  revert d. induction l as [|u l IH]; intros d Hd; simpl; [done|]. apply IH.
  destruct (sel u); [|done]. by apply dict_wf_dset.
Qed.

Lemma dget_perm {V} (d d' : list (string * V)) k : dict_wf d -> d' ≡ₚ d -> dget k d' = dget k d.
Proof.
  intros Hwf Hp. assert (dict_wf d') as Hwf' by (unfold dict_wf, dkeys in *; by rewrite Hp).
  apply option_eq. intros v. by rewrite <- !elem_of_dget_iff, Hp.
Qed.

(** The four folds of the summary, one by one. *)
Lemma summarise_split tid since until l r :
  let sel := usage_selected tid since until in
  let fold key d := foldl (fun d u => if sel u then tally (key u) (us_value u) d else d) d l in
  foldl (summarise_usage tid since until) r l =
  mkUsageSummary (sm_events r + zlen (filter (fun u => sel u = true) l))
    (fold us_metric (sm_totals r))
    (fold (fun u => or_default "unknown" (Some (us_source u))) (sm_by_source r))
    (fold (fun u => or_default "unspecified" (us_model u)) (sm_by_model r)).
Proof.
  simpl. revert r. induction l as [|u l IH]; intros r; simpl.
  - rewrite filter_nil. unfold zlen. simpl. rewrite Z.add_0_r. by destruct r.
  - rewrite IH, filter_cons. unfold summarise_usage.
    destruct (usage_selected tid since until u); simpl; [|done].
    f_equal. unfold zlen. simpl. lia.
Qed.

(** The usage figures add up: the summary counts the selected records,
    and each of its three breakdowns (metric, source, model) gives, under
    every key, the sum of the values of the selected records with that key;
    [aggregate_usage] without a metric reports the same totals as the
    summary. *)
Theorem usage_figures tid since until s k :
  let sel := usage_selected tid since until in
  let sm := usage_summary tid since until s in
  sm_events sm = zlen (filter (fun u => sel u = true) (usage s)) /\
  default 0 (dget k (sm_totals sm)) =
    usage_total (fun u => sel u && bool_decide (us_metric u = k)) (usage s) /\
  default 0 (dget k (sm_by_source sm)) =
    usage_total (fun u => sel u && bool_decide (or_default "unknown" (Some (us_source u)) = k)) (usage s) /\
  default 0 (dget k (sm_by_model sm)) =
    usage_total (fun u => sel u && bool_decide (or_default "unspecified" (us_model u) = k)) (usage s) /\
  dget k (aggregate_usage tid since until None s) = dget k (sm_totals sm).
Proof.
  intros sel sm. unfold sm, usage_summary. rewrite summarise_split. fold sel. simpl.
  rewrite !tally_fold. simpl. split_and!; try done.
  unfold aggregate_usage. fold sel. apply dget_perm; [apply tally_fold_wf, dict_wf_nil|]. rewrite sort_by_perm.
  clear. generalize (@nil (string * Z)).
  induction (usage s) as [|u l IH]; intros d; simpl; [done|]. by rewrite IH, andb_true_r.
Qed.
End usage.
