(* ===== verification/JwksProps.v ===== *)
(** * Properties of the key ring and of secret encryption

    Rotation and pruning as a sequence of ring operations: what they keep of
    the ring, what survives a restart through the key file, and for how long
    a token stays verifiable after the key that signed it was retired. *)
From S2P Require Import Prelude PyText StoreState Prims Crypto Jwt Jwks Rbac Auth AuthLemmas.

(** ** Ring operations *)

Definition key_ok (k : RsaKey) : Prop := rk_kid k <> "" /\ rk_public_pem k <> "".

(** An RS256 ring: there is a current key, all keys have a kid and a public
    part, no two share a kid, and the index finds each of them. *)
Record ring_inv (ring : KeyRing) : Prop := {
  ri_alg : kr_algorithm ring = "RS256";
  ri_cur : is_Some (kr_rsa_current ring);
  ri_ok : Forall key_ok (ring_keys ring);
  ri_kids : NoDup (rk_kid <$> ring_keys ring);
  ri_index : forall k, k ∈ ring_keys ring -> dget (rk_kid k) (kr_kid_index ring) = Some k
}.

Section ring.
Context `{HashLib, RsaLib}.

Inductive ring_op : Type :=
  | RotateOp (w : write_outcome) (new_key : RsaKey)
  | PruneOp (w : write_outcome) (now : Z).
Definition ring_exec (op : ring_op) (st : KR) : KR :=
  match op with
  | RotateOp w k => (rotate w k st).2
  | PruneOp w now => (prune w now st).2
  end.
Definition ring_run (ops : list ring_op) (st : KR) : KR := foldl (fun st op => ring_exec op st) st ops.

(** A drawn pair has a kid and a public part, and its kid is new to the ring. *)
Definition op_fresh (st : KR) (op : ring_op) : Prop :=
  match op with
  | RotateOp _ k => key_ok k /\ dget (rk_kid k) (kr_kid_index st.1) = None
  | PruneOp _ _ => True
  end.
Fixpoint ops_fresh (st : KR) (ops : list ring_op) : Prop :=
  match ops with
  | [] => True
  | op :: ops' => op_fresh st op /\ ops_fresh (ring_exec op st) ops'
  end.

(** Persisting touches the file only. *)
Lemma persist_ring w st : (persist w st).2.1 = st.1.
Proof. unfold persist, bind, gets, ret, raise, modify. simpl. by repeat case_match. Qed.

Definition rotated (new_key cur : RsaKey) (ring : KeyRing) : KeyRing :=
  set_kr_kid_index (dset (rk_kid new_key) new_key (kr_kid_index ring))
    (set_kr_rsa_current (Some new_key) (set_kr_rsa_retired (kr_rsa_retired ring ++ [cur]) ring)).
Definition pruned (now : Z) (ring : KeyRing) : KeyRing :=
  set_kr_rsa_retired (filter (fun rk => past_grace now rk = false) (kr_rsa_retired ring))
    (set_kr_kid_index
       (foldl (fun ix rk => dpop (rk_kid rk) ix) (kr_kid_index ring)
          (filter (fun rk => past_grace now rk = true) (kr_rsa_retired ring))) ring).

Lemma rotate_ring w k st cur :
  kr_algorithm st.1 = "RS256" -> kr_rsa_current st.1 = Some cur ->
  rotate w k st =
    (match (persist w (rotated k cur st.1, st.2)).1 with
     | Ok _ => Ok (Some (rk_kid k)) | Raise e => Raise e end,
     (persist w (rotated k cur st.1, st.2)).2).
Proof.
  intros Ha Hc. unfold rotate. rewrite bind_gets, Hc, decide_False by auto.
  unfold bind at 1, modify. cbn beta iota. fold (rotated k cur st.1). unfold bind.
  destruct (persist w (rotated k cur st.1, st.2)) as [[[]|] ?]; done.
Qed.
Lemma prune_ring w now st : (prune w now st).2.1 = pruned now st.1.
Proof.
  unfold prune. rewrite bind_gets. unfold bind at 1, modify. cbn beta iota.
  fold (pruned now st.1). unfold bind. case_decide; simpl; [|done].
  pose proof (persist_ring w (pruned now st.1, st.2)) as E.
  destruct (persist w _) as [[|] ?]; done.
Qed.
Lemma ring_exec_ring op st cur :
  kr_algorithm st.1 = "RS256" -> kr_rsa_current st.1 = Some cur ->
  (ring_exec op st).1 =
  match op with RotateOp _ k => rotated k cur st.1 | PruneOp _ now => pruned now st.1 end.
Proof.
  intros Ha Hc. destruct op as [w k|w now]; cbn [ring_exec]; [|apply prune_ring].
  rewrite (rotate_ring w k st cur) by done. simpl. apply persist_ring.
Qed.

Lemma dget_pops {V} (ks : list RsaKey) (ix : list (string * V)) kid :
  dget kid (foldl (fun ix rk => dpop (rk_kid rk) ix) ix ks) =
  if decide (kid ∈ rk_kid <$> ks) then None else dget kid ix.
Proof.
  revert ix. induction ks as [|k ks IH]; intros ix; [done|].
  cbn [foldl]. rewrite IH, dget_dpop. csimpl. repeat case_decide; set_solver.
Qed.

Lemma pruned_index now ring k :
  NoDup (rk_kid <$> ring_keys ring) -> k ∈ ring_keys ring ->
  (k ∈ kr_rsa_retired ring -> past_grace now k = false) ->
  dget (rk_kid k) (kr_kid_index (pruned now ring)) = dget (rk_kid k) (kr_kid_index ring).
Proof.
  intros Hnd Hk Hg. simpl. rewrite dget_pops, decide_False; [done|].
  intros (k' & E & [Hp Hk']%list_elem_of_filter)%list_elem_of_fmap.
  assert (k' ∈ ring_keys ring) as Hin by (unfold ring_keys; set_solver).
  assert (k' = k) as ->; [|by rewrite Hg in Hp].
  apply list_elem_of_lookup in Hk as [i Hi]. apply list_elem_of_lookup in Hin as [j Hj].
  assert (i = j) as ->; [|congruence].
  eapply NoDup_lookup; [exact Hnd| |]; rewrite list_lookup_fmap, ?Hi, ?Hj; simpl; by f_equal.
Qed.

Lemma ring_exec_inv op st : ring_inv st.1 -> op_fresh st op -> ring_inv (ring_exec op st).1.
Proof.
  intros [Ha [cur Hc] Hok Hnd Hix] Hf. rewrite (ring_exec_ring op st cur) by done.
  assert (ring_keys st.1 = cur :: kr_rsa_retired st.1) as Ek by (unfold ring_keys; by rewrite Hc).
  destruct op as [w k|w now].
  - destruct Hf as [Hk Hn].
    assert (ring_keys (rotated k cur st.1) ≡ₚ k :: ring_keys st.1) as Hp.
    { rewrite Ek. unfold ring_keys. simpl. f_equiv. by rewrite Permutation_app_comm. }
    constructor.
    + done.
    + by eexists.
    + rewrite Hp. by constructor.
    + rewrite Hp. csimpl. constructor; [|done]. intros (k' & E & Hk'%Hix)%list_elem_of_fmap.
      by rewrite E, Hk' in Hn.
    + intros k' Hk'. rewrite Hp in Hk'. simpl. apply elem_of_cons in Hk' as [->|Hk'%Hix];
        [apply dget_dset_eq|]. rewrite dget_dset_ne; [done|]. intros E. by rewrite E, Hn in Hk'.
  - assert (ring_keys (pruned now st.1) =
      cur :: filter (fun rk => past_grace now rk = false) (kr_rsa_retired st.1)) as Ep
      by (unfold ring_keys; simpl; by rewrite Hc).
    assert (ring_keys (pruned now st.1) `sublist_of` ring_keys st.1) as Hs.
    { rewrite Ep, Ek. by apply sublist_skip, sublist_filter. }
    constructor.
    + done.
    + simpl. by eexists.
    + rewrite Forall_forall in Hok |- *. eauto using elem_of_sublist.
    + eapply sublist_NoDup; [exact Hnd|]. by apply fmap_sublist.
    + intros k Hk. rewrite pruned_index; [| done | by eapply elem_of_sublist |].
      { apply Hix. by eapply elem_of_sublist. }
      intros Hr. rewrite Ep in Hk. apply elem_of_cons in Hk as [->|Hk].
      * exfalso. rewrite Ek in Hnd. csimpl in Hnd. apply NoDup_cons in Hnd as [Hn _]. apply Hn.
        by apply list_elem_of_fmap_2.
      * by apply list_elem_of_filter in Hk as [? _].
Qed.

Lemma ring_run_inv ops st : ring_inv st.1 -> ops_fresh st ops -> ring_inv (ring_run ops st).1.
Proof.
  revert st. induction ops as [|op ops IH]; intros st Hi Hf; [done|]. destruct Hf as [Hf1 Hf2].
  simpl. apply IH; [|done]. by apply ring_exec_inv.
Qed.

Lemma ring_exec_path op st : kr_persist_path (ring_exec op st).1 = kr_persist_path st.1.
Proof.
  destruct op as [w k|w now]; cbn [ring_exec]; [|by rewrite prune_ring].
  unfold rotate. rewrite bind_gets. destruct (kr_rsa_current st.1) as [cur|] eqn:Hc; [|done].
  case_decide as Ha; [done|].
  pose proof (rotate_ring w k st cur Ha Hc) as E. unfold rotate in E. rewrite bind_gets, Hc in E.
  rewrite decide_False in E by auto. rewrite E. simpl. by rewrite persist_ring.
Qed.
Lemma ring_run_path ops st : kr_persist_path (ring_run ops st).1 = kr_persist_path st.1.
Proof.
  revert st. induction ops as [|op ops IH]; intros st; [done|]. simpl. by rewrite IH, ring_exec_path.
Qed.
Lemma ops_fresh_app st ops1 ops2 :
  ops_fresh st (ops1 ++ ops2) <-> ops_fresh st ops1 /\ ops_fresh (ring_run ops1 st) ops2.
Proof. revert st. induction ops1 as [|op ops1 IH]; intros st; simpl; [tauto|]. rewrite IH. tauto. Qed.

(** ** The key file *)

Lemma rsa_key_dict_roundtrip k : key_ok k -> rsa_key_from_dict (rsa_key_to_dict k) = Some k.
Proof.
  intros [Hk Hp]. unfold rsa_key_from_dict, str_true. simpl.
  rewrite !bool_decide_eq_true_2 by done. by destruct k.
Qed.
Lemma rsa_keys_dict_roundtrip ks :
  Forall key_ok ks -> omap rsa_key_from_dict (rsa_key_to_dict <$> ks) = ks.
Proof. induction 1 as [|k ks Hk _ IH]; [done|]. csimpl. by rewrite rsa_key_dict_roundtrip, IH. Qed.

Lemma dget_index_keys ks ix kid :
  kid ∉ rk_kid <$> ks -> dget kid (index_keys ks ix) = dget kid ix.
Proof.
  unfold index_keys. revert ix. induction ks as [|k ks IH]; intros ix; [done|]. csimpl.
  intros [Hne Hn]%not_elem_of_cons. by rewrite IH, dget_dset_ne.
Qed.
Lemma index_keys_in ks ix k :
  NoDup (rk_kid <$> ks) -> k ∈ ks -> dget (rk_kid k) (index_keys ks ix) = Some k.
Proof.
  unfold index_keys. revert ix. induction ks as [|k' ks IH]; intros ix; csimpl; [by intros ? ?%elem_of_nil|].
  intros [Hn Hnd]%NoDup_cons [->|Hk]%elem_of_cons; [|by apply IH].
  etrans; [by apply dget_index_keys|]. apply dget_dset_eq.
Qed.

(** A written file loads to a ring with the same keys. *)
Lemma load_written ring cur path :
  path <> "" -> ring_inv ring -> kr_rsa_current ring = Some cur ->
  load_persisted path (Saved (mkKeyFile (Some "RS256") (Some (rsa_key_to_dict cur))
                                (rsa_key_to_dict <$> kr_rsa_retired ring))) =
  Some (mkKeyRing "RS256" "" (Some cur) (kr_rsa_retired ring) (index_keys (ring_keys ring) []) path).
Proof.
  intros Hp Hi Hc. pose proof (ri_ok ring Hi) as Hok. unfold ring_keys in *. rewrite Hc in *.
  apply Forall_cons in Hok as [Hcur Hret]. unfold load_persisted, str_true.
  rewrite bool_decide_eq_true_2 by done. simpl.
  by rewrite rsa_keys_dict_roundtrip, rsa_key_dict_roundtrip.
Qed.

(** The extra public keys of the environment live under kids of their own. *)
Lemma load_extra_index now pems ring kid :
  startswith "kid-ext-" kid = false ->
  dget kid (kr_kid_index (load_extra_public_keys now pems ring)) = dget kid (kr_kid_index ring).
Proof.
  intros Hkid. unfold load_extra_public_keys. set (bs := filter _ _). clearbody bs. revert ring.
  induction bs as [|b bs IH]; intros ring; [done|]. cbn [foldl]. rewrite IH.
  case_match; [|done]. simpl. rewrite dget_dset_ne; [done|]. intros ->.
  by rewrite (prefix_app "kid-ext-") in Hkid.
Qed.
Lemma load_extra_keys now pems ring :
  kr_algorithm (load_extra_public_keys now pems ring) = kr_algorithm ring /\
  kr_rsa_current (load_extra_public_keys now pems ring) = kr_rsa_current ring /\
  kr_rsa_retired (load_extra_public_keys now pems ring) = kr_rsa_retired ring.
Proof.
  unfold load_extra_public_keys. set (bs := filter _ _). clearbody bs. revert ring.
  induction bs as [|b bs IH]; intros ring; [done|]. cbn [foldl].
  match goal with |- context [foldl _ ?r bs] => destruct (IH r) as (-> & -> & ->) end. by case_match.
Qed.

(** [C36] A rotation survives a restart: after any rotations and prunes,
    whatever became of their writes, a rotation whose file was written leaves
    a file from which the next start recovers the new key as the current one
    and every retired key, whatever private key the environment supplies; all
    of them verify tokens again under their kids. *)
Theorem rotation_survives_restart st ops k now gen private_pem public_pems :
  ring_inv st.1 -> kr_persist_path st.1 <> "" -> ops_fresh st (ops ++ [RotateOp Written k]) ->
  let st' := ring_run (ops ++ [RotateOp Written k]) st in
  Forall (fun k => startswith "kid-ext-" (rk_kid k) = false) (ring_keys st'.1) ->
  exists ring, rs256 now gen private_pem public_pems (kr_persist_path st.1) st'.2 = Ok ring /\
    kr_rsa_current ring = Some k /\ kr_rsa_retired ring = kr_rsa_retired st'.1 /\
    forall key, key ∈ ring_keys st'.1 ->
      verify_key_for (Some (rk_kid key)) ring = Ok (rk_public_pem key).
Proof.
  intros Hi Hp Hf st' Hext. pose proof (ring_run_inv _ st Hi Hf) as Hi'. fold st' in Hi'.
  pose proof (ring_run_path ops st) as Hpath.
  apply ops_fresh_app in Hf as [Hf1 _]. pose proof (ring_run_inv _ st Hi Hf1) as Hi1.
  assert (st' = (rotate Written k (ring_run ops st)).2) as E
    by (unfold st', ring_run; by rewrite foldl_app).
  set (st1 := ring_run ops st) in *. destruct (ri_cur _ Hi1) as [cur Hc].
  rewrite (rotate_ring Written k st1 cur (ri_alg _ Hi1) Hc) in E. cbn [snd] in E.
  assert (st' = (rotated k cur st1.1, Saved (mkKeyFile (Some "RS256") (Some (rsa_key_to_dict k))
    (rsa_key_to_dict <$> kr_rsa_retired (rotated k cur st1.1))))) as E'.
  { rewrite E. unfold persist. rewrite bind_gets. simpl. rewrite Hpath, (ri_alg _ Hi1). unfold str_true.
    by rewrite bool_decide_eq_true_2. }
  clear E. clearbody st'. subst st'. simpl in *. unfold rs256, str_true.
  rewrite bool_decide_eq_true_2 by done.
  pose proof (load_written (rotated k cur st1.1) k (kr_persist_path st.1) Hp Hi' eq_refl) as Hload.
  simpl in Hload. rewrite Hload. eexists. split; [done|]. set (r0 := mkKeyRing _ _ _ _ _ _).
  set (r1 := match public_pems with Some _ => _ | None => _ end).
  assert (kr_algorithm r1 = "RS256" /\ kr_rsa_current r1 = Some k /\
    kr_rsa_retired r1 = kr_rsa_retired st1.1 ++ [cur] /\
    forall kid, startswith "kid-ext-" kid = false -> dget kid (kr_kid_index r1) = dget kid (kr_kid_index r0))
    as (Ha1 & Hc1 & Hr1 & Hx1).
  { unfold r1. destruct public_pems as [p|]; [case_match|]; try done.
    destruct (load_extra_keys now p r0) as (-> & -> & ->). split_and!; try done.
    intros. by apply load_extra_index. }
  split_and!; [done|done|]. intros key Hkey. unfold verify_key_for. rewrite Ha1, decide_False by done.
  rewrite Forall_forall in Hext. pose proof (ri_ok _ Hi') as Hok. rewrite Forall_forall in Hok.
  destruct (Hok key Hkey) as [Hne _]. unfold str_true. rewrite bool_decide_eq_true_2 by done.
  rewrite Hx1 by auto. change (kr_kid_index r0) with (index_keys (ring_keys (rotated k cur st1.1)) []).
  by rewrite index_keys_in by (done || apply Hi').
Qed.
End ring.

(** ** Tokens across rotations *)
Section grace.
Context `{HashLib, Argon2Lib, JwtLib, !JwtLaws, AeadLib, RsaLib, TotpLib}.
Variable cfg : AuthConfig.

Lemma current_kid ring rk : ring_inv ring -> kr_rsa_current ring = Some rk -> rk_kid rk <> "".
Proof.
  intros Hi Hc. pose proof (ri_ok _ Hi) as Hok. unfold ring_keys in Hok. rewrite Hc in Hok.
  by apply Forall_cons in Hok as [[? _] _].
Qed.

(** A token of one ring verifies with any RS256 ring that indexes its key. *)
Lemma issue_verifies_indexed ring ring' rk now now' jti sub tid role ttl ty :
  ring_inv ring -> kr_rsa_current ring = Some rk ->
  keys_match "RS256" (rk_private_pem rk) (rk_public_pem rk) ->
  kr_algorithm ring' = "RS256" -> dget (rk_kid rk) (kr_kid_index ring') = Some rk ->
  now <= now' -> now' < sec (int_time now + ttl) ->
  verify_ cfg ring' now' (issue cfg ring now jti sub tid role ttl ty).1 (Some ty) =
  Ok (issued_claims cfg now jti sub tid role ttl ty).
Proof.
  intros Hi Hc Hm Ha' Hix Hle Hlt. pose proof (int_time_le now).
  pose proof (current_kid ring rk Hi Hc) as Hne.
  unfold verify_, issue, jwt_get_unverified_header, issue_token. simpl. rewrite jwt_header_encode.
  unfold verify_key_for, ring_kid, signing_key. rewrite Ha', (ri_alg _ Hi), Hc. simpl.
  rewrite !decide_True by done. simpl. unfold str_true. rewrite bool_decide_eq_true_2, Hix by done.
  pose proof (issue_token_verifies now now' jti sub tid role (role_scopes role) (rk_private_pem rk)
    (rk_public_pem rk) (ac_issuer cfg) (ac_audience cfg) ttl ty "RS256" (Some (rk_kid rk))) as Hv.
  unfold issue_token in Hv. simpl in Hv. rewrite decide_True in Hv by done.
  apply Hv; [done|done|lia|done].
Qed.

(** No prune of the sequence is later than [t]. *)
Definition prunes_by (t : Z) (op : ring_op) : Prop :=
  match op with RotateOp _ _ => True | PruneOp _ now => now <= t end.

Lemma ring_run_keeps rk ops st :
  ring_inv st.1 -> ops_fresh st ops -> rk ∈ ring_keys st.1 ->
  Forall (prunes_by (rk_created_at rk + sec GRACE_SECONDS)) ops ->
  rk ∈ ring_keys (ring_run ops st).1.
Proof.
  revert st. induction ops as [|op ops IH]; intros st Hi Hf Hk Hg; [done|].
  destruct Hf as [Hf1 Hf2]. apply Forall_cons in Hg as [Hg1 Hg2]. simpl.
  apply IH; try done; [by apply ring_exec_inv|]. destruct (ri_cur _ Hi) as [cur Hc].
  rewrite (ring_exec_ring op st cur) by (done || apply Hi).
  unfold ring_keys in *. rewrite Hc in Hk. destruct op as [w k|w t]; simpl in *.
  - set_solver.
  - rewrite Hc. apply elem_of_cons in Hk as [->|Hk]; [left|right].
    apply list_elem_of_filter. split; [|done]. apply bool_decide_eq_false. lia.
Qed.

(** Rotation does not invalidate tokens: a token signed by the current
    key still verifies, with the claims it was issued with, after any number
    of rotations and prunes, as long as it has not expired and no prune came
    more than 24 hours after its key was generated. *)
Theorem rotation_keeps_tokens st rk ops now now' jti sub tid role ttl ty :
  ring_inv st.1 -> kr_rsa_current st.1 = Some rk ->
  keys_match "RS256" (rk_private_pem rk) (rk_public_pem rk) ->
  ops_fresh st ops -> Forall (prunes_by (rk_created_at rk + sec GRACE_SECONDS)) ops ->
  now <= now' -> now' < sec (int_time now + ttl) ->
  verify_ cfg (ring_run ops st).1 now' (issue cfg st.1 now jti sub tid role ttl ty).1 (Some ty) =
  Ok (issued_claims cfg now jti sub tid role ttl ty).
Proof.
  intros Hi Hc Hm Hf Hg Hle Hlt. pose proof (ring_run_inv ops st Hi Hf) as Hi'.
  eapply issue_verifies_indexed; try done; [apply Hi'|]. apply Hi'. apply ring_run_keeps; try done.
  unfold ring_keys. rewrite Hc. left.
Qed.

(** The 24 hours of grace run from the key's generation, not from its
    retirement: once a key is older than that, rotating it away and serving
    the (public) key set at the same instant makes every token it has signed,
    one signed at that very instant included, unverifiable for good. *)
Theorem grace_counts_from_generation st rk w k w' now now' jti sub tid role ttl ty :
  ring_inv st.1 -> kr_rsa_current st.1 = Some rk -> op_fresh st (RotateOp w k) ->
  now - rk_created_at rk > sec GRACE_SECONDS ->
  let st1 := (rotate w k st).2 in
  let st2 := (get_jwks w' now st1).2 in
  exists m, verify_ cfg st2.1 now' (issue cfg st.1 now jti sub tid role ttl ty).1 (Some ty) =
              Raise (JwtError m).
Proof.
  intros Hi Hc Hf Hold st1 st2.
  assert (st2.1 = pruned now (rotated k rk st.1)) as E.
  { unfold st2, get_jwks. transitivity (prune w' now st1).2.1.
    - unfold bind, gets, lift. destruct (prune w' now st1) as [[|] st0]; [|done]. simpl.
      by destruct (jwks st0.1).
    - rewrite prune_ring. f_equal. exact (ring_exec_ring (RotateOp w k) st rk (ri_alg _ Hi) Hc). }
  unfold verify_, issue, jwt_get_unverified_header, issue_token. simpl. rewrite jwt_header_encode.
  unfold verify_key_for, ring_kid. rewrite E. simpl. rewrite (ri_alg _ Hi), Hc. simpl.
  pose proof (current_kid _ rk Hi Hc) as Hne. rewrite decide_True by done. unfold str_true.
  rewrite bool_decide_eq_true_2 by done. rewrite dget_pops, decide_True; [by eexists|].
  apply list_elem_of_fmap_2, list_elem_of_filter. split; [|set_solver].
  unfold past_grace. by apply bool_decide_eq_true.
Qed.
End grace.

(** ** Secrets at rest *)
Section secrets.
Context `{AeadLib}.

(** Secrets survive the rotation of the key-encryption key: a sealed
    secret opens to its plaintext under the key that sealed it, whatever
    previous key is configured; and once a new key is in place whose cipher
    rejects the blob, it opens through the previous-key window, and only
    through it. *)
Theorem kek_dual_window `{!AeadLaws} nonce plaintext kek new_kek prev :
  String.length nonce = 12%nat -> kek <> "" ->
  let blob := encrypt_secret nonce plaintext kek in
  decrypt_secret blob kek prev = Ok plaintext /\
  (aes_decrypt (derive_kek new_kek) nonce
     (aes_encrypt (derive_kek kek) nonce (utf8_encode plaintext)) = None ->
   decrypt_secret blob new_kek (Some kek) = Ok plaintext /\
   decrypt_secret blob new_kek None = Raise (CryptoError "ciphertext authentication failed")).
Proof.
  intros Hn Hk blob. unfold decrypt_secret. split; [unfold blob; by rewrite decrypt_with_same|]. intros Hrej.
  assert (decrypt_with blob new_kek = Raise (CryptoError "ciphertext authentication failed")) as ->.
  { unfold blob. rewrite decrypt_with_sealed by (done || (rewrite aes_length; unfold slen; lia)).
    by rewrite Hrej. }
  split; [|done]. rewrite decide_False; [by apply decrypt_with_same|].
  intros [?|<-]; [done|]. by rewrite aes_correct in Hrej.
Qed.

(** Whatever text is stored as a ciphertext, the only exception
    [decrypt_secret] lets out is [CryptoError]: malformed base64, truncation,
    a failed tag and a plaintext that is not UTF-8 are all mapped to it. *)
Theorem decrypt_only_crypto_errors blob kek prev e :
  decrypt_secret blob kek prev = Raise e -> exists m, e = CryptoError m.
Proof.
  unfold decrypt_secret. destruct (decrypt_with blob kek) as [pt|e1] eqn:E1; [done|].
  destruct (decrypt_with_errors _ _ _ E1) as [[m ->]|[-> Hb]]; [|naive_solver].
  destruct prev as [prev|]; [|naive_solver]. case_decide; [naive_solver|]. intros E2.
  destruct (decrypt_with_errors _ _ _ E2) as [|[-> Hb]]; [done|].
  unfold decrypt_with in E1. by rewrite Hb in E1.
Qed.
End secrets.
