(* ===== verification/Scenarios.v ===== *)
(** * End-to-end scenarios of the service

    Whole flows through several methods: from an empty store to a verified
    administrator token, and two flows in which a revocation does not last. *)
From S2P Require Import Prelude PyText StoreState Prims AuditLog Tenants Rbac Users Keys.
From S2P Require Import Tokens Ledger Crypto Jwt Jwks Auth StoreSteps Invariants.
From S2P Require Import RbacProps KeyProps TableProps AuditProps AuthLemmas.

Section scenarios.
Context `{HashLib, Argon2Lib, JwtLib, AeadLib, RsaLib, TotpLib}.

(** ** Session tokens *)

Lemma create_tenant_local_frame now name plan pol s :
  let s' := (create_tenant now "local" name plan pol s).2 in
  revoked_jtis s' = revoked_jtis s.
Proof. unfold create_tenant, bind, gets, modify, ret, raise. by repeat case_match. Qed.

Lemma issue_session_ok cfg ring now jti sub tid role ttl s si s1 :
  issue_session_token cfg ring now jti sub tid role ttl s = (Ok si, s1) ->
  si_access_token si = (issue cfg ring now jti sub tid role (session_ttl ttl) "session").1 /\
  si_expires_in si = session_ttl ttl /\
  get_tenant_status tid s1 = Some "active" /\ is_valid_role tid role s1 = true /\
  dget jti (issued_jtis s1) = Some (mkIssuedJti tid sub (now + ISSUED_JTI_DEFAULT_TTL)) /\
  revoked_jtis s1 = revoked_jtis s.
Proof.
  unfold issue_session_token. intros Hr. rewrite bind_gets in Hr.
  apply bind_ok in Hr as (st & s0 & Hst & Hr).
  assert (get_tenant_status tid s0 = st /\ revoked_jtis s0 = revoked_jtis s) as [Et Er].
  { destruct (get_tenant_status tid s) as [st0|] eqn:E.
    - unfold ret in Hst. by simplify_eq.
    - destruct (decide (tid <> "local")) as [|Hloc%dec_stable]; [done|]. subst tid.
      apply bind_ok in Hst as ([] & s2 & Hc & Hg). unfold gets in Hg. simplify_eq. split; [done|].
      pose proof (create_tenant_local_frame now "Local (single-tenant mode)" "team" "invite" s) as Hf.
      simpl in Hf. unfold catch, bind in Hc.
      destruct (create_tenant _ _ _ _ _ s) as [[t|e] s3]; simpl in *; [unfold ret in Hc; by simplify_eq|].
      destruct e; unfold ret, raise in Hc; by simplify_eq. }
  clear Hst. case_decide as Hact; [done|]. rewrite bind_gets in Hr.
  destruct (is_valid_role tid role s0) eqn:Ev; [|done]. simpl in Hr.
  unfold record_issued_jti, sweep_issued_jtis, append_audit in Hr. run_inv. simpl.
  split_and!; try done. by rewrite dget_dset_eq.
Qed.

(** What revoking a user's tokens does to the ledger entry of one jti. *)
Lemma revoke_user_tokens_ok now sub tid s n s1 :
  revoke_user_sessions_and_tokens now sub tid s = (Ok n, s1) ->
  tenants s1 = tenants s /\
  revoked_jtis s1 = foldl (fun d kv => revoke_one_ledger now sub (Some tid) "user_deletion" kv.1 kv.2 d)
                      (revoked_jtis s) (issued_jtis s).
Proof.
  unfold revoke_user_sessions_and_tokens. rewrite bind_gets.
  destruct (get_tenant_status tid s); [|done]. intros Hr.
  destruct (revoke_user_issued_jtis_run now sub (Some tid) "user_deletion" s) as [k Hk].
  rewrite (bind_eq_ok _ _ _ _ _ Hk) in Hr. unfold revoke_user_sessions in Hr.
  match type of Hr with bind (revoke_where ?P) _ ?s = _ =>
    destruct (revoke_where_run P s) as (m & d & E) end.
  rewrite (bind_eq_ok _ _ _ _ _ E) in Hr. unfold append_audit in Hr. by run_inv.
Qed.

(** Revoking a user's sessions does not last: the issued-jti ledger keeps
    an entry for eight hours while a default session token lives for twelve.
    A session token issued at [t0] whose user is revoked at [t1] is refused
    until [t0] + 8 h if [t1] is earlier than that, and is accepted again from
    then to its expiry; a revocation later than [t0] + 8 h misses it. *)
Theorem revoked_session_resurrects `{!JwtLaws} cfg ring t0 jti sub tid role s si s1 t1 n s2 :
  reachable s -> ring_ok ring -> 0 <= t0 <= t1 -> dget jti (revoked_jtis s) = None ->
  issue_session_token cfg ring t0 jti sub tid role None s = (Ok si, s1) ->
  revoke_user_sessions_and_tokens t1 sub tid s1 = (Ok n, s2) ->
  (forall t, t1 <= t -> t1 < t0 + sec 28800 -> t <= t0 + sec 28800 ->
     exists s3, verify_session_token cfg ring t (si_access_token si) s2 =
                  (Raise (unauthorized "revoked token"), s3)) /\
  (forall t, t1 <= t -> t0 + sec 28800 < t -> t < sec (int_time t0 + 43200) ->
     exists c s3, verify_session_token cfg ring t (si_access_token si) s2 = (Ok c, s3) /\
       c_sub c = sub /\ c_tid c = tid /\ c_jti c = jti).
Proof.
  intros Hs Hring Ht01 Hfresh Hiss Hrev.
  assert (reachable s1) as Hs1.
  { replace s1 with (issue_session_token cfg ring t0 jti sub tid role None s).2 by (by rewrite Hiss).
    eapply safe_reachable; [apply safe_issue_session_token|done]. }
  assert (reachable s2) as Hs2.
  { replace s2 with (revoke_user_sessions_and_tokens t1 sub tid s1).2 by (by rewrite Hrev).
    eapply safe_reachable; [apply safe_revoke_user_sessions_and_tokens|done]. }
  apply issue_session_ok in Hiss as (Htok & _ & Hact & _ & Hij & Hrj).
  apply revoke_user_tokens_ok in Hrev as [Htn Hled].
  assert (dget jti (revoked_jtis s2) =
    if decide (t1 < t0 + sec 28800)
    then Some (mkRevokedJti jti tid (Some sub) "user_deletion" (t0 + sec 28800) t1) else None) as Hentry.
  { rewrite Hled, revoke_loop_ledger_spec by (by eapply wf_issued_jtis, reach_wf).
    rewrite Hrj, Hfresh, Hij. unfold revocable. simpl. unfold ISSUED_JTI_DEFAULT_TTL.
    change (8 * 3600) with 28800. destruct (decide (t1 < t0 + sec 28800)).
    - rewrite decide_True by (split_and!; auto). rewrite decide_True by (unfold sec in *; lia). done.
    - by rewrite decide_False by naive_solver. }
  assert (forall t, t0 <= t -> t < sec (int_time t0 + 43200) ->
    verify_ cfg ring t (si_access_token si) (Some "session") =
    Ok (issued_claims cfg t0 jti sub tid role 43200 "session")) as Hver.
  { intros t ? ?. rewrite Htok. by apply issue_verifies. }
  assert (forall t, is_jti_revoked t jti s2 = (Ok (revoked_now t jti s2), swept t s2)) as Hrun.
  { intros t. apply is_jti_revoked_run. by eapply wf_revoked_jtis, reach_wf. }
  unfold revoked_now in Hrun. rewrite Hentry in Hrun. pose proof (int_time_gt t0) as Hgt.
  split; intros t ? ? ?; unfold verify_session_token; rewrite Hver by (unfold sec in *; lia);
    rewrite bind_lift_ok; simpl; erewrite bind_eq_ok by apply Hrun.
  - rewrite decide_True by done. simpl. rewrite bool_decide_eq_true_2 by done. by eexists.
  - assert (match (if decide (t1 < t0 + sec 28800) then Some (mkRevokedJti jti tid (Some sub)
      "user_deletion" (t0 + sec 28800) t1) else None) with Some r => bool_decide (t <= r_expires_at r)
      | None => false end = false) as ->.
    { case_decide; [|done]. apply bool_decide_eq_false. simpl. lia. }
    rewrite bind_gets. unfold get_tenant_status in *. simpl. rewrite Htn, Hact. simpl. by eexists _, _.
Qed.

(** ** Refresh tokens and the revocation ledger *)

(** The answer of [refresh] depends on four tables only. *)
Lemma refresh_answer_frame cfg ring now a n tok s s' :
  refresh_tokens s' = refresh_tokens s -> tenants s' = tenants s -> users s' = users s ->
  members s' = members s ->
  (refresh cfg ring now a n tok s').1 = (refresh cfg ring now a n tok s).1.
Proof.
  intros E1 E2 E3 E4. unfold refresh. destruct (verify_ _ _ _ _ _) as [c|]; [|done].
  rewrite !bind_lift_ok, !bind_gets. unfold get_refresh_token. rewrite E1.
  destruct (dget (c_jti c) (refresh_tokens s)) as [rt|] eqn:Ert; [|done]. case_decide; [done|].
  case_decide; [done|]. rewrite !bind_gets. unfold get_tenant_status. rewrite E2.
  destruct (tenant_denied _); [done|]. rewrite !bind_gets. unfold get_user_status. rewrite E3.
  destruct (user_denied _); [done|]. rewrite !bind_gets. unfold get_member_role. rewrite E4.
  destruct (m_role <$> _) as [role|]; [|done]. simpl.
  assert (forall s, dget (c_jti c) (refresh_tokens s) = Some rt ->
    rotate_refresh_token (c_jti c) n s = (if decide (rt_status rt <> "active") then (Ok false, s)
      else (Ok true, set_refresh_tokens (dset (c_jti c) (set_rt_replaced_by (Some n)
              (set_rt_status "rotated" rt)) (refresh_tokens s)) s))) as Hrot.
  { intros s0 E. unfold rotate_refresh_token. rewrite bind_gets, E. by case_decide. }
  pose proof (Hrot s Ert) as R1. rewrite <- E1 in Ert. pose proof (Hrot s' Ert) as R2.
  destruct (decide (rt_status rt <> "active"));
    erewrite bind_eq_ok by exact R2; erewrite bind_eq_ok by exact R1; done.
Qed.

(** An administrator's revocation of a refresh token has no effect: the
    request is accepted, because ownership is looked up among refresh tokens
    too, but the entry goes to the access-token ledger, which [refresh] never
    reads; the token keeps yielding new pairs exactly as before. *)
Theorem refresh_ignores_revocation now jti tid uid s rt cfg ring now' a n tok :
  dget jti (refresh_tokens s) = Some rt -> rt_jti rt = jti -> rt_tenant_id rt = tid ->
  reachable s -> dget jti (revoked_jtis s) = None -> dget jti (issued_jtis s) = None ->
  exists s1, revoke now jti tid uid s = (Ok true, s1) /\ revoked_now now jti s1 = true /\
    (refresh cfg ring now' a n tok s1).1 = (refresh cfg ring now' a n tok s).1.
Proof.
  intros Hrt Hj Ht Hs Hr Hi. unfold revoke. rewrite bind_gets.
  assert (exists u, get_jti_owner now jti s = Some (tid, u)) as [u ->].
  { unfold get_jti_owner. rewrite Hr, Hi.
    destruct (dfind _ (refresh_tokens s)) as [[k r]|] eqn:Hf.
    - apply (dfind_dget _ _ _ _ (wf_refresh_tokens s (reach_wf _ _ Hs))) in Hf as [Hk Hb].
      apply bool_decide_eq_true in Hb. apply (id_refresh s (reach_ids _ _ Hs)) in Hk as E.
      assert (k = jti) as -> by congruence. assert (r = rt) as -> by congruence.
      exists (Some (rt_user_id rt)). simpl. by rewrite Ht.
    - rewrite dfind_None in Hf. apply dget_elem_of in Hrt. apply Hf in Hrt.
      by rewrite bool_decide_eq_false in Hrt. }
  rewrite decide_False by auto. eexists. split; [done|]. split.
  - unfold revoked_now. simpl. rewrite dget_dset_eq. simpl. apply bool_decide_eq_true. unfold sec. lia.
  - by apply refresh_answer_frame.
Qed.

(** ** From an empty store to an administrator *)

(** [C30] Bootstrapping an empty store makes the service usable. Where a second
    factor for administrators is not enforced, the administrator named in the
    environment can log in without naming a tenant, and the access token handed
    out verifies until it expires, as tenant administrator of the default
    tenant. With FUSION_IDENTITY_MFA_ENFORCE_ADMIN=1 that login is refused until
    the administrator has enrolled one. *)
Theorem bootstrap_login_verify `{!Argon2Laws, !JwtLaws} cfg ring salt admin pass now now1 d now2 :
  ring_ok ring -> admin <> "" -> pass <> "" -> ac_mfa_enforce_admin cfg = false ->
  now1 <= now2 -> now2 < sec (int_time now1 + ac_ttl cfg) ->
  exists s1 tr s2 vr s3,
    bootstrap now salt (Some admin) (Some pass) None init_store = (Ok tt, s1) /\
    login cfg ring now1 d (mkLoginRequest admin pass None None) false s1 = (Ok tr, s2) /\
    verify cfg ring now2 (tr_access_token tr) s2 = (Ok vr, s3) /\
    vr_tid vr = "default" /\ vr_role vr = "tenant_admin" /\ vr_tenant_status vr = "active" /\
    vr_scopes vr = role_scopes "tenant_admin".
Proof.
  intros Hring Ha Hp Hmfa Hle Hlt.
  assert (exists s1, bootstrap now salt (Some admin) (Some pass) None init_store = (Ok tt, s1) /\
    s1 = set_members [(("default", "usr_admin"), mkMember "default" "usr_admin" "tenant_admin" None now now)]
      (set_users [("usr_admin", mkUser "usr_admin" admin None None "" (argon2_hash pass salt) salt
         "argon2id" "active" 0 None false None true None None None None now)]
        (create_tenant now "default" "Default Tenant" "team" "invite" init_store).2)) as (s1 & Hb & E1).
  { unfold bootstrap. rewrite bind_gets. simpl. unfold str_true.
    rewrite !bool_decide_eq_true_2 by done. simpl. eexists. split; reflexivity. }
  assert (reachable s1) as Hs1.
  { replace s1 with (bootstrap now salt (Some admin) (Some pass) None init_store).2 by (by rewrite Hb).
    eapply safe_reachable; [apply safe_bootstrap|constructor]. }
  destruct (login_complete cfg ring now1 d (mkLoginRequest admin pass None None) false
    (mkUser "usr_admin" admin None None "" (argon2_hash pass salt) salt
         "argon2id" "active" 0 None false None true None None None None now)
    "default" "tenant_admin" s1) as (tr & s2 & Hlog & _ & Hacc & Htn & Hmem & _ & Hrev & Hust);
    try done; try (by rewrite E1).
  { by eapply reach_wf. } { by eapply reach_ids. }
  { unfold found. rewrite E1. simpl. by rewrite bool_decide_eq_true_2. }
  { by rewrite andb_false_r. }
  { unfold verify_password. simpl. rewrite decide_True by auto using argon2_nonempty.
    by rewrite argon2_verify_hash, argon2_fresh. }
  { unfold login_tenant. simpl. exists "tenant_admin". by rewrite E1. }
  { by rewrite Hmfa. }
  assert (reachable s2) as Hs2.
  { replace s2 with (login cfg ring now1 d (mkLoginRequest admin pass None None) false s1).2
      by (by rewrite Hlog). eapply safe_reachable; [apply safe_login|done]. }
  cbn [u_user_id u_status] in Hust, Hacc.
  set (c := issued_claims cfg now1 (ld_jti d) "usr_admin" "default" "tenant_admin" (ac_ttl cfg) "access").
  assert (authorize now2 c s2 = (Ok ("tenant_admin", c), swept now2 s2)) as Hauth.
  { apply authorize_ok; [by eapply reach_wf|]. unfold access_ok, revoked_now, get_tenant_status,
      get_member_role. rewrite Hrev, Htn, Hmem. simpl. rewrite Hust, E1. simpl.
    unfold refresh_claims. simpl. split_and!; eauto. }
  exists s1, tr, s2. unfold verify. rewrite Hacc, issue_verifies by done. rewrite bind_lift_ok.
  fold c. rewrite (bind_eq_ok _ _ _ _ _ Hauth). cbn beta iota. rewrite !bind_gets.
  eexists _, _. split; [done|]. split; [done|]. split; [reflexivity|]. simpl. split_and!; try done.
  unfold get_tenant_status. simpl. by rewrite Htn, E1.
Qed.
End scenarios.
