(* ===== verification/Deps.v ===== *)
(** * Request guards (deps.py)

    The dependencies FastAPI runs before a handler: bearer resolution, the
    permission matrix with the cross-tenant checks, the service token. A
    guard answers the caller's claims or raises. *)
From S2P Require Import Prelude PyText StoreState Prims AuditLog Tenants Rbac Users Tokens.
From S2P Require Import Crypto Jwt Jwks Auth.

(** [_role_allows] *)
Definition role_allows (tenant_id role resource action : string) (s : Store) : bool :=
  if decide (role = "tenant_admin") then true
  else match dget role BUILTIN_ROLE_MATRIX with
       | Some row => bool_decide (action ∈ default [] (dget resource row))
       | None =>
           match get_role tenant_id role s with
           | None => false
           | Some rec => bool_decide (resource +:+ ":write" ∈ rv_write_classes rec)
           end
       end.

Definition permission_denied (resource action role : string) : exn :=
  forbidden (resource +:+ ":" +:+ action +:+ " not permitted for role " +:+ role).

(** [x == y] on the role claim, which [resolve_bearer_claims] always sets. *)
Definition claim_role (c : Claims) : string := default "" (c_role c).

Section deps.
Context `{HashLib, JwtLib}.
Variables (cfg : AuthConfig) (ring : KeyRing) (now : Z).

(** The two header checks shared by the guards. *)
Definition resolve_headers (x_tenant_id authorization : string) : M Store Claims :=
  if negb (str_true x_tenant_id) then raise (unauthorized "missing X-Tenant-Id")
  else if negb (str_true authorization) then raise (unauthorized "missing token")
  else
    let! claims := resolve_bearer_claims cfg ring now authorization in
    if decide (c_tid claims <> x_tenant_id) then raise (forbidden "cross-tenant access denied")
    else ret claims.

(** The path parameter, when the route has one, must be the caller's tenant. *)
Definition check_path (path_tenant : option string) (claims : Claims) : M Store unit :=
  match path_tenant with
  | Some t => if decide (c_tid claims <> t)
              then raise (forbidden "cross-tenant access denied (self only)") else ret tt
  | None => ret tt
  end.

(** [_resolve_admin] *)
Definition resolve_admin (x_tenant_id authorization : string) : M Store Claims :=
  let! claims := resolve_headers x_tenant_id authorization in
  if decide (c_role claims <> Some "tenant_admin")
  then raise (forbidden "tenant_admin role required") else ret claims.

(** [require_tenant_admin_of]: [path_tenant] is the path parameter. *)
Definition require_tenant_admin_of (x_tenant_id authorization : string)
    (path_tenant : option string) : M Store Claims :=
  let! claims := resolve_admin x_tenant_id authorization in
  check_path path_tenant claims ;;; ret claims.

(** [_resolve_permission]; [require_permission] passes no path parameter. *)
Definition require_permission_of (resource action x_tenant_id authorization : string)
    (path_tenant : option string) : M Store Claims :=
  let! claims := resolve_headers x_tenant_id authorization in
  check_path path_tenant claims ;;;
  let! ok := gets (role_allows (c_tid claims) (claim_role claims) resource action) in
  if negb ok then raise (permission_denied resource action (claim_role claims)) else ret claims.

Definition require_service_token (service_token : string) (service_token_prev : option string)
    (authorization : string) : res unit :=
  if negb (str_true authorization) then Raise (unauthorized "missing token")
  else match extract_bearer authorization with
       | Raise (JwtError msg) => Raise (unauthorized msg)
       | Raise e => Raise e
       | Ok token =>
           if compare_digest token service_token then Ok tt
           else match service_token_prev with
                | Some prev => if str_true prev && compare_digest token prev then Ok tt
                               else Raise (unauthorized "invalid service token")
                | None => Raise (unauthorized "invalid service token")
                end
       end.

Definition require_bearer (authorization : string) : M Store Claims :=
  if negb (str_true authorization) then raise (unauthorized "missing token")
  else resolve_bearer_claims cfg ring now authorization.
End deps.
