(* ===== verification/MemberRoutes.v ===== *)
(** * Member management handlers (routes/members.py)

    Each handler with its guard: [hdr] are the two request headers. *)
From S2P Require Import Prelude PyText StoreState Prims AuditLog Tenants Rbac Users Tokens Crypto.
From S2P Require Import Jwt Jwks Auth Deps.

(** [X-Tenant-Id] and [Authorization]. *)
Record Headers : Type := mkHeaders { hd_tenant : string; hd_authorization : string }.

(** [try: m  except StoreConflict as exc: raise f(str(exc))] *)
Definition on_conflict {S A} (m : M S A) (f : string -> exn) : M S A :=
  catch m (fun e => match e with StoreConflict msg => raise (f msg) | _ => raise e end).

Record MemberCreate : Type := mkMemberCreate {
  mc_username : string;
  mc_password : string;
  mc_email : option string;
  mc_role : string
}.

Definition exists_detail : string :=
  "username already exists; to add an existing user to this tenant use the member-add-by-proof endpoint with the user's password".

Section member_routes.
Context `{HashLib, Argon2Lib, JwtLib}.
Variables (cfg : AuthConfig) (ring : KeyRing) (now : Z) (hdr : Headers).

Definition guard (resource action tenant_id : string) : M Store Claims :=
  require_permission_of cfg ring now resource action (hd_tenant hdr) (hd_authorization hdr)
    (Some tenant_id).

Definition list_members_route (tenant_id : string) : M Store (list Member) :=
  guard "members" "read" tenant_id ;;; gets (list_members tenant_id).

(** The tail shared by the two ways to add a member. *)
Definition join_user (claims : Claims) (tenant_id uid role : string) : M Store Member :=
  let! member := gets (get_member tenant_id uid) in
  match member with
  | Some _ => raise (http 409 "user already a member")
  | None =>
      on_conflict (add_member now tenant_id uid role (Some (c_sub claims)))
        (fun _ => http 400 "invalid member request")
  end.

(** [rnd_id] and [salt] are the draws for a new user. *)
Definition add_or_create_member (rnd_id salt tenant_id : string) (body : MemberCreate)
    : M Store Member :=
  let! claims := guard "members" "write" tenant_id in
  let! existing := gets (get_user_by_username (mc_username body)) in
  match existing with
  | Some _ => raise (http 409 exists_detail)
  | None =>
      let user_id := "usr_" +:+ rnd_id in
      on_conflict (create_user now salt user_id (mc_username body) (mc_password body)
                     (mc_email body) true true None)
        (fun _ => http 409 "username conflict") ;;;
      join_user claims tenant_id user_id (mc_role body)
  end.

Definition add_existing_member_by_proof (tenant_id : string) (body : MemberCreate)
    : M Store Member :=
  let! claims := guard "members" "write" tenant_id in
  let! existing := gets (get_user_by_username (mc_username body)) in
  match existing with
  | None => raise (http 404 "user not found")
  | Some u =>
      if negb (verify_password (mc_password body) (u_password_hash_v u) (u_password_hash u)
                 (u_salt u) (u_password_algo u)).1
      then raise (unauthorized "ownership proof failed")
      else join_user claims tenant_id (u_user_id u) (mc_role body)
  end.

(** [member and member["role"] == "tenant_admin" and count <= 1] *)
Definition is_last_admin (tenant_id user_id : string) (s : Store) : bool :=
  match get_member tenant_id user_id s with
  | Some m => bool_decide (m_role m = "tenant_admin" /\
                           count_members_by_role tenant_id "tenant_admin" s <= 1)
  | None => false
  end.

Definition member_audit (claims : Claims) (tenant_id action : string) (detail : json)
    : M Store unit :=
  append_audit now tenant_id (Some (c_sub claims)) None (c_role claims) action (Some "member")
    detail ;;; ret tt.

Definition update_member_role_route (tenant_id user_id role : string) : M Store Member :=
  let! claims := guard "members" "write" tenant_id in
  if decide (user_id = c_sub claims) then raise (forbidden "cannot change own role") else
  let! last := gets (is_last_admin tenant_id user_id) in
  if bool_decide (role <> "tenant_admin") && last
  then raise (forbidden "cannot demote last tenant_admin") else
  let! m := on_conflict (update_member_role tenant_id user_id role)
              (fun _ => http 400 "invalid role request") in
  match m with
  | None => raise (http 404 "member not found")
  | Some m =>
      member_audit claims tenant_id "member.role_change"
        (JObj [("user_id", JStr user_id); ("role", JStr role)]) ;;;
      ret m
  end.

Definition update_member_status (tenant_id user_id status : string) : M Store unit :=
  let! claims := guard "members" "write" tenant_id in
  let! member := gets (get_member tenant_id user_id) in
  match member with
  | None => raise (http 404 "member not found")
  | Some _ =>
      let! last := gets (is_last_admin tenant_id user_id) in
      if bool_decide (status = "disabled") && last
      then raise (forbidden "cannot disable last tenant_admin") else
      let! u := update_user user_id (status_field status) in
      match u with
      | None => raise (http 404 "user not found")
      | Some _ =>
          member_audit claims tenant_id "member.status_change"
            (JObj [("user_id", JStr user_id); ("status", JStr status)])
      end
  end.

Definition reset_member_password (salt tenant_id user_id new_password : string) : M Store bool :=
  let! claims := guard "members" "write" tenant_id in
  let! member := gets (get_member tenant_id user_id) in
  match member with
  | None => raise (http 404 "member not found")
  | Some _ =>
      let '(pw_hash, salt, algo) := hash_password new_password salt in
      let! u := update_user user_id (password_fields pw_hash salt algo (Some true)) in
      match u with
      | None => raise (http 404 "user not found")
      | Some _ =>
          member_audit claims tenant_id "member.password_reset"
            (JObj [("user_id", JStr user_id)]) ;;;
          ret true
      end
  end.

Definition remove_member_route (tenant_id user_id : string) : M Store bool :=
  let! claims := guard "members" "delete" tenant_id in
  if decide (user_id = c_sub claims) then raise (forbidden "cannot remove self") else
  let! last := gets (is_last_admin tenant_id user_id) in
  if (last : bool) then raise (forbidden "cannot remove last tenant_admin") else
  let! ok := remove_member tenant_id user_id in
  if negb ok then raise (http 404 "member not found") else
  member_audit claims tenant_id "member.remove" (JObj [("user_id", JStr user_id)]) ;;;
  ret true.
End member_routes.

(** * Role and menu handlers (routes/rbac.py) *)

(** Built-in immutability surfaces as 403, other conflicts as 409. *)
Definition role_conflict (msg : string) : exn :=
  if contains "built-in and immutable" msg then http 403 msg else http 409 msg.

Section rbac_routes.
Context `{HashLib, JwtLib}.
Variables (cfg : AuthConfig) (ring : KeyRing) (now : Z) (hdr : Headers).
#[local] Abbreviation guard := (guard cfg ring now hdr).

Definition rbac_audit (claims : Claims) (tenant_id action resource : string) (detail : json)
    : M Store unit :=
  append_audit now tenant_id (Some (c_sub claims)) None (c_role claims) action (Some resource)
    detail ;;; ret tt.

Definition list_roles_route (tenant_id : string) : M Store (list (option RoleView)) :=
  guard "rbac" "read" tenant_id ;;; gets (list_roles tenant_id).

Definition create_role (tenant_id role_id display_name : string) (write_classes : list string)
    : M Store CustomRole :=
  let! claims := guard "rbac" "write" tenant_id in
  let! rec := on_conflict (create_custom_role now tenant_id role_id display_name write_classes)
                (http 409) in
  rbac_audit claims tenant_id "rbac.role_create" "role"
    (JObj [("role_id", JStr role_id); ("write_classes", jlist write_classes)]) ;;;
  ret rec.

Definition update_role (tenant_id role_id : string) (display_name : option string)
    (write_classes : option (list string)) : M Store CustomRole :=
  let! claims := guard "rbac" "write" tenant_id in
  let! rec := on_conflict (update_custom_role now tenant_id role_id display_name write_classes)
                role_conflict in
  match rec with
  | None => raise (http 404 "role not found")
  | Some rec =>
      rbac_audit claims tenant_id "rbac.role_update" "role" (JObj [("role_id", JStr role_id)]) ;;;
      ret rec
  end.

Definition delete_role (tenant_id role_id : string) : M Store bool :=
  let! claims := guard "rbac" "delete" tenant_id in
  let! ok := on_conflict (delete_custom_role tenant_id role_id) role_conflict in
  if negb ok then raise (http 404 "role not found")
  else
    rbac_audit claims tenant_id "rbac.role_delete" "role" (JObj [("role_id", JStr role_id)]) ;;;
    ret true.

(** The menus of a role and whether it is built in. *)
Definition get_role_menus_route (tenant_id role_id : string) : M Store (list string * bool) :=
  guard "rbac" "read" tenant_id ;;;
  let! rec := gets (get_role tenant_id role_id) in
  match rec with
  | None => raise (http 404 "role not found")
  | Some rec => ret (rv_menus rec, rv_built_in rec)
  end.

Definition set_role_menus_route (tenant_id role_id : string) (menus : list string)
    : M Store (list string) :=
  let! claims := guard "rbac" "write" tenant_id in
  let! menus := on_conflict (set_role_menus tenant_id role_id menus) (http 409) in
  rbac_audit claims tenant_id "rbac.menu_matrix_set" "role"
    (JObj [("role_id", JStr role_id); ("menus", jlist menus)]) ;;;
  ret menus.

Definition reset_role_menus_route (tenant_id role_id : string) : M Store (list string) :=
  let! claims := guard "rbac" "write" tenant_id in
  let! menus := on_conflict (reset_role_menus tenant_id role_id) (http 409) in
  rbac_audit claims tenant_id "rbac.menu_matrix_reset" "role" (JObj [("role_id", JStr role_id)]) ;;;
  ret menus.

Definition list_menus_route (tenant_id : string) : M Store (list string) :=
  guard "rbac" "read" tenant_id ;;; gets (list_known_menus tenant_id).

Definition add_menus (tenant_id : string) (menus : list string) : M Store (list string) :=
  let! claims := guard "rbac" "write" tenant_id in
  let! known := on_conflict (add_known_menus tenant_id menus) (http 409) in
  rbac_audit claims tenant_id "rbac.menu_add" "menu" (JObj [("added", jlist menus)]) ;;;
  ret known.

Definition check_member (tenant_id uid : string) : M Store unit :=
  let! m := gets (get_member tenant_id uid) in
  match m with
  | None => raise (http 404 ("member not found: " +:+ uid))
  | Some _ => ret tt
  end.

Definition validate_approval (tenant_id requester_id approver_id : string) : M Store bool :=
  guard "rbac" "read" tenant_id ;;;
  if decide (requester_id = approver_id) then raise (forbidden "requester and approver must differ")
  else for_each [requester_id; approver_id] (check_member tenant_id) ;;; ret true.
End rbac_routes.
