(* ===== verification/RateLimit.v ===== *)
(** * Login rate limiting (ratelimit.py)

    Token buckets keyed by tenant and address, and by tenant and account.
    Token counts are exact rationals where the code has floats; a time is in
    microseconds. *)
From Stdlib Require Import QArith Qminmax Lqa.
From S2P Require Import Prelude PyText StoreState Auth Jwks.
Open Scope Z_scope.

Definition DEFAULT_LOGIN_LIMIT : Z := 10.
Definition DEFAULT_LOGIN_WINDOW : Z := 60.
Definition MAX_BUCKETS : Z := 8192.

Record Bucket : Type := mkBucket { b_tokens : Q; b_last : Z }.

(** [LoginRateLimiter]; [lm_window] is in seconds. *)
Record Limiter : Type := mkLimiter {
  lm_max_tokens : Z;
  lm_window : Z;
  lm_buckets : list (string * Bucket)
}.
Definition set_lm_buckets (v : list (string * Bucket)) (l : Limiter) : Limiter :=
  mkLimiter (lm_max_tokens l) (lm_window l) v.

Definition ip_key (tenant_id ip : string) : string := tenant_id +:+ ":" +:+ ip.
Definition user_key (tenant_id username : string) : string :=
  "u:" +:+ tenant_id +:+ ":" +:+ lower username.

(** [sweep]: drop the buckets idle for more than two windows; their number. *)
Definition sweep (now : Z) (l : Limiter) : Z * Limiter :=
  let stale kb := bool_decide (now - b_last kb.2 > sec (lm_window l * 2)) in
  (zlen (filter (fun kb => stale kb = true) (lm_buckets l)),
   set_lm_buckets (filter (fun kb => stale kb = false) (lm_buckets l)) l).

(** [min(buckets, key=lambda k: buckets[k].last)]: the first stalest key. *)
Definition older (a b : string * Bucket) : string * Bucket :=
  if decide (b_last b.2 < b_last a.2) then b else a.
Definition stalest (d : list (string * Bucket)) : option string :=
  match d with [] => None | kb :: d' => Some (foldl older kb d').1 end.

(** Make room for a new bucket. *)
Definition evict (now : Z) (l : Limiter) : Limiter :=
  let l := if decide (zlen (lm_buckets l) >= MAX_BUCKETS) then (sweep now l).2 else l in
  if decide (zlen (lm_buckets l) >= MAX_BUCKETS) then
    match stalest (lm_buckets l) with
    | Some k => set_lm_buckets (dpop k (lm_buckets l)) l
    | None => l
    end
  else l.

(** Seconds between two clock readings. *)
Definition seconds (us : Z) : Q := us # 1000000.
Definition refill_rate (l : Limiter) : Q := (inject_Z (lm_max_tokens l) / inject_Z (lm_window l))%Q.

(** The bucket after refilling at [now]. *)
Definition refilled (now : Z) (l : Limiter) (b : Bucket) : Q :=
  Qmin (inject_Z (lm_max_tokens l)) (b_tokens b + seconds (now - b_last b) * refill_rate l).

Definition consume (key : string) (now : Z) (l : Limiter) : bool * Limiter :=
  let '(b, l) := match dget key (lm_buckets l) with
                 | Some b => (b, l)
                 | None => (mkBucket (inject_Z (lm_max_tokens l)) now, evict now l)
                 end in
  let tokens := refilled now l b in
  let put t := set_lm_buckets (dset key (mkBucket t now) (lm_buckets l)) l in
  if Qlt_le_dec tokens 1 then (false, put tokens) else (true, put (tokens - 1)%Q).

(** [all(... for key in keys)]: the second bucket is consulted only when the
    first has a token. *)
Definition allow (now : Z) (tenant_id ip : string) (username : option string) (l : Limiter)
    : bool * Limiter :=
  if decide (lm_max_tokens l <= 0) then (true, l)
  else
    let '(ok, l) := consume (ip_key tenant_id ip) now l in
    if negb ok then (false, l)
    else if opt_true username then consume (user_key tenant_id (default "" username)) now l
    else (true, l).

(** [getattr(settings, ...) or default]: the limiter a request gets. *)
Definition get_login_limiter (limiter : option Limiter) (limit window : Z) : Limiter :=
  match limiter with
  | Some l => l
  | None => mkLimiter limit (if decide (window <> 0) then window else DEFAULT_LOGIN_WINDOW) []
  end.

(** The direct peer, or the first forwarded address when the peer is a
    trusted proxy. *)
Definition client_ip (peer : option string) (trusted : list string)
    (x_forwarded_for : option string) : string :=
  let peer := default "unknown" peer in
  if decide (peer ∈ trusted) then
    if opt_true x_forwarded_for
    then match split "," (default "" x_forwarded_for) with
         | f :: _ => strip f
         | [] => ""
         end
    else peer
  else peer.

Definition too_many : exn := http 429 "too many login attempts, retry later".

(** [check_login_rate]; [redis] is the verdict of the shared limiter, [None]
    when there is none or it failed. *)
Definition check_login_rate (now : Z) (ip tenant_id : string) (username : option string)
    (redis : option bool) (limit : Z) : M Limiter unit :=
  let shared := if decide (limit > 0) then redis else None in
  match shared with
  | Some false => raise too_many
  | Some true => ret tt
  | None =>
      fun l => let '(ok, l') := allow now tenant_id ip username l in
               if (ok : bool) then (Ok tt, l') else (Raise too_many, l')
  end.

(** ** What the limiter admits *)

Lemma seconds_split a b c : (seconds (c - a) == seconds (b - a) + seconds (c - b))%Q.
Proof. unfold seconds, Qeq. simpl. lia. Qed.
Lemma seconds_nonneg a : 0 <= a -> (0 <= seconds a)%Q.
Proof. unfold seconds, Qle. simpl. lia. Qed.

(** The limiter's parameters are positive. *)
Definition limiter_ok (l : Limiter) : Prop := 1 <= lm_max_tokens l /\ 0 < lm_window l.

Lemma refill_rate_nonneg l : limiter_ok l -> (0 <= refill_rate l)%Q.
Proof.
  intros [Hm Hw]. unfold refill_rate. apply Qle_shift_div_l.
  - change 0%Q with (inject_Z 0). by rewrite <- Zlt_Qlt.
  - rewrite Qmult_0_l. change 0%Q with (inject_Z 0). rewrite <- Zle_Qle. lia.
Qed.

(** One visit to an existing bucket. *)
Lemma consume_hit key now l b :
  dget key (lm_buckets l) = Some b ->
  exists t ok, consume key now l = (ok, set_lm_buckets (dset key (mkBucket t now) (lm_buckets l)) l) /\
    (t + (if ok : bool then 1 else 0) == refilled now l b)%Q /\ (ok = true <-> 1 <= refilled now l b)%Q.
Proof.
  intros Hb. unfold consume. rewrite Hb. destruct (Qlt_le_dec (refilled now l b) 1) as [Hlt|Hle].
  - exists (refilled now l b), false. split_and!; [done|ring|]. split; [done|]. intros H1.
    exfalso. lra.
  - exists (refilled now l b - 1)%Q, true. split_and!; [done|ring|done].
Qed.

(** *** Sequences of attempts *)

Record Attempt : Type := mkAttempt {
  at_now : Z; at_tenant : string; at_ip : string; at_username : option string
}.
(** The keys of an attempt, in the order in which [allow] consults them. *)
Definition keys_of (a : Attempt) : list string :=
  ip_key (at_tenant a) (at_ip a) ::
  if opt_true (at_username a) then [user_key (at_tenant a) (default "" (at_username a))] else [].
Fixpoint allows (l_at : list Attempt) (l : Limiter) : list bool * Limiter :=
  match l_at with
  | [] => ([], l)
  | a :: l_at' => let '(ok, l1) := allow (at_now a) (at_tenant a) (at_ip a) (at_username a) l in
                  let '(oks, l2) := allows l_at' l1 in (ok :: oks, l2)
  end.
(** How many of the attempts that consult [key] were let through. *)
Definition admitted (key : string) (l_at : list Attempt) (oks : list bool) : Z :=
  zlen (filter (fun p => key ∈ keys_of p.1 /\ p.2 = true) (zip l_at oks)).
(** [times] is non-decreasing from [t0] and ends by [t1]. *)
Fixpoint ordered (t0 : Z) (times : list Z) (t1 : Z) : Prop :=
  match times with
  | [] => t0 <= t1
  | t :: times' => t0 <= t /\ ordered t times' t1
  end.

(** What [key] can still spend at [t], at most. *)
Definition budget (key : string) (t : Z) (B : Q) (l : Limiter) : Prop :=
  match dget key (lm_buckets l) with
  | None => (inject_Z (lm_max_tokens l) <= B)%Q
  | Some b => (0 <= b_tokens b)%Q /\ b_last b <= t /\
      (b_tokens b + seconds (t - b_last b) * refill_rate l <= B)%Q
  end.
(** There is room for all of [U] and nothing else is kept. *)
Definition roomy (U : list string) (l : Limiter) : Prop :=
  limiter_ok l /\ dict_wf (lm_buckets l) /\ dkeys (lm_buckets l) ⊆ U /\ zlen U <= MAX_BUCKETS.
Definition spent_on (key k : string) (ok : bool) : Q := if bool_decide (k = key) && ok then 1%Q else 0%Q.

Lemma seconds_0 t : (seconds (t - t) == 0)%Q.
Proof. rewrite Z.sub_diag. unfold seconds, Qeq. simpl. lia. Qed.
Lemma max_tokens_pos l : limiter_ok l -> (1 <= inject_Z (lm_max_tokens l))%Q.
Proof. intros [Hm _]. change 1%Q with (inject_Z 1). rewrite <- Zle_Qle. lia. Qed.

Lemma budget_nonneg key t B l : limiter_ok l -> budget key t B l -> (0 <= B)%Q.
Proof.
  intros Hl. pose proof (max_tokens_pos l Hl). unfold budget. destruct (dget _ _) as [b|]; [|intros; lra].
  intros (H0 & Ht & HB).
  pose proof (Qmult_le_0_compat _ _ (seconds_nonneg (t - b_last b) ltac:(lia)) (refill_rate_nonneg l Hl)). lra.
Qed.
Lemma budget_later key t t' B l : limiter_ok l -> t <= t' -> budget key t B l ->
  budget key t' (B + seconds (t' - t) * refill_rate l)%Q l.
Proof.
  intros Hl Ht. unfold budget. destruct (dget _ _) as [b|].
  - intros (H0 & Hb & HB). split_and!; [done|lia|].
    rewrite (seconds_split (b_last b) t t'), Qmult_plus_distr_l. lra.
  - intros HB. pose proof (Qmult_le_0_compat _ _ (seconds_nonneg (t' - t) ltac:(lia)) (refill_rate_nonneg l Hl)). lra.
Qed.

(** With room, a visit writes its own bucket only. *)
Lemma roomy_evict U l k now : roomy U l -> k ∈ U -> dget k (lm_buckets l) = None -> evict now l = l.
Proof.
  intros (_ & Hwf & Hsub & HU) Hk Hn. unfold evict.
  assert (zlen (lm_buckets l) < MAX_BUCKETS) as Hlt.
  { assert (k :: dkeys (lm_buckets l) ⊆+ U) as Hs%submseteq_length.
    { apply NoDup_submseteq.
      - apply NoDup_cons. split; [by apply dget_None|done].
      - intros x [->|Hx]%elem_of_cons; [done|by apply Hsub]. }
    unfold dkeys in Hs. simpl in Hs. rewrite length_fmap in Hs. unfold zlen in *. lia. }
  rewrite !(decide_False (P := zlen (lm_buckets l) >= MAX_BUCKETS)) by lia. done.
Qed.
(** A visit with room: what is left and what was spent come from what the bucket had. *)
Lemma consume_run U k t l :
  roomy U l -> k ∈ U -> exists tok ok,
    consume k t l = (ok, set_lm_buckets (dset k (mkBucket tok t) (lm_buckets l)) l) /\
    match dget k (lm_buckets l) with
    | Some b => (tok + (if ok : bool then 1 else 0) == refilled t l b)%Q /\ (ok = true -> 1 <= refilled t l b)%Q
    | None => (tok + (if ok : bool then 1 else 0) == inject_Z (lm_max_tokens l))%Q /\ ok = true
    end.
Proof.
  intros Hr Hk. destruct (dget k (lm_buckets l)) as [b|] eqn:Eb.
  - destruct (consume_hit k t l b Eb) as (tok & ok & -> & Ht & Hok). exists tok, ok.
    split_and!; [done|done|]. by intros ?%Hok.
  - unfold consume. rewrite Eb, (roomy_evict U l k) by done. set (b := mkBucket (inject_Z (lm_max_tokens l)) t).
    assert (refilled t l b == inject_Z (lm_max_tokens l))%Q as Hf.
    { unfold refilled, b. simpl. rewrite seconds_0, Qmult_0_l, Qplus_0_r. apply Q.min_id. }
    pose proof (max_tokens_pos l ltac:(apply Hr)). destruct (Qlt_le_dec _ 1); [exfalso; lra|].
    exists (refilled t l b - 1)%Q, true. split_and!; [done|lra|done].
Qed.
Lemma refilled_nonneg t l b :
  limiter_ok l -> (0 <= b_tokens b)%Q -> b_last b <= t -> (0 <= refilled t l b)%Q.
Proof.
  intros Hl Hb Ht. pose proof (max_tokens_pos l Hl). unfold refilled. apply Q.min_glb; [lra|].
  pose proof (Qmult_le_0_compat _ _ (seconds_nonneg (t - b_last b) ltac:(lia)) (refill_rate_nonneg l Hl)). lra.
Qed.
Lemma consume_roomy U key t B k l ok l' :
  roomy U l -> k ∈ U -> budget key t B l -> consume k t l = (ok, l') ->
  roomy U l' /\ refill_rate l' = refill_rate l /\ budget key t (B - spent_on key k ok)%Q l'.
Proof.
  intros Hr Hk HB E. pose proof Hr as (Hl & Hwf & Hsub & HU). pose proof (max_tokens_pos l Hl) as Hmax.
  destruct (consume_run U k t l Hr Hk) as (tok & ok' & E' & Htok). rewrite E' in E. simplify_eq.
  split_and!; [|done|].
  - split_and!; [done|by apply dict_wf_dset| |done]. simpl. intros x. rewrite dkeys_dset.
    case_decide; [by apply Hsub|]. rewrite elem_of_app, list_elem_of_singleton. intros [? | ->]; [by apply Hsub|done].
  - unfold budget, spent_on. cbn [lm_buckets set_lm_buckets]. rewrite dget_dset.
    destruct (decide (key = k)) as [<-|Hne].
    + rewrite bool_decide_eq_true_2 by done. cbn [andb b_tokens b_last]. rewrite seconds_0, Qmult_0_l.
      unfold budget in HB. destruct (dget key (lm_buckets l)) as [b|].
      * destruct HB as (H0 & Hb & HB), Htok as [Ht Hok]. pose proof (refilled_nonneg t l b Hl H0 Hb).
        assert (refilled t l b <= b_tokens b + seconds (t - b_last b) * refill_rate l)%Q by apply Q.le_min_r.
        destruct ok; [specialize (Hok eq_refl)|]; (split_and!; [lra|lia|lra]).
      * destruct Htok as [Ht ->]. split_and!; [lra|lia|lra].
    + rewrite bool_decide_eq_false_2 by congruence. cbn [andb]. unfold budget in HB.
      destruct (dget key (lm_buckets l)) as [b|]; [|simpl; lra].
      destruct HB as (H0 & Hb & HB). split_and!; [done|done|].
      change (refill_rate (set_lm_buckets _ l)) with (refill_rate l). lra.
Qed.

Lemma spent_nonneg key k ok : (0 <= spent_on key k ok)%Q.
Proof. unfold spent_on. destruct (_ && _); lra. Qed.
Lemma spent_one key : spent_on key key true = 1%Q.
Proof. unfold spent_on. by rewrite bool_decide_eq_true_2. Qed.

Lemma budget_weaken key t B B' l : (B <= B')%Q -> budget key t B l -> budget key t B' l.
Proof. intros HB. unfold budget. destruct (dget _ _); [intros (? & ? & ?); split_and!; [done..|lra]|lra]. Qed.

(** An attempt spends at least the one admission it makes out of the budget. *)
Definition admits (key : string) (a : Attempt) (ok : bool) : Q :=
  if bool_decide (key ∈ keys_of a /\ ok = true) then 1%Q else 0%Q.
Lemma allow_roomy U key t B a l ok l' :
  roomy U l -> keys_of a ⊆ U -> budget key t B l ->
  allow t (at_tenant a) (at_ip a) (at_username a) l = (ok, l') ->
  roomy U l' /\ refill_rate l' = refill_rate l /\ budget key t (B - admits key a ok)%Q l'.
Proof.
  intros Hr Hk HB E. unfold allow in E. pose proof Hr as [[Hm _] _]. rewrite decide_False in E by lia.
  destruct (consume (ip_key (at_tenant a) (at_ip a)) t l) as [ok1 l1] eqn:E1.
  apply (consume_roomy U key t B) in E1 as (Hr1 & Hf1 & HB1); [|done|apply Hk; left|done].
  pose proof (spent_nonneg key (ip_key (at_tenant a) (at_ip a)) ok1) as Hs1.
  destruct ok1; simpl in E.
  2: { injection E as <- <-. split_and!; [done|done|]. unfold admits. rewrite bool_decide_eq_false_2 by naive_solver.
       eapply budget_weaken; [|exact HB1]. lra. }
  unfold admits, keys_of in *. destruct (opt_true (at_username a)).
  - set (k2 := user_key _ _) in *. assert (k2 ∈ U) as Hk2 by (apply Hk; by right; left).
    destruct (consume_roomy U key t _ k2 l1 ok l' Hr1 Hk2 HB1 E) as (Hr2 & Hf2 & HB2).
    split_and!; [done|congruence|]. eapply budget_weaken; [|exact HB2].
    pose proof (spent_nonneg key k2 ok). case_bool_decide as D; [|lra]. destruct D as [Hin ->].
    apply elem_of_cons in Hin as [->|Hin%list_elem_of_singleton]; [|subst key]; rewrite spent_one in *; lra.
  - injection E as <- <-. split_and!; [done|done|]. eapply budget_weaken; [|exact HB1].
    case_bool_decide as D; [|lra]. destruct D as [->%list_elem_of_singleton _]. rewrite spent_one. lra.
Qed.

Lemma admitted_cons key a l_at ok oks :
  (inject_Z (admitted key (a :: l_at) (ok :: oks)) == admits key a ok + inject_Z (admitted key l_at oks))%Q.
Proof.
  unfold admitted, admits, zlen. cbn [zip zip_with]. rewrite filter_cons. cbn [fst snd]. case_decide as D.
  - rewrite bool_decide_eq_true_2 by done. cbn [length]. rewrite Nat2Z.inj_succ. unfold Z.succ.
    rewrite inject_Z_plus. change (inject_Z 1) with 1%Q. lra.
  - rewrite bool_decide_eq_false_2 by done. lra.
Qed.
Lemma allows_budget U key t0 t1 B l_at l :
  roomy U l -> Forall (fun a => keys_of a ⊆ U) l_at -> budget key t0 B l -> ordered t0 (at_now <$> l_at) t1 ->
  (inject_Z (admitted key l_at (allows l_at l).1) <= B + seconds (t1 - t0) * refill_rate l)%Q.
Proof.
  intros Hr Hk. revert t0 B l Hr. induction Hk as [|a l_at Ha _ IH]; intros t0 B l Hr HB Ho; csimpl in *.
  - pose proof (budget_later key t0 t1 B l ltac:(apply Hr) Ho HB) as Hb.
    apply budget_nonneg in Hb; [|apply Hr]. change (inject_Z (admitted key [] [])) with 0%Q. lra.
  - destruct Ho as [Ht Ho]. apply (budget_later key t0 (at_now a)) in HB; [|apply Hr|done].
    destruct (allow (at_now a) (at_tenant a) (at_ip a) (at_username a) l) as [ok l1] eqn:Ea.
    destruct (allow_roomy U key _ _ _ _ _ _ Hr Ha HB Ea) as (Hr1 & Hf1 & HB1).
    specialize (IH _ _ _ Hr1 HB1 Ho). destruct (allows l_at l1) as [oks l2]. simpl in *.
    rewrite admitted_cons, (seconds_split t0 (at_now a) t1), Qmult_plus_distr_l. rewrite Hf1 in IH. lra.
Qed.

(** [C37] The login throttle of one process: over any run of attempts from [t0] to [t1] on any
    tenants, addresses and accounts, of those that consult a key that has no
    bucket yet at most the configured limit plus what the refill rate (limit
    per window) adds in that time are let through, whatever the times. The run
    must leave room for every key it consults besides those there are: with
    more than [MAX_BUCKETS] keys the limiter drops the stalest bucket, and its
    key starts again with the full limit ([flood_refills]). *)
Theorem rate_limit_bound key l_at l t0 t1 :
  limiter_ok l -> dict_wf (lm_buckets l) -> dget key (lm_buckets l) = None ->
  zlen (remove_dups (dkeys (lm_buckets l) ++ mjoin (keys_of <$> l_at))) <= MAX_BUCKETS ->
  ordered t0 (at_now <$> l_at) t1 ->
  (inject_Z (admitted key l_at (allows l_at l).1) <=
   inject_Z (lm_max_tokens l) + seconds (t1 - t0) * refill_rate l)%Q.
Proof.
  intros Hl Hwf Hn HU Ho.
  apply (allows_budget (remove_dups (dkeys (lm_buckets l) ++ mjoin (keys_of <$> l_at)))); [| | |done].
  - split_and!; [done|done| |done]. intros x Hx. apply elem_of_remove_dups, elem_of_app. by left.
  - apply Forall_forall. intros a Ha x Hx. apply elem_of_remove_dups, elem_of_app. right.
    apply list_elem_of_join. exists (keys_of a). split; [done|]. by apply list_elem_of_fmap_2.
  - unfold budget. rewrite Hn. lra.
Qed.

(** A flood of other keys between two attempts gives a key its full limit back:
    with the bucket of the key the stalest of a full limiter, one attempt from
    a new address drops it, and the key is let through at once. *)
Lemma flood_refills :
  let full := mkLimiter 1 60 (("t:victim", mkBucket 0 (sec 100)) ::
    ((fun n => (pretty n, mkBucket 0 (sec 101))) <$> seqZ 0 (MAX_BUCKETS - 1))) in
  (allow (sec 102) "t" "victim" None full).1 = false /\
  (allow (sec 102) "t" "victim" None (allow (sec 102) "t" "other" None full).2).1 = true.
Proof. vm_compute. done. Qed.

(** The throttle always lets up: an attempt on a bucket that has been
    left alone for the time of one token (window divided by limit) is
    admitted, however empty the bucket was. *)
Theorem rate_limit_recovers key l b now :
  limiter_ok l -> dget key (lm_buckets l) = Some b -> (0 <= b_tokens b)%Q ->
  sec (lm_window l) <= (now - b_last b) * lm_max_tokens l ->
  (consume key now l).1 = true.
Proof.
  intros Hl Hb Hpos Hw. destruct (consume_hit key now l b Hb) as (t & ok & -> & _ & Hok). simpl.
  apply Hok. unfold refilled. destruct Hl as [Hm Hwin].
  assert (1 <= inject_Z (lm_max_tokens l))%Q.
  { change 1%Q with (inject_Z 1). rewrite <- Zle_Qle. lia. }
  apply Q.min_glb; [done|].
  assert (1 <= seconds (now - b_last b) * refill_rate l)%Q; [|lra].
  unfold refill_rate, Qdiv. rewrite Qmult_assoc. apply Qle_shift_div_l.
  - change 0%Q with (inject_Z 0). by rewrite <- Zlt_Qlt.
  - rewrite Qmult_1_l. unfold seconds, inject_Z, Qle. simpl. unfold sec in Hw. lia.
Qed.

Lemma zlen_dset_le {V} (k : string) (v : V) d : zlen (dset k v d) <= zlen d + 1.
Proof.
  unfold zlen. induction d as [|[k' v'] d IH]; simpl; [lia|]. case_decide; simpl; lia.
Qed.
Lemma zlen_dset_present {V} (k : string) (v v' : V) d : dget k d = Some v' -> zlen (dset k v d) = zlen d.
Proof.
  unfold zlen. induction d as [|[k1 v1] d IH]; simpl; [done|]. case_decide; simpl; [lia|].
  intros ?%IH. lia.
Qed.
Lemma zlen_dpop_lt {V} (k : string) (d : list (string * V)) : k ∈ dkeys d -> zlen (dpop k d) < zlen d.
Proof.
  unfold zlen, dpop, dkeys. induction d as [|[k1 v1] d IH]; csimpl; [by intros ?%elem_of_nil|].
  intros Hin. rewrite filter_cons. simpl. pose proof (length_filter (fun kv => kv.1 <> k) d).
  destruct (decide (k1 <> k)) as [Hne|Heq%dec_stable]; simpl; [|lia].
  apply elem_of_cons in Hin as [->|Hin]; [done|]. specialize (IH Hin). lia.
Qed.

Lemma stalest_in kb d : (foldl older kb d) ∈ kb :: d.
Proof.
  revert kb. induction d as [|kb' d IH]; intros kb; simpl; [left|].
  unfold older at 2. case_decide.
  - right. apply IH.
  - specialize (IH kb). apply elem_of_cons in IH as [->|IH]; [left|by do 2 right].
Qed.

Lemma evict_room now l : zlen (lm_buckets l) <= MAX_BUCKETS -> zlen (lm_buckets (evict now l)) < MAX_BUCKETS.
Proof.
  intros Hl. unfold evict. set (l1 := if decide _ then (sweep now l).2 else l).
  assert (zlen (lm_buckets l1) <= MAX_BUCKETS) as Hl1.
  { unfold l1. case_decide; [|done]. simpl. unfold zlen in *.
    pose proof (length_filter (fun kb => bool_decide (now - b_last kb.2 > sec (lm_window l * 2)) = false)
      (lm_buckets l)). lia. }
  case_decide as Hge; [|lia]. unfold stalest. destruct (lm_buckets l1) as [|kb d] eqn:E; [done|].
  eapply Z.lt_le_trans; [|exact Hl1]. simpl.
  apply zlen_dpop_lt. apply list_elem_of_fmap. eexists. split; [done|]. apply stalest_in.
Qed.

(** The throttle's memory is bounded: whatever tenants, addresses and
    names a flood presents, a limiter with at most [MAX_BUCKETS] buckets still
    has at most that many afterwards. *)
Theorem rate_limit_memory now tid ip username l :
  zlen (lm_buckets l) <= MAX_BUCKETS ->
  zlen (lm_buckets (allow now tid ip username l).2) <= MAX_BUCKETS.
Proof.
  assert (forall key l, zlen (lm_buckets l) <= MAX_BUCKETS ->
    zlen (lm_buckets (consume key now l).2) <= MAX_BUCKETS) as Hc.
  { intros key l0 Hl. unfold consume. destruct (dget key (lm_buckets l0)) as [b|] eqn:E.
    - destruct (Qlt_le_dec _ _); simpl; by rewrite (zlen_dset_present _ _ b).
    - pose proof (evict_room now l0 Hl).
      destruct (Qlt_le_dec _ _); simpl; (etrans; [apply zlen_dset_le|lia]). }
  intros Hl. unfold allow. case_decide; [done|]. pose proof (Hc (ip_key tid ip) l Hl) as Hc1.
  destruct (consume (ip_key tid ip) now l) as [ok l1]. simpl in Hc1. destruct ok; [simpl|done].
  destruct (opt_true username); [by apply Hc|done].
Qed.
