(* ===== verification/JoinRoutes.v ===== *)
(** * Join-policy handlers (routes/join.py)

    Invites, self-service joining and join requests. The self-service
    handlers also pass the rate limiter, so they run over the store and the
    limiter together. *)
From S2P Require Import Prelude PyText StoreState Prims AuditLog Tenants Rbac Users Tokens.
From S2P Require Import Crypto Jwt Jwks Auth Deps MemberRoutes RateLimit.

(** The part of [app.state] the handlers mutate. *)
Definition App : Type := (Store * Limiter)%type.
Definition on_store {A} (m : M Store A) : M App A :=
  fun st => let '(r, s) := m st.1 in (r, (s, st.2)).
Definition on_limiter {A} (m : M Limiter A) : M App A :=
  fun st => let '(r, l) := m st.2 in (r, (st.1, l)).

Definition INVITE_PREFIX : string := "finv_".
Definition invalid_invite : exn := http 400 "invalid or expired invite token".

(** What the rate limiter sees of a request, and its configured limit. *)
Record RateView : Type := mkRateView {
  rv_ip : string;
  rv_redis : option bool;
  rv_limit : Z
}.

Section join_routes.
Context `{HashLib, JwtLib}.
Variables (cfg : AuthConfig) (ring : KeyRing) (now : Z) (hdr : Headers) (rate : RateView).

(** [hashlib.sha256(token.encode()).hexdigest()] *)
Definition hash_token (token : string) : string := sha256 token.

Definition invite_expired (expires_at : Z) : bool := bool_decide (expires_at < now).

(** [_audit]: in-memory appends do not fail, so nothing is swallowed. *)
Definition join_audit (tenant_id action : string) (user_id : string) (detail : json)
    : M Store unit :=
  append_audit now tenant_id (Some user_id) None None action None detail ;;; ret tt.

Definition require_active_tenant (tenant_id : string) : M Store unit :=
  let! status := gets (get_tenant_status tenant_id) in
  if decide (status = None \/ status = Some "deleted") then raise (http 404 "tenant not found")
  else if decide (status <> Some "active") then raise (http 409 "tenant is not active")
  else ret tt.

Definition admin_guard (tenant_id : string) : M Store Claims :=
  require_tenant_admin_of cfg ring now (hd_tenant hdr) (hd_authorization hdr) (Some tenant_id).

(** [rnd_token] and [rnd_id] are the draws; the row and the raw token. A role
    that does not resolve raises the store's conflict. *)
Definition create_invite_route (rnd_token rnd_id tenant_id role : string) (email : option string)
    (ttl_seconds : Z) : M Store (Invite * string) :=
  let! claims := admin_guard tenant_id in
  let! status := gets (get_tenant_status tenant_id) in
  if decide (status = None \/ status = Some "deleted") then raise (http 404 "tenant not found")
  else
    let token := INVITE_PREFIX +:+ rnd_token in
    let! invite := create_invite now ("inv_" +:+ rnd_id) tenant_id (hash_token token) role
                     (now + sec ttl_seconds) email (Some (c_sub claims)) in
    join_audit tenant_id "member.invited" (c_sub claims)
      (JObj [("invite_id", JStr (i_invite_id invite)); ("role", JStr role); ("email", jopt email)]) ;;;
    ret (invite, token).

(** Inventory rows: the invite without its token hash. *)
Definition strip_hash (i : Invite) : Invite :=
  mkInvite (i_invite_id i) (i_tenant_id i) "" (i_role i) (i_email i) (i_created_by i)
    (i_expires_at i) (i_used_at i) (i_used_by i) (i_created_at i).
Definition list_invites_route (tenant_id : string) : M Store (list Invite) :=
  admin_guard tenant_id ;;;
  gets (fun s => strip_hash <$> list_invites tenant_id s).

(** The bearer of the request, then the rate limit of [scope]. The subject is
    never empty in a token of the service; an empty one counts as anonymous. *)
Definition bearer_rated (scope : string) : M App Claims :=
  let! claims := on_store (require_bearer cfg ring now (hd_authorization hdr)) in
  on_limiter (check_login_rate now (rv_ip rate) scope
    (Some (if str_true (c_sub claims) then c_sub claims else "anonymous"))
    (rv_redis rate) (rv_limit rate)) ;;;
  ret claims.

(** The store part of [redeem_invite]. *)
Definition redeem_body (token user_id : string) : M Store (string * string) :=
  let! invite := gets (get_invite_by_hash (hash_token token)) in
  match invite with
  | None => raise invalid_invite
  | Some invite =>
      if decide (i_used_at invite <> None) then raise invalid_invite
      else if invite_expired (i_expires_at invite) then raise invalid_invite
      else
        let tenant_id := i_tenant_id invite in
        require_active_tenant tenant_id ;;;
        let! role := gets (get_member_role tenant_id user_id) in
        match role with
        | Some _ => raise (http 409 "already a member of this tenant")
        | None =>
            add_member now tenant_id user_id (i_role invite) (Some user_id) ;;;
            mark_invite_used now (i_invite_id invite) user_id ;;;
            join_audit tenant_id "member.joined" user_id
              (JObj [("invite_id", JStr (i_invite_id invite)); ("role", JStr (i_role invite))]) ;;;
            ret (tenant_id, i_role invite)
        end
  end.
Definition redeem_invite (token : string) : M App (string * string) :=
  let! claims := bearer_rated "invite-redeem" in
  on_store (redeem_body token (c_sub claims)).

(** The checks shared by [self_join] and [submit_join_request]. *)
Definition require_policy (tenant_id user_id policy refusal : string) : M Store unit :=
  let! tenant := gets (get_tenant tenant_id) in
  match tenant with
  | None => raise (http 404 "tenant not found")
  | Some t =>
      if decide (t_status t = "deleted") then raise (http 404 "tenant not found")
      else if decide (t_status t <> "active") then raise (http 409 "tenant is not active")
      else if decide (t_join_policy t <> policy) then raise (http 403 refusal)
      else
        let! role := gets (get_member_role tenant_id user_id) in
        match role with
        | Some _ => raise (http 409 "already a member of this tenant")
        | None => ret tt
        end
  end.

Definition self_join_body (tenant_id user_id : string) : M Store (string * string) :=
  require_policy tenant_id user_id "open"
    "tenant join policy does not allow self-service joining" ;;;
  add_member now tenant_id user_id "member" (Some user_id) ;;;
  join_audit tenant_id "member.self_added" user_id (JObj [("role", JStr "member")]) ;;;
  ret (tenant_id, "member").
Definition self_join (tenant_id : string) : M App (string * string) :=
  let! claims := bearer_rated "self-join" in
  on_store (self_join_body tenant_id (c_sub claims)).

Definition submit_body (rnd_id tenant_id user_id : string) : M Store JoinRequest :=
  require_policy tenant_id user_id "approval"
    "tenant join policy does not accept join requests" ;;;
  let! rec := on_conflict (create_join_request now ("jreq_" +:+ rnd_id) tenant_id user_id)
                (http 409) in
  join_audit tenant_id "join.requested" user_id
    (JObj [("request_id", JStr (j_request_id rec))]) ;;;
  ret rec.
Definition submit_join_request (rnd_id tenant_id : string) : M App JoinRequest :=
  let! claims := bearer_rated "join-request" in
  on_store (submit_body rnd_id tenant_id (c_sub claims)).

Definition list_join_requests_route (tenant_id : string) (status : option string)
    : M Store (list JoinRequest) :=
  admin_guard tenant_id ;;; gets (list_join_requests tenant_id status).

(** The row of the path's tenant, decided. A request that vanished between
    the two reads would make the handler fail on [None]. *)
Definition decide_route (claims : Claims) (tenant_id request_id decision : string)
    : M Store JoinRequest :=
  let! rec := gets (get_join_request request_id) in
  match rec with
  | None => raise (http 404 "join request not found")
  | Some rec =>
      if decide (j_tenant_id rec <> tenant_id) then raise (http 404 "join request not found")
      else
        let! rec := on_conflict (decide_join_request now request_id decision (c_sub claims))
                      (http 409) in
        match rec with
        | None => raise (TypeError "'NoneType' object is not subscriptable")
        | Some rec => ret rec
        end
  end.

Definition approve_join_request (tenant_id request_id : string) : M Store JoinRequest :=
  let! claims := admin_guard tenant_id in
  let! rec := decide_route claims tenant_id request_id "approved" in
  let! role := gets (get_member_role tenant_id (j_user_id rec)) in
  match role with
  | None => add_member now tenant_id (j_user_id rec) "member" (Some (c_sub claims)) ;;; ret tt
  | Some _ => ret tt
  end ;;;
  join_audit tenant_id "join.approved" (c_sub claims)
    (JObj [("request_id", JStr request_id); ("user_id", JStr (j_user_id rec))]) ;;;
  ret rec.

Definition reject_join_request (tenant_id request_id : string) : M Store JoinRequest :=
  let! claims := admin_guard tenant_id in
  let! rec := decide_route claims tenant_id request_id "rejected" in
  join_audit tenant_id "join.rejected" (c_sub claims)
    (JObj [("request_id", JStr request_id); ("user_id", JStr (j_user_id rec))]) ;;;
  ret rec.
End join_routes.
