(* ===== verification/RouteProps.v ===== *)
(** * Properties of the guards and of the tenant-scoped handlers *)
From S2P Require Import Prelude PyText StoreState Prims AuditLog Tenants Rbac Users Keys.
From S2P Require Import Tokens Ledger Crypto Jwt Jwks Auth StoreSteps Invariants.
From S2P Require Import RbacProps KeyProps TableProps AuditProps AuthLemmas Deps.
From S2P Require Import MemberRoutes RateLimit JoinRoutes.

(** ** The guards *)
Section guards.
Context `{HashLib, Argon2Lib, JwtLib}.
Variables (cfg : AuthConfig) (ring : KeyRing) (now : Z).

Lemma resolve_bearer_ok h s c s' :
  store_wf s -> resolve_bearer_claims cfg ring now h s = (Ok c, s') ->
  exists tok c0 role, extract_bearer h = Ok tok /\
    verify_ cfg ring now tok (Some "access") = Ok c0 /\ access_ok now c0 role s /\
    c = set_c_scope (Some (role_scopes role)) (set_c_role (Some role) c0) /\ s' = swept now s.
Proof.
  intros Hwf. unfold resolve_bearer_claims. intros Hr. apply bind_ok in Hr as (c0 & s0 & Hl & Hr).
  unfold lift in Hl. destruct (extract_bearer h) as [tok|]; [|done].
  destruct (verify_ cfg ring now tok (Some "access")) as [c1|[]] eqn:Ev; simplify_eq.
  rewrite (bind_eq_ok _ _ _ _ _ (is_jti_revoked_run now (c_jti c0) s0 (wf_revoked_jtis s0 Hwf))) in Hr.
  destruct (revoked_now now (c_jti c0) s0) eqn:Er; [done|].
  rewrite bind_gets in Hr. destruct (tenant_denied _) eqn:Et; [done|].
  rewrite bind_gets in Hr. destruct (user_denied _) eqn:Eu; [done|].
  rewrite bind_gets in Hr. destruct (get_member_role _ _ _) as [role|] eqn:Em; [|done].
  unfold ret in Hr. simplify_eq. apply tenant_denied_false in Et. apply user_denied_false in Eu.
  exists tok, c0, role. by split_and!.
Qed.

Lemma resolve_headers_ok x h s c s' :
  store_wf s -> resolve_headers cfg ring now x h s = (Ok c, s') ->
  s' = swept now s /\ c_tid c = x /\
  exists tok c0 role, extract_bearer h = Ok tok /\
    verify_ cfg ring now tok (Some "access") = Ok c0 /\ access_ok now c0 role s /\
    c_role c = Some role /\ c_sub c = c_sub c0 /\ c_tid c = c_tid c0.
Proof.
  intros Hwf. unfold resolve_headers. destruct (str_true x); [|done]. destruct (str_true h); [|done].
  simpl. intros Hr. apply bind_ok in Hr as (c1 & s1 & Hb & Hr).
  apply resolve_bearer_ok in Hb as (tok & c0 & role & ? & ? & ? & -> & ->); [|done].
  case_decide as Hc; [done|]. unfold ret in Hr. simplify_eq/=. naive_solver.
Qed.

Lemma guard_ok hdr resource action tid s c s' :
  store_wf s -> guard cfg ring now hdr resource action tid s = (Ok c, s') ->
  s' = swept now s /\ hd_tenant hdr = tid /\ c_tid c = tid /\
  exists tok c0 role, extract_bearer (hd_authorization hdr) = Ok tok /\
    verify_ cfg ring now tok (Some "access") = Ok c0 /\ access_ok now c0 role s /\
    c_role c = Some role /\ c_sub c = c_sub c0 /\ c_tid c0 = tid /\
    role_allows tid role resource action s = true.
Proof.
  intros Hwf. unfold guard, require_permission_of. intros Hr.
  apply bind_ok in Hr as (c1 & s1 & Hh & Hr).
  apply resolve_headers_ok in Hh as (-> & Hx & tok & c0 & role & ? & ? & ? & Hrole & ? & ?); [|done].
  apply bind_ok in Hr as ([] & s2 & Hp & Hr). unfold check_path in Hp. case_decide as Hc; [done|].
  unfold ret in Hp. simplify_eq. rewrite bind_gets in Hr. unfold claim_role in Hr. rewrite Hrole in Hr.
  simpl in Hr. destruct (role_allows _ _ _ _ _) eqn:Ea; [|done]. simpl in Hr. unfold ret in Hr.
  simplify_eq. split_and!; [done..|]. exists tok, c0, role. by split_and!; try congruence.
Qed.

(** The guard of every tenant-scoped route: when it lets a request
    through, the bearer's access token verified, its subject is an authorized
    member of that very tenant (header, path and token name the same one), the
    claims carry the stored role, and the permission matrix, or the write
    classes of a custom role, grants the requested action. *)
Theorem guard_sound hdr resource action tid s c s' :
  reachable s -> guard cfg ring now hdr resource action tid s = (Ok c, s') ->
  hd_tenant hdr = tid /\ c_tid c = tid /\
  exists tok c0 role, extract_bearer (hd_authorization hdr) = Ok tok /\
    verify_ cfg ring now tok (Some "access") = Ok c0 /\ access_ok now c0 role s /\
    c_role c = Some role /\ c_tid c0 = tid /\ role_allows tid role resource action s = true.
Proof.
  intros Hs (_ & ? & ? & tok & c0 & role & ? & ? & ? & ? & _ & ? & ?)%guard_ok; [|by eapply reach_wf].
  split_and!; [done..|]. exists tok, c0, role. by split_and!.
Qed.
End guards.

(** ** The last administrator *)

(** [tid] has an administrator. *)
Definition has_admin (tid : string) (s : Store) : Prop :=
  exists uid m, dget (tid, uid) (members s) = Some m /\ m_role m = "tenant_admin".

Lemma count_two_others tid role s k :
  dict_wf (members s) -> 1 < count_members_by_role tid role s ->
  exists uid m, (tid, uid) <> k /\ dget (tid, uid) (members s) = Some m /\ m_role m = role.
Proof.
  unfold count_members_by_role. intros Hwf Hc.
  destruct (filter (fun kv => kv.1.1 = tid /\ m_role kv.2 = role) (members s)) as [|[k1 m1] [|[k2 m2] l]] eqn:E;
    [done|done|].
  assert (forall k m, (k, m) ∈ (k1, m1) :: (k2, m2) :: l ->
    k.1 = tid /\ m_role m = role /\ dget k (members s) = Some m) as Hin.
  { intros k' m' Hin. rewrite <- E in Hin. apply list_elem_of_filter in Hin as [[? ?] Hin].
    split_and!; [done|done|]. by apply elem_of_dget. }
  assert (k1 <> k2) as Hne.
  { pose proof (dict_wf_filter (fun kv => kv.1.1 = tid /\ m_role kv.2 = role) _ Hwf) as Hw.
    rewrite E in Hw. unfold dict_wf, dkeys in Hw. csimpl in Hw. apply NoDup_cons in Hw as [Hw _].
    intros ->. apply Hw. left. }
  destruct (Hin k1 m1) as (T1 & R1 & G1); [left|]. destruct (Hin k2 m2) as (T2 & R2 & G2); [right; left|].
  destruct k1 as [t1 u1], k2 as [t2 u2]. simpl in *. subst.
  destruct (decide ((tid, u1) = k)) as [<-|]; [exists u2, m2|exists u1, m1]; split_and!; auto; congruence.
Qed.

(** An administrator other than the one at [k], unless [k] is the last. *)
Lemma not_last_admin tid uid s :
  store_wf s -> is_last_admin tid uid s = false -> has_admin tid s ->
  exists uid' m, uid' <> uid /\ dget (tid, uid') (members s) = Some m /\ m_role m = "tenant_admin" \/
  exists m, dget (tid, uid) (members s) = Some m /\ m_role m = "tenant_admin" /\
    1 < count_members_by_role tid "tenant_admin" s.
Proof.
  intros Hwf Hl (u & m & Hm & Hr). destruct (decide (u = uid)) as [->|Hne].
  - exists uid, m. right. exists m. split_and!; [done..|].
    unfold is_last_admin, get_member in Hl. rewrite Hm in Hl. apply bool_decide_eq_false in Hl.
    destruct (Z_lt_le_dec 1 (count_members_by_role tid "tenant_admin" s)); [done|]. naive_solver.
  - exists u, m. left. done.
Qed.

Lemma another_admin tid uid s :
  store_wf s -> is_last_admin tid uid s = false -> has_admin tid s ->
  exists uid' m, uid' <> uid /\ dget (tid, uid') (members s) = Some m /\ m_role m = "tenant_admin".
Proof.
  intros Hwf Hl Ha. destruct (not_last_admin tid uid s Hwf Hl Ha) as (u & m & [Hx|(m' & Hm & Hr & Hc)]).
  { by exists u, m. }
  destruct (count_two_others tid "tenant_admin" s (tid, uid)) as (u' & m1 & Hne & Hg & Hr');
    [apply Hwf|done|]. exists u', m1. split_and!; [congruence|done|done].
Qed.

Lemma has_admin_frame tid s s' : members s' = members s -> has_admin tid s -> has_admin tid s'.
Proof. intros E (u & m & ? & ?). exists u, m. by rewrite E. Qed.

Section member_props.
Context `{HashLib, Argon2Lib, JwtLib}.
Variables (cfg : AuthConfig) (ring : KeyRing) (now : Z) (hdr : Headers).

Lemma bearer_state h s :
  store_wf s -> let s' := (resolve_bearer_claims cfg ring now h s).2 in s' = s \/ s' = swept now s.
Proof.
  intros Hwf. unfold resolve_bearer_claims. unfold bind at 1. unfold lift.
  destruct (extract_bearer _) as [tok|]; [|by left].
  destruct (verify_ _ _ _ _ _) as [c|e]; [|destruct e; by left].
  rewrite (bind_eq_ok _ _ _ _ _ (is_jti_revoked_run now (c_jti c) s (wf_revoked_jtis s Hwf))).
  unfold bind, gets, ret, raise. right. repeat case_match; simplify_eq/=; try done;
    rename select (is_jti_revoked _ _ _ = _) into E;
    rewrite is_jti_revoked_run in E by apply Hwf; by simplify_eq.
Qed.

Lemma guard_state resource action tid s :
  store_wf s -> let s' := (guard cfg ring now hdr resource action tid s).2 in s' = s \/ s' = swept now s.
Proof.
  intros Hwf. unfold guard, require_permission_of, resolve_headers, check_path.
  destruct (str_true (hd_tenant hdr)); [|by left].
  destruct (str_true (hd_authorization hdr)); [|by left]. simpl.
  pose proof (bearer_state (hd_authorization hdr) s Hwf) as Hb. unfold bind.
  destruct (resolve_bearer_claims _ _ _ _ s) as [[c|e] s1]; [|done]. simpl in *.
  unfold gets, ret, raise. repeat case_match; simplify_eq/=; done.
Qed.

(** Whatever a guard answers, the tables the handlers read are unchanged. *)
Lemma guard_frame resource action tid s :
  store_wf s -> let s' := (guard cfg ring now hdr resource action tid s).2 in
  members s' = members s /\ users s' = users s /\ tenants s' = tenants s /\
  invites s' = invites s /\ custom_roles s' = custom_roles s /\ store_wf s'.
Proof.
  intros Hwf. simpl. destruct (guard_state resource action tid s Hwf) as [-> | ->]; [done|].
  split_and!; try done. destruct Hwf. constructor; simpl; eauto with dict.
Qed.

(** Run the guard of a handler: either it stops there, or the body runs. *)
Ltac run_guard Hwf :=
  match goal with
  | |- context [bind (guard ?c ?r ?n ?h ?res ?act ?tid) _ ?s] =>
      let Hf := fresh "Hf" in
      pose proof (guard_frame res act tid s Hwf) as Hf; simpl in Hf; unfold bind at 1;
      destruct (guard c r n h res act tid s) as [[?cl|?e] ?s1]; simpl in Hf;
      destruct Hf as (?Em & ?Eu & ?Et & ?Ei & ?Er & ?Hwf1); [|simpl; try done]
  end.

Lemma count_members_frame tid role s s' :
  members s' = members s -> count_members_by_role tid role s' = count_members_by_role tid role s.
Proof. unfold count_members_by_role. by intros ->. Qed.
Lemma is_last_admin_frame tid uid s s' :
  members s' = members s -> is_last_admin tid uid s' = is_last_admin tid uid s.
Proof. intros E. unfold is_last_admin, get_member. by rewrite (count_members_frame _ _ s), E. Qed.

(** An audit append leaves the memberships alone. *)
Lemma member_audit_frame claims tid act det s :
  members (member_audit now claims tid act det s).2 = members s.
Proof. done. Qed.

Lemma update_role_keeps_admin tid uid role t s :
  store_wf s -> has_admin t s -> (role = "tenant_admin" \/ is_last_admin tid uid s = false) ->
  has_admin t (update_member_role tid uid role s).2.
Proof.
  intros Hwf Ha Hl. unfold update_member_role. rewrite bind_gets.
  destruct (is_valid_role tid role s); [|done]. simpl. rewrite bind_gets.
  destruct (dget (tid, uid) (members s)) as [m|] eqn:Em; [|done]. simpl.
  destruct (decide (t = tid)) as [->|Hne].
  - destruct Hl as [-> | Hl].
    + exists uid. eexists. simpl. by rewrite dget_dset_eq.
    + destruct (another_admin tid uid s Hwf Hl Ha) as (u' & m' & Hne & Hg & Hr).
      exists u', m'. simpl. rewrite dget_dset_ne by congruence. done.
  - destruct Ha as (u & m' & Hg & Hr). exists u, m'. simpl. rewrite dget_dset_ne by congruence. done.
Qed.

Lemma remove_keeps_admin tid uid t s :
  store_wf s -> has_admin t s -> is_last_admin tid uid s = false ->
  has_admin t (remove_member tid uid s).2.
Proof.
  intros Hwf Ha Hl. unfold remove_member. rewrite bind_gets. simpl.
  destruct (decide (t = tid)) as [->|Hne].
  - destruct (another_admin tid uid s Hwf Hl Ha) as (u' & m' & Hne & Hg & Hr).
    exists u', m'. simpl. rewrite dget_dpop_ne by congruence. done.
  - destruct Ha as (u & m' & Hg & Hr). exists u, m'. simpl. rewrite dget_dpop_ne by congruence. done.
Qed.

(** [C35] The member-management handlers never take the last administrator
    away: whatever the caller, the headers and the outcome, changing a role or
    removing a member leaves every tenant that had a tenant administrator with
    one. *)
Theorem last_admin_preserved t tid uid role s :
  reachable s -> has_admin t s ->
  has_admin t (update_member_role_route cfg ring now hdr tid uid role s).2 /\
  has_admin t (remove_member_route cfg ring now hdr tid uid s).2.
Proof.
  intros Hs%reach_wf Ha. split.
  - unfold update_member_role_route. run_guard Hs; [|by eapply has_admin_frame].
    assert (has_admin t s1) as Ha1 by (by eapply has_admin_frame).
    case_decide; [done|]. rewrite bind_gets.
    destruct (bool_decide (role <> "tenant_admin") && is_last_admin tid uid s1) eqn:El; [done|].
    assert (has_admin t (update_member_role tid uid role s1).2) as Ha2.
    { apply update_role_keeps_admin; [done..|]. destruct (decide (role = "tenant_admin")); [by left|right].
      by rewrite bool_decide_eq_true_2 in El. }
    unfold bind at 1, on_conflict, catch.
    destruct (update_member_role tid uid role s1) as [[[m|]|[]] s2]; simpl in *; try done.
  - unfold remove_member_route. run_guard Hs; [|by eapply has_admin_frame].
    assert (has_admin t s1) as Ha1 by (by eapply has_admin_frame).
    case_decide; [done|]. rewrite bind_gets. destruct (is_last_admin tid uid s1) eqn:El; [done|].
    pose proof (remove_keeps_admin tid uid t s1 Hwf1 Ha1 El) as Ha2.
    unfold bind at 1. destruct (remove_member tid uid s1) as [[[]|e] s2]; simpl in *; try done.
Qed.

(** The guard on the last administrator covers one of two ways out: the
    status ["disabled"] is refused for the last administrator of the tenant,
    but ["locked"], which the authorization predicate treats alike, is
    accepted and shuts the tenant's only administrator out. *)
Theorem last_admin_can_be_locked tid uid s c s1 u :
  reachable s -> guard cfg ring now hdr "members" "write" tid s = (Ok c, s1) ->
  is_last_admin tid uid s = true -> dget uid (users s) = Some u ->
  (update_member_status cfg ring now hdr tid uid "disabled" s).1 =
    Raise (forbidden "cannot disable last tenant_admin") /\
  exists s2, update_member_status cfg ring now hdr tid uid "locked" s = (Ok tt, s2) /\
    get_user_status uid s2 = Some "locked" /\
    forall now' c', c_sub c' = uid -> exists d s3, authorize now' c' s2 = (Raise (unauthorized d), s3).
Proof.
  intros Hs Hg Hl Hu. pose proof (reach_wf _ _ Hs) as Hwf.
  pose proof (guard_frame "members" "write" tid s Hwf) as Hf. rewrite Hg in Hf. simpl in Hf.
  destruct Hf as (Em & Eu & _ & _ & _ & Hwf1).
  assert (exists m, get_member tid uid s1 = Some m) as [m Hm].
  { unfold is_last_admin, get_member in *. rewrite Em. destruct (dget (tid, uid) (members s)); eauto. done. }
  rewrite <- (is_last_admin_frame tid uid s s1 Em) in Hl. rewrite <- Eu in Hu.
  unfold update_member_status. rewrite !(bind_eq_ok _ _ _ _ _ Hg), !bind_gets, Hm, !bind_gets, Hl.
  split; [done|]. simpl.
  rewrite (bind_eq_ok _ _ _ _ _ (update_user_run uid (status_field "locked") u s1 Hu)).
  eexists. split; [done|]. split; [unfold get_user_status; simpl; by rewrite dget_dset_eq|].
  intros now' c' Hc. match goal with |- context [authorize now' c' ?st] => set (s2 := st) end.
  assert (store_wf s2) as Hwf2 by (destruct Hwf1; constructor; simpl; eauto with dict).
  pose proof (authorize_run now' c' s2 Hwf2) as Hrun.
  assert (user_denied (get_user_status (c_sub c') s2) = true) as Hd.
  { unfold get_user_status. simpl. by rewrite Hc, dget_dset_eq. }
  rewrite Hd, orb_true_r in Hrun. destruct Hrun as [d Hrun]. eauto.
Qed.
End member_props.

(** ** Joining *)
Section join_props.
Context `{HashLib, Argon2Lib, JwtLib}.
Variables (now : Z).

Lemma require_active_ok tid s u s' :
  require_active_tenant tid s = (Ok u, s') -> s' = s /\ get_tenant_status tid s = Some "active".
Proof.
  unfold require_active_tenant. rewrite bind_gets. case_decide; [done|]. case_decide as Hc; [done|].
  unfold ret. intros [= <- <-]. done.
Qed.

Lemma redeem_ok token uid s tid role s1 :
  redeem_body now token uid s = (Ok (tid, role), s1) ->
  exists i, get_invite_by_hash (hash_token token) s = Some i /\ i_used_at i = None /\
    now <= i_expires_at i /\ i_tenant_id i = tid /\ i_role i = role /\
    get_tenant_status tid s = Some "active" /\ get_member_role tid uid s = None /\
    is_valid_role tid role s = true /\
    members s1 = dset (tid, uid) (mkMember tid uid role (Some uid) now now) (members s) /\
    invites s1 = invites (mark_invite_used now (i_invite_id i) uid s).2 /\ users s1 = users s.
Proof.
  unfold redeem_body. rewrite bind_gets. destruct (get_invite_by_hash _ s) as [i|] eqn:Ei; [|done].
  case_decide as Hu; [done|]. destruct (invite_expired now _) eqn:He; [done|].
  apply bool_decide_eq_false in He. intros Hr. apply bind_ok in Hr as (? & s0 & Ha & Hr).
  apply require_active_ok in Ha as [-> Hact]. rewrite bind_gets in Hr.
  destruct (get_member_role _ uid s) eqn:Em; [done|].
  unfold add_member in Hr. unfold bind at 1 2 in Hr. unfold gets at 1 in Hr.
  destruct (is_valid_role (i_tenant_id i) (i_role i) s) eqn:Ev; [|done]. simpl in Hr.
  unfold join_audit, append_audit in Hr. exists i.
  assert (i_used_at i = None) as Hused by (by destruct (i_used_at i)).
  apply bind_ok in Hr as (b & s2 & Hm & Hr). run_inv.
  split_and!; try done; [lia|..];
    unfold mark_invite_used in *; unfold bind, gets, modify, ret in *; simpl in *;
    destruct (dget (i_invite_id i) (invites s)); try case_decide; by simplify_eq/=.
Qed.

(** Redeeming an invite makes the bearer a member with the role the
    administrator chose, and uses the invite up: the token had to be unused
    and unexpired, the tenant active, the bearer not yet a member; presenting
    the same token again, by whomever and whenever, is refused with 400 and
    changes nothing. *)
Theorem invite_single_use token uid s tid role s1 uid' now' :
  reachable s -> redeem_body now token uid s = (Ok (tid, role), s1) ->
  get_member_role tid uid s = None /\ get_member_role tid uid s1 = Some role /\
  (exists i, get_invite_by_hash (hash_token token) s = Some i /\ i_role i = role /\
     i_tenant_id i = tid /\ now <= i_expires_at i) /\
  redeem_body now' token uid' s1 = (Raise invalid_invite, s1).
Proof.
  intros Hs. pose proof (reach_wf _ _ Hs) as Hwf. pose proof (ji_invite _ (reach_join _ _ Hs)) as Hid.
  intros (i & Hi & Hu & He & Ht & Hr & _ & Hm & _ & Em & Ei & _)%redeem_ok.
  split_and!; [done| |eauto 6|].
  - unfold get_member_role. by rewrite Em, dget_dset_eq.
  - unfold redeem_body. rewrite bind_gets.
    unfold get_invite_by_hash in *.
    destruct (dfind (fun r => bool_decide (i_token_hash r = hash_token token)) (invites s))
      as [[k i']|] eqn:Hf; [|done]. injection Hi as ->.
    pose proof (dfind_dget _ _ _ _ (wf_invites s Hwf) Hf) as [Hk Hh]. pose proof (Hid k i Hk) as Hkid.
    unfold mark_invite_used in Ei. rewrite bind_gets in Ei. rewrite Hkid, Hk in Ei.
    rewrite decide_False in Ei by (rewrite Hu; intros Hn; by apply Hn). simpl in Ei. rewrite Ei.
    erewrite dfind_dset_hit; [|apply Hwf|exact Hf|exact Hh]. simpl. done.
Qed.

(** Self-service joining cannot raise privileges: it succeeds only for
    an active tenant whose policy is ["open"] and a user who is not a member
    yet, the role granted is always ["member"], and no other membership
    changes. *)
Theorem self_join_member_only tid uid s r s1 :
  self_join_body now tid uid s = (Ok r, s1) ->
  r = (tid, "member") /\
  (exists t, get_tenant tid s = Some t /\ t_status t = "active" /\ t_join_policy t = "open") /\
  get_member_role tid uid s = None /\ get_member_role tid uid s1 = Some "member" /\
  forall tid' uid', (tid', uid') <> (tid, uid) ->
    get_member_role tid' uid' s1 = get_member_role tid' uid' s.
Proof.
  unfold self_join_body, require_policy. intros Hr. apply bind_ok in Hr as (? & s0 & Hp & Hr).
  rewrite bind_gets in Hp. destruct (get_tenant tid s) as [t|] eqn:Et; [|done].
  case_decide; [done|]. destruct (decide (t_status t <> "active")) as [|Ha%dec_stable]; [done|].
  destruct (decide (t_join_policy t <> "open")) as [|Ho%dec_stable]; [done|].
  rewrite bind_gets in Hp. destruct (get_member_role tid uid s) eqn:Em; [done|].
  unfold ret in Hp. simplify_eq. unfold add_member in Hr. unfold bind at 1 2 in Hr. unfold gets at 1 in Hr.
  destruct (is_valid_role tid "member" s0); [|done]. simpl in Hr. unfold join_audit, append_audit in Hr.
  run_inv. split_and!; [done|eauto|done| |]; unfold get_member_role; simpl.
  - by rewrite dget_dset_eq.
  - intros tid' uid' Hne. by rewrite dget_dset_ne.
Qed.
End join_props.
