(* ===== verification/Redis.v ===== *)
(** * Redis: the commands the program sends, and what is documented of them

    The Redis server is not code of the repository: [RedisLib] has the commands
    cache.py and concurrency.py send, each at a server clock reading in
    microseconds, and [RedisLaws] their documented effect on the visible
    keyspace ([r_view]). The Lua scripts and the client methods, which are code
    of the repository, are compositions of those commands; a script runs
    without interleaving, as Redis guarantees. [toy_redis] is an instance. *)
From S2P Require Import Prelude PyText StoreState.

(** What a key holds. A text the program printed with [json.dumps] is kept as
    the value it prints ([json.loads] reads it back); [RNum] is the decimal
    text of a counter; [RZSet] maps the members of a sorted set to scores. *)
Inductive rdata : Type :=
  | RText (s : string)
  | RJson (j : json)
  | RNum (n : Z)
  | RZSet (z : gmap string Z).
(** A visible key: its data, and the time at which it expires. *)
Record rentry : Type := mkEntry { re_data : rdata; re_expire : option Z }.

Class RedisLib := {
  redis : Type;
  (** [Raise] when a round trip does not reach the server. *)
  r_conn : Z -> redis -> res unit;
  r_get : Z -> string -> redis -> option rdata;
  r_set : Z -> string -> rdata -> Z -> redis -> redis;        (* SET k v EX ttl *)
  r_del : Z -> string -> redis -> redis;
  r_incrby : Z -> string -> Z -> redis -> Z * redis;
  r_expire : Z -> string -> Z -> redis -> redis;
  r_zadd : Z -> string -> Z -> string -> redis -> redis;
  r_zrem : Z -> string -> string -> redis -> Z * redis;
  r_zrangebyscore : Z -> string -> Z -> Z -> redis -> list string;
  r_zremrangebyscore : Z -> string -> Z -> Z -> redis -> redis;
  r_zcard : Z -> string -> redis -> Z
}.

(** One round trip: it raises before the command runs, or runs it. A reply lost
    after the command has run is not modelled. *)
Definition trip `{RedisLib} {A} (t : Z) (m : M redis A) : M redis A :=
  let! _ := (fun r => (r_conn t r, r)) in m.
(** A command that answers and changes the keyspace. *)
Definition cmd `{RedisLib} {A} (f : redis -> A * redis) : M redis A :=
  fun r => let '(a, r') := f r in (Ok a, r').

(** ** The keyspace the commands are documented on *)

Definition alive (t : Z) (o : option rentry) : option rentry :=
  match o with
  | Some e => match re_expire e with
              | Some x => if decide (t < x) then o else None
              | None => o
              end
  | None => None
  end.
(** The sorted set of a key; a missing key is the empty set. *)
Definition zmembers (o : option rentry) : gmap string Z :=
  match o with Some (mkEntry (RZSet z) _) => z | _ => ∅ end.
Definition is_zset (o : option rentry) : Prop :=
  match o with Some (mkEntry (RZSet _) _) | None => True | _ => False end.
Definition expiry (o : option rentry) : option Z :=
  match o with Some e => re_expire e | None => None end.
(** A sorted set that loses its last member is removed. *)
Definition zentry (z : gmap string Z) (x : option Z) : option rentry :=
  if decide (z = ∅) then None else Some (mkEntry (RZSet z) x).
(** The counter of a key; a missing key counts as 0. *)
Definition counter (o : option rentry) : Z :=
  match o with Some (mkEntry (RNum n) _) => n | _ => 0 end.
Definition is_counter (o : option rentry) : Prop :=
  match o with Some (mkEntry (RNum _) _) | None => True | _ => False end.
(** [GET] is an error on a sorted set. *)
Definition is_text (o : option rentry) : Prop :=
  match o with Some (mkEntry (RZSet _) _) => False | _ => True end.
Definition in_scores (lo hi : Z) (kv : string * Z) : Prop := lo <= kv.2 <= hi.
#[export] Instance in_scores_dec lo hi kv : Decision (in_scores lo hi kv).
Proof. unfold in_scores. apply _. Defined.
Definition zremoved (lo hi : Z) (z : gmap string Z) : gmap string Z :=
  filter (fun kv => ~ in_scores lo hi kv) z.

(** [r_view t r k]: what key [k] holds at time [t]. *)
Class RedisLaws `{RedisLib} := {
  r_view : Z -> redis -> string -> option rentry;
  (** As time passes a key changes only by expiring. *)
  view_later : forall t t' r k, t <= t' -> r_view t' r k = alive t' (r_view t r k);
  get_law : forall t r k, is_text (r_view t r k) -> r_get t k r = re_data <$> r_view t r k;
  set_law : forall t r k d ttl k', 0 < ttl ->
    r_view t (r_set t k d ttl r) k' =
    if decide (k' = k) then Some (mkEntry d (Some (t + sec ttl))) else r_view t r k';
  del_law : forall t r k k',
    r_view t (r_del t k r) k' = if decide (k' = k) then None else r_view t r k';
  incrby_law : forall t r k n, is_counter (r_view t r k) ->
    (r_incrby t k n r).1 = counter (r_view t r k) + n /\
    forall k', r_view t (r_incrby t k n r).2 k' =
      if decide (k' = k)
      then Some (mkEntry (RNum (counter (r_view t r k) + n)) (expiry (r_view t r k)))
      else r_view t r k';
  expire_law : forall t r k ttl k', 0 < ttl ->
    r_view t (r_expire t k ttl r) k' =
    if decide (k' = k)
    then (fun e => mkEntry (re_data e) (Some (t + sec ttl))) <$> r_view t r k
    else r_view t r k';
  zadd_law : forall t r k sc m k', is_zset (r_view t r k) ->
    r_view t (r_zadd t k sc m r) k' =
    if decide (k' = k)
    then Some (mkEntry (RZSet (<[m := sc]> (zmembers (r_view t r k)))) (expiry (r_view t r k)))
    else r_view t r k';
  zrem_law : forall t r k m, is_zset (r_view t r k) ->
    (r_zrem t k m r).1 = (if decide (m ∈ dom (zmembers (r_view t r k))) then 1 else 0) /\
    forall k', r_view t (r_zrem t k m r).2 k' =
      if decide (k' = k)
      then zentry (delete m (zmembers (r_view t r k))) (expiry (r_view t r k))
      else r_view t r k';
  zrangebyscore_law : forall t r k lo hi m, is_zset (r_view t r k) ->
    m ∈ r_zrangebyscore t k lo hi r <->
    exists sc, zmembers (r_view t r k) !! m = Some sc /\ in_scores lo hi (m, sc);
  zremrangebyscore_law : forall t r k lo hi k', is_zset (r_view t r k) ->
    r_view t (r_zremrangebyscore t k lo hi r) k' =
    if decide (k' = k)
    then zentry (zremoved lo hi (zmembers (r_view t r k))) (expiry (r_view t r k))
    else r_view t r k';
  zcard_law : forall t r k, is_zset (r_view t r k) ->
    r_zcard t k r = Z.of_nat (size (zmembers (r_view t r k)));
  (** A command writes its own key only, whatever that key holds. *)
  set_other : forall t r k d ttl k', k' <> k -> r_view t (r_set t k d ttl r) k' = r_view t r k';
  incrby_other : forall t r k n k', k' <> k -> r_view t (r_incrby t k n r).2 k' = r_view t r k';
  expire_other : forall t r k ttl k', k' <> k -> r_view t (r_expire t k ttl r) k' = r_view t r k';
  zadd_other : forall t r k sc m k', k' <> k -> r_view t (r_zadd t k sc m r) k' = r_view t r k';
  zrem_other : forall t r k m k', k' <> k -> r_view t (r_zrem t k m r).2 k' = r_view t r k';
  zremrangebyscore_other : forall t r k lo hi k', k' <> k ->
    r_view t (r_zremrangebyscore t k lo hi r) k' = r_view t r k'
}.

(** ** An instance: a map from keys to entries, expired lazily *)

Definition tget (t : Z) (r : gmap string rentry) (k : string) : option rentry := alive t (r !! k).
Definition tput (k : string) (o : option rentry) (r : gmap string rentry) : gmap string rentry :=
  partial_alter (fun _ => o) k r.
Definition toy_redis : RedisLib := {|
  redis := gmap string rentry;
  r_conn _ _ := Ok tt;
  r_get t k r := re_data <$> tget t r k;
  r_set t k d ttl r := tput k (Some (mkEntry d (Some (t + sec ttl)))) r;
  r_del t k r := tput k None r;
  r_incrby t k n r :=
    let v := counter (tget t r k) + n in
    (v, tput k (Some (mkEntry (RNum v) (expiry (tget t r k)))) r);
  r_expire t k ttl r :=
    tput k ((fun e => mkEntry (re_data e) (Some (t + sec ttl))) <$> tget t r k) r;
  r_zadd t k sc m r :=
    tput k (Some (mkEntry (RZSet (<[m := sc]> (zmembers (tget t r k)))) (expiry (tget t r k)))) r;
  r_zrem t k m r :=
    let z := zmembers (tget t r k) in
    (if decide (m ∈ dom z) then 1 else 0, tput k (zentry (delete m z) (expiry (tget t r k))) r);
  r_zrangebyscore t k lo hi r :=
    (map_to_list (filter (in_scores lo hi) (zmembers (tget t r k)))).*1;
  r_zremrangebyscore t k lo hi r :=
    tput k (zentry (zremoved lo hi (zmembers (tget t r k))) (expiry (tget t r k))) r;
  r_zcard t k r := Z.of_nat (size (zmembers (tget t r k)))
|}.

Lemma alive_idem t o : alive t (alive t o) = alive t o.
Proof. destruct o as [[d [x|]]|]; simpl; [|done..]. case_decide; simpl; [by rewrite decide_True|done]. Qed.
Lemma alive_later t t' o : t <= t' -> alive t' (alive t o) = alive t' o.
Proof.
  intros Ht. destruct o as [[d [x|]]|]; simpl; [|done..].
  repeat (case_decide; simpl); [done|done|lia|done].
Qed.
Lemma alive_set t d ttl : 0 < ttl -> alive t (Some (mkEntry d (Some (t + sec ttl)))) =
  Some (mkEntry d (Some (t + sec ttl))).
Proof. intros. simpl. rewrite decide_True; [done|unfold sec; lia]. Qed.
(** An entry with the expiry of a visible one is visible. *)
Lemma alive_expiry t o d : alive t (Some (mkEntry d (expiry (alive t o)))) =
  Some (mkEntry d (expiry (alive t o))).
Proof. destruct o as [[d' [x|]]|]; simpl; [|done..]. case_decide; simpl; [by rewrite decide_True|done]. Qed.
Lemma alive_zentry t o z : alive t (zentry z (expiry (alive t o))) = zentry z (expiry (alive t o)).
Proof. unfold zentry. case_decide; [done|]. apply alive_expiry. Qed.

Lemma tget_tput t k o r k' :
  tget t (tput k o r) k' = if decide (k' = k) then alive t o else tget t r k'.
Proof.
  unfold tget, tput. destruct (decide (k' = k)) as [->|Hne].
  - by rewrite lookup_partial_alter_eq.
  - by rewrite lookup_partial_alter_ne.
Qed.

Definition toy_redis_laws : @RedisLaws toy_redis.
Proof.
  refine (@Build_RedisLaws toy_redis tget _ _ _ _ _ _ _ _ _ _ _ _ _ _ _ _ _); simpl.
  - intros. symmetry. by apply alive_later.
  - done.
  - intros. rewrite tget_tput. case_decide; [by apply alive_set|done].
  - intros. by rewrite tget_tput.
  - intros. split; [done|]. intros. rewrite tget_tput. case_decide; [|done]. apply alive_expiry.
  - intros. rewrite tget_tput. case_decide; [|done].
    destruct (tget t r k); [by apply alive_set|done].
  - intros. rewrite tget_tput. case_decide; [|done]. apply alive_expiry.
  - intros. split; [done|]. intros. rewrite tget_tput. case_decide; [|done]. apply alive_zentry.
  - intros. rewrite list_elem_of_fmap. split.
    + intros ([m' sc] & -> & [Hz Hs]%elem_of_map_to_list%map_lookup_filter_Some). eauto.
    + intros (sc & ? & ?). exists (m, sc). split; [done|].
      by apply elem_of_map_to_list, map_lookup_filter_Some.
  - intros. rewrite tget_tput. case_decide; [|done]. apply alive_zentry.
  - done.
  - intros. by rewrite tget_tput, decide_False.
  - intros. by rewrite tget_tput, decide_False.
  - intros. by rewrite tget_tput, decide_False.
  - intros. by rewrite tget_tput, decide_False.
  - intros. by rewrite tget_tput, decide_False.
  - intros. by rewrite tget_tput, decide_False.
Defined.

(** ** Consequences shared by the clients *)

Section laws.
Context `{RedisLaws}.

Lemma zentry_members z x : zmembers (zentry z x) = z.
Proof. unfold zentry. case_decide; [by subst|done]. Qed.
Lemma zentry_is_zset z x : is_zset (zentry z x).
Proof. unfold zentry. by case_decide. Qed.
Lemma alive_is_zset t o : is_zset o -> is_zset (alive t o).
Proof. destruct o as [[[] [x|]]|]; simpl; try done. by case_decide. Qed.
Lemma alive_is_counter t o : is_counter o -> is_counter (alive t o).
Proof. destruct o as [[[] [x|]]|]; simpl; try done. by case_decide. Qed.

Lemma zremoved_lookup lo hi (z : gmap string Z) m sc :
  zremoved lo hi z !! m = Some sc <-> z !! m = Some sc /\ ~ (lo <= sc <= hi).
Proof. unfold zremoved. by rewrite map_lookup_filter_Some. Qed.

(** Deleting keys with a prefix leaves the keys without it alone. *)
Lemma del_all_view t (prefix : string) (l : list string) r :
  exists r', for_each l (fun x => modify (r_del t (prefix +:+ x))) r = (Ok tt, r') /\
    forall k, (forall x, k <> prefix +:+ x) -> r_view t r' k = r_view t r k.
Proof.
  revert r. induction l as [|x l IH]; intros r; simpl; [by eexists|].
  unfold bind at 1. simpl. destruct (IH (r_del t (prefix +:+ x) r)) as (r' & E1 & E2).
  exists r'. split; [exact E1|]. intros k Hk. by rewrite E2, del_law, decide_False.
Qed.

(** [frame t P m]: [m], run at time [t], leaves the keys of [P] as they are. *)
Definition frame (t : Z) (P : string -> Prop) {A} (m : M redis A) : Prop :=
  forall r a r', m r = (a, r') -> forall k, P k -> r_view t r' k = r_view t r k.

Lemma frame_bind t P {A B} (m : M redis A) (f : A -> M redis B) :
  frame t P m -> (forall a, frame t P (f a)) -> frame t P (bind m f).
Proof.
  intros Hm Hf r a r'. unfold bind. destruct (m r) as [[x|e] r1] eqn:E.
  - intros E2 k Hk. rewrite (Hf _ _ _ _ E2 k Hk). by apply (Hm _ _ _ E).
  - intros [= <- <-] k Hk. by apply (Hm _ _ _ E).
Qed.
Lemma frame_catch t P {A} (m : M redis A) h :
  frame t P m -> (forall e, frame t P (h e)) -> frame t P (catch m h).
Proof.
  intros Hm Hf r a r'. unfold catch. destruct (m r) as [[x|e] r1] eqn:E.
  - intros [= <- <-] k Hk. by apply (Hm _ _ _ E).
  - intros E2 k Hk. rewrite (Hf _ _ _ _ E2 k Hk). by apply (Hm _ _ _ E).
Qed.
Lemma frame_ret t P {A} (a : A) : frame t P (ret a).
Proof. by intros r ? r' [= <- <-]. Qed.
Lemma frame_raise t P {A} e : frame t P (raise (A := A) e).
Proof. by intros r ? r' [= <- <-]. Qed.
Lemma frame_gets t P {A} (f : redis -> A) : frame t P (gets f).
Proof. by intros r ? r' [= <- <-]. Qed.
Lemma frame_trip t P {A} (m : M redis A) : frame t P m -> frame t P (trip t m).
Proof. intros Hm. apply frame_bind; [|done]. by intros r ? r' [= <- <-]. Qed.
Lemma frame_modify t (P : string -> Prop) f :
  (forall r k, P k -> r_view t (f r) k = r_view t r k) -> frame t P (modify f).
Proof. intros Hf r a r' [= <- <-] k Hk. by apply Hf. Qed.
Lemma frame_cmd t (P : string -> Prop) {A} (f : redis -> A * redis) :
  (forall r k, P k -> r_view t (f r).2 k = r_view t r k) -> frame t P (cmd f).
Proof.
  intros Hf r a r'. unfold cmd. specialize (Hf r). destruct (f r) as [x r1].
  intros [= <- <-] k Hk. by apply Hf.
Qed.
Lemma frame_for_each t P {A} (l : list A) f :
  (forall x, frame t P (f x)) -> frame t P (for_each l f).
Proof. intros Hf. induction l; simpl; [apply frame_ret|by apply frame_bind]. Qed.
Lemma del_other t r k k' : k' <> k -> r_view t (r_del t k r) k' = r_view t r k'.
Proof. intros. by rewrite del_law, decide_False. Qed.
End laws.

Create HintDb frame.
#[export] Hint Resolve frame_ret frame_raise frame_gets frame_trip frame_for_each : frame.
#[export] Hint Resolve set_other incrby_other expire_other zadd_other zrem_other
  zremrangebyscore_other del_other : frame.
(** Walk through a command sequence; what is left is that its keys are not in [P]. *)
Ltac solve_frame :=
  repeat first
    [ progress intros
    | apply frame_ret | apply frame_raise | apply frame_gets
    | apply frame_trip | apply frame_bind | apply frame_catch | apply frame_for_each
    | apply frame_modify | apply frame_cmd
    | match goal with
      | |- frame _ _ (match ?x with _ => _ end) => destruct x
      end
    | match goal with |- r_view _ _ _ = _ => solve [eauto with frame] end ].
