(* ===== verification/Leases.v ===== *)
(** * Concurrency leases (concurrency.py) and the semaphore they implement

    The two Lua scripts and the methods of [ConcurrencyManager], then an
    abstract counting semaphore per tenant (the leases granted and not given
    back, with their deadlines) and the simulation between the two: every
    decision is the semaphore's, although the code forgets expired leases
    lazily and lets Redis drop the whole set. *)
From S2P Require Import Prelude PyText StoreState Jwt Redis.

Section concurrency.
Context `{RedisLib}.

(** [ACQUIRE_LUA]; the time [now] is in seconds. *)
Definition ACQUIRE_LUA (t : Z) (lset lkey_prefix : string) (now ttl : Z) (lease_id : string)
    (max_limit : Z) : M redis Z :=
  let! expired := gets (r_zrangebyscore t lset 0 now) in
  for_each expired (fun eid => modify (r_del t (lkey_prefix +:+ eid))) ;;;
  modify (r_zremrangebyscore t lset 0 now) ;;;
  let! current := gets (r_zcard t lset) in
  if max_limit <=? current then ret 0
  else
    modify (r_zadd t lset (now + ttl) lease_id) ;;;
    modify (r_set t (lkey_prefix +:+ lease_id) (RText "1") ttl) ;;;
    modify (r_expire t lset (ttl + 60)) ;;;
    gets (r_zcard t lset).

(** [RELEASE_LUA] *)
Definition RELEASE_LUA (t : Z) (lset lkey_prefix lease_id : string) : M redis Z :=
  let! n := cmd (r_zrem t lset lease_id) in
  if n =? 0 then ret (-1)
  else
    modify (r_del t (lkey_prefix +:+ lease_id)) ;;;
    gets (r_zcard t lset).

Definition _leases_key (tenant_id : string) : string := "leases:" +:+ tenant_id.
Definition _lease_prefix : string := "lease:".

(** [rnd] is [uuid.uuid4().hex[:12]]. *)
Definition try_acquire (lease_ttl t : Z) (rnd tenant_id : string) (max_concurrency : Z)
    : M redis (option (string * Z)) :=
  if max_concurrency <=? 0 then ret None
  else
    let lease_id := tenant_id +:+ ":" +:+ rnd in
    let! result := trip t (ACQUIRE_LUA t (_leases_key tenant_id) _lease_prefix (int_time t)
                             lease_ttl lease_id max_concurrency) in
    if result =? 0 then ret None else ret (Some (lease_id, result)).

Definition release (t : Z) (tenant_id lease_id : string) : M redis Z :=
  let! result := trip t (RELEASE_LUA t (_leases_key tenant_id) _lease_prefix lease_id) in
  if result <? 0 then ret (-1) else ret result.

Definition active_count (t : Z) (tenant_id : string) : M redis Z :=
  let lset := _leases_key tenant_id in
  trip t (modify (r_zremrangebyscore t lset 0 (int_time t))) ;;;
  trip t (gets (r_zcard t lset)).

(** The calls a client makes, and their answers. *)
Inductive lease_call : Type :=
  | Acquire (rnd tenant_id : string) (max_concurrency : Z)
  | Release (tenant_id lease_id : string)
  | Count (tenant_id : string).
Inductive lease_reply : Type :=
  | Granted (g : option (string * Z))
  | Released (n : Z)
  | Active (n : Z).
Definition lease_do (lease_ttl t : Z) (c : lease_call) : M redis lease_reply :=
  match c with
  | Acquire rnd tid mx => let! g := try_acquire lease_ttl t rnd tid mx in ret (Granted g)
  | Release tid id => let! n := release t tid id in ret (Released n)
  | Count tid => let! n := active_count t tid in ret (Active n)
  end.
(** A history: calls at their times, each answered or failing with the
    connection. *)
Fixpoint lease_run (lease_ttl : Z) (h : list (Z * lease_call)) (r : redis)
    : list (res lease_reply) * redis :=
  match h with
  | [] => ([], r)
  | (t, c) :: h' =>
      let '(a, r1) := lease_do lease_ttl t c r in
      let '(l, r2) := lease_run lease_ttl h' r1 in (a :: l, r2)
  end.
End concurrency.

(** ** The abstract semaphore

    Per tenant, the leases granted and not given back, with the second at
    which each lapses. Nothing is ever forgotten: a lapsed lease just no
    longer counts. *)
Definition Sem : Type := string -> gmap string Z.
Definition live (now : Z) (z : gmap string Z) : gmap string Z :=
  filter (fun kv => now < kv.2) z.
Definition sem_set (tid : string) (z : gmap string Z) (A : Sem) : Sem :=
  fun x => if decide (x = tid) then z else A x.
Definition sem_count (now : Z) (tid : string) (A : Sem) : Z :=
  Z.of_nat (size (live now (A tid))).
Definition sem_acquire (ttl now : Z) (rnd tid : string) (mx : Z) (A : Sem)
    : option (string * Z) * Sem :=
  if sem_count now tid A <? mx then
    let id := tid +:+ ":" +:+ rnd in
    let A' := sem_set tid (<[id := now + ttl]> (A tid)) A in
    (Some (id, sem_count now tid A'), A')
  else (None, A).
Definition sem_release (tid id : string) (A : Sem) : Sem := sem_set tid (delete id (A tid)) A.
Definition sem_do (ttl now : Z) (c : lease_call) (A : Sem) : Sem :=
  match c with
  | Acquire rnd tid mx => (sem_acquire ttl now rnd tid mx A).2
  | Release tid id => sem_release tid id A
  | Count _ => A
  end.

(** When an answer is one the semaphore allows. Grants and counts are exactly
    its own. Giving back a lease that still counts succeeds; of one that does
    not, either answer is allowed, and the figure returned never
    under-reports. *)
Definition reply_allowed (ttl now : Z) (c : lease_call) (A : Sem) (a : lease_reply) : Prop :=
  match c, a with
  | Acquire rnd tid mx, Granted g => g = (sem_acquire ttl now rnd tid mx A).1
  | Release tid id, Released n =>
      (n = -1 /\ live now (A tid) !! id = None) \/ sem_count now tid (sem_release tid id A) <= n
  | Count tid, Active n => n = sem_count now tid A
  | _, _ => False
  end.

(** The answers of a history are allowed, one by one; a call that failed with
    the connection did not change the semaphore. *)
Fixpoint history_allowed (ttl : Z) (h : list (Z * lease_call)) (l : list (res lease_reply))
    (A : Sem) (A' : Sem) : Prop :=
  match h, l with
  | [], [] => A' = A
  | (t, c) :: h', Ok a :: l' =>
      reply_allowed ttl (int_time t) c A a /\
      history_allowed ttl h' l' (sem_do ttl (int_time t) c A) A'
  | _ :: h', Raise _ :: l' => history_allowed ttl h' l' A A'
  | _, _ => False
  end.
(** Times do not run backwards. *)
Fixpoint times_from (t0 : Z) {C} (h : list (Z * C)) : Prop :=
  match h with
  | [] => True
  | (t, _) :: h' => t0 <= t /\ times_from t h'
  end.

Lemma live_lookup now z id d : live now z !! id = Some d <-> z !! id = Some d /\ now < d.
Proof. unfold live. by rewrite map_lookup_filter_Some. Qed.
Lemma live_insert now z id d : now < d -> live now (<[id := d]> z) = <[id := d]> (live now z).
Proof. intros. unfold live. by rewrite map_filter_insert_True. Qed.
Lemma live_delete now z id : live now (delete id z) = delete id (live now z).
Proof. unfold live. by rewrite map_filter_delete. Qed.
Lemma live_live now now' z : now <= now' -> live now' (live now z) = live now' z.
Proof.
  intros. apply map_eq. intros i. apply option_eq. intros d. rewrite !live_lookup.
  intuition lia.
Qed.
(** Removing the scores of [0..now] is dropping what has lapsed. *)
Lemma zremoved_live now z :
  (forall id d, z !! id = Some d -> 0 <= d) -> zremoved 0 now z = live now z.
Proof.
  intros Hz. apply map_eq. intros i. apply option_eq. intros d.
  rewrite zremoved_lookup, live_lookup. split; intros [E ?]; split; auto; apply Hz in E; lia.
Qed.

Lemma zsize_insert (z : gmap string Z) id d : Z.of_nat (size (<[id := d]> z)) <> 0.
Proof.
  intros E. apply (insert_non_empty z id d), map_size_empty_inv. lia.
Qed.
Lemma live_size now z : (size (live now z) <= size z)%nat.
Proof. rewrite <- !size_dom. apply subseteq_size, dom_filter_subseteq. Qed.

(** ** The simulation *)
Section refinement.
Context `{RedisLaws} (ttl : Z) (Httl : 0 < ttl).
Implicit Types (r : redis) (A : Sem).

(** Scores are within [ttl] of now, and the set outlives every lease in it. *)
Definition set_ok (t : Z) (o : option rentry) : Prop :=
  is_zset o /\
  forall id d, zmembers o !! id = Some d ->
    0 <= d <= int_time t + ttl /\ forall x, expiry o = Some x -> sec d <= x.
(** Redis at time [t] represents the semaphore. *)
Definition sem_rel (t : Z) r A : Prop :=
  forall tid, set_ok t (r_view t r (_leases_key tid)) /\
    live (int_time t) (zmembers (r_view t r (_leases_key tid))) = live (int_time t) (A tid).

Lemma int_time_mono t t' : t <= t' -> int_time t <= int_time t'.
Proof. intros. unfold int_time. apply Z.div_le_mono; lia. Qed.
Lemma int_time_sec t : sec (int_time t) <= t.
Proof. unfold int_time, sec. pose proof (Z.div_mod t 1000000). pose proof (Z.mod_pos_bound t 1000000). lia. Qed.
Lemma sec_int_time x t : sec x <= t -> x <= int_time t.
Proof. unfold int_time, sec. intros. apply Z.div_le_lower_bound; lia. Qed.

Lemma set_ok_later t t' o : t <= t' -> set_ok t o -> set_ok t' (alive t' o).
Proof.
  intros Ht [Hz Hs]. split; [by apply alive_is_zset|]. intros id d Hd.
  destruct o as [[[|?|?|z] x]|]; try done; simpl in *.
  - destruct x as [x|]; simpl in *; [case_decide; [|done]|]; simpl in *;
      destruct (Hs id d Hd) as [[? ?] ?]; (split; [|done]); pose proof (int_time_mono _ _ Ht); lia.
Qed.

(** Waiting keeps the representation: what Redis drops has lapsed. *)
Lemma sem_rel_later t t' r A : t <= t' -> sem_rel t r A -> sem_rel t' r A.
Proof.
  intros Ht HR tid. destruct (HR tid) as [Hok Hl]. rewrite (view_later t t') by done.
  split; [by apply set_ok_later with t|].
  pose proof (int_time_mono _ _ Ht) as Hi.
  rewrite <- (live_live _ _ (A tid) Hi), <- Hl, live_live by done.
  destruct (r_view t r (_leases_key tid)) as [[d [x|]]|] eqn:E; simpl; [|done..].
  case_decide; [done|]. apply map_eq. intros i. apply option_eq. intros s.
  rewrite !live_lookup. simpl. rewrite lookup_empty. split; [naive_solver|].
  intros [Hs ?]. destruct Hok as [_ Hs']. destruct (Hs' i s Hs) as [_ Hx].
  specialize (Hx x eq_refl). pose proof (sec_int_time s t'). lia.
Qed.

Lemma leases_key_inj a b : _leases_key a = _leases_key b -> a = b.
Proof. intros E. by apply (sapp_inj_len "leases:" "leases:") in E as [_ ?]. Qed.
Lemma leases_key_marker tid x : _leases_key tid <> _lease_prefix +:+ x.
Proof. discriminate. Qed.
Lemma leases_keys tid tid' : tid' <> tid -> _leases_key tid' <> _leases_key tid.
Proof. intros Hne E. by apply Hne, leases_key_inj. Qed.

Lemma set_ok_live t o : set_ok t o -> zremoved 0 (int_time t) (zmembers o) = live (int_time t) (zmembers o).
Proof. intros [_ Hs]. apply zremoved_live. intros id d Hd.
  destruct (Hs id d Hd) as [[? _] _]. done.
Qed.

(** Reaping: what [zremrangebyscore lset 0 now] leaves. *)
Lemma reap_view t r tid tid' :
  set_ok t (r_view t r (_leases_key tid)) ->
  r_view t (r_zremrangebyscore t (_leases_key tid) 0 (int_time t) r) (_leases_key tid') =
  if decide (tid' = tid)
  then zentry (live (int_time t) (zmembers (r_view t r (_leases_key tid))))
         (expiry (r_view t r (_leases_key tid)))
  else r_view t r (_leases_key tid').
Proof.
  intros Hok. rewrite zremrangebyscore_law, set_ok_live by apply Hok.
  destruct (decide (tid' = tid)) as [->|Hne]; [by rewrite decide_True|].
  by rewrite decide_False by auto using leases_keys.
Qed.

Lemma acquire_lua_spec t tid id mx r :
  let L := live (int_time t) (zmembers (r_view t r (_leases_key tid))) in
  let L' := <[id := int_time t + ttl]> L in
  set_ok t (r_view t r (_leases_key tid)) ->
  exists n r', ACQUIRE_LUA t (_leases_key tid) _lease_prefix (int_time t) ttl id mx r = (Ok n, r') /\
    (forall tid', tid' <> tid -> r_view t r' (_leases_key tid') = r_view t r (_leases_key tid')) /\
    if Z.of_nat (size L) <? mx
    then n = Z.of_nat (size L') /\
         r_view t r' (_leases_key tid) = Some (mkEntry (RZSet L') (Some (t + sec (ttl + 60))))
    else n = 0 /\ r_view t r' (_leases_key tid) = zentry L (expiry (r_view t r (_leases_key tid))).
Proof using Type Httl.
  intros L L' Hok. unfold ACQUIRE_LUA, bind, gets, modify, ret.
  destruct (del_all_view t _lease_prefix
    (r_zrangebyscore t (_leases_key tid) 0 (int_time t) r) r) as (r1 & E1 & V).
  unfold modify in E1. rewrite E1. clear E1.
  assert (V1 : forall tid', r_view t r1 (_leases_key tid') = r_view t r (_leases_key tid'))
    by auto using leases_key_marker.
  assert (Hok1 : set_ok t (r_view t r1 (_leases_key tid))) by by rewrite V1.
  set (r2 := r_zremrangebyscore _ _ _ _ r1).
  assert (V2 : forall tid', r_view t r2 (_leases_key tid') =
    if decide (tid' = tid) then zentry L (expiry (r_view t r (_leases_key tid)))
    else r_view t r (_leases_key tid'))
    by (intros; unfold r2; rewrite reap_view, !V1 by done; done).
  pose proof (V2 tid) as V2t. rewrite decide_True in V2t by done.
  assert (Z2 : is_zset (r_view t r2 (_leases_key tid))) by (rewrite V2t; apply zentry_is_zset).
  rewrite zcard_law by done. rewrite V2t, zentry_members.
  destruct (Z.of_nat (size L) <? mx) eqn:Hmx.
  - rewrite (proj2 (Z.leb_gt _ _)) by by apply Z.ltb_lt.
    set (r3 := r_zadd _ _ _ _ r2). set (r4 := r_set _ _ _ _ r3). set (r5 := r_expire _ _ _ r4).
    assert (V5 : forall tid', r_view t r5 (_leases_key tid') =
      if decide (tid' = tid) then Some (mkEntry (RZSet L') (Some (t + sec (ttl + 60))))
      else r_view t r (_leases_key tid')).
    { intros tid'. unfold r5. rewrite expire_law by lia. unfold r4.
      rewrite !set_law, !(decide_False (P := _ = _lease_prefix +:+ id))
        by (done || apply leases_key_marker).
      unfold r3. rewrite !zadd_law by done. rewrite V2t, zentry_members.
      destruct (decide (tid' = tid)) as [->|Hne]; [by rewrite !decide_True|].
      rewrite !(decide_False (P := _leases_key tid' = _)) by auto using leases_keys.
      by rewrite V2, decide_False. }
    pose proof (V5 tid) as V5t. rewrite decide_True in V5t by done.
    eexists _, _. split; [done|]. split; [intros tid' ?; by rewrite V5, decide_False|].
    split; [|done]. rewrite zcard_law, V5t; [done|by rewrite V5t].
  - rewrite (proj2 (Z.leb_le _ _)) by by apply Z.ltb_ge.
    eexists _, _. split; [done|]. split; [intros tid' ?; by rewrite V2, decide_False|done].
Qed.

(** A part of a good set is a good set. *)
Lemma set_ok_part t o z : set_ok t o -> z ⊆ zmembers o -> set_ok t (zentry z (expiry o)).
Proof.
  intros [_ Hs] Hz. split; [apply zentry_is_zset|]. rewrite zentry_members. intros id d Hd.
  destruct (Hs id d) as [? Hx]; [by eapply lookup_weaken|]. split; [done|].
  unfold zentry. case_decide; simpl; [done|exact Hx].
Qed.
Lemma set_ok_granted t o id :
  0 <= t -> set_ok t o ->
  set_ok t (Some (mkEntry (RZSet (<[id := int_time t + ttl]> (live (int_time t) (zmembers o))))
                    (Some (t + sec (ttl + 60))))).
Proof using Type Httl.
  intros Ht [_ Hs]. split; [done|]. simpl. intros i d Hd.
  assert (0 <= int_time t) by (apply Z.div_pos; lia).
  assert (0 <= d <= int_time t + ttl) as Hr.
  { apply lookup_insert_Some in Hd as [[_ <-]|[_ [Hd _]%live_lookup]]; [lia|].
    by destruct (Hs i d Hd). }
  split; [done|]. intros x [= <-]. pose proof (int_time_sec t). unfold sec in *. lia.
Qed.

Lemma sem_rel_update t r r' A tid z :
  sem_rel t r A ->
  (forall tid', tid' <> tid -> r_view t r' (_leases_key tid') = r_view t r (_leases_key tid')) ->
  set_ok t (r_view t r' (_leases_key tid)) ->
  live (int_time t) (zmembers (r_view t r' (_leases_key tid))) = live (int_time t) z ->
  sem_rel t r' (sem_set tid z A).
Proof.
  intros HR Ho Hok Hl tid'. unfold sem_set. case_decide; subst; [done|]. rewrite Ho by done. apply HR.
Qed.
(** The same when only Redis changes. *)
Lemma sem_rel_reap t r r' A tid :
  sem_rel t r A ->
  (forall tid', tid' <> tid -> r_view t r' (_leases_key tid') = r_view t r (_leases_key tid')) ->
  r_view t r' (_leases_key tid) =
    zentry (live (int_time t) (zmembers (r_view t r (_leases_key tid))))
      (expiry (r_view t r (_leases_key tid))) ->
  sem_rel t r' A.
Proof.
  intros HR Ho Hv tid'. destruct (decide (tid' = tid)) as [->|Hne]; [|rewrite Ho by done; apply HR].
  destruct (HR tid) as [Hok Hl]. rewrite Hv. split.
  - apply set_ok_part; [done|]. apply map_filter_subseteq.
  - by rewrite zentry_members, live_live.
Qed.

Lemma release_lua_spec t tid id r :
  let o := r_view t r (_leases_key tid) in
  is_zset o ->
  exists n r', RELEASE_LUA t (_leases_key tid) _lease_prefix id r = (Ok n, r') /\
    (forall tid', tid' <> tid -> r_view t r' (_leases_key tid') = r_view t r (_leases_key tid')) /\
    r_view t r' (_leases_key tid) = zentry (delete id (zmembers o)) (expiry o) /\
    n = if decide (id ∈ dom (zmembers o)) then Z.of_nat (size (delete id (zmembers o))) else -1.
Proof.
  intros o Hz. unfold RELEASE_LUA, cmd, bind, gets, modify, ret.
  destruct (zrem_law t r (_leases_key tid) id Hz) as [E V].
  destruct (r_zrem t (_leases_key tid) id r) as [m r1]. simpl in *. subst m. fold o in V.
  assert (V' : forall tid', r_view t r1 (_leases_key tid') =
    if decide (tid' = tid) then zentry (delete id (zmembers o)) (expiry o)
    else r_view t r (_leases_key tid')).
  { intros tid'. rewrite V. destruct (decide (tid' = tid)) as [->|Hne]; [by rewrite decide_True|].
    by rewrite decide_False by auto using leases_keys. }
  change (zmembers (r_view t r (_leases_key tid))) with (zmembers o).
  destruct (decide (id ∈ dom (zmembers o))); simpl.
  - set (r2 := r_del _ _ r1).
    assert (V2 : forall tid', r_view t r2 (_leases_key tid') = r_view t r1 (_leases_key tid')).
    { intros. unfold r2. rewrite del_law, decide_False; [done|apply leases_key_marker]. }
    assert (V2t : r_view t r2 (_leases_key tid) = zentry (delete id (zmembers o)) (expiry o))
      by by rewrite V2, V', decide_True.
    eexists _, _. split; [done|]. split; [intros; by rewrite V2, V', decide_False|].
    split; [done|]. rewrite zcard_law, V2t; [by rewrite zentry_members|].
    rewrite V2t. apply zentry_is_zset.
  - eexists _, _. split; [done|]. split; [intros; by rewrite V', decide_False|].
    split; [by rewrite V', decide_True|done].
Qed.

Lemma trip_cases {B} t (m : M redis B) r :
  trip t m r = m r \/ exists e, trip t m r = (Raise e, r).
Proof.
  unfold trip, bind. destruct (r_conn t r) as [[]|e]; [by left|right; by eexists].
Qed.

Lemma acquire_sim t rnd tid mx r A a r' :
  0 <= t -> sem_rel t r A -> try_acquire ttl t rnd tid mx r = (a, r') ->
  match a with
  | Ok g => g = (sem_acquire ttl (int_time t) rnd tid mx A).1 /\
            sem_rel t r' (sem_acquire ttl (int_time t) rnd tid mx A).2
  | Raise _ => sem_rel t r' A
  end.
Proof using Type Httl.
  intros Ht HR. unfold try_acquire, sem_acquire, sem_count. destruct (HR tid) as [Hok Hl].
  destruct (Z.leb_spec mx 0).
  { intros [= <- <-]. rewrite (proj2 (Z.ltb_ge _ _)) by lia. done. }
  set (id := tid +:+ _). unfold bind at 1.
  destruct (trip_cases t (ACQUIRE_LUA t (_leases_key tid) _lease_prefix (int_time t) ttl id mx) r)
    as [->|[e ->]]; [|by intros [= <- <-]].
  destruct (acquire_lua_spec t tid id mx r Hok) as (n & r1 & -> & Ho & Hn).
  rewrite Hl in Hn. destruct (_ <? mx) eqn:Hmx; destruct Hn as [-> Hv].
  - rewrite (proj2 (Z.eqb_neq _ _)) by apply zsize_insert.
    intros [= <- <-]. unfold sem_set at 1. rewrite decide_True by done.
    rewrite live_insert by lia. split; [done|].
    apply sem_rel_update with r; [done|done|rewrite Hv, <- Hl; by apply set_ok_granted|].
    rewrite Hv. simpl. rewrite !live_insert, live_live by lia. done.
  - intros [= <- <-]. split; [done|]. eapply sem_rel_reap; [done|done|by rewrite Hl].
Qed.

Lemma release_sim t tid id r A a r' :
  sem_rel t r A -> release t tid id r = (a, r') ->
  match a with
  | Ok n => reply_allowed ttl (int_time t) (Release tid id) A (Released n) /\
            sem_rel t r' (sem_release tid id A)
  | Raise _ => sem_rel t r' A
  end.
Proof.
  intros HR. unfold release, bind. destruct (HR tid) as [Hok Hl].
  destruct (trip_cases t (RELEASE_LUA t (_leases_key tid) _lease_prefix id) r)
    as [->|[e ->]]; [|by intros [= <- <-]].
  destruct (release_lua_spec t tid id r) as (n & r1 & -> & Ho & Hv & Hn); [apply Hok|].
  assert (Hsem : sem_rel t r1 (sem_release tid id A)).
  { apply sem_rel_update with r; [done|done| |].
    - rewrite Hv. apply set_ok_part; [done|]. apply delete_subseteq.
    - rewrite Hv, zentry_members, !live_delete, Hl. done. }
  simpl. unfold sem_count. destruct (Hsem tid) as [_ <-]. rewrite Hv, zentry_members.
  set (Z0 := zmembers _) in *. case_decide as Hin.
  - rewrite (proj2 (Z.ltb_ge _ _)) by lia. intros [= <- <-]. split; [right|done]. subst n.
    apply inj_le, live_size.
  - subst n. intros [= <- <-]. split; [left|done]. split; [done|]. rewrite <- Hl.
    apply map_lookup_filter_None. left. by apply not_elem_of_dom.
Qed.

Lemma count_sim t tid r A a r' :
  sem_rel t r A -> active_count t tid r = (a, r') ->
  match a with Ok n => n = sem_count (int_time t) tid A | Raise _ => True end /\ sem_rel t r' A.
Proof.
  intros HR. unfold active_count, bind. destruct (HR tid) as [Hok Hl].
  set (r1 := r_zremrangebyscore t (_leases_key tid) 0 (int_time t) r).
  destruct (trip_cases t (modify (r_zremrangebyscore t (_leases_key tid) 0 (int_time t))) r)
    as [->|[e ->]]; [|by intros [= <- <-]]. simpl. fold r1.
  assert (Hv : r_view t r1 (_leases_key tid) =
    zentry (live (int_time t) (A tid)) (expiry (r_view t r (_leases_key tid)))).
  { unfold r1. rewrite reap_view, decide_True by done. by rewrite Hl. }
  assert (HR1 : sem_rel t r1 A).
  { eapply sem_rel_reap; [done| |by rewrite Hv, <- Hl]. intros tid' ?. unfold r1.
    by rewrite reap_view, decide_False. }
  destruct (trip_cases t (gets (r_zcard t (_leases_key tid))) r1) as [->|[e ->]];
    intros [= <- <-]; split; try done.
  rewrite zcard_law, Hv, zentry_members; [done|]. rewrite Hv. apply zentry_is_zset.
Qed.

(** One call of the manager is one step of the semaphore. *)
Lemma lease_step_sim t c r A a r' :
  0 <= t -> sem_rel t r A -> lease_do ttl t c r = (a, r') ->
  match a with
  | Ok a => reply_allowed ttl (int_time t) c A a /\ sem_rel t r' (sem_do ttl (int_time t) c A)
  | Raise _ => sem_rel t r' A
  end.
Proof using Type Httl.
  intros Ht HR. destruct c as [rnd tid mx|tid id|tid]; simpl; unfold bind.
  - destruct (try_acquire _ _ _ _ _ r) as [[g|e] r1] eqn:E; intros [= <- <-];
      by apply (acquire_sim _ _ _ _ _ A) in E.
  - destruct (release _ _ _ r) as [[g|e] r1] eqn:E; intros [= <- <-]; by apply (release_sim _ _ _ _ A) in E.
  - destruct (active_count _ _ r) as [[g|e] r1] eqn:E; intros [= <- <-];
      by apply (count_sim _ _ _ A) in E as [? ?].
Qed.

Lemma lease_run_sim h t r A :
  0 <= t -> sem_rel t r A -> times_from t h ->
  exists A', history_allowed ttl h (lease_run ttl h r).1 A A' /\
    sem_rel (default t (fst <$> last h)) (lease_run ttl h r).2 A'.
Proof using Type Httl.
  revert t r A. induction h as [|[t1 c] h IH]; intros t r A Ht HR; simpl; [by exists A|].
  intros [Ht1 Hh]. apply (sem_rel_later _ _ _ _ Ht1) in HR.
  destruct (lease_do ttl t1 c r) as [a r1] eqn:E.
  apply (lease_step_sim _ _ _ A) in E; [|lia|done].
  assert (exists A1, sem_rel t1 r1 A1 /\
    match a with
    | Ok a => reply_allowed ttl (int_time t1) c A a /\ A1 = sem_do ttl (int_time t1) c A
    | Raise _ => A1 = A
    end) as (A1 & HR1 & Ha) by (destruct a; [destruct E|]; eauto).
  destruct (IH t1 r1 A1) as (A' & HA & HR'); [lia|done|done|].
  destruct (lease_run ttl h r1) as [l r2]. simpl in *. exists A'. split.
  - destruct a as [a|e]; [destruct Ha as [? ->]|subst A1]; auto.
  - destruct h as [|x h]; [exact HR'|]. rewrite (last_cons_cons (t1, c) x h). 
    destruct (last (x :: h)) as [y|] eqn:El; [exact HR'|]. by apply last_None in El.
Qed.
End refinement.

(** A server with no lease sets represents the empty semaphore. *)
Definition no_leases `{RedisLaws} (t : Z) (r : redis) : Prop :=
  forall tid, r_view t r (_leases_key tid) = None.
Definition sem_empty : Sem := fun _ => ∅.
Lemma sem_rel_empty `{RedisLaws} ttl t r : no_leases t r -> sem_rel ttl t r sem_empty.
Proof. intros Hr tid. rewrite Hr. done. Qed.

(** ** The invariant of the semaphore, and its transfer *)

(** Every acquire of the history asks for at most [mx]. *)
Definition asks_at_most (mx : Z) (c : lease_call) : Prop :=
  match c with Acquire _ _ m => m <= mx | _ => True end.
Lemma sem_count_later now now' tid A : now <= now' -> sem_count now' tid A <= sem_count now tid A.
Proof. intros. unfold sem_count. rewrite <- (live_live now now') by done. apply inj_le, live_size. Qed.
Lemma sem_step_bound ttl mx now c A :
  0 < ttl -> asks_at_most mx c -> (forall tid, sem_count now tid A <= mx) ->
  forall tid, sem_count now tid (sem_do ttl now c A) <= mx.
Proof.
  intros Httl Hc HA tid. destruct c as [rnd tid' m|tid' id|tid']; simpl in *; [| |done].
  - unfold sem_acquire. destruct (_ <? m) eqn:Hm; simpl; [|done].
    apply Z.ltb_lt in Hm. unfold sem_count, sem_set in *. case_decide; [subst tid'|apply HA].
    rewrite live_insert by lia. rewrite map_size_insert. case_match; unfold Datatypes.id; lia.
  - unfold sem_count, sem_release, sem_set in *. case_decide; [subst tid'|apply HA].
    etrans; [|apply (HA tid)]. rewrite live_delete. apply inj_le.
    rewrite map_size_delete. case_match; unfold Datatypes.id; lia.
Qed.
Lemma sem_bound ttl mx h l A A' t :
  0 < ttl -> (forall tid, sem_count (int_time t) tid A <= mx) ->
  times_from t h -> Forall (fun tc => asks_at_most mx tc.2) h ->
  history_allowed ttl h l A A' ->
  forall tid, sem_count (int_time (default t (fst <$> last h))) tid A' <= mx.
Proof.
  intros Httl. revert l A t. induction h as [|[t1 c] h IH]; intros [|a l] A t HA; simpl; try done.
  { by intros _ _ ->. }
  intros [Ht1 Hh] [Hc Hcs]%Forall_cons Hl. simpl in Hc.
  assert (HA1 : forall tid, sem_count (int_time t1) tid A <= mx).
  { intros tid. etrans; [by apply sem_count_later, int_time_mono|]. apply HA. }
  assert (Hlast : default t (fst <$> last ((t1, c) :: h)) = default t1 (fst <$> last h)).
  { destruct h as [|x h]; [done|]. rewrite last_cons_cons.
    destruct (last (x :: h)) eqn:El; [done|]. by apply last_None in El. }
  rewrite Hlast. destruct a as [a|e]; [destruct Hl as [_ Hl]|simpl in Hl];
    (eapply IH; [| | |exact Hl]); eauto using sem_step_bound.
Qed.

Section statements.
Context `{RedisLaws}.

(** [C5] Concurrency leases implement a counting semaphore per tenant. For every
    history of acquires, releases and counts at times that do not run
    backwards, on any server that honours the documented commands and starts
    without lease sets, the answers are the ones the abstract semaphore gives:
    a lease is granted exactly when fewer than the limit are held and not
    lapsed, with the right figure; counts are exact; a lease still held can be
    given back. Lazy reaping, the expiry Redis puts on the whole set and failed
    round trips do not show. *)
Theorem leases_refine_semaphore ttl t r h :
  0 < ttl -> 0 <= t -> no_leases t r -> times_from t h ->
  exists A, history_allowed ttl h (lease_run ttl h r).1 sem_empty A.
Proof.
  intros Httl Ht Hr Hh. destruct (lease_run_sim ttl Httl h t r sem_empty) as (A & HA & _);
    eauto using sem_rel_empty.
Qed.

(** A tenant never holds more leases than its limit: after any such history in
    which no acquire asks for more than [mx], the number reported for every
    tenant, at the time of the last call or later, is at most [mx]. *)
Theorem leases_bounded ttl t r h mx t' tid n r' :
  0 < ttl -> 0 <= t -> 0 <= mx -> no_leases t r -> times_from t h ->
  Forall (fun tc => asks_at_most mx tc.2) h ->
  default t (fst <$> last h) <= t' ->
  active_count t' tid (lease_run ttl h r).2 = (Ok n, r') ->
  0 <= n <= mx.
Proof.
  intros Httl Ht Hmx Hr Hh Hask Ht' Hn.
  destruct (lease_run_sim ttl Httl h t r sem_empty) as (A & HA & HR); eauto using sem_rel_empty.
  apply (sem_rel_later _ _ _ _ _ Ht') in HR. destruct (count_sim ttl _ _ _ _ _ _ HR Hn) as [En _].
  rewrite En.   split; [unfold sem_count; lia|]. etrans; [by apply sem_count_later, int_time_mono|].
  eapply sem_bound; eauto. intros. done.
Qed.

(** Giving back a lease that has already lapsed succeeds as long as the set
    was not reaped in between: the comment on the script says a lapsed lease
    is answered with -1. *)
Theorem lapsed_lease_released ttl t r rnd tid mx id n r1 m r2 :
  0 < ttl -> 0 <= t -> no_leases t r ->
  try_acquire ttl t rnd tid mx r = (Ok (Some (id, n)), r1) ->
  release (t + sec (ttl + 59)) tid id r1 = (Ok m, r2) ->
  n = 1 /\ m = 0.
Proof.
  intros Httl Ht Hr Ha Hrel. revert Ha Hrel. unfold try_acquire, release, bind. destruct (mx <=? 0); [done|].
  set (id0 := tid +:+ _). set (t2 := t + sec (ttl + 59)).
  destruct (trip_cases t (ACQUIRE_LUA t (_leases_key tid) _lease_prefix (int_time t) ttl id0 mx) r)
    as [->|[e ->]]; [|done].
  destruct (acquire_lua_spec ttl Httl t tid id0 mx r) as (k & r3 & -> & _ & Hk); [by rewrite Hr|].
  rewrite Hr in Hk. simpl in Hk. unfold live in Hk. rewrite map_filter_empty, map_size_empty in Hk.
  destruct (_ <? mx); destruct Hk as [-> Hv]; [|done].
  rewrite insert_empty in *. rewrite map_size_singleton.
  simpl. intros [= <- <- <-]. split; [done|]. revert Hrel.
  assert (Hv2 : r_view t2 r3 (_leases_key tid) =
    Some (mkEntry (RZSet {[id0 := int_time t + ttl]}) (Some (t + sec (ttl + 60))))).
  { rewrite (view_later t), Hv by (unfold t2, sec; lia). simpl.
    rewrite decide_True by (unfold t2, sec; lia). done. }
  destruct (trip_cases t2 (RELEASE_LUA t2 (_leases_key tid) _lease_prefix id0) r3)
    as [->|[e ->]]; [|done].
  destruct (release_lua_spec t2 tid id0 r3) as (j & r4 & -> & _ & _ & Hj); [by rewrite Hv2|].
  rewrite Hv2 in Hj. simpl in Hj. rewrite decide_True in Hj by (rewrite dom_singleton; set_solver).
  rewrite delete_singleton_eq, map_size_empty in Hj. subst j. by intros [= <- _].
Qed.
End statements.
