(* ===== verification/Cache.v ===== *)
(** * The Redis cache (cache.py)

    The four Lua scripts and the methods of [IdentityCache] over the commands
    of [Redis]. [t] is the clock in microseconds, [day] the text
    [time.strftime] gives for it, [uid] the nanosecond stamp. Script
    registration is client-side and has no effect on the keyspace. *)
From S2P Require Import Prelude PyText StoreState Prims Jwt Redis Leases.

Section cache.
Context `{HashLib} `{RedisLib}.

(** ** The scripts *)

(** [tonumber(redis.call('get', key) or "0")], and [int(... or 0)]. *)
Definition num_at (t : Z) (key : string) : M redis Z :=
  let! v := gets (r_get t key) in
  match v with
  | None => ret 0
  | Some (RNum n) => ret n
  | Some _ => raise (ValueError "not a number")
  end.

Definition RESERVE_QUOTA_LUA (t : Z) (key : string) (add cap ttl : Z) : M redis (Z * Z) :=
  let! cur := num_at t key in
  if cap <? cur + add then ret (0, Z.max 0 (cap - cur))
  else
    let! n := cmd (r_incrby t key add) in
    modify (r_expire t key ttl) ;;;
    ret (1, Z.max 0 (cap - n)).

(** The member is [now .. ":" .. uid]. *)
Definition rpm_member (now : Z) (uid : string) : string := pretty now +:+ ":" +:+ uid.
Definition CHECK_RPM_LUA (t : Z) (key : string) (now limit : Z) (uid : string) : M redis (Z * Z) :=
  modify (r_zremrangebyscore t key 0 (now - 60)) ;;;
  let! count := gets (r_zcard t key) in
  if limit <=? count then ret (0, Z.max 0 (limit - count))
  else
    modify (r_zadd t key now (rpm_member now uid)) ;;;
    (if count =? 0 then modify (r_expire t key 70) else ret tt) ;;;
    ret (1, Z.max 0 (limit - count - 1)).

Definition CHECK_LOGIN_LUA (t : Z) (key : string) (limit window : Z) : M redis Z :=
  let! cur := num_at t key in
  if limit <=? cur then ret 0
  else
    let! n := cmd (r_incrby t key 1) in
    (if n =? 1 then modify (r_expire t key window) else ret tt) ;;;
    ret 1.

Definition POP_OIDC_STATE_LUA (t : Z) (key : string) : M redis (option rdata) :=
  let! val := gets (r_get t key) in
  match val with
  | Some _ => modify (r_del t key) ;;; ret val
  | None => ret None
  end.

(** ** Keys *)

Definition _api_key_hash (api_key : string) : string := sha256 api_key.
Definition _api_key_key (api_key : string) : string := "apikey:" +:+ _api_key_hash api_key.
Definition _tenant_key (tenant_id : string) : string := "tenant:" +:+ tenant_id.
Definition _quota_key (day tenant_id : string) : string := "quota:" +:+ tenant_id +:+ ":" +:+ day.
Definition _rpm_key (tenant_id : string) : string := "rpm:" +:+ tenant_id.
Definition _login_key (tenant_id ip : string) : string := "loginrate:" +:+ tenant_id +:+ ":" +:+ ip.
Definition _login_user_key (tenant_id username : string) : string :=
  "loginrate:u:" +:+ tenant_id +:+ ":" +:+ lower username.
Definition _oidc_state_key (state : string) : string := "oidcstate:" +:+ state.

(** ** Cached rows *)

(** [if not raw: return None], then [json.loads]; [None] for a text that is
    not JSON. A counter reads back as its number. *)
Definition loads (d : rdata) : option json :=
  match d with RJson j => Some j | RNum n => Some (JInt n) | RText _ | RZSet _ => None end.
(** The body shared by [get_tenant_by_api_key] and [get_tenant]: a corrupt
    entry is dropped. *)
Definition get_json (t : Z) (key : string) : M redis (option json) :=
  let! raw := trip t (gets (r_get t key)) in
  match raw with
  | None | Some (RText "") => ret None
  | Some d =>
      match loads d with
      | Some j => ret (Some j)
      | None => trip t (modify (r_del t key)) ;;; ret None
      end
  end.
Definition get_tenant_by_api_key (t : Z) (api_key : string) : M redis (option json) :=
  get_json t (_api_key_key api_key).
Definition set_api_key (t : Z) (api_key : string) (tenant_info : json) (ttl : Z) : M redis unit :=
  trip t (modify (r_set t (_api_key_key api_key) (RJson tenant_info) ttl)).
Definition invalidate_api_key (t : Z) (api_key : string) : M redis unit :=
  trip t (modify (r_del t (_api_key_key api_key))).
Definition invalidate_api_key_by_hash (t : Z) (key_hash : string) : M redis unit :=
  trip t (modify (r_del t ("apikey:" +:+ key_hash))).
(** A pipeline is one round trip. *)
Definition invalidate_tenant_api_keys (t : Z) (api_key_hashes : list string) : M redis unit :=
  match api_key_hashes with
  | [] => ret tt
  | _ => trip t (for_each api_key_hashes (fun h => modify (r_del t ("apikey:" +:+ h))))
  end.
Definition cached_tenant (t : Z) (tenant_id : string) : M redis (option json) :=
  get_json t (_tenant_key tenant_id).
Definition set_tenant (t : Z) (tenant_id : string) (info : json) (ttl : Z) : M redis unit :=
  trip t (modify (r_set t (_tenant_key tenant_id) (RJson info) ttl)).
Definition invalidate_tenant (t : Z) (tenant_id : string) : M redis unit :=
  trip t (modify (r_del t (_tenant_key tenant_id))).

(** ** Daily token quota *)

Definition check_daily_quota (t : Z) (day tenant_id : string) (daily_limit : Z)
    : M redis (bool * Z) :=
  let! used := trip t (num_at t (_quota_key day tenant_id)) in
  ret (used <? daily_limit, Z.max 0 (daily_limit - used)).
Definition reserve_daily_quota (t : Z) (day tenant_id : string) (daily_limit : Z)
    : M redis (bool * Z) :=
  let! result := trip t (RESERVE_QUOTA_LUA t (_quota_key day tenant_id) 0 daily_limit (86400 * 7)) in
  ret (negb (result.1 =? 0), result.2).
Definition refund_daily_quota (t : Z) (day tenant_id : string) (tokens : Z) : M redis unit :=
  if 0 <? tokens
  then trip t (let! _ := cmd (r_incrby t (_quota_key day tenant_id) (- tokens)) in ret tt)
  else ret tt.
Definition record_token_usage (t : Z) (day tenant_id : string) (tokens : Z) : M redis Z :=
  let key := _quota_key day tenant_id in
  trip t (let! n := cmd (r_incrby t key tokens) in
          modify (r_expire t key (86400 * 7)) ;;;
          ret n).
Definition remaining_quota (t : Z) (day tenant_id : string) (daily_limit : Z) : M redis Z :=
  let! used := trip t (num_at t (_quota_key day tenant_id)) in
  ret (Z.max 0 (daily_limit - used)).

(** ** Requests per minute *)

Definition check_rpm (t : Z) (uid tenant_id : string) (rpm_limit : Z) : M redis (bool * Z) :=
  if rpm_limit <=? 0 then ret (true, rpm_limit)
  else
    let! result := trip t (CHECK_RPM_LUA t (_rpm_key tenant_id) (int_time t) rpm_limit uid) in
    ret (negb (result.1 =? 0), result.2).
Definition reset_rpm (t : Z) (tenant_id : string) : M redis unit :=
  trip t (modify (r_del t (_rpm_key tenant_id))).

(** ** Login attempts *)

(** [except Exception]: a fault of the server admits. *)
Definition cache_check_login_rate (t : Z) (tenant_id ip : string) (username : option string)
    (limit window : Z) : M redis bool :=
  if limit <=? 0 then ret true
  else
    catch
      (let! ip_ok := trip t (CHECK_LOGIN_LUA t (_login_key tenant_id ip) limit window) in
       if ip_ok =? 0 then ret false
       else
         match username with
         | Some u =>
             if str_true u then
               let! u_ok := trip t (CHECK_LOGIN_LUA t (_login_user_key tenant_id u) limit window) in
               ret (negb (u_ok =? 0))
             else ret true
         | None => ret true
         end)
      (fun _ => ret true).

(** ** OIDC states *)

Definition put_oidc_state (t : Z) (state : string) (info : json) (ttl : Z) : M redis unit :=
  trip t (modify (r_set t (_oidc_state_key state) (RJson info) ttl)).
Definition pop_oidc_state (t : Z) (state : string) : M redis (option json) :=
  let! val := catch (trip t (POP_OIDC_STATE_LUA t (_oidc_state_key state))) (fun _ => ret None) in
  match val with
  | None | Some (RText "") => ret None
  | Some d => ret (loads d)
  end.
End cache.
