(* ===== verification/CacheProps.v ===== *)
(** * What the cache's counters guarantee (cache.py)

    The sliding window of requests per minute, the fixed window of login
    attempts, the one-shot OIDC states and the daily quota, for every server
    that honours the documented commands. *)
From S2P Require Import Prelude PyText StoreState Prims Jwt Redis Leases Cache.

(** ** Requests per minute *)

(** A history of [check_rpm] calls of one tenant: times and stamps. The
    answers, oldest first; a failed round trip has none. *)
Fixpoint rpm_run `{RedisLib} (tid : string) (limit : Z) (h : list (Z * string)) (r : redis)
    : list (res (bool * Z)) * redis :=
  match h with
  | [] => ([], r)
  | (t, uid) :: h' =>
      let '(a, r1) := check_rpm t uid tid limit r in
      let '(l, r2) := rpm_run tid limit h' r1 in (a :: l, r2)
  end.
Definition is_admitted {A} (a : res (bool * A)) : bool :=
  match a with Ok (b, _) => b | Raise _ => false end.
(** The seconds at which requests were admitted. *)
Definition admitted_at {A} (h : list (Z * string)) (l : list (res (bool * A))) : list Z :=
  (fun x => int_time x.1.1) <$> filter (fun x => is_admitted x.2 = true) (zip h l).
(** The admissions in the minute that ends with second [T]. *)
Definition in_minute (T s : Z) : Prop := T - 60 < s <= T.
#[export] Instance in_minute_dec T s : Decision (in_minute T s).
Proof. unfold in_minute. apply _. Defined.
Definition per_minute (T : Z) (l : list Z) : Z := Z.of_nat (length (filter (in_minute T) l)).

Lemma per_minute_app T a b : per_minute T (a ++ b) = per_minute T a + per_minute T b.
Proof. unfold per_minute. rewrite filter_app, length_app. lia. Qed.
Lemma per_minute_nonneg T a : 0 <= per_minute T a.
Proof. unfold per_minute. lia. Qed.
Lemma per_minute_old T a s : Forall (fun x => x <= s - 60) a -> s <= T -> per_minute T a = 0.
Proof.
  intros Ha Hs. unfold per_minute. induction Ha as [|x a Hx Ha IH]; [done|].
  rewrite filter_cons_False; [done|]. unfold in_minute. lia.
Qed.
Lemma per_minute_one T s : per_minute T [s] <= 1.
Proof. unfold per_minute. rewrite filter_cons. case_decide; simpl; lia. Qed.
(** The minute that ends at or after every element is bounded by the suffix of
    recent ones. *)
Lemma per_minute_recent T now a :
  now <= T -> per_minute T a <= Z.of_nat (length (filter (fun s => now - 60 < s) a)).
Proof.
  intros. unfold per_minute. induction a as [|x a IH]; [done|].
  rewrite !filter_cons. unfold in_minute in *. repeat case_decide; simpl; lia.
Qed.
Lemma per_minute_before T now a b :
  T < now -> Forall (fun x => now <= x) b -> per_minute T (a ++ b) = per_minute T a.
Proof.
  intros HT Hb. rewrite per_minute_app.
  assert (per_minute T b = 0) as ->; [|lia]. unfold per_minute.
  induction Hb as [|x b Hx Hb IH]; [done|]. rewrite filter_cons_False; [done|].
  unfold in_minute. lia.
Qed.

Section rpm.
Context `{RedisLaws} (tid : string) (limit : Z) (Hlim : 0 < limit).
Implicit Types (r : redis) (old prev cur : list (string * Z)).

(** The ghost state of the proof. The admissions so far are those of the
    current life of the key ([cur]), of its previous life ([prev]) and the
    older ones, as (member, second) pairs. The sorted set has the recent ones
    of [cur]; a life starts at second [start] and lasts 70 seconds or until
    the set empties. *)
Record rpm_inv (t : Z) r old prev cur (start : Z) : Prop := {
  ri_none : r_view t r (_rpm_key tid) = None -> start + 60 <= int_time t;
  ri_some : forall o, r_view t r (_rpm_key tid) = Some o ->
    is_zset (Some o) /\ start ∈ cur.*2 /\
    (exists x, re_expire o = Some x /\ sec (start + 70) <= x) /\
    exists cut, cut <= int_time t - 60 /\
      map_to_list (zmembers (Some o)) ≡ₚ filter (fun x => cut < x.2) cur;
  ri_cur : Forall (fun x => 0 <= x.2 <= int_time t) cur;
  ri_prev : Forall (fun x => x.2 <= start) prev;
  ri_old : Forall (fun x => x.2 <= start - 60) old;
  ri_now : start <= int_time t;
  ri_minute_cur : forall T, per_minute T cur.*2 <= limit;
  ri_minute_prev : forall T, per_minute T prev.*2 <= limit;
  ri_minute : forall T, per_minute T (old ++ prev ++ cur).*2 <= 2 * limit
}.

Lemma ri_is_zset t r old prev cur start :
  rpm_inv t r old prev cur start -> is_zset (r_view t r (_rpm_key tid)).
Proof. intros []. destruct (r_view t r (_rpm_key tid)) eqn:E; [|done]. by apply ri_some0. Qed.

Lemma rpm_inv_later t t' r old prev cur start :
  t <= t' -> rpm_inv t r old prev cur start -> rpm_inv t' r old prev cur start.
Proof.
  intros Ht []. pose proof (int_time_mono _ _ Ht).
  split; try done; try lia; rewrite ?(view_later t t') by done.
  - destruct (r_view t r (_rpm_key tid)) as [o|] eqn:E; simpl; [|intros; specialize (ri_none0 eq_refl); lia].
    destruct (ri_some0 o eq_refl) as (_ & _ & (x & -> & Hx) & _).
    case_decide; [done|]. intros _. pose proof (sec_int_time (start + 70) t'). lia.
  - intros o Ho.
    assert (r_view t r (_rpm_key tid) = Some o) as Eo.
    { destruct (r_view t r (_rpm_key tid)) as [[d [x|]]|]; simpl in Ho; [case_decide|..]; done. }
    destruct (ri_some0 o Eo) as (? & ? & ? & cut & ? & ?).
    split; [done|]. split; [done|]. split; [done|]. exists cut. split; [lia|done].
  - eapply Forall_impl; [eassumption|simpl; lia].
Qed.

(** A life of the key begins with an admission. *)
Lemma rpm_new_life t r r' old prev cur start m :
  0 <= t -> rpm_inv t r old prev cur start -> start + 60 <= int_time t ->
  r_view t r' (_rpm_key tid) = Some (mkEntry (RZSet {[m := int_time t]}) (Some (t + sec 70))) ->
  rpm_inv t r' (old ++ prev) cur [(m, int_time t)] (int_time t).
Proof using Type Hlim.
  intros Ht [] Hs Hv. assert (0 <= int_time t) by (apply Z.div_pos; lia). split.
  - by rewrite Hv.
  - rewrite Hv. intros o [= <-]. split; [done|]. split; [by left|]. split.
    + eexists. split; [done|]. pose proof (int_time_sec t). unfold sec in *. lia.
    + exists (int_time t - 60). split; [lia|]. simpl. rewrite map_to_list_singleton.
      by rewrite filter_cons_True by (simpl; lia).
  - constructor; [simpl; lia|done].
  - eapply Forall_impl; [eassumption|simpl; lia].
  - apply Forall_app. split; (eapply Forall_impl; [eassumption|simpl; lia]).
  - lia.
  - intros T. pose proof (per_minute_one T (int_time t)). simpl. lia.
  - done.
  - intros T. destruct (decide (T < int_time t)) as [HT|HT].
    + replace ((old ++ prev) ++ cur ++ [(m, int_time t)]) with ((old ++ prev ++ cur) ++ [(m, int_time t)])
        by by rewrite <- !app_assoc.
      rewrite fmap_app, (per_minute_before T (int_time t)) by (try lia; by constructor). apply ri_minute0.
    + rewrite !fmap_app, !per_minute_app, (per_minute_old T old.*2 (int_time t)),
        (per_minute_old T prev.*2 (int_time t)).
      * specialize (ri_minute_cur0 T). pose proof (per_minute_one T (int_time t)). simpl. lia.
      * apply Forall_fmap. eapply Forall_impl; [eassumption|simpl; lia].
      * lia.
      * apply Forall_fmap. eapply Forall_impl; [eassumption|simpl; lia].
      * lia.
Qed.

(** The key's set after [zremrangebyscore key 0 (now - 60)]. *)
Lemma map_to_list_filter (P : string * Z -> Prop) `{forall x, Decision (P x)} (z : gmap string Z) :
  map_to_list (filter P z) ≡ₚ filter P (map_to_list z).
Proof.
  apply NoDup_Permutation; [apply NoDup_map_to_list|apply NoDup_filter, NoDup_map_to_list|].
  intros [k v]. rewrite list_elem_of_filter, !elem_of_map_to_list, map_lookup_filter_Some. tauto.
Qed.
Lemma slide t old prev cur start r o :
  0 <= t -> rpm_inv t r old prev cur start -> r_view t r (_rpm_key tid) = Some o ->
  map_to_list (zremoved 0 (int_time t - 60) (zmembers (Some o)))
  ≡ₚ filter (fun x => int_time t - 60 < x.2) cur.
Proof.
  intros Ht [] Ho. destruct (ri_some0 o Ho) as (_ & _ & _ & cut & Hcut & Hm).
  unfold zremoved. etrans; [apply map_to_list_filter|].
  etrans; [apply filter_Permutation, Hm|]. rewrite list_filter_filter.
  assert (forall x, x ∈ cur -> (~ in_scores 0 (int_time t - 60) x /\ cut < x.2 <-> int_time t - 60 < x.2)) as Heq.
  { intros x Hx. rewrite Forall_forall in ri_cur0. specialize (ri_cur0 x Hx).
    unfold in_scores. simpl in *. lia. }
  clear -Heq. induction cur as [|x cur IH]; [done|].
  assert (IH' := IH ltac:(set_solver)). specialize (Heq x (list_elem_of_here _ _)).
  rewrite !filter_cons. repeat case_decide; [by rewrite IH'|tauto|tauto|done].
Qed.

(** An admission inside a life. *)
Lemma rpm_continue t r r' old prev cur start m z x :
  0 <= t -> rpm_inv t r old prev cur start ->
  start ∈ cur.*2 -> sec (start + 70) <= x ->
  map_to_list z ≡ₚ filter (fun x => int_time t - 60 < x.2) cur ->
  Z.of_nat (size z) < limit -> z !! m = None ->
  r_view t r' (_rpm_key tid) = Some (mkEntry (RZSet (<[m := int_time t]> z)) (Some x)) ->
  rpm_inv t r' old prev (cur ++ [(m, int_time t)]) start.
Proof.
  intros Ht [] Hin Hx Hz Hsize Hm Hv. assert (0 <= int_time t) by (apply Z.div_pos; lia).
  assert (Hlen : Z.of_nat (length (filter (fun s => int_time t - 60 < s) (cur ++ [(m, int_time t)]).*2))
    <= limit).
  { rewrite fmap_app, filter_app, length_app. simpl. rewrite filter_cons_True by lia. simpl.
    assert (length (filter (fun s => int_time t - 60 < s) cur.*2) = size z) as ->; [|lia].
    rewrite <- length_map_to_list, Hz. clear. induction cur as [|y cur IH]; [done|].
    csimpl. rewrite !filter_cons. repeat case_decide; simpl; by rewrite ?IH. }
  assert (Hmin : forall T, int_time t <= T -> per_minute T (cur ++ [(m, int_time t)]).*2 <= limit).
  { intros T HT. etrans; [by apply (per_minute_recent T (int_time t))|done]. }
  assert (Hbefore : forall T (l : list (string * Z)), T < int_time t ->
    per_minute T (l ++ [(m, int_time t)]).*2 = per_minute T l.*2).
  { intros T l HT. rewrite fmap_app. apply (per_minute_before T (int_time t)); [done|].
    constructor; [simpl; lia|done]. }
  split.
  - by rewrite Hv.
  - rewrite Hv. intros o [= <-]. split; [done|]. split; [rewrite fmap_app; set_solver|].
    split; [by eexists|]. exists (int_time t - 60). split; [lia|]. simpl.
    rewrite map_to_list_insert, Hz, filter_app, filter_cons_True by (done || simpl; lia).
    by rewrite Permutation_app_comm.
  - apply Forall_app. split; [done|]. constructor; [simpl; lia|done].
  - done.
  - done.
  - lia.
  - intros T. destruct (decide (T < int_time t)); [by rewrite Hbefore|apply Hmin; lia].
  - done.
  - intros T. rewrite !app_assoc. destruct (decide (T < int_time t)).
    + rewrite Hbefore by done. rewrite <- app_assoc. apply ri_minute0.
    + rewrite <- !app_assoc, !fmap_app, !per_minute_app, (per_minute_old T old.*2 (int_time t)).
      * specialize (ri_minute_prev0 T). specialize (Hmin T ltac:(lia)).
        rewrite fmap_app, per_minute_app in Hmin. lia.
      * apply Forall_fmap. eapply Forall_impl; [eassumption|simpl; lia].
      * lia.
Qed.

(** A refusal only drops what has slid out. *)
Lemma rpm_refused t r r' old prev cur start o z x :
  rpm_inv t r old prev cur start -> r_view t r (_rpm_key tid) = Some o ->
  re_expire o = Some x -> z <> ∅ ->
  map_to_list z ≡ₚ filter (fun x => int_time t - 60 < x.2) cur ->
  r_view t r' (_rpm_key tid) = zentry z (Some x) ->
  rpm_inv t r' old prev cur start.
Proof.
  intros [] Ho Hx Hne Hz Hv. unfold zentry in Hv. rewrite decide_False in Hv by done.
  destruct (ri_some0 o Ho) as (_ & Hin & (x' & Hx' & Hs) & _). simplify_eq.
  split; try done; rewrite Hv; [done|]. intros o' [= <-]. split; [done|]. split; [done|].
  split; [by eexists|]. exists (int_time t - 60). split; [lia|done].
Qed.

Lemma rpm_step t uid r old prev cur start a r' :
  let m := rpm_member (int_time t) uid in
  0 <= t -> rpm_inv t r old prev cur start -> m ∉ cur.*1 ->
  check_rpm t uid tid limit r = (a, r') ->
  exists old' prev' cur' start', rpm_inv t r' old' prev' cur' start' /\
    old' ++ prev' ++ cur' =
      (old ++ prev ++ cur) ++ (if is_admitted a then [(m, int_time t)] else []).
Proof using Type Hlim.
  intros m Ht HI Hm. unfold check_rpm. rewrite (proj2 (Z.leb_gt _ _)) by lia. unfold bind at 1.
  destruct (trip_cases t (CHECK_RPM_LUA t (_rpm_key tid) (int_time t) limit uid) r)
    as [->|[e ->]]; [|intros [= <- <-]; exists old, prev, cur, start; by rewrite app_nil_r].
  unfold CHECK_RPM_LUA, bind, modify, gets, ret. set (k := _rpm_key tid). fold m.
  set (r1 := r_zremrangebyscore _ _ _ _ r).
  pose proof (ri_is_zset _ _ _ _ _ _ HI) as Hz.
  assert (V1 : r_view t r1 k = zentry (zremoved 0 (int_time t - 60) (zmembers (r_view t r k)))
    (expiry (r_view t r k))) by (unfold r1; by rewrite zremrangebyscore_law, decide_True).
  assert (Z1 : is_zset (r_view t r1 k)) by (rewrite V1; apply zentry_is_zset).
  rewrite zcard_law by done. rewrite V1, zentry_members.
  set (z := zremoved _ _ _) in *.
  assert (V3 : r_view t (r_zadd t k (int_time t) m r1) k =
    Some (mkEntry (RZSet (<[m := int_time t]> z)) (expiry (r_view t r1 k)))).
  { by rewrite zadd_law, decide_True, V1, zentry_members by done. }
  destruct (decide (z = ∅)) as [Ez|Ez].
  - rewrite Ez, map_size_empty in *. rewrite (proj2 (Z.leb_gt _ _)) by lia. simpl.
    intros [= <- <-].
    exists (old ++ prev), cur, [(m, int_time t)], (int_time t).
    split; [|simpl; by rewrite <- !app_assoc]. apply (rpm_new_life t r _ _ _ _ start); [done|done| |].
    + destruct (r_view t r k) as [o|] eqn:Eo; [|by apply (ri_none _ _ _ _ _ _ HI)].
      pose proof (slide _ _ _ _ _ _ _ Ht HI Eo) as Hs. change (zremoved _ _ _) with z in Hs.
      rewrite Ez, map_to_list_empty in Hs. apply Permutation_nil in Hs.
      destruct (ri_some _ _ _ _ _ _ HI o Eo) as (_ & ([m0 s0] & -> & Hin)%list_elem_of_fmap & _).
      destruct (decide (int_time t - 60 < s0)) as [Hlt|]; [|simpl; lia]. exfalso.
      assert (He : (m0, s0) ∈ filter (fun x => int_time t - 60 < x.2) cur)
        by by apply list_elem_of_filter.
      rewrite Hs in He. by apply elem_of_nil in He.
    + fold k. rewrite expire_law, decide_True, V3 by (lia || done). simpl.
      by rewrite insert_empty.
  - destruct (r_view t r k) as [o|] eqn:Eo; [|done].
    pose proof (slide _ _ _ _ _ _ _ Ht HI Eo) as Hs. change (zremoved _ _ _) with z in Hs.
    destruct (ri_some _ _ _ _ _ _ HI o Eo) as (_ & Hin & (x & Hx & Hsx) & _).
    assert (Ez' : expiry (r_view t r1 k) = Some x).
    { rewrite V1. unfold zentry. by rewrite decide_False. }
    destruct (limit <=? _) eqn:Hl.
    + intros [= <- <-]. exists old, prev, cur, start. split; [|by rewrite app_nil_r].
      apply (rpm_refused t r r1 _ _ _ _ o z x); try done. fold k. rewrite V1. simpl. by rewrite Hx.
    + apply Z.leb_gt in Hl. rewrite (proj2 (Z.eqb_neq _ _)).
      2:{ intros E0. apply Ez, map_size_empty_inv. lia. }
      intros [= <- <-]. exists old, prev, (cur ++ [(m, int_time t)]), start.
      split; [|simpl; by rewrite <- !app_assoc].
      apply (rpm_continue t r _ _ _ _ _ _ z x); try done; [|by fold k; rewrite V3, Ez'].
      apply eq_None_not_Some. intros [sc Hsc]. apply Hm.
      apply elem_of_map_to_list in Hsc. rewrite Hs in Hsc.
      apply list_elem_of_filter in Hsc as [_ Hsc]. apply list_elem_of_fmap. by exists (m, sc).
Qed.

Lemma rpm_run_inv h t r old prev cur start :
  0 <= t -> rpm_inv t r old prev cur start -> times_from t h ->
  NoDup ((old ++ prev ++ cur).*1 ++ ((fun x => rpm_member (int_time x.1) x.2) <$> h)) ->
  exists old' prev' cur' t' start' r', rpm_inv t' r' old' prev' cur' start' /\
    (old' ++ prev' ++ cur').*2 =
      (old ++ prev ++ cur).*2 ++ admitted_at h (rpm_run tid limit h r).1.
Proof using Type Hlim.
  revert t r old prev cur start. induction h as [|[t1 uid] h IH]; intros t r old prev cur start Ht HI.
  { intros _ _. exists old, prev, cur, t, start, r. split; [done|]. simpl. unfold admitted_at. simpl.
    by rewrite app_nil_r. }
  intros [Ht1 Hh] Hnd. apply (rpm_inv_later _ _ _ _ _ _ _ Ht1) in HI. simpl.
  destruct (check_rpm t1 uid tid limit r) as [a r1] eqn:E.
  set (m := rpm_member (int_time t1) uid) in *.
  assert (Hm : m ∉ (old ++ prev ++ cur).*1).
  { apply NoDup_app in Hnd as (_ & Hd & _). intros Hin. apply (Hd _ Hin). csimpl. left. }
  assert (Hmc : m ∉ cur.*1) by (intros ?; apply Hm; rewrite !fmap_app; set_solver).
  assert (Ht1' : 0 <= t1) by lia.
  destruct (rpm_step _ _ _ _ _ _ _ _ _ Ht1' HI Hmc E) as (old1 & prev1 & cur1 & start1 & HI1 & E1).
  destruct (IH t1 r1 old1 prev1 cur1 start1) as (o2 & p2 & c2 & t2 & s2 & r2 & HI2 & E2); [lia|done|done| |].
  { rewrite E1, fmap_app, <- app_assoc. destruct (is_admitted a); [done|].
    simpl. csimpl in Hnd. eapply sublist_NoDup; [exact Hnd|].
    apply sublist_app; [done|]. by apply sublist_cons. }
  exists o2, p2, c2, t2, s2, r2. split; [done|].
  destruct (rpm_run tid limit h r1) as [l r3]. simpl in *. rewrite E2, E1, fmap_app, <- app_assoc.
  f_equal. unfold admitted_at. simpl. rewrite filter_cons. simpl.
  destruct (is_admitted a); [by rewrite decide_True|by rewrite decide_False].
Qed.

(** The limit on requests per minute, as far as it holds. Whatever the
    pattern of calls (times that do not run backwards, stamps that tell the
    calls apart), no minute admits more than twice the configured limit. *)
Theorem rpm_minute_bound t r h T :
  0 <= t -> r_view t r (_rpm_key tid) = None -> times_from t h ->
  NoDup ((fun x => rpm_member (int_time x.1) x.2) <$> h) ->
  per_minute T (admitted_at h (rpm_run tid limit h r).1) <= 2 * limit.
Proof using Type Hlim.
  intros Ht Hr Hh Hnd.
  destruct (rpm_run_inv h t r [] [] [] (int_time t - 60)) as (o & p & c & t' & s & r' & HI & E); try done.
  { split; try done; rewrite ?Hr; try (intros; done || lia).
    - intros T'. unfold per_minute. simpl. lia.
    - intros T'. unfold per_minute. simpl. lia.
    - intros T'. unfold per_minute. simpl. lia. }
  simpl in E. rewrite <- E. apply (ri_minute _ _ _ _ _ _ HI).
Qed.
End rpm.

(** The bound is met: because a set that never empties keeps the expiry of its
    first member, Redis drops it after 70 seconds with the last minute's
    members in it. Four requests pass a limit of two within one minute. *)
Theorem rpm_limit_doubled :
  let h := [(sec 100, "a"); (sec 115, "b"); (sec 161, "c"); (sec 170, "d"); (sec 171, "e")] in
  admitted_at h (@rpm_run toy_redis "acme" 2 h (∅ : gmap string rentry)).1 = [100; 115; 161; 170; 171] /\
  per_minute 171 [100; 115; 161; 170; 171] = 4.
Proof. vm_compute. done. Qed.

(** ** Daily quota *)
Section quota.
Context `{RedisLaws}.

Lemma num_at_run t r key :
  is_counter (r_view t r key) -> num_at t key r = (Ok (counter (r_view t r key)), r).
Proof.
  intros Hc. unfold num_at, bind, gets. rewrite get_law.
  - by destruct (r_view t r key) as [[[] ?]|].
  - by destruct (r_view t r key) as [[[] ?]|].
Qed.

(** The gate in front of a request admits a tenant that has used exactly its
    daily limit, with 0 tokens left: it reserves 0 tokens, and 0 more are not
    over the cap. [check_daily_quota] would refuse it. Past the limit both
    refuse, below it both admit. *)
Theorem quota_gate t day tid r limit ok left r' ok2 left2 r2 :
  let used := counter (r_view t r (_quota_key day tid)) in
  is_counter (r_view t r (_quota_key day tid)) ->
  reserve_daily_quota t day tid limit r = (Ok (ok, left), r') ->
  check_daily_quota t day tid limit r = (Ok (ok2, left2), r2) ->
  ok = (used <=? limit) /\ ok2 = (used <? limit) /\
  left = Z.max 0 (limit - used) /\ left2 = left /\
  counter (r_view t r' (_quota_key day tid)) = used.
Proof.
  intros used Hc. unfold reserve_daily_quota, check_daily_quota, bind.
  destruct (trip_cases t (RESERVE_QUOTA_LUA t (_quota_key day tid) 0 limit (86400 * 7)) r)
    as [->|[e ->]]; [|done].
  unfold RESERVE_QUOTA_LUA, bind at 1. rewrite num_at_run by done. fold used.
  destruct (trip_cases t (num_at t (_quota_key day tid)) r) as [->|[e ->]]; [|done].
  rewrite num_at_run by done. fold used.
  destruct (incrby_law t r (_quota_key day tid) 0 Hc) as [E1 E2]. fold used in E1, E2.
  rewrite Z.add_0_r in *. destruct (Z.ltb_spec limit used).
  - intros [= <- <- <-] [= <- <- <-]. rewrite (proj2 (Z.leb_gt _ _)) by lia. done.
  - unfold bind, cmd, modify, ret. destruct (r_incrby t (_quota_key day tid) 0 r) as [n r1].
    simpl in E1, E2. subst n. intros [= <- <- <-] [= <- <- <-].
    rewrite (proj2 (Z.leb_le _ _)) by lia. split_and!; try done.
    rewrite expire_law, decide_True, E2, decide_True by (lia || done). done.
Qed.
End quota.

(** ** Login attempts *)

(** The answers of the script for one bucket, at the given times. *)
Fixpoint login_run `{RedisLib} (key : string) (limit window : Z) (h : list Z) : M redis (list Z) :=
  match h with
  | [] => ret []
  | t :: h' =>
      let! a := CHECK_LOGIN_LUA t key limit window in
      let! l := login_run key limit window h' in
      ret (a :: l)
  end.
(** Times that do not run backwards and stay below [x]. *)
Fixpoint times_within (t0 x : Z) (h : list Z) : Prop :=
  match h with
  | [] => True
  | t :: h' => t0 <= t < x /\ times_within t x h'
  end.

Section login.
Context `{RedisLaws} (key : string) (limit window : Z) (Hwin : 0 < window).

Lemma check_login_run t r :
  let n := counter (r_view t r key) in
  is_counter (r_view t r key) -> 0 <= n -> (n = 0 -> r_view t r key = None) ->
  exists r', CHECK_LOGIN_LUA t key limit window r = (Ok (if n <? limit then 1 else 0), r') /\
    r_view t r' key =
      if n <? limit
      then Some (mkEntry (RNum (n + 1))
             (if n =? 0 then Some (t + sec window) else expiry (r_view t r key)))
      else r_view t r key.
Proof using Type Hwin.
  intros n Hc Hn Hn0. unfold CHECK_LOGIN_LUA, bind at 1. rewrite num_at_run by done. fold n.
  destruct (Z.ltb_spec n limit); [rewrite (proj2 (Z.leb_gt _ _)) by lia|
    rewrite (proj2 (Z.leb_le _ _)) by lia; by eexists].
  destruct (incrby_law t r key 1 Hc) as [E1 E2]. fold n in E1, E2.
  unfold bind, cmd, modify, ret. destruct (r_incrby t key 1 r) as [m r1]. simpl in E1, E2. subst m.
  specialize (E2 key). rewrite decide_True in E2 by done.
  destruct (Z.eqb_spec n 0) as [->|?].
  - rewrite (proj2 (Z.eqb_eq _ _)) by lia. eexists. split; [done|].
    rewrite expire_law, decide_True, E2 by (lia || done). done.
  - rewrite (proj2 (Z.eqb_neq _ _)) by lia. eexists. by split.
Qed.

Lemma login_run_counted h t0 n x r :
  1 <= n -> n <= Z.max 1 limit -> t0 < x -> times_within t0 x h ->
  r_view t0 r key = Some (mkEntry (RNum n) (Some x)) ->
  exists l r', login_run key limit window h r = (Ok l, r') /\
    foldr Z.add 0 l = Z.min (zlen h) (Z.max 0 (limit - n)).
Proof using Type Hwin.
  revert t0 n r. induction h as [|t h IH]; intros t0 n r Hn Hnl Hx0 Hh Hv; simpl.
  { eexists _, _. split; [done|]. unfold zlen. simpl. lia. }
  destruct Hh as [Ht Hh].
  assert (Hv' : r_view t r key = Some (mkEntry (RNum n) (Some x))).
  { rewrite (view_later t0) by lia. rewrite Hv. simpl. by rewrite decide_True by lia. }
  unfold bind at 1.
  destruct (check_login_run t r) as (r1 & -> & V1); rewrite Hv' in *; simpl in *; try done; [lia|lia|].
  rewrite (proj2 (Z.eqb_neq _ _)) in V1 by lia. destruct (Z.ltb_spec n limit).
  - destruct (IH t (n + 1) r1) as (l & r2 & E & Hl); try done; [lia|lia|lia|].
    unfold bind. rewrite E. eexists _, _. split; [done|]. unfold zlen in *. simpl. lia.
  - destruct (IH t n r1) as (l & r2 & E & Hl); try done; [lia|].
    unfold bind. rewrite E. eexists _, _. split; [done|]. unfold zlen in *. simpl. lia.
Qed.

(** One bucket of the shared login throttle: of the attempts made in the
    window that opens with the first one, exactly [limit] pass (or all of them
    when there are fewer), whichever workers they reach. *)
Theorem login_window_exact t h r :
  0 < limit -> times_within t (t + sec window) h -> r_view t r key = None ->
  exists l r', login_run key limit window (t :: h) r = (Ok l, r') /\
    foldr Z.add 0 l = Z.min (1 + zlen h) limit.
Proof using Type Hwin.
  intros Hlim Hh Hr. simpl. unfold bind at 1.
  destruct (check_login_run t r) as (r1 & -> & V1); rewrite Hr in *; simpl in *; try done.
  rewrite (proj2 (Z.ltb_lt _ _)) in * by lia.
  destruct (login_run_counted h t 1 (t + sec window) r1) as (l & r2 & E & Hl); try done; [lia|unfold sec; lia|].
  unfold bind. rewrite E. eexists _, _. split; [done|]. unfold zlen in *. simpl. lia.
Qed.
End login.

(** ** OIDC states *)
Section oidc_state.
Context `{RedisLaws}.

Lemma pop_oidc_state_run t st info r a r' :
  (r_view t r (_oidc_state_key st) = None \/
   exists x, r_view t r (_oidc_state_key st) = Some (mkEntry (RJson info) x)) ->
  pop_oidc_state t st r = (Ok a, r') ->
  (a = None /\ r' = r) \/
  (a = Some info /\ is_Some (r_view t r (_oidc_state_key st)) /\
   r_view t r' (_oidc_state_key st) = None).
Proof.
  intros Hv. unfold pop_oidc_state, bind, catch.
  destruct (trip_cases t (POP_OIDC_STATE_LUA t (_oidc_state_key st)) r) as [->|[e ->]];
    [|intros [= <- <-]; by left].
  unfold POP_OIDC_STATE_LUA, bind, gets, modify, ret.
  destruct Hv as [Hv|[x Hv]]; rewrite get_law, Hv by (by rewrite Hv); simpl; intros [= <- <-].
  - by left.
  - right. split; [done|]. split; [done|]. by rewrite del_law, decide_True.
Qed.

(** An OIDC state is consumed at most once, and never after its time: of two
    callbacks that present it, whichever workers they reach, at most one gets
    the stored login, and only before the state's expiry. *)
Theorem oidc_state_one_shot t0 st info ttl r0 r1 t1 a r2 t2 b r3 :
  0 < ttl -> t0 <= t1 -> t1 <= t2 ->
  put_oidc_state t0 st info ttl r0 = (Ok tt, r1) ->
  pop_oidc_state t1 st r1 = (Ok a, r2) ->
  pop_oidc_state t2 st r2 = (Ok b, r3) ->
  (a = None \/ b = None) /\
  (a = Some info \/ a = None) /\ (b = Some info \/ b = None) /\
  (is_Some a -> t1 < t0 + sec ttl) /\ (is_Some b -> t2 < t0 + sec ttl).
Proof.
  intros Httl H01 H12 Hput Ha Hb. unfold put_oidc_state in Hput.
  destruct (trip_cases t0 (modify (r_set t0 (_oidc_state_key st) (RJson info) ttl)) r0)
    as [E|[e E]]; rewrite E in Hput; [|done]. injection Hput as <-.
  set (k := _oidc_state_key st) in *. set (r1 := r_set _ _ _ _ r0) in *.
  assert (V : forall t, t0 <= t -> r_view t r1 k =
    if decide (t < t0 + sec ttl) then Some (mkEntry (RJson info) (Some (t0 + sec ttl))) else None).
  { intros t Ht. rewrite (view_later t0) by done. unfold r1. by rewrite set_law, decide_True. }
  assert (Hor : forall t, t0 <= t -> r_view t r1 k = None \/
    exists x, r_view t r1 k = Some (mkEntry (RJson info) x)).
  { intros t Ht. rewrite V by done. case_decide; [right; by eexists|by left]. }
  assert (Hlive : forall t, t0 <= t -> is_Some (r_view t r1 k) -> t < t0 + sec ttl).
  { intros t Ht. rewrite V by done. case_decide; [done|by intros [? ?]]. }
  apply (pop_oidc_state_run _ _ info) in Ha as [[-> ->]|(-> & Hs & Hn)]; [| |by apply Hor].
  - apply (pop_oidc_state_run _ _ info) in Hb as [[-> ->]|(-> & Hs & _)]; [| |apply Hor; lia].
    + split_and!; try tauto; by intros [? ?].
    + split_and!; try tauto; [by intros [? ?]|intros _; apply Hlive; [lia|done]].
  - fold k in Hn. assert (Hn2 : r_view t2 r2 k = None) by by rewrite (view_later t1), Hn.
    apply (pop_oidc_state_run _ _ info) in Hb as [[-> ->]|(_ & Hs2 & _)]; [| |by left].
    + split_and!; try tauto; [intros _; by apply Hlive|by intros [? ?]].
    + fold k in Hs2. rewrite Hn2 in Hs2. by destruct Hs2.
Qed.
End oidc_state.
