(* ===== verification/Metrics.v ===== *)
(** * The metrics of the data plane (metrics_collector.py)

    Five instruments of prometheus_client and the five functions that write
    them. The instruments are parameters; the functions catch whatever they
    raise, so that a handler is never stopped by its metrics. *)
From S2P Require Import Prelude PyText StoreState.

(** An instrument: labels in, then one number; it may raise. *)
Class Prometheus := {
  registry : Type;
  counter_inc : string -> list (string * string) -> Z -> M registry unit;
  gauge_set : string -> list (string * string) -> Z -> M registry unit;
  histogram_observe : string -> list (string * string) -> Z -> M registry unit;
  generate_latest : registry -> string
}.

Definition AUTH_REQUESTS : string := "fusion_identity_auth_requests_total".
Definition RPC_LATENCY : string := "fusion_identity_rpc_latency_seconds".
Definition TENANT_ACTIVE_CONCURRENCY : string := "fusion_identity_tenant_active_concurrency".
Definition TOKENS_CONSUMED : string := "fusion_identity_tokens_consumed_total".
Definition QUOTA_REMAINING : string := "fusion_identity_quota_remaining".

Section metrics.
Context `{Prometheus}.

(** [try: ... except Exception: logger.warning(...)] *)
Definition guarded (m : M registry unit) : M registry unit := catch m (fun _ => ret tt).
Definition record_auth (tenant_id target_module result : string) (status_code : Z) : M registry unit :=
  guarded (counter_inc AUTH_REQUESTS
    [("tenant_id", tenant_id); ("target_module", target_module);
     ("status_code", pretty status_code); ("result", result)] 1).
(** The time is in microseconds. *)
Definition observe_rpc (method : string) (us : Z) : M registry unit :=
  guarded (histogram_observe RPC_LATENCY [("method", method)] us).
Definition set_active_concurrency (tenant_id : string) (value : Z) : M registry unit :=
  guarded (gauge_set TENANT_ACTIVE_CONCURRENCY [("tenant_id", tenant_id)] value).
Definition record_tokens (tenant_id model usage_type : string) (tokens : Z) : M registry unit :=
  guarded (counter_inc TOKENS_CONSUMED
    [("tenant_id", tenant_id); ("model_name", model); ("type", usage_type)] tokens).
Definition set_quota_remaining (tenant_id : string) (remaining : Z) : M registry unit :=
  guarded (gauge_set QUOTA_REMAINING [("tenant_id", tenant_id)] remaining).
Definition render (r : registry) : string := generate_latest r.

(** No metrics call raises, whatever the instruments do: leaving the calls out
    of the handlers does not change their answers. *)
Theorem metrics_never_raise t m res st model ty n r :
  Forall (fun f : M registry unit => (f r).1 = Ok tt)
    [record_auth t m res st; observe_rpc m n; set_active_concurrency t n;
     record_tokens t model ty n; set_quota_remaining t n].
Proof.
  assert (forall f : M registry unit, (guarded f r).1 = Ok tt) as Hg.
  { intros f. unfold guarded, catch. by destruct (f r) as [[[]|] ?]. }
  repeat constructor; apply Hg.
Qed.
End metrics.
