(* ===== verification/DataPlane.v ===== *)
(** * The data plane: the gRPC servicer (grpc_servicer.py) and its
    interceptor (grpc_interceptor.py)

    Authorization of a model call by API key with a concurrency lease, the
    release of the lease and the report of the tokens used, over the store and
    Redis together. Metrics, logging and the row-level-security context (which
    only PgStore reads) have no effect on this state. *)
From S2P Require Import Prelude PyText StoreState Prims Tenants Keys Ledger Jwt Redis Leases Cache.

(** ** The values the handlers read *)

(** Truth value of a JSON value; [d.get(k)]. *)
Definition jtrue (j : json) : bool :=
  match j with
  | JNull => false
  | JBool b => b
  | JInt z => negb (z =? 0)
  | JFloat us => negb (us =? 0)
  | JStr s => str_true s
  | JArr l => negb (bool_decide (length l = 0%nat))
  | JObj kvs => negb (bool_decide (length kvs = 0%nat))
  end.
Definition jget (k : string) (j : json) : option json :=
  match j with JObj kvs => dget k kvs | _ => None end.
(** [int(v)] on the values the cached rows hold, which are never texts. *)
Definition py_int (j : json) : res Z :=
  match j with
  | JInt z => Ok z
  | JBool b => Ok (if b then 1 else 0)
  | JFloat us => Ok (Z.quot us 1000000)
  | _ => Raise (TypeError "int() argument must be a string or a number")
  end.
(** [x not in l] for a text and a JSON array. *)
Definition jmem (x : string) (j : json) : bool :=
  match j with
  | JArr l => existsb (fun v => match v with JStr y => bool_decide (y = x) | _ => false end) l
  | _ => false
  end.
Definition jstr_or (dflt : string) (o : option json) : string :=
  match o with Some (JStr s) => s | _ => dflt end.

Definition DEFAULT_MAX_TOKENS : Z := 4096.
Definition TIER_PRIORITY : list (string * Z) :=
  [("enterprise", 3); ("pro", 2); ("standard", 2); ("team", 2); ("free", 1)].

(** [_priority_from({"default_priority": p}, tier)]; a stored priority is an
    integer or absent. *)
Definition _priority_from (p : option json) (tier : string) : res Z :=
  match p with
  | Some j => if jtrue j then py_int j else Ok (default 2 (dget tier TIER_PRIORITY))
  | None => Ok (default 2 (dget tier TIER_PRIORITY))
  end.
(** A quota row has every entry; a missing row has none. *)
Definition _quota_int (quota : option TenantQuota) (key : Quota -> Z) (dflt : Z) : Z :=
  match quota with Some q => key (tq_quota q) | None => dflt end.
Definition _daily_limit_for (quota : option TenantQuota) : Z := _quota_int quota q_tpm 50000.

(** [_sanitize_label]; [isalnum] below 128. *)
Definition MODULE_WHITELIST : list string := ["code"; "agent"; "kb"; "bench"; "sim"; "unknown"].
Definition is_alnum (c : ascii) : bool := is_digit c || is_upper c || is_lower c.
Definition _sanitize_label (value fallback : string) : string :=
  if negb (str_true value) then fallback
  else if decide (value ∈ MODULE_WHITELIST) then value
  else
    let cleaned := filter (fun c => c <> "-"%char /\ c <> "_"%char) (chars value) in
    if (slen value <=? 64) && negb (bool_decide (cleaned = [])) && forallb is_alnum cleaned
    then value else "other".

(** ** Messages *)

Inductive AuthErrorCode : Type :=
  | AUTH_ERROR_CODE_UNSPECIFIED
  | INVALID_API_KEY
  | TENANT_DISABLED
  | MODULE_UNAUTHORIZED
  | MODEL_UNAUTHORIZED
  | CONCURRENCY_LIMIT_EXCEEDED
  | DAILY_QUOTA_EXCEEDED
  | RATE_LIMIT_EXCEEDED.
Definition _error_http_status (c : AuthErrorCode) : Z :=
  match c with
  | INVALID_API_KEY => 401
  | TENANT_DISABLED | MODULE_UNAUTHORIZED | MODEL_UNAUTHORIZED => 403
  | CONCURRENCY_LIMIT_EXCEEDED | DAILY_QUOTA_EXCEEDED | RATE_LIMIT_EXCEEDED => 429
  | AUTH_ERROR_CODE_UNSPECIFIED => 401
  end.
Record TenantContext : Type := mkTenantContext {
  tc_tenant_id : string; tc_tenant_name : string; tc_tier : string; tc_priority : Z
}.
Record AuthorizeRequest : Type := mkAuthorizeRequest {
  ar_api_key : string; ar_tenant_id : string; ar_target_module : string; ar_target_model : string
}.
Record AuthorizeResponse : Type := mkAuthorizeResponse {
  as_is_allowed : bool;
  as_error_code : AuthErrorCode;
  as_error_message : string;
  as_tenant_context : option TenantContext;
  as_lease_id : string;
  as_max_allowed_tokens : Z
}.
Definition _refuse (code : AuthErrorCode) (msg : string) : AuthorizeResponse :=
  mkAuthorizeResponse false code msg None "" 0.
Record ReleaseRequest : Type := mkReleaseRequest {
  rr_tenant_id : string; rr_lease_id : string; rr_reason : string
}.
Record UsageRequest : Type := mkUsageRequest {
  ur_tenant_id : string; ur_lease_id : string; ur_model_name : string;
  ur_prompt_tokens : Z; ur_completion_tokens : Z; ur_release_after : bool
}.

(** [_lease_belongs] *)
Definition _lease_belongs (lease_id tenant_id : string) : bool :=
  str_true lease_id && startswith (tenant_id +:+ ":") lease_id.

(** How an RPC ends: with its response, or aborted with a status. *)
Inductive rpc_status : Type := UNAVAILABLE | UNAUTHENTICATED.
Inductive rpc (A : Type) : Type :=
  | Reply (a : A)
  | Abort (st : rpc_status).
Arguments Reply {A} a.
Arguments Abort {A} st.

(** ** The servicer *)
Section servicer.
Context `{HashLib} `{RedisLib}.

(** The state behind the servicer. *)
Record Plane : Type := mkPlane { pl_store : Store; pl_redis : redis }.
Definition in_store {A} (m : M Store A) : M Plane A :=
  fun p => let '(a, s) := m (pl_store p) in (a, mkPlane s (pl_redis p)).
Definition in_redis {A} (m : M redis A) : M Plane A :=
  fun p => let '(a, r) := m (pl_redis p) in (a, mkPlane (pl_store p) r).

(** The clock and draws of one request: time, [strftime] day, uuid, nanosecond
    stamp; and the deployment: lease time to live, whether a cache is
    configured. *)
Record Env : Type := mkEnv {
  ev_t : Z; ev_day : string; ev_uuid : string; ev_ns : string;
  ev_lease_ttl : Z; ev_cache : bool
}.
Variable ev : Env.

(** The row cached for a key: tenant, status and quota at lookup time. *)
Definition tenant_info_of (tenant_id : string) (tenant : Tenant) (quota : option TenantQuota) : json :=
  JObj [("tenant_id", JStr tenant_id);
        ("tenant_name", JStr (t_display_name tenant));
        ("tier", JStr (t_plan tenant));
        ("is_active", JBool (bool_decide (t_status tenant = "active")));
        ("allowed_modules", jlist (match quota with Some q => q_allowed_modules (tq_quota q) | None => [] end));
        ("allowed_models", jlist (match quota with Some q => q_allowed_models (tq_quota q) | None => [] end));
        ("max_concurrency", JInt (_quota_int quota q_concurrent 2));
        ("daily_token_limit", JInt (_quota_int quota q_tpm 50000));
        ("rpm_limit", JInt (_quota_int quota q_rpm 0));
        ("default_priority", JInt (_quota_int quota q_default_priority 0))].

(** The cache read, whose faults fall back to the store. *)
Definition cached_info (api_key : string) : M Plane (option json) :=
  if ev_cache ev
  then catch (in_redis (get_tenant_by_api_key (ev_t ev) api_key)) (fun _ => ret None)
  else ret None.
(** The lookup in the store, with the cache write; [inl] is a refusal. *)
Definition looked_up_info (api_key : string) : M Plane (AuthorizeResponse + json) :=
  let! key_record := gets (fun p => get_api_key_by_hash (sha256 api_key) (pl_store p)) in
  match key_record with
  | None => ret (inl (_refuse INVALID_API_KEY "invalid or revoked api key"))
  | Some k =>
      let tenant_id := k_tenant_id k in
      let! tenant := gets (fun p => get_tenant tenant_id (pl_store p)) in
      let! quota := gets (fun p => get_quota tenant_id (pl_store p)) in
      match tenant with
      | None => ret (inl (_refuse INVALID_API_KEY "tenant missing for key"))
      | Some tenant =>
          let tenant_info := tenant_info_of tenant_id tenant quota in
          (if ev_cache ev
           then catch (in_redis (set_api_key (ev_t ev) api_key tenant_info 300)) (fun _ => ret tt)
           else ret tt) ;;;
          ret (inr tenant_info)
      end
  end.

(** [int(tenant_info.get(k, dflt))] *)
Definition info_num (info : json) (k : string) (dflt : Z) : res Z :=
  match jget k info with Some j => py_int j | None => Ok dflt end.
Definition info_int (info : json) (k : string) (dflt : Z) : M Plane Z :=
  lift (info_num info k dflt).
(** [if not quota_ok], [try_acquire], the log and the rate check: from the
    checked limits to a lease or a refusal. *)
Definition reserve_and_acquire (tenant_info : json) (tenant_id : string) (daily_limit : Z)
    : M Plane (AuthorizeResponse + (string * Z)) :=
  let t := ev_t ev in
  let! reserved := (if ev_cache ev
                    then in_redis (reserve_daily_quota t (ev_day ev) tenant_id daily_limit)
                    else ret (true, daily_limit)) in
  let '(quota_ok, remaining) := reserved in
  if negb quota_ok then ret (inl (_refuse DAILY_QUOTA_EXCEEDED "daily token quota exceeded"))
  else
    let! max_concurrency := info_int tenant_info "max_concurrency" 2 in
    let! acquired := in_redis (try_acquire (ev_lease_ttl ev) t (ev_uuid ev) tenant_id max_concurrency) in
    match acquired with
    | None =>
        (if ev_cache ev then in_redis (refund_daily_quota t (ev_day ev) tenant_id 0) else ret tt) ;;;
        ret (inl (_refuse CONCURRENCY_LIMIT_EXCEEDED
                    ("concurrency limit (" +:+ pretty max_concurrency +:+ ") reached")))
    | Some (lease_id, active) =>
        in_store (log_lease t tenant_id lease_id "acquire" (Some "grpc_authorize")) ;;;
        let! rpm_limit := info_int tenant_info "rpm_limit" 0 in
        let! rpm := (if (0 <? rpm_limit) && ev_cache ev
                     then in_redis (check_rpm t (ev_ns ev) tenant_id rpm_limit)
                     else ret (true, 0)) in
        if negb rpm.1 then
          in_redis (release t tenant_id lease_id) ;;;
          in_redis (refund_daily_quota t (ev_day ev) tenant_id 0) ;;;
          in_store (log_lease t tenant_id lease_id "release" (Some "rpm_exceeded")) ;;;
          ret (inl (_refuse RATE_LIMIT_EXCEEDED
                      ("rpm limit (" +:+ pretty rpm_limit +:+ "/min) exceeded")))
        else ret (inr (lease_id, remaining))
    end.

(** [l = tenant_info.get(k) or []; l and x and x not in l] *)
Definition not_listed (info : json) (k x : string) : bool :=
  match jget k info with
  | Some l => jtrue l && str_true x && negb (jmem x l)
  | None => false
  end.

(** From the tenant's row to the response. *)
Definition authorize_info (request : AuthorizeRequest) (tenant_info : json) : M Plane AuthorizeResponse :=
  if negb (match jget "is_active" tenant_info with Some j => jtrue j | None => true end)
  then ret (_refuse TENANT_DISABLED "tenant disabled")
  else
    match jget "tenant_id" tenant_info with
    | Some (JStr tenant_id) =>
        let asserted := strip (ar_tenant_id request) in
        if str_true asserted && negb (bool_decide (asserted = tenant_id))
        then ret (_refuse INVALID_API_KEY "api_key does not belong to asserted tenant")
        else if not_listed tenant_info "allowed_modules" (ar_target_module request)
        then ret (_refuse MODULE_UNAUTHORIZED ("unauthorized module: " +:+ ar_target_module request))
        else if not_listed tenant_info "allowed_models" (ar_target_model request)
        then ret (_refuse MODEL_UNAUTHORIZED ("unauthorized model: " +:+ ar_target_model request))
        else
          let! daily_limit := info_int tenant_info "daily_token_limit" 50000 in
          if daily_limit <=? 0
          then ret (_refuse DAILY_QUOTA_EXCEEDED "daily token quota set to 0")
          else
            let! got := reserve_and_acquire tenant_info tenant_id daily_limit in
            match got with
            | inl refused => ret refused
            | inr (lease_id, remaining) =>
                let tier := jstr_or "standard" (jget "tier" tenant_info) in
                let! priority := lift (_priority_from (jget "default_priority" tenant_info) tier) in
                let max_tokens := Z.min DEFAULT_MAX_TOKENS
                                    (if 0 <? remaining then remaining else DEFAULT_MAX_TOKENS) in
                ret (mkAuthorizeResponse true AUTH_ERROR_CODE_UNSPECIFIED ""
                       (Some (mkTenantContext tenant_id
                                (jstr_or tenant_id (jget "tenant_name" tenant_info)) tier priority))
                       lease_id max_tokens)
            end
    | _ => raise (KeyError "tenant_id")
    end.

Definition _authorize (request : AuthorizeRequest) : M Plane AuthorizeResponse :=
  let api_key := strip (ar_api_key request) in
  if negb (str_true api_key) then ret (_refuse INVALID_API_KEY "empty api key")
  else
    let! cached := cached_info api_key in
    match cached with
    | Some tenant_info => authorize_info request tenant_info
    | None =>
        let! found := looked_up_info api_key in
        match found with
        | inl refused => ret refused
        | inr tenant_info => authorize_info request tenant_info
        end
    end.

(** [except Exception: context.abort(UNAVAILABLE)] *)
Definition AuthorizeAndAcquire (request : AuthorizeRequest) : M Plane (rpc AuthorizeResponse) :=
  catch (let! resp := _authorize request in ret (Reply resp)) (fun _ => ret (Abort UNAVAILABLE)).

(** [x or dflt] on a text. *)
Definition str_or (x dflt : string) : string := if str_true x then x else dflt.

Definition ReleaseLease (request : ReleaseRequest) : M Plane bool :=
  let tenant_id := rr_tenant_id request in
  let lease_id := rr_lease_id request in
  if negb (_lease_belongs lease_id tenant_id) then ret false
  else
    let! active := in_redis (release (ev_t ev) tenant_id lease_id) in
    let ok := 0 <=? active in
    (if ok then in_store (log_lease (ev_t ev) tenant_id lease_id "release"
                            (Some (str_or (rr_reason request) "released")))
     else ret tt) ;;;
    ret ok.

(** Answers [success] and [remaining_daily_quota]. *)
Definition ReportUsage (request : UsageRequest) : M Plane (bool * Z) :=
  let t := ev_t ev in
  let tenant_id := ur_tenant_id request in
  let lease_id := ur_lease_id request in
  if str_true lease_id && negb (_lease_belongs lease_id tenant_id) then ret (false, 0)
  else
    let total_tokens := ur_prompt_tokens request + ur_completion_tokens request in
    let! ledger_ok :=
      (if 0 <? total_tokens
       then catch (let! _ := in_store (record_usage t tenant_id None "tokens" total_tokens "grpc"
                     (if str_true (ur_model_name request) then Some (ur_model_name request) else None)) in
                   ret true)
              (fun _ => ret false)
       else ret true) in
    (if ev_cache ev && (0 <? total_tokens) && ledger_ok
     then let! _ := in_redis (record_token_usage t (ev_day ev) tenant_id total_tokens) in ret tt
     else ret tt) ;;;
    (if str_true lease_id && ur_release_after request
     then let! active := in_redis (release t tenant_id lease_id) in
          if 0 <=? active
          then in_store (log_lease t tenant_id lease_id "release" (Some "usage_reported"))
          else ret tt
     else ret tt) ;;;
    let! quota := gets (fun p => get_quota tenant_id (pl_store p)) in
    let daily_limit := _daily_limit_for quota in
    let! remaining := (if ev_cache ev
                       then in_redis (remaining_quota t (ev_day ev) tenant_id daily_limit)
                       else ret daily_limit) in
    ret (ledger_ok, remaining).
End servicer.

(** ** The interceptor *)

Definition SERVICE_TOKEN_METADATA_KEY : string := "x-fusion-service-token".
(** [ServiceTokenInterceptor.__init__] *)
Definition interceptor_init (service_token : string) : res string :=
  if str_true service_token then Ok service_token
  else Raise (ValueError "service_token must be non-empty (fail-closed)").
(** [dict(metadata)]: a repeated key keeps its last value. *)
Definition dict_of (l : list (string * string)) : list (string * string) :=
  foldl (fun d kv => dset kv.1 kv.2 d) [] l.
Definition intercept_service {S A} (service_token : string) (metadata : list (string * string))
    (continuation : M S (rpc A)) : M S (rpc A) :=
  let supplied := default "" (dget SERVICE_TOKEN_METADATA_KEY (dict_of metadata)) in
  if negb (str_true supplied) || negb (compare_digest supplied service_token)
  then ret (Abort UNAUTHENTICATED)
  else continuation.
