(* ===== verification/PlaneProps.v ===== *)
(** * What the data plane guarantees (grpc_servicer.py)

    The servicer against the semaphore of [Leases]: what an admitted call
    proves about its key, tenant and limits, what a refused one leaves behind,
    and which stale answers the cache allows. *)
From S2P Require Import Prelude PyText StoreState Prims Tenants Keys Ledger Jwt Redis Leases Cache.
From S2P Require Import CacheProps DataPlane.

(** ** The cache leaves the leases alone *)
Section frames.
Context `{HashLib} `{RedisLaws}.

Definition lease_set_key (k : string) : Prop := exists tid, k = _leases_key tid.

Ltac off_key := let tid := fresh in let E := fresh in
  match goal with Hk : lease_set_key _ |- _ => destruct Hk as [tid ->]; intros E; discriminate E end.
Lemma num_at_frame t P key : frame t P (num_at t key).
Proof. unfold num_at. solve_frame. Qed.
Lemma get_json_frame t key :
  (forall k, lease_set_key k -> k <> key) -> frame t lease_set_key (get_json t key).
Proof. intros Hk. unfold get_json. solve_frame; apply del_other; auto. Qed.
Lemma get_by_key_frame t key : frame t lease_set_key (get_tenant_by_api_key t key).
Proof. apply get_json_frame. intros k ?. off_key. Qed.
Lemma set_api_key_frame t key info ttl : frame t lease_set_key (set_api_key t key info ttl).
Proof. unfold set_api_key. solve_frame. apply set_other. off_key. Qed.
Lemma reserve_frame t day tid lim : frame t lease_set_key (reserve_daily_quota t day tid lim).
Proof.
  unfold reserve_daily_quota, RESERVE_QUOTA_LUA. solve_frame.
  - apply incrby_other. off_key.
  - apply expire_other. off_key.
Qed.
Lemma check_rpm_frame t uid tid lim : frame t lease_set_key (check_rpm t uid tid lim).
Proof.
  unfold check_rpm, CHECK_RPM_LUA. solve_frame.
  - apply zremrangebyscore_other. off_key.
  - apply zadd_other. off_key.
  - apply expire_other. off_key.
Qed.
Lemma record_usage_frame t day tid n : frame t lease_set_key (record_token_usage t day tid n).
Proof.
  unfold record_token_usage. solve_frame.
  - apply incrby_other. off_key.
  - apply expire_other. off_key.
Qed.
Lemma remaining_frame t day tid n : frame t lease_set_key (remaining_quota t day tid n).
Proof. unfold remaining_quota, num_at. solve_frame. Qed.
Lemma refund_zero t day tid r : refund_daily_quota t day tid 0 r = (Ok tt, r).
Proof. done. Qed.

Lemma sem_rel_frame {A} ttl t (m : M redis A) r a r' S :
  frame t lease_set_key m -> m r = (a, r') -> sem_rel ttl t r S -> sem_rel ttl t r' S.
Proof. intros Hf E HR tid. rewrite (Hf _ _ _ E) by by eexists. apply HR. Qed.
End frames.

(** ** Runs of the servicer *)
Section plane.
Context `{HashLib} `{RedisLaws}.
Variable ev : Env.
Abbreviation t := (ev_t ev).
Abbreviation now := (int_time (ev_t ev)).
Abbreviation ttl := (ev_lease_ttl ev).
Hypothesis (Ht : 0 <= t) (Httl : 0 < ttl).
Implicit Types (p : Plane) (S : Sem).

Lemma in_redis_ok {A} (m : M redis A) p a p' :
  in_redis m p = (Ok a, p') <-> m (pl_redis p) = (Ok a, pl_redis p') /\ pl_store p' = pl_store p.
Proof.
  unfold in_redis. destruct p as [s r], p' as [s' r']. simpl. destruct (m r) as [b r1].
  naive_solver.
Qed.
Lemma in_store_ok {A} (m : M Store A) p a p' :
  in_store m p = (Ok a, p') <-> m (pl_store p) = (Ok a, pl_store p') /\ pl_redis p' = pl_redis p.
Proof.
  unfold in_store. destruct p as [s r], p' as [s' r']. simpl. destruct (m s) as [b s1].
  naive_solver.
Qed.

(** The lease id of this request. *)
Definition new_lease (tid : string) : string := tid +:+ ":" +:+ ev_uuid ev.
Definition fresh_lease S : Prop := forall tid, S tid !! new_lease tid = None.
(** [Redis] at the time of the request represents the semaphore. *)
Abbreviation holds p S := (sem_rel ttl t (pl_redis p) S).

(** Taking the lease and giving it back is no change. *)
Lemma acquire_release_undone p S tid mx n :
  fresh_lease S -> (sem_acquire ttl now (ev_uuid ev) tid mx S).1 = Some (new_lease tid, n) ->
  holds p (sem_release tid (new_lease tid) (sem_acquire ttl now (ev_uuid ev) tid mx S).2) -> holds p S.
Proof.
  intros Hf. unfold sem_acquire. destruct (_ <? mx); [|done]. intros _ HR tid'.
  destruct (HR tid') as [Hok Hl]. split; [done|]. rewrite Hl. simpl. unfold sem_release, sem_set.
  case_decide; [subst tid'|done]. rewrite decide_True by done.
  fold (new_lease tid). rewrite delete_insert_id; [done|apply Hf].
Qed.

Definition lease_entry (tid : string) (action reason : string) : LeaseLogEntry :=
  mkLeaseLogEntry tid (new_lease tid) action (Some reason) t.

(** The store after a grant: the lease is logged. *)
Definition logged (tid : string) (s : Store) : Store :=
  set_lease_log (append_capped LEASE_LOG_CAP (lease_log s)
    (lease_entry tid "acquire" "grpc_authorize")) s.

Lemma acquire_some tid mx p lease n p' S :
  holds p S -> in_redis (try_acquire ttl t (ev_uuid ev) tid mx) p = (Ok (Some (lease, n)), p') ->
  lease = new_lease tid /\ sem_count now tid S < mx /\
  (sem_acquire ttl now (ev_uuid ev) tid mx S).1 = Some (new_lease tid, n) /\
  holds p' (sem_acquire ttl now (ev_uuid ev) tid mx S).2 /\ pl_store p' = pl_store p.
Proof using Type Ht Httl.
  intros HR [E Es]%in_redis_ok.
  destruct (acquire_sim ttl Httl t _ _ _ _ _ _ _ Ht HR E) as [Hg HR']. revert Hg HR'.
  unfold sem_acquire. destruct (_ <? mx) eqn:Hmx; [|done]. apply Z.ltb_lt in Hmx.
  intros [= -> ->] HR'. done.
Qed.
Lemma acquire_none tid mx p p' S :
  holds p S -> in_redis (try_acquire ttl t (ev_uuid ev) tid mx) p = (Ok None, p') ->
  holds p' S /\ pl_store p' = pl_store p.
Proof using Type Ht Httl.
  intros HR [E Es]%in_redis_ok. split; [|done].
  destruct (acquire_sim ttl Httl t _ _ _ _ _ _ _ Ht HR E) as [Hg HR']. revert Hg HR'.
  unfold sem_acquire. by destruct (_ <? mx).
Qed.
Lemma holds_in_redis {A} (m : M redis A) p a p' S :
  frame t lease_set_key m -> in_redis m p = (Ok a, p') -> holds p S ->
  holds p' S /\ pl_store p' = pl_store p.
Proof. intros Hf [E Es]%in_redis_ok HR. split; [by eapply sem_rel_frame|done]. Qed.
Lemma holds_in_store {A} (m : M Store A) p a p' S :
  in_store m p = (Ok a, p') -> holds p S -> holds p' S /\ m (pl_store p) = (Ok a, pl_store p').
Proof. intros [E Er]%in_store_ok HR. by rewrite Er. Qed.

Lemma reserve_and_acquire_spec info tid limit p out p' S :
  holds p S -> fresh_lease S ->
  reserve_and_acquire ev info tid limit p = (Ok out, p') ->
  match out with
  | inl resp => as_is_allowed resp = false /\ holds p' S
  | inr (lease, _) =>
      exists mx, info_num info "max_concurrency" 2 = Ok mx /\ lease = new_lease tid /\
        sem_count now tid S < mx /\
        holds p' (sem_acquire ttl now (ev_uuid ev) tid mx S).2 /\ pl_store p' = logged tid (pl_store p)
  end.
Proof using Type Ht Httl.
  intros HR Hf. unfold reserve_and_acquire, info_int.
  intros ([quota_ok remaining] & p1 & Hq & Hrun)%bind_ok.
  assert (holds p1 S /\ pl_store p1 = pl_store p) as [HR1 Es1].
  { destruct (ev_cache ev); [|by run_inv]. eapply holds_in_redis; eauto using reserve_frame. }
  destruct quota_ok; cbn [negb] in *; [|by run_inv].
  apply bind_ok in Hrun as (mx & p1' & [= Hmx <-] & Hrun).
  apply bind_ok in Hrun as ([[lease n]|] & p2 & Ha & Hrun).
  - apply (acquire_some _ _ _ _ _ _ S) in Ha as (-> & Hlt & Hg & HR2 & Es2); [|done].
    apply bind_ok in Hrun as ([] & p3 & Hl & Hrun).
    apply (holds_in_store _ _ _ _ _ Hl) in HR2 as [HR3 [= Hlog]].
    apply bind_ok in Hrun as (rpm & p3' & [= Hrpm <-] & Hrun).
    apply bind_ok in Hrun as ([ok n'] & p4 & Hc & Hrun).
    assert (holds p4 (sem_acquire ttl now (ev_uuid ev) tid mx S).2 /\ pl_store p4 = pl_store p3)
      as [HR4 Es4].
    { destruct (_ && _); [|by run_inv]. eapply holds_in_redis; eauto using check_rpm_frame. }
    destruct ok; simpl in Hrun.
    + injection Hrun as <- <-. exists mx. split_and!; try done. by rewrite Es4, <- Hlog, Es2, Es1.
    + apply bind_ok in Hrun as (c & p5 & [Hrel Es5]%in_redis_ok & Hrun).
      destruct (release_sim ttl t tid (new_lease tid) _ _ _ _ HR4 Hrel) as [_ HR5].
      apply (acquire_release_undone _ _ _ _ n) in HR5; [|done|done].
      apply bind_ok in Hrun as (c' & p6 & [[= _ Ep6] Es6]%in_redis_ok & Hrun).
      apply bind_ok in Hrun as (c'' & p7 & Hl2 & [= <- <-]).
      split; [done|]. rewrite Ep6 in HR5. by apply (holds_in_store _ _ _ _ _ Hl2) in HR5 as [? _].
  - apply (acquire_none _ _ _ _ S) in Ha as [HR2 Es2]; [|done].
    apply bind_ok in Hrun as (c' & p6 & Hr & [= <- <-]). split; [done|].
    destruct (ev_cache ev); [|by run_inv]. apply in_redis_ok in Hr as [[= _ Ep6] _]. by rewrite <- Ep6.
Qed.

(** What an admitted call shows of the row it was decided on. *)
Record granted (request : AuthorizeRequest) (info : json) (resp : AuthorizeResponse) (p p' : Plane)
    (S : Sem) (tid : string) (limit mx : Z) : Prop := {
  gr_tenant : jget "tenant_id" info = Some (JStr tid);
  gr_active : forall j, jget "is_active" info = Some j -> jtrue j = true;
  gr_asserted : strip (ar_tenant_id request) = "" \/ strip (ar_tenant_id request) = tid;
  gr_module : not_listed info "allowed_modules" (ar_target_module request) = false;
  gr_model : not_listed info "allowed_models" (ar_target_model request) = false;
  gr_limit : info_num info "daily_token_limit" 50000 = Ok limit /\ 0 < limit;
  gr_max : info_num info "max_concurrency" 2 = Ok mx /\ sem_count now tid S < mx;
  gr_context : tc_tenant_id <$> as_tenant_context resp = Some tid;
  gr_lease : as_lease_id resp = new_lease tid;
  gr_tokens : 0 < as_max_allowed_tokens resp <= DEFAULT_MAX_TOKENS;
  gr_held : holds p' (sem_acquire ttl now (ev_uuid ev) tid mx S).2;
  gr_store : pl_store p' = logged tid (pl_store p)
}.

Lemma authorize_info_spec request info p resp p' S :
  holds p S -> fresh_lease S -> authorize_info ev request info p = (Ok resp, p') ->
  if as_is_allowed resp then exists tid limit mx, granted request info resp p p' S tid limit mx
  else holds p' S.
Proof using Type Ht Httl.
  intros HR Hf. unfold authorize_info, info_int.
  destruct (negb _) eqn:Hact; [by intros [= <- <-]|].
  destruct (jget "tenant_id" info) as [[]|] eqn:Htid; try done. rename s into tid.
  destruct (str_true (strip _) && _) eqn:Has; [by intros [= <- <-]|].
  destruct (not_listed info "allowed_modules" _) eqn:Hmod; [by intros [= <- <-]|].
  destruct (not_listed info "allowed_models" _) eqn:Hmodel; [by intros [= <- <-]|].
  intros (limit & p0 & [= Hlim <-] & Hrun)%bind_ok.
  destruct (Z.leb_spec limit 0); [by injection Hrun as <- <-|].
  apply bind_ok in Hrun as (out & p1 & Hra & Hrun).
  apply (reserve_and_acquire_spec _ _ _ _ _ _ S HR Hf) in Hra.
  destruct out as [refused|[lease remaining]].
  { injection Hrun as <- <-. destruct Hra as [-> ?]. done. }
  destruct Hra as (mx & Hmx & -> & Hlt & HR' & Es).
  apply bind_ok in Hrun as (prio & p2 & [= _ <-] & [= <- <-]). simpl.
  exists tid, limit, mx. split; simpl; try done.
  - intros j Hj. rewrite Hj in Hact. by apply negb_false_iff in Hact.
  - apply andb_false_iff in Has as [Has|Has].
    + left. unfold str_true in Has. apply bool_decide_eq_false in Has. by apply dec_stable in Has.
    + right. by apply negb_false_iff, bool_decide_eq_true in Has.
  - unfold DEFAULT_MAX_TOKENS. destruct (Z.ltb_spec 0 remaining); lia.
Qed.

(** The cache read and the store lookup. *)
Lemma cached_info_spec api_key p o p' S :
  holds p S -> cached_info ev api_key p = (Ok o, p') -> holds p' S /\ pl_store p' = pl_store p.
Proof.
  intros HR. unfold cached_info. destruct (ev_cache ev); [|by intros [= <- <-]].
  unfold catch, in_redis. destruct (get_tenant_by_api_key t api_key (pl_redis p)) as [[o'|e] r] eqn:E;
    intros [= <- <-]; (split; [|done]); by apply (sem_rel_frame _ _ _ _ _ _ _ (get_by_key_frame _ _) E).
Qed.
Lemma looked_up_info_spec api_key p out p' S :
  holds p S -> looked_up_info ev api_key p = (Ok out, p') ->
  holds p' S /\ pl_store p' = pl_store p /\
  match out with
  | inl resp => as_is_allowed resp = false
  | inr info => exists k tenant,
      get_api_key_by_hash (sha256 api_key) (pl_store p) = Some k /\
      get_tenant (k_tenant_id k) (pl_store p) = Some tenant /\
      info = tenant_info_of (k_tenant_id k) tenant (get_quota (k_tenant_id k) (pl_store p))
  end.
Proof.
  intros HR. unfold looked_up_info. rewrite bind_gets.
  destruct (get_api_key_by_hash _ _) as [k|] eqn:Ek; [|by intros [= <- <-]].
  rewrite !bind_gets. destruct (get_tenant _ _) as [tenant|] eqn:Et; [|by intros [= <- <-]].
  intros (u & p1 & Hc & [= <- <-])%bind_ok.
  assert (holds p1 S /\ pl_store p1 = pl_store p) as [? ?]; [|by eauto 10].
  destruct (ev_cache ev); [|by injection Hc as <- <-].
  revert Hc. unfold catch, in_redis. destruct (set_api_key _ _ _ _ _) as [[o'|e] r] eqn:E;
    intros [= <- <-]; (split; [|done]); by apply (sem_rel_frame _ _ _ _ _ _ _ (set_api_key_frame _ _ _ _) E).
Qed.
End plane.

(** ** Runs that do not look at the store *)
Section blind.
Context `{HashLib} `{RedisLib}.

(** Same answer and same Redis from every store. *)
Definition store_blind {A} (m : M Plane A) : Prop :=
  forall s s2 r, (m (mkPlane s r)).1 = (m (mkPlane s2 r)).1 /\
    pl_redis (m (mkPlane s r)).2 = pl_redis (m (mkPlane s2 r)).2.

Lemma blind_bind {A B} (m : M Plane A) (f : A -> M Plane B) :
  store_blind m -> (forall a, store_blind (f a)) -> store_blind (bind m f).
Proof.
  intros Hm Hf s s2 r. unfold bind. destruct (Hm s s2 r) as [E1 E2].
  destruct (m (mkPlane s r)) as [a [s' r1]], (m (mkPlane s2 r)) as [b [s2' r2]]. simpl in *. subst b r2.
  destruct a; [apply Hf|done].
Qed.
Lemma blind_ret {A} (a : A) : store_blind (ret a).
Proof. done. Qed.
Lemma blind_raise {A} e : store_blind (raise (A := A) e).
Proof. done. Qed.
Lemma blind_lift {A} (a : res A) : store_blind (lift a).
Proof. done. Qed.
Lemma blind_in_redis {A} (m : M redis A) : store_blind (in_redis m).
Proof. intros s s2 r. unfold in_redis. simpl. by destruct (m r). Qed.
Lemma blind_log t tid id action reason : store_blind (in_store (log_lease t tid id action reason)).
Proof. done. Qed.
Lemma blind_catch {A} (m : M Plane A) h :
  store_blind m -> (forall e, store_blind (h e)) -> store_blind (catch m h).
Proof.
  intros Hm Hf s s2 r. unfold catch. destruct (Hm s s2 r) as [E1 E2].
  destruct (m (mkPlane s r)) as [a [s' r1]], (m (mkPlane s2 r)) as [b [s2' r2]]. simpl in *. subst b r2.
  destruct a; [done|apply Hf].
Qed.
Ltac blind :=
  repeat first
    [ progress intros | apply blind_ret | apply blind_raise | apply blind_lift | apply blind_in_redis
    | apply blind_log | apply blind_bind | apply blind_catch
    | match goal with |- store_blind (match ?x with _ => _ end) => destruct x end ].
Lemma authorize_info_blind ev request info : store_blind (authorize_info ev request info).
Proof. unfold authorize_info, reserve_and_acquire, info_int. blind. Qed.
Lemma cached_info_blind ev key : store_blind (cached_info ev key).
Proof. unfold cached_info. blind. Qed.

(** While a key's row is in the cache (up to 300 seconds), the answer to a
    call with that key does not depend on the store: not on whether the key is
    still there, the tenant active, or the quota changed. Only dropping the
    cached row makes a change of the store effective. *)
Theorem cached_answer_ignores_store ev request s s2 r info p1 :
  cached_info ev (strip (ar_api_key request)) (mkPlane s r) = (Ok (Some info), p1) ->
  (_authorize ev request (mkPlane s r)).1 = (_authorize ev request (mkPlane s2 r)).1.
Proof.
  intros Hc. unfold _authorize. destruct (negb _); [done|]. unfold bind.
  destruct (cached_info_blind ev (strip (ar_api_key request)) s s2 r) as [E1 E2].
  rewrite Hc in *. simpl in E1, E2.
  destruct (cached_info ev _ (mkPlane s2 r)) as [a [s2' r2]]. simpl in *. subst a r2.
  destruct p1 as [s1 r1]. apply authorize_info_blind.
Qed.
End blind.

Section statements.
Context `{HashLib} `{RedisLaws}.

(** How [_authorize] ends, whether the row came from the cache or not. *)
Lemma authorize_outcome ev request p resp p' S :
  0 <= ev_t ev -> 0 < ev_lease_ttl ev ->
  sem_rel (ev_lease_ttl ev) (ev_t ev) (pl_redis p) S -> fresh_lease ev S ->
  _authorize ev request p = (Ok resp, p') ->
  if as_is_allowed resp
  then exists info p0 tid limit mx, granted ev request info resp p0 p' S tid limit mx
  else sem_rel (ev_lease_ttl ev) (ev_t ev) (pl_redis p') S.
Proof.
  intros Ht Httl HR Hf Hrun. unfold _authorize in Hrun.
  destruct (negb (str_true _)); [by injection Hrun as <- <-|].
  apply bind_ok in Hrun as (o & p1 & Hc & Hrun).
  destruct (cached_info_spec ev _ _ _ _ S HR Hc) as [HR1 _].
  destruct o as [info|].
  { pose proof (authorize_info_spec ev Ht Httl _ _ _ _ _ S HR1 Hf Hrun) as Hg.
    destruct (as_is_allowed resp); [|done]. destruct Hg as (tid & limit & mx & Hg). by eauto 10. }
  apply bind_ok in Hrun as (out & p2 & Hl & Hrun).
  destruct (looked_up_info_spec ev _ _ _ _ S HR1 Hl) as (HR2 & _ & Hout).
  destruct out as [refused|info]; [injection Hrun as <- <-; by rewrite Hout|].
  pose proof (authorize_info_spec ev Ht Httl _ _ _ _ _ S HR2 Hf Hrun) as Hg.
  destruct (as_is_allowed resp); [|done]. destruct Hg as (tid & limit & mx & Hg). by eauto 10.
Qed.

(** A call that is not admitted holds nothing: if [_authorize] answers with a
    refusal, on whatever branch, every tenant's leases are what they were
    before the call (the lease taken before the rate check is given back). The
    lease id is new, as [uuid4] makes it. *)
Theorem refusal_keeps_leases ev request p resp p' S :
  0 <= ev_t ev -> 0 < ev_lease_ttl ev ->
  sem_rel (ev_lease_ttl ev) (ev_t ev) (pl_redis p) S -> fresh_lease ev S ->
  _authorize ev request p = (Ok resp, p') -> as_is_allowed resp = false ->
  sem_rel (ev_lease_ttl ev) (ev_t ev) (pl_redis p') S.
Proof.
  intros Ht Httl HR Hf Hrun Hno. pose proof (authorize_outcome _ _ _ _ _ _ Ht Httl HR Hf Hrun) as Hg.
  by rewrite Hno in Hg.
Qed.

(** [l and x and x not in l], on a list of texts. *)
Lemma jmem_jlist x l : jmem x (jlist l) = bool_decide (x ∈ l).
Proof.
  unfold jmem, jlist. induction l as [|y l IH]; [done|]. csimpl. rewrite IH.
  apply eq_bool_prop_intro. rewrite orb_True, !bool_decide_spec, elem_of_cons. naive_solver.
Qed.
Lemma not_listed_false info k x l :
  jget k info = Some (jlist l) -> not_listed info k x = false -> l = [] \/ x = "" \/ x ∈ l.
Proof.
  unfold not_listed. intros ->. rewrite jmem_jlist. simpl. rewrite length_fmap.
  destruct l as [|y l]; [by left|]. simpl. unfold str_true.
  destruct (decide (x = "")) as [|Hx]; [by right; left|]. right. right.
  rewrite bool_decide_true in * by done. by apply negb_false_iff, bool_decide_eq_true in H2.
Qed.

(** [C11] What an admitted call proves, when the key's row is not cached: the key is
    stored and not revoked; its tenant is active, and is the asserted one if
    the caller named one; module and model are on the tenant's lists, if those
    are not empty; the daily limit is positive; fewer leases were held than
    the tenant's limit, and the response's lease is now held too, logged and
    the tenant's own. *)
Theorem authorize_sound ev request p p0 resp p' S :
  let key := strip (ar_api_key request) in
  0 <= ev_t ev -> 0 < ev_lease_ttl ev ->
  sem_rel (ev_lease_ttl ev) (ev_t ev) (pl_redis p) S -> fresh_lease ev S ->
  cached_info ev key p = (Ok None, p0) ->
  _authorize ev request p = (Ok resp, p') -> as_is_allowed resp = true ->
  exists k tenant, let tid := k_tenant_id k in let quota := get_quota tid (pl_store p) in
    let mx := _quota_int quota q_concurrent 2 in
    get_api_key_by_hash (sha256 key) (pl_store p) = Some k /\
    get_tenant tid (pl_store p) = Some tenant /\ t_status tenant = "active" /\
    (strip (ar_tenant_id request) = "" \/ strip (ar_tenant_id request) = tid) /\
    (forall q, quota = Some q ->
       (q_allowed_modules (tq_quota q) = [] \/ ar_target_module request = "" \/
        ar_target_module request ∈ q_allowed_modules (tq_quota q)) /\
       (q_allowed_models (tq_quota q) = [] \/ ar_target_model request = "" \/
        ar_target_model request ∈ q_allowed_models (tq_quota q))) /\
    0 < _quota_int quota q_tpm 50000 /\
    sem_count (int_time (ev_t ev)) tid S < mx /\
    sem_rel (ev_lease_ttl ev) (ev_t ev) (pl_redis p')
      (sem_acquire (ev_lease_ttl ev) (int_time (ev_t ev)) (ev_uuid ev) tid mx S).2 /\
    as_lease_id resp = new_lease ev tid /\ tc_tenant_id <$> as_tenant_context resp = Some tid /\
    0 < as_max_allowed_tokens resp <= DEFAULT_MAX_TOKENS /\
    pl_store p' = logged ev tid (pl_store p).
Proof.
  intros key Ht Httl HR Hf Hcold Hrun Hyes. unfold _authorize in Hrun. fold key in Hrun.
  destruct (negb (str_true key)); [by injection Hrun as <- <-|].
  unfold bind at 1 in Hrun. rewrite Hcold in Hrun.
  destruct (cached_info_spec ev _ _ _ _ S HR Hcold) as [HR1 Es1].
  apply bind_ok in Hrun as (out & p2 & Hl & Hrun).
  destruct (looked_up_info_spec ev _ _ _ _ S HR1 Hl) as (HR2 & Es2 & Hout).
  destruct out as [refused|info]; [injection Hrun as <- <-; congruence|].
  destruct Hout as (k & tenant & Hk & Hten & ->). rewrite Es1 in *.
  pose proof (authorize_info_spec ev Ht Httl _ _ _ _ _ S HR2 Hf Hrun) as Hg. rewrite Hyes in Hg.
  destruct Hg as (tid & limit & mx & []). simpl in gr_tenant0. injection gr_tenant0 as <-.
  exists k, tenant. specialize (gr_active0 _ eq_refl). apply bool_decide_eq_true in gr_active0.
  destruct gr_limit0 as [[= <-] ?], gr_max0 as [[= <-] ?].
  split_and!; try done.
  - intros q Hq. rewrite Hq in *.
    split; (eapply not_listed_false; [|eassumption]; reflexivity).
  - lia.
  - lia.
  - by rewrite gr_store0, Es2.
Qed.
End statements.
