(* ===== verification/Client.v ===== *)
(** * The gateway's client (client/identity_client.py, client/lease_guard.py)

    [IdentityClient] calls the servicer of DataPlane.v through the interceptor;
    [lease_guard] holds a lease around a body. A call can fail in transport,
    before the server acted on it or after; both look alike to the client. *)
From S2P Require Import Prelude PyText StoreState Prims AuditLog Tenants Keys Ledger Jwt Redis.
From S2P Require Import Leases Cache DataPlane PlaneProps.

Definition DEFAULT_DEADLINE_MS : Z := 10.

(** ** The channel *)

Record IdentityClient : Type := mkIdentityClient {
  ic_target : string; ic_deadline_us : Z; ic_channel : bool
}.
Definition client_init (target : string) (deadline_ms : Z) : IdentityClient :=
  mkIdentityClient target (deadline_ms * 1000) false.
Definition connect : M IdentityClient unit :=
  modify (fun c => mkIdentityClient (ic_target c) (ic_deadline_us c) true).
Definition close : M IdentityClient unit :=
  modify (fun c => mkIdentityClient (ic_target c) (ic_deadline_us c) false).
(** The module's shared client. *)
Definition get_client (target : string) : M (option IdentityClient) IdentityClient := fun g =>
  match g with
  | Some c => (Ok c, g)
  | None => let c := (connect (client_init target DEFAULT_DEADLINE_MS)).2 in (Ok c, Some c)
  end.
Definition shutdown_client : M (option IdentityClient) unit := fun _ => (Ok tt, None).

(** [health]: [stub] gives the methods of grpc_health's [HealthStub] on this
    channel by attribute name, each with what calling it does ([None] is
    [AioRpcError]); [serving] is the library's constant. *)
Definition health (stub : string -> option (res (option Z))) (serving : Z) : M IdentityClient bool :=
  let! open := gets ic_channel in
  (if (open : bool) then ret tt else connect) ;;;
  match stub "check" with
  | None => raise (AttributeError "'HealthStub' object has no attribute 'check'")
  | Some (Raise e) => raise e
  | Some (Ok None) => ret false
  | Some (Ok (Some status)) => ret (bool_decide (status = serving))
  end.
(** The generated stub has the methods [Check] and [Watch] only, so the probe
    raises whatever the server's health is. *)
Lemma health_raises stub serving c :
  (forall name, is_Some (stub name) -> name ∈ ["Check"; "Watch"]) ->
  exists msg c', health stub serving c = (Raise (AttributeError msg), c') /\ ic_channel c' = true.
Proof.
  intros Hs. assert (stub "check" = None) as E.
  { destruct (stub "check") eqn:E; [|done]. assert (is_Some (stub "check")) as Hc by by rewrite E.
    apply Hs in Hc. exfalso. revert Hc. apply (bool_decide_unpack _). by vm_compute. }
  unfold health. rewrite bind_gets, E. destruct c as [t d []]; simpl; by eexists _, _.
Qed.

(** How a call travels: answered, lost on the way, or answered too late. *)
Inductive delivery : Type := Delivered | LostRequest | LostReply.

Section client.
Context `{HashLib} `{RedisLib}.

(** What one call meets: the request's environment at the server, the
    server's token, the metadata the channel adds (the client's own calls pass
    none), how the call travels, and the text of the error if there is one. *)
Record Call : Type := mkCall {
  ca_ev : Env; ca_service_token : string; ca_metadata : list (string * string);
  ca_delivery : delivery; ca_error : string
}.

(** One unary call: [None] is [grpc.aio.AioRpcError]. An exception of the handler
    reaches the client as a status. *)
Definition unary {A} (ca : Call) (handler : Env -> M Plane (rpc A)) : M Plane (option A) := fun p =>
  match ca_delivery ca with
  | LostRequest => (Ok None, p)
  | d =>
      let '(r, p') := intercept_service (ca_service_token ca) (ca_metadata ca) (handler (ca_ev ca)) p in
      (Ok (match r, d with Ok (Reply a), Delivered => Some a | _, _ => None end), p')
  end.
Definition replying {A} (m : M Plane A) : M Plane (rpc A) := let! a := m in ret (Reply a).

(** [request_id] and [client_ip] are only logged by the servicer. *)
Definition authorize_and_acquire (ca : Call) (api_key target_module target_model tenant_id : string)
    : M Plane AuthorizeResponse :=
  let! resp := unary ca (fun ev =>
    AuthorizeAndAcquire ev (mkAuthorizeRequest api_key tenant_id target_module target_model)) in
  match resp with
  | Some resp => ret resp
  | None => ret (mkAuthorizeResponse false AUTH_ERROR_CODE_UNSPECIFIED (ca_error ca) None "" 0)
  end.
Definition release_lease (ca : Call) (lease_id tenant_id reason : string) : M Plane bool :=
  let! resp := unary ca (fun ev =>
    replying (ReleaseLease ev (mkReleaseRequest tenant_id lease_id reason))) in
  ret (default false resp).
Definition report_usage (ca : Call) (lease_id tenant_id model_name : string)
    (prompt_tokens completion_tokens : Z) (release_after : bool) : M Plane (option (bool * Z)) :=
  unary ca (fun ev => replying (ReportUsage ev
    (mkUsageRequest tenant_id lease_id model_name prompt_tokens completion_tokens release_after))).

(** ** The guard *)

(** The number of an error code in identity.proto. *)
Definition error_number (c : AuthErrorCode) : Z :=
  match c with
  | AUTH_ERROR_CODE_UNSPECIFIED => 0 | INVALID_API_KEY => 1 | TENANT_DISABLED => 2
  | MODULE_UNAUTHORIZED => 3 | MODEL_UNAUTHORIZED => 4 | CONCURRENCY_LIMIT_EXCEEDED => 5
  | DAILY_QUOTA_EXCEEDED => 6 | RATE_LIMIT_EXCEEDED => 7
  end.
(** A message field that is not set reads as its default. *)
Definition context_tenant (resp : AuthorizeResponse) : string :=
  match as_tenant_context resp with Some c => tc_tenant_id c | None => "" end.
(** [try: yield resp finally: release]: the body's result or exception is kept. *)
Definition finally_ {S A B} (m : M S A) (after : M S B) : M S A := fun s =>
  let '(r, s1) := m s in
  match after s1 with
  | (Ok _, s2) => (r, s2)
  | (Raise e, s2) => (Raise e, s2)
  end.
Definition lease_guard {A} (ca1 ca2 : Call) (api_key target_module target_model : string)
    (body : AuthorizeResponse -> M Plane A) : M Plane A :=
  let! resp := authorize_and_acquire ca1 api_key target_module target_model "" in
  if negb (as_is_allowed resp)
  then raise (LeaseDenied (error_number (as_error_code resp)) (as_error_message resp))
  else finally_ (body resp)
         (release_lease ca2 (as_lease_id resp) (context_tenant resp) "guard_exit").
End client.

(** * The client's leases

    The guard gives its lease back on every exit of the body; without the
    service token in the channel's metadata no call of the client is
    answered. *)

(** The call carries the server's token. *)
Definition carries_token (ca : Call) : Prop :=
  ca_service_token ca <> "" /\
  dget SERVICE_TOKEN_METADATA_KEY (dict_of (ca_metadata ca)) = Some (ca_service_token ca).

Section client_props.
Context `{HashLib} `{RedisLaws}.

Lemma intercept_passes {A} ca (m : M Plane (rpc A)) p :
  carries_token ca -> intercept_service (ca_service_token ca) (ca_metadata ca) m p = m p.
Proof.
  intros [Hne Ht]. unfold intercept_service. rewrite Ht. simpl. unfold str_true, compare_digest.
  by rewrite !bool_decide_eq_true_2.
Qed.
Lemma intercept_denies {A} tok md (m : M Plane (rpc A)) p :
  dget SERVICE_TOKEN_METADATA_KEY (dict_of md) = None ->
  intercept_service tok md m p = (Ok (Abort UNAUTHENTICATED), p).
Proof. intros Ht. unfold intercept_service. by rewrite Ht. Qed.

Lemma unary_denied {A} ca (h : Env -> M Plane (rpc A)) p :
  dget SERVICE_TOKEN_METADATA_KEY (dict_of (ca_metadata ca)) = None -> unary ca h p = (Ok None, p).
Proof. intros Ht. unfold unary. rewrite intercept_denies by done. by destruct (ca_delivery ca). Qed.

(** The client passes no metadata with its calls: unless the channel adds
    the service token, every authorization is refused with the unspecified
    code, the guard raises [LeaseDenied] before its body runs, releases and
    usage reports fail, and the server's state stays as it was. *)
Theorem client_needs_channel_token {A} ca ca' key md ml tid lid reason pt ct ra (body : AuthorizeResponse -> M Plane A) p :
  dget SERVICE_TOKEN_METADATA_KEY (dict_of (ca_metadata ca)) = None ->
  (exists resp, authorize_and_acquire ca key md ml tid p = (Ok resp, p) /\ as_is_allowed resp = false) /\
  lease_guard ca ca' key md ml body p = (Raise (LeaseDenied 0 (ca_error ca)), p) /\
  release_lease ca lid tid reason p = (Ok false, p) /\
  report_usage ca lid tid ml pt ct ra p = (Ok None, p).
Proof.
  intros Ht. unfold lease_guard, authorize_and_acquire, release_lease, report_usage, bind.
  rewrite !unary_denied by done. split_and!; [by eexists|done..].
Qed.

Lemma new_lease_belongs ev tid : _lease_belongs (new_lease ev tid) tid = true.
Proof.
  unfold _lease_belongs, new_lease, startswith. apply andb_true_iff. split.
  - unfold str_true. apply bool_decide_eq_true_2. by destruct tid.
  - assert (tid +:+ ":" +:+ ev_uuid ev = (tid +:+ ":") +:+ ev_uuid ev) as ->; [|apply prefix_app].
    induction tid as [|c tid IH]; [done|]. 
    change (String c tid +:+ ?x) with (String c (tid +:+ x)). by rewrite IH.
Qed.

(** An authorization that the client saw granted. *)
Lemma granted_reply ca key md ml tid p resp p1 S :
  0 <= ev_t (ca_ev ca) -> 0 < ev_lease_ttl (ca_ev ca) ->
  sem_rel (ev_lease_ttl (ca_ev ca)) (ev_t (ca_ev ca)) (pl_redis p) S -> fresh_lease (ca_ev ca) S ->
  authorize_and_acquire ca key md ml tid p = (Ok resp, p1) -> as_is_allowed resp = true ->
  let ev := ca_ev ca in
  as_lease_id resp = new_lease ev (context_tenant resp) /\
  exists mx, sem_rel (ev_lease_ttl ev) (ev_t ev) (pl_redis p1)
    (sem_acquire (ev_lease_ttl ev) (int_time (ev_t ev)) (ev_uuid ev) (context_tenant resp) mx S).2.
Proof.
  intros Ht Httl HR Hf E Hall. unfold authorize_and_acquire, bind, unary, ret in E.
  destruct (ca_delivery ca); [|by simplify_eq/=|].
  - unfold intercept_service, ret in E. destruct (_ || _); [by simplify_eq/=|].
    unfold AuthorizeAndAcquire, catch, bind, ret in E.
    destruct (_authorize _ _ p) as [[resp'|x] p2] eqn:Ea; simplify_eq/=.
    apply (authorize_outcome _ _ _ _ _ S) in Ea; [|done..]. rewrite Hall in Ea.
    destruct Ea as (info & p0 & t & limit & mx & []). unfold context_tenant.
    destruct (as_tenant_context resp); simplify_eq/=. eauto.
  - destruct (intercept_service _ _ _ p) as [[[]|] ?]; by simplify_eq/=.
Qed.

(** [C24] The guard always gives its lease back: whatever the body does and
    however it ends, its result or exception is the guard's, and when the
    release reaches the server and Redis answers, the lease is no longer held. *)
Theorem lease_guard_frees {A} ca1 ca2 key md ml (body : AuthorizeResponse -> M Plane A) p resp p1 out p2 S1 S2 :
  0 <= ev_t (ca_ev ca1) -> 0 < ev_lease_ttl (ca_ev ca1) ->
  sem_rel (ev_lease_ttl (ca_ev ca1)) (ev_t (ca_ev ca1)) (pl_redis p) S1 -> fresh_lease (ca_ev ca1) S1 ->
  authorize_and_acquire ca1 key md ml "" p = (Ok resp, p1) -> as_is_allowed resp = true ->
  body resp p1 = (out, p2) ->
  carries_token ca2 -> ca_delivery ca2 <> LostRequest ->
  sem_rel (ev_lease_ttl (ca_ev ca2)) (ev_t (ca_ev ca2)) (pl_redis p2) S2 ->
  r_conn (ev_t (ca_ev ca2)) (pl_redis p2) = Ok tt ->
  exists p3, lease_guard ca1 ca2 key md ml body p = (out, p3) /\
    sem_rel (ev_lease_ttl (ca_ev ca2)) (ev_t (ca_ev ca2)) (pl_redis p3)
      (sem_release (context_tenant resp) (as_lease_id resp) S2).
Proof.
  intros Ht Httl HR Hf E Hall Eb Htok Hdel HR2 Hconn.
  pose proof (granted_reply _ _ _ _ _ _ _ _ _ Ht Httl HR Hf E Hall) as [Hid _].
  unfold lease_guard, bind. rewrite E, Hall. simpl. unfold finally_. rewrite Eb.
  assert (exists n p3, ReleaseLease (ca_ev ca2) (mkReleaseRequest (context_tenant resp) (as_lease_id resp) "guard_exit") p2
            = (Ok n, p3) /\ sem_rel (ev_lease_ttl (ca_ev ca2)) (ev_t (ca_ev ca2)) (pl_redis p3)
                (sem_release (context_tenant resp) (as_lease_id resp) S2)) as (n & p3 & Er & HR3).
  { unfold ReleaseLease. simpl. rewrite Hid, new_lease_belongs. simpl. unfold bind, in_redis.
    assert (exists a r3, release (ev_t (ca_ev ca2)) (context_tenant resp)
              (new_lease (ca_ev ca1) (context_tenant resp)) (pl_redis p2) = (Ok a, r3)) as (a & r3 & Er).
    { unfold release, trip, bind. rewrite Hconn.
      destruct (release_lua_spec (ev_t (ca_ev ca2)) (context_tenant resp)
                  (new_lease (ca_ev ca1) (context_tenant resp)) (pl_redis p2)) as (n & r1 & -> & _);
        [apply HR2|]. unfold ret. case_match; eauto. }
    rewrite Er. pose proof (release_sim _ _ _ _ _ _ _ _ HR2 Er) as [_ Hs].
    rewrite <- Hid in *.
    destruct (0 <=? a); simpl; eauto. }
  exists p3. unfold release_lease, bind, unary, replying, bind.
  destruct (ca_delivery ca2); [|done|]; rewrite intercept_passes, Er by done; by split.
Qed.
End client_props.
