(* ===== verification/Webhook.v ===== *)
(** * Event emission and webhook delivery (events.py)

    The background worker that drains the outbox: each tick posts the pending
    events, records the attempt and gives up after [max_attempts]. The
    receiving endpoint is a parameter, [post]; a worker's life is its ticks in
    order. *)
From S2P Require Import Prelude PyText Json StoreState Ledger.

Definition EVENT_TENANT_CREATED : string := "tenant.created".
Definition EVENT_TENANT_QUOTA_CHANGED : string := "tenant.quota_changed".
Definition EVENT_TENANT_STATUS_CHANGED : string := "tenant.status_changed".
Definition EVENT_TENANT_DELETED : string := "tenant.deleted".
Definition EVENT_APIKEY_CREATED : string := "apikey.created".
Definition EVENT_APIKEY_REVOKED : string := "apikey.revoked".

(** [hmac.new(key, msg, hashlib.sha256).hexdigest()] *)
Class HmacLib := { hmac_sha256 : string -> string -> string }.
Definition toy_hmac : HmacLib := {| hmac_sha256 k m := "hmac:" +:+ k +:+ ":" +:+ m |}.

(** An HTTP endpoint: the status it answers to a body and headers at a time,
    or the exception the client raises. *)
Definition Endpoint : Type := Z -> string -> list (string * string) -> res Z.

Section webhook.
Context `{HmacLib}.

Definition sign_payload (secret body : string) : string := hmac_sha256 secret body.

(** [emit_event]: a failing append is logged, not raised. *)
Definition emit_event (now : Z) (rnd_id event_type tenant_id : string) (payload : json) : M Store unit :=
  catch (append_event now rnd_id event_type tenant_id payload ;;; ret tt) (fun _ => ret tt).

(** [dispatch_hook]: the first statement calls [.encode()] on a dict, outside
    the [try]. *)
Definition dispatch_hook {S} (url secret event : string) (data : json) : M S json :=
  raise (AttributeError "'dict' object has no attribute 'encode'").

(** The worker's settings. *)
Record Worker : Type := mkWorker {
  w_secret : string;
  w_max_attempts : Z;
  w_batch_size : Z
}.
Variables (w : Worker) (post : Endpoint).

Definition webhook_body (event : Event) : string :=
  json_text (JObj [("event_id", JStr (e_event_id event));
                   ("event_type", JStr (e_event_type event));
                   ("tenant_id", JStr (e_tenant_id event));
                   ("payload", e_payload event);
                   ("created_at", JFloat (e_created_at event))]).
Definition webhook_headers (event : Event) : list (string * string) :=
  [("Content-Type", "application/json");
   ("X-Fusion-Event-Id", e_event_id event);
   ("X-Fusion-Event", e_event_type event);
   ("X-Fusion-Signature", "sha256=" +:+ sign_payload (w_secret w) (webhook_body event))].
(** [200 <= resp.status_code < 300], [False] on an exception. *)
Definition accepted (now : Z) (event : Event) : bool :=
  match post now (webhook_body event) (webhook_headers event) with
  | Ok status => (200 <=? status) && (status <? 300)
  | Raise _ => false
  end.

Definition _deliver_one (now : Z) (event : Event) : M Store unit :=
  let attempts := e_attempts event + 1 in
  let status := if accepted now event then "delivered"
                else if w_max_attempts w <=? attempts then "dead" else "pending" in
  mark_event now (e_event_id event) status (Some attempts) ;;; ret tt.

(** [stop_after]: how many deliveries happen before the stop flag is set. *)
Definition _tick (now : Z) (stop_after : nat) : M Store unit :=
  let! events := gets (pending_events (w_batch_size w)) in
  for_each (take stop_after events) (_deliver_one now).

(** [_run]: a tick that raises is logged. *)
Fixpoint _run (ticks : list (Z * nat)) : M Store unit :=
  match ticks with
  | [] => ret tt
  | (now, stop_after) :: ticks' =>
      catch (_tick now stop_after) (fun _ => ret tt) ;;; _run ticks'
  end.

(** ** What a tick does to the outbox *)

(** The event after one delivery. *)
Definition attempted (now : Z) (e : Event) : Event :=
  marked now (if accepted now e then "delivered"
              else if w_max_attempts w <=? e_attempts e + 1 then "dead" else "pending")
    (Some (e_attempts e + 1)) e.
Definition ids (l : list Event) : list string := e_event_id <$> l.
(** The events with an id of [batch] are attempted. *)
Definition attempt_batch (now : Z) (batch : list string) (l : list Event) : list Event :=
  (fun e => if decide (e_event_id e ∈ batch) then attempted now e else e) <$> l.

Lemma mark_first_one now id st a l :
  NoDup (ids l) -> id ∈ ids l ->
  mark_first now id st a l =
  Some ((fun e => if decide (e_event_id e = id) then marked now st a e else e) <$> l).
Proof.
  unfold ids. induction l as [|e l IH]; [by intros _ ?%elem_of_nil|].
  csimpl. intros [Hnin Hnd]%NoDup_cons Hin. case_decide as He.
  - f_equal. f_equal. rewrite <- list_fmap_id at 1. apply list_fmap_ext. intros i x Hx.
    rewrite decide_False; [done|]. intros Hid. apply Hnin. rewrite He, <- Hid.
    apply list_elem_of_fmap. exists x. split; [done|]. by eapply list_elem_of_lookup_2.
  - apply elem_of_cons in Hin as [?|Hin]; [congruence|]. by rewrite IH.
Qed.
Lemma attempted_id now e : e_event_id (attempted now e) = e_event_id e.
Proof. done. Qed.
Lemma attempt_batch_ids now b l : ids (attempt_batch now b l) = ids l.
Proof.
  unfold ids, attempt_batch. rewrite <- list_fmap_compose. apply list_fmap_ext. intros i e _. simpl.
  by case_decide.
Qed.

Lemma deliver_one_run now e s :
  NoDup (ids (events s)) -> e ∈ events s ->
  _deliver_one now e s = (Ok tt, set_events (attempt_batch now [e_event_id e] (events s)) s).
Proof.
  intros Hnd Hin. unfold _deliver_one, mark_event, bind, gets, modify, ret.
  rewrite mark_first_one; [|done|by apply list_elem_of_fmap_2]. simpl. f_equal. f_equal.
  apply list_fmap_ext. intros i x Hx. destruct (decide (e_event_id x = e_event_id e)) as [E|E].
  - rewrite decide_True by set_solver. unfold attempted.
    assert (x = e) as ->; [|done]. apply list_elem_of_lookup in Hin as [j Hj].
    assert (i = j); [|congruence]. eapply (NoDup_lookup (ids (events s))); [done| |].
    + unfold ids. by rewrite list_lookup_fmap, Hx.
    + unfold ids. rewrite list_lookup_fmap, Hj. simpl. congruence.
  - rewrite decide_False; set_solver.
Qed.

Lemma attempt_batch_cons now id b l :
  id ∉ b -> attempt_batch now b (attempt_batch now [id] l) = attempt_batch now (id :: b) l.
Proof.
  intros Hid. unfold attempt_batch. rewrite <- list_fmap_compose. apply list_fmap_ext.
  intros i e _. simpl. destruct (decide (e_event_id e = id)) as [<-|Hne].
  - rewrite (decide_True (P := e_event_id e ∈ [_])) by set_solver.
    rewrite attempted_id, decide_False, decide_True by set_solver. done.
  - rewrite (decide_False (P := e_event_id e ∈ [_])) by set_solver.
    destruct (decide (e_event_id e ∈ b)); [rewrite decide_True|rewrite decide_False]; set_solver.
Qed.
Lemma deliver_all_run now b s :
  NoDup (ids (events s)) -> NoDup (ids b) -> b ⊆ events s ->
  for_each b (_deliver_one now) s = (Ok tt, set_events (attempt_batch now (ids b) (events s)) s).
Proof.
  revert s. induction b as [|e b IH]; intros s Hnd Hb Hsub; simpl.
  { unfold ret. f_equal. assert (attempt_batch now [] (events s) = events s) as ->; [|by destruct s].
    unfold attempt_batch. rewrite <- list_fmap_id. apply list_fmap_ext. intros i x _.
    rewrite decide_False; [done|]. by intros ?%elem_of_nil. }
  csimpl in Hb. apply NoDup_cons in Hb as [Hne Hb]. unfold bind.
  rewrite deliver_one_run by set_solver. rewrite IH.
  - cbn [events set_events]. rewrite attempt_batch_cons by done. done.
  - cbn [events set_events]. by rewrite attempt_batch_ids.
  - done.
  - intros x Hx. change (x ∈ attempt_batch now [e_event_id e] (events s)).
    apply list_elem_of_fmap. exists x. rewrite decide_False; [split; [done|set_solver]|].
    intros Hid%list_elem_of_singleton. apply Hne. rewrite <- Hid. by apply list_elem_of_fmap_2.
Qed.

(** The events a tick works on. *)
Definition batch (stop_after : nat) (s : Store) : list Event :=
  take stop_after (pending_events (w_batch_size w) s).
Lemma py_take_sublist {A} n (l : list A) : py_take n l `sublist_of` l.
Proof. unfold py_take. case_decide; apply sublist_take. Qed.
Lemma batch_sublist n s :
  batch n s `sublist_of` filter (fun e => e_status e = EVENT_STATUS_PENDING) (events s).
Proof. unfold batch, pending_events. etrans; [apply sublist_take|apply py_take_sublist]. Qed.
Lemma tick_run now n s :
  NoDup (ids (events s)) ->
  _tick now n s = (Ok tt, set_events (attempt_batch now (ids (batch n s)) (events s)) s).
Proof.
  intros Hnd. unfold _tick. rewrite bind_gets.
  assert (Hs : batch n s `sublist_of` events s).
  { etrans; [apply batch_sublist|apply sublist_filter]. }
  apply deliver_all_run; [done| |].
  - eapply sublist_NoDup; [exact Hnd|]. by apply fmap_sublist.
  - intros x Hx. by eapply elem_of_sublist.
Qed.

(** ** Termination: the work an outbox can still cause *)

Definition is_pending (e : Event) : bool := bool_decide (e_status e = EVENT_STATUS_PENDING).
(** Deliveries an event can still need. *)
Definition work (e : Event) : nat :=
  if is_pending e then Z.to_nat (Z.max 1 (w_max_attempts w - e_attempts e)) else 0%nat.
Definition outstanding (l : list Event) : nat := sum_list_with work l.

Lemma attempted_status now e :
  e_status (attempted now e) = if accepted now e then "delivered"
    else if w_max_attempts w <=? e_attempts e + 1 then "dead" else "pending".
Proof. done. Qed.
Lemma work_attempted now e : is_pending e = true -> (work (attempted now e) < work e)%nat.
Proof.
  intros He. unfold work at 2. rewrite He. unfold work, is_pending. rewrite attempted_status.
  change (e_attempts (attempted now e)) with (e_attempts e + 1).
  destruct (accepted now e); [rewrite bool_decide_false by done; lia|].
  destruct (Z.leb_spec (w_max_attempts w) (e_attempts e + 1)); [rewrite bool_decide_false by done; lia|].
  rewrite bool_decide_true by done. lia.
Qed.
Lemma outstanding_batch now b l :
  (forall e, e ∈ l -> e_event_id e ∈ b -> is_pending e = true) ->
  (outstanding (attempt_batch now b l) + length (filter (fun e => e_event_id e ∈ b) l)
    <= outstanding l)%nat.
Proof.
  intros Hb. unfold outstanding, attempt_batch. induction l as [|e l IH]; [done|].
  csimpl. rewrite filter_cons. specialize (IH ltac:(set_solver)).
  pose proof (work_attempted now e) as Hw. specialize (Hb e (list_elem_of_here _ _)).
  repeat case_decide; simpl; [specialize (Hw (Hb ltac:(assumption)))|..]; lia.
Qed.
Lemma outstanding_zero l : outstanding l = 0%nat -> forall e, e ∈ l -> is_pending e = false.
Proof.
  unfold outstanding. induction l as [|x l IH]; [by intros _ e ?%elem_of_nil|].
  simpl. intros Hz e [->|He]%elem_of_cons; [|apply IH; [lia|done]].
  destruct (is_pending x) eqn:E; [|done]. unfold work in Hz. rewrite E in Hz. lia.
Qed.

Lemma batch_pending n s e : NoDup (ids (events s)) ->
  e ∈ events s -> e_event_id e ∈ ids (batch n s) -> is_pending e = true /\ e ∈ batch n s.
Proof.
  intros Hnd He Hid. apply list_elem_of_fmap in Hid as (x & Eid & Hx).
  assert (Hx' : x ∈ filter (fun e => e_status e = EVENT_STATUS_PENDING) (events s))
    by (eapply elem_of_sublist; [done|apply batch_sublist]).
  apply list_elem_of_filter in Hx' as [Hp Hin].
  assert (e = x) as ->; [|split; [by apply bool_decide_eq_true|done]].
  apply list_elem_of_lookup in He as [i Hi]. apply list_elem_of_lookup in Hin as [j Hj].
  assert (i = j); [|congruence]. eapply (NoDup_lookup (ids (events s))); [done| |];
    unfold ids; rewrite list_lookup_fmap; [rewrite Hi; done|rewrite Hj; simpl; congruence].
Qed.

(** A tick that delivers at all leaves less to do, unless nothing was left. *)
Lemma tick_progress now n s s' :
  NoDup (ids (events s)) -> 1 <= w_batch_size w -> (1 <= n)%nat ->
  _tick now n s = (Ok tt, s') ->
  NoDup (ids (events s')) /\ (outstanding (events s') <= outstanding (events s) - 1)%nat.
Proof.
  intros Hnd Hb Hn. rewrite tick_run by done. intros [= <-]. cbn [events set_events].
  split; [by rewrite attempt_batch_ids|].
  destruct (decide (outstanding (events s) = 0%nat)) as [Hz|Hz].
  - pose proof (outstanding_batch now (ids (batch n s)) (events s)) as Ho.
    assert (_ <= _)%nat by (apply Ho; intros e He Hid; by apply (batch_pending n s)). lia.
  - pose proof (outstanding_batch now (ids (batch n s)) (events s)
      (fun e He Hid => proj1 (batch_pending n s e Hnd He Hid))) as Ho.
    assert (0 < length (filter (fun e => e_event_id e ∈ ids (batch n s)) (events s)))%nat; [|lia].
    assert (exists e, e ∈ batch n s /\ e ∈ events s) as (e & He & Hin).
    { destruct (filter (fun e => e_status e = EVENT_STATUS_PENDING) (events s)) as [|e l] eqn:Ef.
      - exfalso. apply Hz. unfold outstanding.
        assert (forall x, x ∈ events s -> work x = 0%nat) as Hw.
        { intros x Hx. unfold work, is_pending. case_bool_decide as E; [|done]. exfalso.
          assert (x ∈ filter (fun e => e_status e = EVENT_STATUS_PENDING) (events s))
            as Hf by by apply list_elem_of_filter. rewrite Ef in Hf. by apply elem_of_nil in Hf. }
        clear -Hw. induction (events s) as [|x l IH]; simpl; [done|]. rewrite Hw, IH; set_solver.
      - exists e. assert (e ∈ e :: l) as Hf by left. rewrite <- Ef in Hf.
        apply list_elem_of_filter in Hf as [_ Hin]. split; [|done].
        unfold batch, pending_events, py_take. rewrite Ef, decide_False by lia.
        destruct (Z.to_nat (w_batch_size w)) eqn:En; [lia|]. destruct n; [lia|]. simpl. left. }
    destruct (filter _ _) eqn:Ef; [|simpl; lia]. exfalso.
    assert (e ∈ filter (fun e => e_event_id e ∈ ids (batch n s)) (events s)) as Hf.
    { apply list_elem_of_filter. split; [by apply list_elem_of_fmap_2|done]. }
    rewrite Ef in Hf. by apply elem_of_nil in Hf.
Qed.

(** ** The fate of an event *)

(** What some deliveries may have made of an event: nothing, or, if it was
    pending, a recorded number of attempts within the bound and a status that
    the endpoint's answers justify. *)
Definition fate (ticks : list (Z * nat)) (e e' : Event) : Prop :=
  e' = e \/
  (is_pending e = true /\
   (exists upd status, e' = marked upd status (Some (e_attempts e')) e) /\
   e_attempts e < e_attempts e' <= Z.max (e_attempts e + 1) (w_max_attempts w) /\
   ((e_status e' = EVENT_STATUS_DELIVERED /\ exists tk, tk ∈ ticks /\ accepted tk.1 e = true) \/
    (e_status e' = EVENT_STATUS_DEAD /\ w_max_attempts w <= e_attempts e') \/
    (e_status e' = EVENT_STATUS_PENDING /\ e_attempts e' < w_max_attempts w))).

Lemma fate_tick now n e : is_pending e = true -> fate [(now, n)] e (attempted now e).
Proof.
  intros He. right. split; [done|]. split; [by eexists now, _|]. simpl.
  split; [lia|]. destruct (accepted now e) eqn:Ha.
  - left. split; [done|]. exists (now, n). split; [by left|done].
  - right. destruct (Z.leb_spec (w_max_attempts w) (e_attempts e + 1)); [left|right]; done.
Qed.
Lemma fate_trans t1 t2 e e' e'' : fate t1 e e' -> fate t2 e' e'' -> fate (t1 ++ t2) e e''.
Proof.
  intros [->|(He & (u & st & Hm) & Ha & Hst)] [->|(He' & (u' & st' & Hm') & Ha' & Hst')].
  - by left.
  - right. split_and!; [done|by eauto|lia|lia|]. destruct Hst' as [(? & tk & ? & ?)|?]; [left|by right].
    split; [done|]. exists tk. split; [|done]. apply elem_of_app. by right.
  - right. split_and!; [done|by eauto|lia|lia|]. destruct Hst as [(? & tk & ? & ?)|?]; [left|by right].
    split; [done|]. exists tk. split; [|done]. apply elem_of_app. by left.
  - apply bool_decide_eq_true in He'.
    destruct Hst as [[Hs _]|[[Hs _]|[_ Hlt]]]; [by rewrite He' in Hs|by rewrite He' in Hs|].
    right. split; [done|]. split; [exists u', st'; rewrite Hm', Hm; done|]. split; [lia|].
    assert (Hacc : forall now, accepted now e' = accepted now e) by by (intros; rewrite Hm).
    destruct Hst' as [(? & tk & ? & Htk)|?]; [left|by right]. split; [done|]. exists tk.
    rewrite Hacc in Htk. split; [|done]. apply elem_of_app. by right.
Qed.

Lemma Forall2_compose {A B C} (P : A -> B -> Prop) (Q : B -> C -> Prop) (R : A -> C -> Prop) l k m :
  (forall x y z, P x y -> Q y z -> R x z) -> Forall2 P l k -> Forall2 Q k m -> Forall2 R l m.
Proof. intros HR HP. revert m. induction HP; intros m HQ; inversion HQ; subst; constructor; eauto. Qed.
Lemma run_fate ticks s :
  NoDup (ids (events s)) -> 1 <= w_batch_size w -> Forall (fun tk => 1 <= tk.2)%nat ticks ->
  exists s', _run ticks s = (Ok tt, s') /\ NoDup (ids (events s')) /\
    (outstanding (events s') <= outstanding (events s) - length ticks)%nat /\
    Forall2 (fate ticks) (events s) (events s').
Proof.
  revert s. induction ticks as [|[now n] ticks IH]; intros s Hnd Hb Htk; simpl.
  { exists s. split; [done|]. split; [done|]. split; [lia|]. apply Forall_Forall2_diag, Forall_forall.
    intros e _. by left. }
  apply Forall_cons in Htk as [Hn Htk]. simpl in Hn.
  pose proof (tick_run now n s Hnd) as Et.
  destruct (tick_progress now n s _ Hnd Hb Hn Et) as [Hnd1 Ho].
  set (s1 := set_events _ s) in *.
  destruct (IH s1 Hnd1 Hb Htk) as (s' & Hr & Hnd' & Ho' & Hf).
  exists s'. unfold bind, catch. rewrite Et. split; [done|]. split; [done|]. split; [lia|].
  eapply (Forall2_compose (fate [(now, n)]) (fate ticks)); [|clear Hf|exact Hf].
  { intros. by eapply (fate_trans [(now, n)]). }
  apply Forall2_same_length_lookup. split; [unfold s1, attempt_batch; simpl; by rewrite length_fmap|].
  intros i e e' He He'. unfold s1, attempt_batch in He'. simpl in He'.
  rewrite list_lookup_fmap, He in He'. simpl in He'. injection He' as <-.
  case_decide as Hid; [|by left]. apply fate_tick. apply (batch_pending n s e); [done| |done].
  by eapply list_elem_of_lookup_2.
Qed.

(** [C22] The worker empties the outbox. Whatever the endpoint answers, after as
    many ticks as the pending events can still need deliveries no event is
    pending; the run itself never fails, keeps every event, leaves the settled
    ones as they are, calls an event delivered only if the endpoint accepted
    it and dead only after [max_attempts] deliveries, and never makes more
    deliveries of an event than that. *)
Theorem webhook_worker_drains ticks s :
  NoDup (ids (events s)) -> 1 <= w_batch_size w -> Forall (fun tk => 1 <= tk.2)%nat ticks ->
  (outstanding (events s) <= length ticks)%nat ->
  exists s', _run ticks s = (Ok tt, s') /\
    (forall e, e ∈ events s' -> e_status e <> EVENT_STATUS_PENDING) /\
    Forall2 (fate ticks) (events s) (events s').
Proof.
  intros Hnd Hb Htk Hlen. destruct (run_fate ticks s Hnd Hb Htk) as (s' & Hr & _ & Ho & Hf).
  exists s'. split; [done|]. split; [|done]. intros e He Hp.
  assert (outstanding (events s') = 0%nat) as Hz by lia.
  pose proof (outstanding_zero _ Hz e He) as Hn. by apply bool_decide_eq_false in Hn.
Qed.
End webhook.

(** The post-provision hook cannot be delivered: whatever its arguments, the
    call raises before the first byte is sent. *)
Lemma dispatch_hook_raises {S} url secret event data (s : S) :
  exists e, dispatch_hook url secret event data s = (Raise e, s).
Proof. by eexists. Qed.
