(* ===== verification/TenantRoutes.v ===== *)
(** * Tenant, quota and API-key handlers (routes/tenants.py, quotas.py,
    api_keys.py) and the cache invalidation of deps.py

    The handlers run over the store and Redis ([Plane]); [cache] tells whether
    a cache is configured ([get_cache(request)] is not [None]). *)
From S2P Require Import Prelude PyText StoreState Prims AuditLog Tenants Rbac Users Keys Tokens Ledger.
From S2P Require Import Crypto Jwt Jwks Auth Deps MemberRoutes Redis Leases Cache DataPlane Webhook.

(** The two ways [if not fields] sees a request body ([exclude_none]). *)
Definition no_tenant_fields (f : TenantFields) : bool :=
  match f with mkTenantFields None None None None => true | _ => false end.
Definition no_quota_fields (f : QuotaFields) : bool :=
  match f with mkQuotaFields None None None None None None None => true | _ => false end.

(** A quota row as the handlers return and emit it. *)
Definition quota_json (q : TenantQuota) : json :=
  JObj [("tenant_id", JStr (tq_tenant_id q)); ("updated_at", JFloat (tq_updated_at q));
        ("rpm", JInt (q_rpm (tq_quota q))); ("tpm", JInt (q_tpm (tq_quota q)));
        ("concurrent", JInt (q_concurrent (tq_quota q)));
        ("storage_mb", JInt (q_storage_mb (tq_quota q)));
        ("allowed_models", jlist (q_allowed_models (tq_quota q)));
        ("allowed_modules", jlist (q_allowed_modules (tq_quota q)));
        ("default_priority", JInt (q_default_priority (tq_quota q)))].

(** [_scrub_api_key]: a key row without its hash. *)
Record KeyView : Type := mkKeyView {
  kv_key_id : string; kv_tenant_id : string; kv_user_id : option string; kv_prefix : string;
  kv_scopes : list string; kv_created_at : Z; kv_revoked_at : option Z
}.
Definition _scrub_api_key (k : ApiKey) : KeyView :=
  mkKeyView (k_key_id k) (k_tenant_id k) (k_user_id k) (k_prefix k) (k_scopes k) (k_created_at k)
    (k_revoked_at k).

Definition stale_detail : string :=
  "api key revoked but cache invalidation failed — key may remain valid up to TTL".
Definition stale_quota_detail : string :=
  "quota updated but cache invalidation failed — may serve stale quota".

Section invalidation.
Context `{RedisLib}.
Variables (cache : bool) (t : Z).

Definition invalidate_tenant_cache (tenant_id : string) : M Plane unit :=
  if cache then in_redis (invalidate_tenant t tenant_id) else ret tt.

Definition invalidate_tenant_api_keys_cache (tenant_id : string) : M Plane unit :=
  if cache then
    let! api_keys := gets (fun p => list_api_keys tenant_id (pl_store p)) in
    let key_hashes := filter (fun h => str_true h = true) (k_key_hash <$> api_keys) in
    in_redis (invalidate_tenant_api_keys t key_hashes) ;;;
    in_redis (invalidate_tenant t tenant_id)
  else ret tt.

(** [try: await m  except Exception: raise HTTPException(500, ...)] *)
Definition fail_visibly {S A} (m : M S A) (detail : string) : M S A :=
  catch m (fun _ => raise (http 500 detail)).
(** [next((k for k in list_api_keys(tenant_id) if k["key_id"] == key_id), None)] *)
Definition find_key (tenant_id key_id : string) (s : Store) : option ApiKey :=
  snd <$> list_find (fun k => k_key_id k = key_id) (list_api_keys tenant_id s).
(** The cache part of a key's revocation, shared with routes/admin.py. *)
Definition drop_cached_key (rec : ApiKey) : M Plane unit :=
  if cache && str_true (k_key_hash rec)
  then fail_visibly (in_redis (invalidate_api_key_by_hash t (k_key_hash rec))) stale_detail
  else ret tt.
End invalidation.

Section tenant_routes.
Context `{HashLib, Argon2Lib, JwtLib} `{RedisLib}.
Variables (cfg : AuthConfig) (ring : KeyRing) (cache : bool) (now : Z) (hdr : Headers).
#[local] Abbreviation guard r a tid := (in_store (guard cfg ring now hdr r a tid)).

(** [append_audit(tenant_id, sub, None, role, action, resource, detail)] *)
Definition route_audit (claims : Claims) (tenant_id action resource : string) (detail : json)
    : M Plane unit :=
  in_store (append_audit now tenant_id (Some (c_sub claims)) None (c_role claims) action
              (Some resource) detail) ;;; ret tt.

(** ** Tenants *)

Definition list_tenants_self : M Plane (list Tenant) :=
  let! claims := in_store (require_permission_of cfg ring now "tenants" "read" (hd_tenant hdr)
                             (hd_authorization hdr) None) in
  gets (fun p => list_tenants_for (c_tid claims) (pl_store p)).

Definition get_tenant_route (tenant_id : string) : M Plane Tenant :=
  guard "tenants" "read" tenant_id ;;;
  let! tn := gets (fun p => get_tenant tenant_id (pl_store p)) in
  match tn with
  | None => raise (http 404 "tenant not found")
  | Some tn => ret tn
  end.

(** [rnd_evt] is the draw of the event id. *)
Definition update_tenant_route (rnd_evt tenant_id : string) (fields : TenantFields) : M Plane Tenant :=
  let! claims := guard "tenants" "write" tenant_id in
  if no_tenant_fields fields then raise (http 400 "no fields to update")
  else
    let! tn := in_store (on_conflict (update_tenant now tenant_id fields) (http 409)) in
    match tn with
    | None => raise (http 404 "tenant not found")
    | Some tn =>
        match tf_status fields with
        | Some status =>
            route_audit claims tenant_id "tenant.status_change" "tenant"
              (JObj [("status", JStr status)]) ;;;
            in_store (emit_event now rnd_evt EVENT_TENANT_STATUS_CHANGED tenant_id
              (JObj [("tenant_id", JStr tenant_id); ("status", JStr status)]))
        | None => ret tt
        end ;;;
        match tf_join_policy fields with
        | Some jp =>
            route_audit claims tenant_id "tenant.join_policy_change" "tenant"
              (JObj [("join_policy", JStr jp)])
        | None => ret tt
        end ;;;
        invalidate_tenant_cache cache now tenant_id ;;;
        ret tn
    end.

(** ** Quotas *)

Definition get_quota_route (tenant_id : string) : M Plane TenantQuota :=
  guard "quotas" "read" tenant_id ;;;
  let! q := gets (fun p => get_quota tenant_id (pl_store p)) in
  match q with
  | None => raise (http 404 "tenant not found")
  | Some q => ret q
  end.

Definition put_quota_route (rnd_evt tenant_id : string) (fields : QuotaFields) : M Plane TenantQuota :=
  guard "quotas" "write" tenant_id ;;;
  if no_quota_fields fields then raise (http 400 "no fields to update")
  else
    let! q := in_store (put_quota now tenant_id fields) in
    match q with
    | None => raise (http 404 "tenant not found")
    | Some q =>
        fail_visibly (invalidate_tenant_api_keys_cache cache now tenant_id) stale_quota_detail ;;;
        in_store (emit_event now rnd_evt EVENT_TENANT_QUOTA_CHANGED tenant_id
          (JObj [("tenant_id", JStr tenant_id); ("quota", quota_json q)])) ;;;
        ret q
    end.

(** ** API keys *)

Definition list_api_keys_route (tenant_id : string) : M Plane (list KeyView) :=
  guard "api_keys" "read" tenant_id ;;;
  gets (fun p => _scrub_api_key <$> list_api_keys tenant_id (pl_store p)).

(** The raw key, returned this once, and the row. *)
Definition create_api_key_route (rnd_raw rnd_id rnd_evt tenant_id : string) (scopes : list string)
    : M Plane (string * KeyView) :=
  let! claims := guard "api_keys" "write" tenant_id in
  let! (raw, rec) := in_store (create_api_key now rnd_raw rnd_id tenant_id (Some (c_sub claims)) scopes) in
  route_audit claims tenant_id "apikey.create" "api_key" (JObj [("key_id", JStr (k_key_id rec))]) ;;;
  in_store (emit_event now rnd_evt EVENT_APIKEY_CREATED tenant_id
    (JObj [("tenant_id", JStr tenant_id); ("key_id", JStr (k_key_id rec));
           ("prefix", JStr (k_prefix rec))])) ;;;
  ret (raw, _scrub_api_key rec).

Definition revoke_api_key_route (rnd_evt tenant_id key_id : string) : M Plane bool :=
  let! claims := guard "api_keys" "delete" tenant_id in
  let! rec := gets (fun p => find_key tenant_id key_id (pl_store p)) in
  match rec with
  | None => raise (http 404 "api key not found")
  | Some rec =>
      let! ok := in_store (revoke_api_key now key_id) in
      drop_cached_key cache now rec ;;;
      route_audit claims tenant_id "apikey.revoke" "api_key" (JObj [("key_id", JStr key_id)]) ;;;
      in_store (emit_event now rnd_evt EVENT_APIKEY_REVOKED tenant_id
        (JObj [("tenant_id", JStr tenant_id); ("key_id", JStr key_id)])) ;;;
      ret ok
  end.
End tenant_routes.
