(* ===== verification/AdminRoutes.v ===== *)
(** * Service-token administration (routes/admin.py)

    Every handler is behind [require_service_token]; [auth] is the
    [Authorization] header. Tenants, quotas and keys on behalf of a tenant,
    aggregated reads, and the re-encryption of stored secrets under a new
    key-encryption key. *)
From S2P Require Import Prelude PyText StoreState Prims AuditLog Tenants Rbac Users Keys Tokens Ledger.
From S2P Require Import Crypto Jwt Jwks Auth Deps MemberRoutes Redis Leases Cache DataPlane Webhook.
From S2P Require Import TenantRoutes.

Record AdminTenantCreate : Type := mkAdminTenantCreate {
  ac_tenant_id : string; ac_display_name : string; ac_plan : string;
  ac_max_concurrency : option Z; ac_daily_token_limit : option Z;
  ac_allowed_modules : option (list string); ac_allowed_models : option (list string);
  ac_join_policy : option string
}.
Record AdminTenantUpdate : Type := mkAdminTenantUpdate {
  au_max_concurrency : option Z; au_daily_token_limit : option Z;
  au_allowed_modules : option (list string); au_allowed_models : option (list string);
  au_display_name : option string; au_status : option string; au_join_policy : option string
}.
Record AdminApiKeyCreate : Type := mkAdminApiKeyCreate {
  ak_user_id : option string; ak_name : option string; ak_scopes : list string;
  ak_expires_in_days : option Z
}.

(** [_quota_fields] *)
Definition _quota_fields (max_concurrency daily_token_limit : option Z)
    (allowed_modules allowed_models : option (list string)) : QuotaFields :=
  mkQuotaFields None daily_token_limit max_concurrency None allowed_models allowed_modules None.
(** The dict it is, as the event payload has it. *)
Definition jfield {A} (k : string) (f : A -> json) (o : option A) : list (string * json) :=
  match o with Some v => [(k, f v)] | None => [] end.
Definition quota_fields_json (f : QuotaFields) : json :=
  JObj (jfield "concurrent" JInt (qf_concurrent f) ++ jfield "tpm" JInt (qf_tpm f) ++
        jfield "allowed_modules" jlist (qf_allowed_modules f) ++
        jfield "allowed_models" jlist (qf_allowed_models f)).

(** [round(n / d * 100, 2)] in hundredths, computed exactly (half to even). *)
Definition round_div (n d : Z) : Z :=
  let q := n / d in
  match 2 * (n mod d) ?= d with
  | Lt => q
  | Gt => q + 1
  | Eq => if Z.even q then q else q + 1
  end.
Definition percentage (n d : Z) : Z := if 0 <? d then round_div (n * 10000) d else 0.

Record UsageToday : Type := mkUsageToday {
  ut_current_active : Z; ut_max_limit : Z; ut_prompt : Z; ut_completion : Z; ut_total : Z;
  ut_daily_limit : Z; ut_percentage : Z
}.
Record AppInventory : Type := mkAppInventory {
  ai_app_id : string; ai_versions : Z; ai_current_version : option Z; ai_active : bool;
  ai_created_at : Z; ai_grace_until : option (option Z)
}.
(** [by_app.setdefault(r["app_id"], []).append(r)] *)
Definition group_app (d : list (string * list AppSecretItem)) (r : AppSecretItem)
    : list (string * list AppSecretItem) :=
  dset (si_app_id r) (default [] (dget (si_app_id r) d) ++ [r]) d.
(** [next((v for v in versions if v["status"] == st), None)] *)
Definition first_status (st : string) (versions : list AppSecretItem) : option AppSecretItem :=
  snd <$> list_find (fun v => si_status v = st) versions.
Definition inventory_of (app_id : string) (versions : list AppSecretItem) : AppInventory :=
  let current := first_status "current" versions in
  mkAppInventory app_id (zlen versions) (si_version <$> current)
    (match current with Some _ => true | None => false end)
    (match versions with v :: _ => si_created_at v | [] => 0 end)
    (si_grace_until <$> first_status "grace" versions).

(** The counts [admin_kek_reencrypt] returns (second factors without the
    skipped ones). *)
Record Sweep : Type := mkSweep { sw_total : Z; sw_migrated : Z; sw_skipped : Z; sw_failed : Z }.
Definition sweep_skip (c : Sweep) : Sweep :=
  mkSweep (sw_total c + 1) (sw_migrated c) (sw_skipped c + 1) (sw_failed c).
Definition sweep_fail (c : Sweep) : Sweep :=
  mkSweep (sw_total c + 1) (sw_migrated c) (sw_skipped c) (sw_failed c + 1).
Definition sweep_done (c : Sweep) : Sweep :=
  mkSweep (sw_total c + 1) (sw_migrated c + 1) (sw_skipped c) (sw_failed c).
(** [for x in l: c = body(x, c)] *)
Fixpoint for_fold {S A C} (l : list A) (body : A -> C -> M S C) (c : C) : M S C :=
  match l with
  | [] => ret c
  | x :: l' => let! c' := body x c in for_fold l' body c'
  end.

Section admin_routes.
Context `{HashLib, AeadLib} `{RedisLib}.
Variables (service_token : string) (service_token_prev : option string) (cache : bool).
Variables (now : Z) (auth : string).

Definition service_guard : M Plane unit :=
  lift (require_service_token service_token service_token_prev auth).
Definition tenant_or_404 (tenant_id : string) : M Plane Tenant :=
  let! tn := gets (fun p => get_tenant tenant_id (pl_store p)) in
  match tn with
  | None => raise (http 404 "tenant not found")
  | Some tn => ret tn
  end.

Definition admin_list_tenants : M Plane (list Tenant) :=
  service_guard ;;; gets (fun p => list_tenants (pl_store p)).

Definition admin_create_tenant (rnd_evt : string) (body : AdminTenantCreate) : M Plane Tenant :=
  service_guard ;;;
  let tenant_id := ac_tenant_id body in
  let! tn := in_store (on_conflict
    (create_tenant now tenant_id (ac_display_name body) (ac_plan body)
       (or_default "invite" (ac_join_policy body))) (http 409)) in
  let fields := _quota_fields (ac_max_concurrency body) (ac_daily_token_limit body)
                  (ac_allowed_modules body) (ac_allowed_models body) in
  (if no_quota_fields fields then ret tt
   else let! _ := in_store (put_quota now tenant_id fields) in ret tt) ;;;
  invalidate_tenant_cache cache now tenant_id ;;;
  in_store (emit_event now rnd_evt EVENT_TENANT_CREATED tenant_id
    (JObj [("tenant_id", JStr tenant_id); ("plan", JStr (ac_plan body));
           ("display_name", JStr (ac_display_name body))])) ;;;
  ret tn.

(** A conflict of [update_tenant] is not caught here. *)
Definition admin_update_tenant (rnd_evt1 rnd_evt2 tenant_id : string) (body : AdminTenantUpdate)
    : M Plane Tenant :=
  service_guard ;;;
  let! tn := tenant_or_404 tenant_id in
  let tenant_fields := mkTenantFields (au_display_name body) (au_status body) None (au_join_policy body) in
  let! tn := (if no_tenant_fields tenant_fields then ret tn
              else let! updated := in_store (update_tenant now tenant_id tenant_fields) in
                   ret (default tn updated)) in
  let fields := _quota_fields (au_max_concurrency body) (au_daily_token_limit body)
                  (au_allowed_modules body) (au_allowed_models body) in
  (if no_quota_fields fields then ret tt
   else let! _ := in_store (put_quota now tenant_id fields) in ret tt) ;;;
  invalidate_tenant_cache cache now tenant_id ;;;
  match au_status body with
  | Some status =>
      in_store (emit_event now rnd_evt1 EVENT_TENANT_STATUS_CHANGED tenant_id
        (JObj [("tenant_id", JStr tenant_id); ("status", JStr status)]))
  | None => ret tt
  end ;;;
  (if no_quota_fields fields then ret tt
   else in_store (emit_event now rnd_evt2 EVENT_TENANT_QUOTA_CHANGED tenant_id
          (JObj [("tenant_id", JStr tenant_id); ("quota", quota_fields_json fields)]))) ;;;
  ret tn.

Definition admin_get_tenant_quota (tenant_id : string) : M Plane (option TenantQuota) :=
  service_guard ;;;
  tenant_or_404 tenant_id ;;;
  gets (fun p => get_quota tenant_id (pl_store p)).

(** [name] and [expires_in_days] are accepted and not used. *)
Definition admin_create_api_key (rnd_raw rnd_id rnd_evt tenant_id : string) (body : AdminApiKeyCreate)
    : M Plane (string * KeyView) :=
  service_guard ;;;
  tenant_or_404 tenant_id ;;;
  let! (raw, record) := in_store (create_api_key now rnd_raw rnd_id tenant_id (ak_user_id body)
                                    (ak_scopes body)) in
  in_store (emit_event now rnd_evt EVENT_APIKEY_CREATED tenant_id
    (JObj [("tenant_id", JStr tenant_id); ("key_id", JStr (k_key_id record));
           ("prefix", JStr (k_prefix record))])) ;;;
  ret (raw, _scrub_api_key record).

Definition _revoke_tenant_api_key (rnd_evt tenant_id key_id : string) : M Plane unit :=
  let! found := gets (fun p => find_key tenant_id key_id (pl_store p)) in
  match found with
  | None => raise (http 404 "api key not found in tenant")
  | Some k =>
      let! ok := in_store (revoke_api_key now key_id) in
      if negb ok then raise (http 404 "api key already revoked")
      else
        drop_cached_key cache now k ;;;
        in_store (emit_event now rnd_evt EVENT_APIKEY_REVOKED tenant_id
          (JObj [("tenant_id", JStr tenant_id); ("key_id", JStr key_id)]))
  end.
Definition admin_revoke_api_key (rnd_evt tenant_id key_id : string) : M Plane string :=
  service_guard ;;; _revoke_tenant_api_key rnd_evt tenant_id key_id ;;; ret key_id.

Definition admin_usage_today (concurrency : bool) (tenant_id : string) : M Plane UsageToday :=
  service_guard ;;;
  tenant_or_404 tenant_id ;;;
  let! by_metric := gets (fun p => aggregate_usage tenant_id (Some (now - sec 86400)) None None (pl_store p)) in
  let m k := default 0 (dget k by_metric) in
  let token_total := m "tokens" + m "prompt_tokens" + m "completion_tokens" in
  let! quota := gets (fun p => get_quota tenant_id (pl_store p)) in
  let daily_limit := _quota_int quota q_tpm 50000 in
  let max_limit := _quota_int quota q_concurrent 0 in
  let! current_active := (if concurrency
                          then catch (in_redis (active_count now tenant_id)) (fun _ => ret 0)
                          else ret 0) in
  ret (mkUsageToday current_active max_limit (m "prompt_tokens") (m "completion_tokens") token_total
         daily_limit (percentage token_total daily_limit)).

Definition admin_member_summary (tenant_id : string) : M Plane MemberSummary :=
  service_guard ;;; tenant_or_404 tenant_id ;;;
  let! summary := gets (fun p => get_member_summary tenant_id (pl_store p)) in
  lift summary.
Definition admin_idp_summary (tenant_id : string) : M Plane IdpSummary :=
  service_guard ;;; tenant_or_404 tenant_id ;;;
  gets (fun p => get_idp_summary tenant_id (pl_store p)).

Definition admin_app_secret_inventory : M Plane (list AppInventory) :=
  service_guard ;;;
  let! rows := gets (fun p => list_all_app_secrets now (pl_store p)) in
  let by_app := foldl group_app [] rows in
  ret ((fun app_id => inventory_of app_id (default [] (dget app_id by_app)))
         <$> sort_by String.leb (dkeys by_app)).

(** ** Key-encryption-key rotation *)

(** [nonce id] is the draw of [encrypt_secret] for the row [id]; only a
    [CryptoError] is caught. *)
Variables (kek : string) (kek_prev : option string) (nonce : string -> string).

(** [decrypt_secret(blob, kek_prev)], then [encrypt_secret(plain, kek)]. *)
Definition reencrypted (id blob prev : string) : res string :=
  match decrypt_secret blob prev None with
  | Ok plain => Ok (encrypt_secret (nonce id) plain kek)
  | Raise e => Raise e
  end.
Definition reencrypt_idp (prev : string) (idp : Idp) (c : Sweep) : M Store Sweep :=
  match ip_client_secret_enc idp with
  | None => ret (sweep_skip c)
  | Some blob =>
      if negb (str_true blob) then ret (sweep_skip c)
      else
        match reencrypted (ip_idp_id idp) blob prev with
        | Ok new_blob =>
            update_idp (ip_idp_id idp) (mkIdpFields None None None (Some new_blob) None None) ;;;
            ret (sweep_done c)
        | Raise (CryptoError _) => ret (sweep_fail c)
        | Raise e => raise e
        end
  end.
Definition mfa_row (m : Mfa) : string := mf_user_id m +:+ ":" +:+ mf_method m.
Definition reencrypt_mfa (prev : string) (m : Mfa) (c : Sweep) : M Store Sweep :=
  if negb (str_true (mf_secret_enc m)) then ret (sweep_skip c)
  else
    match reencrypted (mfa_row m) (mf_secret_enc m) prev with
    | Ok new_blob =>
        upsert_mfa now (mf_user_id m) (mf_method m) new_blob (mf_enabled m) ;;;
        ret (sweep_done c)
    | Raise (CryptoError _) => ret (sweep_fail c)
    | Raise e => raise e
    end.
Definition kek_sweep (prev : string) : M Store (Sweep * Sweep) :=
  let! rows := gets list_all_idps in
  let! ci := for_fold rows (reencrypt_idp prev) (mkSweep 0 0 0 0) in
  let! mrows := gets list_all_mfa in
  let! cm := for_fold mrows (reencrypt_mfa prev) (mkSweep 0 0 0 0) in
  ret (ci, cm).
(** Both stores of the program have the listing methods. *)
Definition admin_kek_reencrypt : M Plane (Sweep * Sweep) :=
  service_guard ;;;
  match kek_prev with
  | Some prev =>
      if str_true prev then in_store (kek_sweep prev)
      else raise (http 409 "FUSION_IDENTITY_KEK_PREV not set — no rotation window active")
  | None => raise (http 409 "FUSION_IDENTITY_KEK_PREV not set — no rotation window active")
  end.
End admin_routes.
