(* ===== verification/PlaneRouteProps.v ===== *)
(** * Handlers and the data plane together

    When a change made through a handler reaches the gRPC plane: revoking a key
    and changing a quota through the tenant's routes take effect at once,
    because they drop the cached rows of the keys; a change through the
    tenant and admin update handlers leaves those rows in place. *)
From S2P Require Import Prelude PyText StoreState Prims AuditLog Tenants Rbac Users Keys Tokens Ledger.
From S2P Require Import Crypto Jwt Jwks Auth StoreSteps Invariants KeyProps AuthLemmas Deps MemberRoutes RouteProps.
From S2P Require Import Redis Leases Cache CacheProps DataPlane PlaneProps Webhook TenantRoutes AdminRoutes.

Section effects.
Context `{HashLib, Argon2Lib, JwtLib} `{RedisLaws}.

(** ** What the store steps of a handler leave alone *)

Lemma audit_keys now tid uid jti role act res det s a s' :
  append_audit now tid uid jti role act res det s = (a, s') ->
  api_keys s' = api_keys s /\ key_hash_index s' = key_hash_index s.
Proof. cbv [append_audit bind gets modify ret]. intros Hr. simplify_eq/=. done. Qed.
Lemma emit_keys now rnd ty tid pl s a s' :
  emit_event now rnd ty tid pl s = (a, s') ->
  api_keys s' = api_keys s /\ key_hash_index s' = key_hash_index s.
Proof. cbv [emit_event append_event catch bind gets modify ret]. intros Hr. simplify_eq/=. done. Qed.

(** ** Revocation *)

Lemma revoke_key_hash now kid s k a s' :
  dget kid (api_keys s) = Some k -> revoke_api_key now kid s = (a, s') ->
  get_api_key_by_hash (k_key_hash k) s' = None.
Proof.
  intros Hk. unfold revoke_api_key. rewrite bind_gets, Hk. intros [= <- <-].
  unfold get_api_key_by_hash. simpl. by rewrite dget_dpop_eq.
Qed.
Lemma get_by_hash_frame h s s' :
  api_keys s' = api_keys s -> key_hash_index s' = key_hash_index s ->
  get_api_key_by_hash h s' = get_api_key_by_hash h s.
Proof. intros E1 E2. unfold get_api_key_by_hash. by rewrite E1, E2. Qed.

(** A guard in front of a handler leaves Redis and the keys alone. *)
Lemma guard_plane cfg ring now hdr res act tid p c p' :
  store_wf (pl_store p) -> in_store (guard cfg ring now hdr res act tid) p = (Ok c, p') ->
  pl_redis p' = pl_redis p /\ api_keys (pl_store p') = api_keys (pl_store p) /\
  key_hash_index (pl_store p') = key_hash_index (pl_store p) /\ quotas (pl_store p') = quotas (pl_store p).
Proof.
  intros Hwf [E ->]%in_store_ok. split; [done|].
  destruct (guard_state cfg ring now hdr res act tid (pl_store p) Hwf) as [Es|Es];
    rewrite E in Es; simpl in Es; rewrite Es; done.
Qed.

Lemma find_key_dget tid kid s k :
  store_wf s -> keys_inv s -> find_key tid kid s = Some k ->
  dget kid (api_keys s) = Some k /\ k_tenant_id k = tid.
Proof.
  intros Hwf Hk. unfold find_key. intros ([i k'] & Hf & ->)%fmap_Some.
  apply list_find_Some in Hf as (Hi & Hid & _). simpl in *.
  apply list_elem_of_lookup_2 in Hi. unfold list_api_keys in Hi.
  apply list_elem_of_filter in Hi as [[Ht _] Hv].
  apply elem_of_dvalues in Hv as [kid' Hd]; [|by apply wf_api_keys].
  destruct (ki_id s Hk _ _ Hd) as [E _]. split; [|done]. by rewrite <- Hid, E.
Qed.

(** The cached row of a key is gone. *)
Definition not_cached (t : Z) (h : string) (r : redis) : Prop := r_view t r ("apikey:" +:+ h) = None.
Lemma not_cached_read ev api_key p :
  (ev_cache ev = true -> not_cached (ev_t ev) (sha256 api_key) (pl_redis p)) ->
  exists p', cached_info ev api_key p = (Ok None, p') /\ pl_store p' = pl_store p.
Proof.
  intros Hn. unfold cached_info. destruct (ev_cache ev); [specialize (Hn eq_refl)|by eexists].
  unfold catch, in_redis, get_tenant_by_api_key, get_json, bind.
  destruct (trip_cases (ev_t ev) (gets (r_get (ev_t ev) (_api_key_key api_key))) (pl_redis p))
    as [->|[e ->]]; [|by eexists].
  unfold gets. rewrite get_law; unfold _api_key_key, _api_key_hash; rewrite Hn; [by eexists|done].
Qed.
(** A key neither stored nor cached is refused. *)
Lemma unknown_key_refused ev request p :
  str_true (strip (ar_api_key request)) = true ->
  (ev_cache ev = true -> not_cached (ev_t ev) (sha256 (strip (ar_api_key request))) (pl_redis p)) ->
  get_api_key_by_hash (sha256 (strip (ar_api_key request))) (pl_store p) = None ->
  exists p', AuthorizeAndAcquire ev request p =
    (Ok (Reply (_refuse INVALID_API_KEY "invalid or revoked api key")), p').
Proof.
  intros Hs Hn Hk. destruct (not_cached_read ev _ p Hn) as (p1 & E & Es).
  unfold AuthorizeAndAcquire, catch, _authorize. rewrite Hs. simpl. unfold bind. rewrite E.
  unfold looked_up_info. unfold bind, gets, ret. rewrite Es, Hk. by eexists.
Qed.
Lemma drop_cached_run cache t k p p' :
  str_true (k_key_hash k) = true -> drop_cached_key cache t k p = (Ok tt, p') ->
  pl_store p' = pl_store p /\ (cache = true -> not_cached t (k_key_hash k) (pl_redis p')).
Proof.
  intros Hh. unfold drop_cached_key, fail_visibly. rewrite Hh, andb_true_r.
  destruct cache; [|by intros [= <-]]. unfold catch.
  destruct (in_redis _ p) as [[[]|e] p1] eqn:E; [|done]. intros [= <-].
  apply in_redis_ok in E as [E Es]. split; [done|]. intros _. revert E. unfold invalidate_api_key_by_hash.
  destruct (trip_cases t (modify (r_del t ("apikey:" +:+ k_key_hash k))) (pl_redis p))
    as [->|[e ->]]; [|done]. intros [= <-]. unfold not_cached. by rewrite del_law, decide_True.
Qed.

(** ** What happens between the revocation and a call *)

(** A finished request of the data plane by any worker at its time; an operation
    of the store; any other work on Redis, of the handlers or of the limiters. *)
Inductive plane_event : Type :=
  | EvAuthorize (ev : Env) (request : AuthorizeRequest)
  | EvRelease (ev : Env) (request : ReleaseRequest)
  | EvReport (ev : Env) (request : UsageRequest)
  | EvStore (t : Z) (op : store_op)
  | EvRedis (t : Z) (f : redis -> redis).
Definition event_time (e : plane_event) : Z :=
  match e with
  | EvAuthorize ev _ | EvRelease ev _ | EvReport ev _ => ev_t ev
  | EvStore t _ | EvRedis t _ => t
  end.
Definition event_run (e : plane_event) (p : Plane) : Plane :=
  match e with
  | EvAuthorize ev request => (AuthorizeAndAcquire ev request p).2
  | EvRelease ev request => (ReleaseLease ev request p).2
  | EvReport ev request => (ReportUsage ev request p).2
  | EvStore _ op => mkPlane (exec op (pl_store p)) (pl_redis p)
  | EvRedis _ f => mkPlane (pl_store p) (f (pl_redis p))
  end.
(** Every worker has the cache or none has; no new key is drawn with the digest
    of the revoked one; other work on Redis caches no row under it. *)
Definition event_clean (cache : bool) (h : string) (e : plane_event) : Prop :=
  match e with
  | EvAuthorize ev _ | EvRelease ev _ | EvReport ev _ => ev_cache ev = cache
  | EvStore _ (OpCreateApiKey _ raw _ _ _ _) => sha256 ("fmu_" +:+ raw) <> h
  | EvStore _ _ => True
  | EvRedis t f => forall r, not_cached t h r -> not_cached t h (f r)
  end.
Fixpoint in_time (t : Z) (evs : list plane_event) (t' : Z) : Prop :=
  match evs with
  | [] => t <= t'
  | e :: evs => t <= event_time e /\ in_time (event_time e) evs t'
  end.

(** The key with the digest [h] is neither in the index nor in the cache. *)
Definition gone (cache : bool) (t : Z) (h : string) (p : Plane) : Prop :=
  dget h (key_hash_index (pl_store p)) = None /\ (cache = true -> not_cached t h (pl_redis p)).
Definition keeps_gone (cache : bool) (t : Z) (h : string) {A} (m : M Plane A) : Prop :=
  forall p a p', gone cache t h p -> m p = (a, p') -> gone cache t h p'.

Lemma gone_later cache t t' h p : t <= t' -> gone cache t h p -> gone cache t' h p.
Proof. intros Ht [Hi Hn]. split; [done|]. intros Hc. unfold not_cached. rewrite (view_later t) by done. by rewrite Hn. Qed.

Section keeps_gone.
Context (cache : bool) (t : Z) (h : string).
#[local] Abbreviation kg := (keeps_gone cache t h).
Lemma kg_ret {A} (a : A) : kg (ret a).
Proof. by intros p ? p' ? [= <- <-]. Qed.
Lemma kg_raise {A} e : kg (raise (A := A) e).
Proof. by intros p ? p' ? [= <- <-]. Qed.
Lemma kg_gets {A} (f : Plane -> A) : kg (gets f).
Proof. by intros p ? p' ? [= <- <-]. Qed.
Lemma kg_lift {A} (x : res A) : kg (lift x).
Proof. by intros p ? p' ? [= <- <-]. Qed.
Lemma kg_bind {A B} (m : M Plane A) (f : A -> M Plane B) : kg m -> (forall a, kg (f a)) -> kg (bind m f).
Proof.
  intros Hm Hf p a p' Hp. unfold bind. destruct (m p) as [[x|e] p1] eqn:E; [|intros [= <- <-]; by eapply Hm].
  apply Hf. by eapply Hm.
Qed.
Lemma kg_catch {A} (m : M Plane A) k : kg m -> (forall e, kg (k e)) -> kg (catch m k).
Proof.
  intros Hm Hk p a p' Hp. unfold catch. destruct (m p) as [[x|e] p1] eqn:E; [intros [= <- <-]; by eapply Hm|].
  apply Hk. by eapply Hm.
Qed.
Lemma kg_store {A} (m : M Store A) :
  (forall s, key_hash_index (m s).2 = key_hash_index s) -> kg (in_store m).
Proof.
  intros Hm p a p' [Hi Hn]. unfold in_store. specialize (Hm (pl_store p)). destruct (m (pl_store p)) as [x s].
  intros [= <- <-]. split; [|done]. simpl in *. by rewrite Hm.
Qed.
Lemma kg_redis {A} (m : M redis A) : frame t (fun k => k = "apikey:" +:+ h) m -> kg (in_redis m).
Proof.
  intros Hm p a p' [Hi Hn]. unfold in_redis. destruct (m (pl_redis p)) as [x r] eqn:E.
  intros [= <- <-]. split; [done|]. intros Hc. unfold not_cached. simpl. rewrite (Hm _ _ _ E) by done. by apply Hn.
Qed.
End keeps_gone.

(** Commands on another key. *)
Ltac off_row := intros; subst; let E := fresh in
  first [apply set_other | apply incrby_other | apply expire_other | apply zadd_other | apply zrem_other
        | apply zremrangebyscore_other | apply del_other]; intros E; discriminate E.
Ltac solve_kg :=
  repeat first
    [ progress intros
    | apply kg_ret | apply kg_raise | apply kg_gets | apply kg_lift | apply kg_bind | apply kg_catch
    | apply kg_store; done
    | apply kg_redis; unfold reserve_daily_quota, RESERVE_QUOTA_LUA, refund_daily_quota, check_rpm, CHECK_RPM_LUA,
        record_token_usage, remaining_quota, num_at, try_acquire, ACQUIRE_LUA, release, RELEASE_LUA;
      solve_frame; off_row
    | match goal with |- keeps_gone _ _ _ (match ?x with _ => _ end) => destruct x end ].

Lemma kg_reserve ev h info tid lim : keeps_gone (ev_cache ev) (ev_t ev) h (reserve_and_acquire ev info tid lim).
Proof. unfold reserve_and_acquire, info_int. solve_kg. Qed.
Lemma kg_authorize_info ev h request info :
  keeps_gone (ev_cache ev) (ev_t ev) h (authorize_info ev request info).
Proof. unfold authorize_info, info_int. solve_kg; apply kg_reserve. Qed.
Lemma kg_cached ev h key : keeps_gone (ev_cache ev) (ev_t ev) h (cached_info ev key).
Proof.
  unfold cached_info. destruct (ev_cache ev) eqn:Ec; [|apply kg_ret]. apply kg_catch; [|intros; apply kg_ret].
  intros p a p' [Hi Hn] E. unfold in_redis in E.
  destruct (get_tenant_by_api_key _ _ _) as [x r] eqn:Eg. injection E as <- <-. split; [done|]. intros Hc. simpl.
  specialize (Hn Hc). revert Eg. unfold get_tenant_by_api_key, get_json, bind.
  destruct (trip_cases (ev_t ev) (gets (r_get (ev_t ev) (_api_key_key key))) (pl_redis p)) as [->|[e ->]];
    [|by intros [= <- <-]]. simpl.
  destruct (r_get _ _ _) as [d|]; [|by intros [= <- <-]].
  assert (forall a' r', trip (ev_t ev) (modify (r_del (ev_t ev) (_api_key_key key))) (pl_redis p) = (a', r') ->
    not_cached (ev_t ev) h r') as Hdel.
  { intros a' r'. destruct (trip_cases (ev_t ev) (modify (r_del (ev_t ev) (_api_key_key key))) (pl_redis p))
      as [->|[e ->]]; [|by intros [= <- <-]]. intros [= <- <-]. unfold not_cached. rewrite del_law. by case_decide. }
  assert (forall o, (let! _ := trip (ev_t ev) (modify (r_del (ev_t ev) (_api_key_key key))) in ret (A := option json) None)
    (pl_redis p) = (o, r) -> not_cached (ev_t ev) h r) as Hdrop.
  { intros o. unfold bind. destruct (trip _ _ _) as [[u|e] r'] eqn:Et; intros [= <- <-]; by eapply Hdel. }
  destruct d as [z|j|n|z]; simpl; try (by intros [= <- <-]); try apply Hdrop.
  destruct z; [by intros [= <- <-]|apply Hdrop].
Qed.
Lemma kg_looked_up ev h key : keeps_gone (ev_cache ev) (ev_t ev) h (looked_up_info ev key).
Proof.
  intros p a p' Hp E. unfold looked_up_info in E. rewrite bind_gets in E.
  destruct (get_api_key_by_hash (sha256 key) (pl_store p)) as [k|] eqn:Ek; [|by injection E as <- <-].
  assert (sha256 key <> h) as Hne.
  { intros <-. destruct Hp as [Hi _]. unfold get_api_key_by_hash in Ek. by rewrite Hi in Ek. }
  rewrite !bind_gets in E. destruct (get_tenant _ _) as [tenant|]; [|by injection E as <- <-].
  set (info := tenant_info_of _ _ _) in E. clearbody info. clear Ek. revert p a p' Hp E.
  change (keeps_gone (ev_cache ev) (ev_t ev) h
    ((if ev_cache ev then catch (in_redis (set_api_key (ev_t ev) key info 300)) (fun _ => ret tt) else ret tt) ;;;
     ret (inr (A := AuthorizeResponse) info))).
  apply kg_bind; [|intros; apply kg_ret]. destruct (ev_cache ev); [|apply kg_ret].
  apply kg_catch; [|intros; apply kg_ret]. apply kg_redis. unfold set_api_key, _api_key_key, _api_key_hash.
  solve_frame. apply set_other. intros E. subst. by injection E.
Qed.
Lemma kg_authorize ev h request : keeps_gone (ev_cache ev) (ev_t ev) h (AuthorizeAndAcquire ev request).
Proof.
  unfold AuthorizeAndAcquire, _authorize. apply kg_catch; [|intros; apply kg_ret].
  apply kg_bind; [|intros; apply kg_ret]. destruct (negb _); [apply kg_ret|].
  apply kg_bind; [apply kg_cached|]. intros [info|]; [apply kg_authorize_info|].
  apply kg_bind; [apply kg_looked_up|]. intros [r|info]; [apply kg_ret|apply kg_authorize_info].
Qed.
Lemma kg_release ev h request : keeps_gone (ev_cache ev) (ev_t ev) h (ReleaseLease ev request).
Proof. unfold ReleaseLease. solve_kg. Qed.
Lemma kg_report ev h request : keeps_gone (ev_cache ev) (ev_t ev) h (ReportUsage ev request).
Proof. unfold ReportUsage. solve_kg. Qed.

Lemma index_stays_gone op h s :
  dget h (key_hash_index s) = None ->
  (forall now raw id_ tid uid sc, op = OpCreateApiKey now raw id_ tid uid sc -> sha256 ("fmu_" +:+ raw) <> h) ->
  dget h (key_hash_index (exec op s)) = None.
Proof.
  intros Hi Hf. destruct op; exec_run; try done.
  - generalize (filter (live_key_of tid) (dvalues (api_keys s))). intros l. revert Hi.
    generalize (key_hash_index s). induction l as [|k l IH]; intros d Hi; simpl; [done|].
    apply IH. rewrite dget_dpop. by case_decide.
  - rewrite dget_dset_ne; [done|]. intros ->. by eapply Hf.
  - rewrite dget_dpop. by case_decide.
Qed.

Lemma event_keeps_gone cache t h e p :
  event_clean cache h e -> t <= event_time e -> gone cache t h p -> gone cache (event_time e) h (event_run e p).
Proof.
  intros Hc Ht Hp%(gone_later _ _ (event_time e)); [|done].
  destruct e as [ev rq|ev rq|ev rq|t' op|t' f]; simpl in *.
  - rewrite <- Hc in *. eapply kg_authorize; [exact Hp|apply surjective_pairing].
  - rewrite <- Hc in *. eapply kg_release; [exact Hp|apply surjective_pairing].
  - rewrite <- Hc in *. eapply kg_report; [exact Hp|apply surjective_pairing].
  - destruct Hp as [Hi Hn]. split; [|done]. apply index_stays_gone; [done|]. intros now raw id_ tid uid sc ->. done.
  - destruct Hp as [Hi Hn]. split; [done|]. intros E. by apply Hc, Hn.
Qed.
Lemma events_keep_gone cache t h evs t' p :
  Forall (event_clean cache h) evs -> in_time t evs t' -> gone cache t h p ->
  gone cache t' h (foldl (fun p e => event_run e p) p evs).
Proof.
  intros Hc. revert t p. induction Hc as [|e evs He _ IH]; intros t p Ht Hp; simpl in *; [by eapply gone_later|].
  destruct Ht as [Ht Hts]. eapply IH; [exact Hts|]. by eapply event_keeps_gone.
Qed.

(** The revocation handler leaves the key in neither. *)
Lemma revocation_clears `{!HashLaws} cfg ring cache now hdr rnd tid kid p k ok p' :
  reach key_draws_ok (pl_store p) -> dget kid (api_keys (pl_store p)) = Some k -> str_true (k_key_hash k) = true ->
  revoke_api_key_route cfg ring cache now hdr rnd tid kid p = (Ok ok, p') ->
  gone cache now (k_key_hash k) p'.
Proof.
  intros Hreach Hk Hh Hrun. pose proof (reach_keys _ Hreach) as Hki. pose proof (reach_wf _ _ Hreach) as Hwf.
  apply bind_ok in Hrun as (c & p1 & Hg & Hrun).
  destruct (guard_plane _ _ _ _ _ _ _ _ _ _ Hwf Hg) as (Er & Ea & Ei & _).
  rewrite bind_gets in Hrun. destruct (find_key tid kid (pl_store p1)) as [rec|] eqn:Ef; [|done].
  assert (rec = k) as ->.
  { apply find_key_dget in Ef as [Ed _]; [rewrite Ea in Ed; congruence| |by eapply keys_inv_frame].
    destruct (guard_state cfg ring now hdr "api_keys" "delete" tid (pl_store p) Hwf) as [Es|Es];
      apply in_store_ok in Hg as [Hg _]; rewrite Hg in Es; simpl in Es; rewrite Es; [done|].
    destruct Hwf. constructor; simpl; eauto with dict. }
  apply bind_ok in Hrun as (ok' & p2 & [Hrev Er2]%in_store_ok & Hrun).
  apply bind_ok in Hrun as ([] & p3 & Hdrop & Hrun).
  apply drop_cached_run in Hdrop as [Es3 Hn]; [|done].
  apply bind_ok in Hrun as ([] & p4 & (r & p4' & [Haud Er4]%in_store_ok & [= <-])%bind_ok & Hrun).
  apply bind_ok in Hrun as ([] & p5 & [Hem Er5]%in_store_ok & [= _ <-]).
  apply audit_keys in Haud as [_ Ei4]. apply emit_keys in Hem as [_ Ei5]. split.
  - rewrite Ei5, Ei4, Es3. revert Hrev. unfold revoke_api_key. rewrite bind_gets, Ea, Hk.
    intros [= <- <-]. simpl. apply dget_dpop_eq.
  - intros Hc. rewrite Er5, Er4. by apply Hn.
Qed.

(** [C25] Revoking an API key takes effect on the data plane at once. Once the
    tenant's revocation handler has answered, every later call with that key is
    refused as an invalid key, on any worker and whatever Redis does, whatever
    complete requests of the data plane, operations of the store and other work
    on Redis come in between: the row is out of the index, and its cached copy
    was dropped, or the handler would have failed. Requests run one after the
    other here; one that had read the row before the revocation and caches it
    only afterwards is not covered ([in_flight_refills]). *)
Theorem revoked_key_refused `{!HashLaws} cfg ring now hdr rnd tid kid p k ok p' evs ev request :
  reach key_draws_ok (pl_store p) ->
  dget kid (api_keys (pl_store p)) = Some k -> k_key_hash k = sha256 (strip (ar_api_key request)) ->
  str_true (strip (ar_api_key request)) = true ->
  revoke_api_key_route cfg ring (ev_cache ev) now hdr rnd tid kid p = (Ok ok, p') ->
  Forall (event_clean (ev_cache ev) (k_key_hash k)) evs -> in_time now evs (ev_t ev) ->
  exists p'', AuthorizeAndAcquire ev request (foldl (fun p e => event_run e p) p' evs) =
    (Ok (Reply (_refuse INVALID_API_KEY "invalid or revoked api key")), p'').
Proof.
  intros Hreach Hk Hh Hs Hrun Hev Ht.
  apply (revocation_clears _ _ _ _ _ _ _ _ _ k) in Hrun; [|done|done|].
  - destruct (events_keep_gone _ _ _ _ _ _ Hev Ht Hrun) as [Hi Hn]. rewrite Hh in Hi, Hn.
    apply unknown_key_refused; [done|done|]. unfold get_api_key_by_hash. by rewrite Hi.
  - unfold str_true. apply bool_decide_eq_true. intros E. pose proof (sha256_length (strip (ar_api_key request))) as Hl.
    by rewrite <- Hh, E in Hl.
Qed.

(** ** Quota changes *)

Lemma del_all_gone t (prefix : string) (l : list string) r r' :
  for_each l (fun x => modify (r_del t (prefix +:+ x))) r = (Ok tt, r') ->
  forall k, (r_view t r k = None \/ exists x, x ∈ l /\ k = prefix +:+ x) -> r_view t r' k = None.
Proof.
  revert r. induction l as [|x l IH]; intros r; simpl.
  { intros [= <-] k [?|(y & ?%elem_of_nil & _)]; done. }
  unfold bind, modify at 1. intros Hr k Hk. apply (IH _ Hr). rewrite del_law.
  destruct (decide (k = prefix +:+ x)) as [|Hne]; [by left|].
  destruct Hk as [?|(y & [->|Hy]%elem_of_cons & Ek)]; [by left|done|right; eauto].
Qed.

(** Changing a quota through the tenant's handler takes effect at once: when
    it has answered, no live key of the tenant has a cached row, so the next
    call of each is decided on the new quota. *)
Theorem quota_change_drops_cache `{!HashLaws} cfg ring now hdr rnd tid fields p q p' :
  store_wf (pl_store p) ->
  put_quota_route cfg ring true now hdr rnd tid fields p = (Ok q, p') ->
  get_quota tid (pl_store p') = Some q /\
  forall k, k ∈ list_api_keys tid (pl_store p) -> k_key_hash k <> "" ->
    not_cached now (k_key_hash k) (pl_redis p').
Proof.
  intros Hwf Hrun. unfold put_quota_route in Hrun.
  apply bind_ok in Hrun as (c & p1 & Hg & Hrun).
  destruct (guard_plane _ _ _ _ _ _ _ _ _ _ Hwf Hg) as (Er & Ea & Ei & Eq).
  destruct (no_quota_fields fields); [done|].
  apply bind_ok in Hrun as (q' & p2 & [Hput Er2]%in_store_ok & Hrun).
  destruct q' as [q'|]; [|done].
  apply bind_ok in Hrun as ([] & p3 & Hinv & Hrun).
  apply bind_ok in Hrun as ([] & p4 & [Hem Er4]%in_store_ok & [= -> <-]).
  assert (Hp2 : api_keys (pl_store p2) = api_keys (pl_store p) /\ get_quota tid (pl_store p2) = Some q).
  { revert Hput. unfold put_quota, bind, gets, modify, ret.
    destruct (dget tid (quotas (pl_store p1))); [|done]. intros [= <- <-]. rewrite <- Ea.
    split; [done|]. unfold get_quota. simpl. by rewrite dget_dset_eq. }
  destruct Hp2 as [Ea2 Hq2].
  revert Hinv. unfold fail_visibly, catch.
  destruct (invalidate_tenant_api_keys_cache true now tid p2) as [[[]|e] p3'] eqn:Hinv; [|done].
  intros [= <-]. unfold invalidate_tenant_api_keys_cache in Hinv. rewrite bind_gets in Hinv.
  apply bind_ok in Hinv as ([] & p5 & [Hd Es5]%in_redis_ok & [Ht Es6]%in_redis_ok).
  assert (Hs : pl_store p3' = pl_store p2) by congruence.
  split.
  { unfold get_quota in *. destruct p4 as [s4 r4]. simpl in *. rewrite <- Hq2, <- Hs.
    revert Hem. cbv [emit_event append_event catch bind gets modify ret]. intros [= <-]. done. }
  intros k Hk Hne. unfold not_cached. rewrite Er4.
  assert (Hv5 : r_view now (pl_redis p5) ("apikey:" +:+ k_key_hash k) = None).
  { set (hs := filter _ _) in Hd.
    assert (Hin : k_key_hash k ∈ hs).
    { apply list_elem_of_filter. split; [by apply bool_decide_eq_true|]. apply list_elem_of_fmap_2.
      revert Hk. unfold list_api_keys. by rewrite Ea2. }
    unfold invalidate_tenant_api_keys in Hd. destruct hs as [|h0 hs']; [by apply elem_of_nil in Hin|].
    destruct (trip_cases now (for_each (h0 :: hs') (fun h => modify (r_del now ("apikey:" +:+ h))))
      (pl_redis p2)) as [E|[e E]]; rewrite E in Hd; [|done].
    apply (del_all_gone _ _ _ _ _ Hd). right. eauto. }
  revert Ht. unfold invalidate_tenant.
  destruct (trip_cases now (modify (r_del now (_tenant_key tid))) (pl_redis p5)) as [->|[e ->]]; [|done].
  intros [= <-]. rewrite del_law. by case_decide.
Qed.

(** ** Tenant changes *)

(** A run over the plane that leaves the keys of [P] in Redis alone. *)
Definition plane_frame (t : Z) (P : string -> Prop) {A} (m : M Plane A) : Prop :=
  forall p a p', m p = (a, p') -> forall k, P k -> r_view t (pl_redis p') k = r_view t (pl_redis p) k.
Lemma pframe_bind t P {A B} (m : M Plane A) (f : A -> M Plane B) :
  plane_frame t P m -> (forall a, plane_frame t P (f a)) -> plane_frame t P (bind m f).
Proof.
  intros Hm Hf p a p'. unfold bind. destruct (m p) as [[x|e] p1] eqn:E.
  - intros E2 k Hk. rewrite (Hf _ _ _ _ E2 k Hk). by apply (Hm _ _ _ E).
  - intros [= <- <-] k Hk. by apply (Hm _ _ _ E).
Qed.
Lemma pframe_ret t P {A} (a : A) : plane_frame t P (ret a).
Proof. by intros p ? p' [= <- <-]. Qed.
Lemma pframe_raise t P {A} e : plane_frame t P (raise (A := A) e).
Proof. by intros p ? p' [= <- <-]. Qed.
Lemma pframe_gets t P {A} (f : Plane -> A) : plane_frame t P (gets f).
Proof. by intros p ? p' [= <- <-]. Qed.
Lemma pframe_lift t P {A} (x : res A) : plane_frame t P (lift x).
Proof. by intros p ? p' [= <- <-]. Qed.
Lemma pframe_store t P {A} (m : M Store A) : plane_frame t P (in_store m).
Proof. intros p a p'. unfold in_store. destruct (m (pl_store p)). by intros [= <- <-]. Qed.
Lemma pframe_redis t P {A} (m : M redis A) : frame t P m -> plane_frame t P (in_redis m).
Proof.
  intros Hm p a p'. unfold in_redis. destruct (m (pl_redis p)) as [x r] eqn:E.
  intros [= <- <-]. by apply (Hm _ _ _ E).
Qed.
End effects.

Ltac solve_pframe :=
  repeat first
    [ progress intros
    | apply pframe_ret | apply pframe_raise | apply pframe_gets | apply pframe_lift
    | apply pframe_store | apply pframe_redis | apply pframe_bind
    | match goal with |- plane_frame _ _ (match ?x with _ => _ end) => destruct x end ].

Section tenant_changes.
Context `{HashLib, Argon2Lib, JwtLib, AeadLib} `{RedisLaws}.

Definition key_row (k : string) : Prop := exists h, k = "apikey:" +:+ h.
Lemma invalidate_tenant_keeps t tid : frame t key_row (invalidate_tenant t tid).
Proof.
  unfold invalidate_tenant. solve_frame.
  match goal with Hk : key_row _ |- _ => destruct Hk as [h ->] end. apply del_other. discriminate.
Qed.

(** Changing a tenant (its status or, on the admin handler, its quota) leaves
    the cached rows of its keys in place: both update handlers drop only the
    tenant's own entry, which nothing reads. What the data plane answers to a
    key whose row is cached does not depend on the store, so a disabled tenant
    is served until the row expires. *)
Theorem tenant_change_keeps_cached_keys cfg ring tok prev cache now hdr auth r1 r2 r3 tid fields body
    p a p1 b p2 h :
  update_tenant_route cfg ring cache now hdr r1 tid fields p = (a, p1) ->
  admin_update_tenant tok prev cache now auth r2 r3 tid body p = (b, p2) ->
  r_view now (pl_redis p1) ("apikey:" +:+ h) = r_view now (pl_redis p) ("apikey:" +:+ h) /\
  r_view now (pl_redis p2) ("apikey:" +:+ h) = r_view now (pl_redis p) ("apikey:" +:+ h).
Proof.
  intros Ha Hb. split.
  - assert (Hf : plane_frame now key_row (update_tenant_route cfg ring cache now hdr r1 tid fields)).
    { unfold update_tenant_route, route_audit, invalidate_tenant_cache. solve_pframe.
      apply invalidate_tenant_keeps. }
    apply (Hf _ _ _ Ha). by eexists.
  - assert (Hf : plane_frame now key_row (admin_update_tenant tok prev cache now auth r2 r3 tid body)).
    { unfold admin_update_tenant, service_guard, tenant_or_404, invalidate_tenant_cache. solve_pframe.
      apply invalidate_tenant_keeps. }
    apply (Hf _ _ _ Hb). by eexists.
Qed.
End tenant_changes.
