(* ===== verification/Email.v ===== *)
(** * Outgoing mail (email_sender.py)

    The texts of the two messages and [send_email]. The SMTP server is a
    parameter: it accepts a message, or the client raises. *)
From S2P Require Import Prelude PyText StoreState.

Definition nl : string := of_chars [newline].
(** [str.rstrip("/")] *)
Fixpoint lstrip_slash (l : list ascii) : list ascii :=
  match l with
  | c :: l' => if decide (c = "/"%char) then lstrip_slash l' else l
  | [] => []
  end.
Definition rstrip_slash (s : string) : string :=
  of_chars (reverse (lstrip_slash (reverse (chars s)))).

(** The settings the mailer reads. *)
Record MailSettings : Type := mkMailSettings {
  ml_smtp_host : string;
  ml_public_base_url : string;
  ml_email_verify_ttl : Z;
  ml_password_reset_ttl : Z
}.
(** [_send_sync] to an address, with subject and body. *)
Definition Smtp : Type := string -> string -> string -> res unit.

Definition _VERIFY_BODY (username base token : string) (ttl_hours : Z) : string :=
  "Welcome to Fusion, " +:+ username +:+ "." +:+ nl +:+ nl +:+
  "Verify your email address by visiting:" +:+ nl +:+ nl +:+
  base +:+ "/auth/?verify=" +:+ token +:+ nl +:+ nl +:+
  "This link is single-use and expires in " +:+ pretty ttl_hours +:+ " hours." +:+ nl +:+
  "If you did not sign up, ignore this message." +:+ nl.
Definition _RESET_BODY (username base token : string) (ttl_minutes : Z) : string :=
  "Hi " +:+ username +:+ "," +:+ nl +:+ nl +:+
  "A password reset was requested for your Fusion account. Set a new " +:+
  "password by visiting:" +:+ nl +:+ nl +:+
  base +:+ "/auth/reset?token=" +:+ token +:+ nl +:+ nl +:+
  "This link is single-use and expires in " +:+ pretty ttl_minutes +:+ " minutes." +:+ nl +:+
  "If you did not request a reset, ignore this message — your password " +:+
  "is unchanged." +:+ nl.

Section mail.
Variables (ml : MailSettings) (smtp : Smtp).

Definition _public_base : string := rstrip_slash (ml_public_base_url ml).

(** ["sent"] or ["logged"]; an SMTP or OS error becomes
    [EmailDeliveryError], anything else propagates. *)
Definition send_email (to_email subject body : string) : res string :=
  if negb (str_true (ml_smtp_host ml)) then Ok "logged"
  else match smtp to_email subject body with
       | Ok _ => Ok "sent"
       | Raise (OSError e) => Raise (EmailDeliveryError ("email delivery failed: " +:+ e))
       | Raise e => Raise e
       end.
Definition send_verification_email (to_email token username : string) : res string :=
  send_email to_email "Verify your Fusion account"
    (_VERIFY_BODY username _public_base token (Z.max 1 (ml_email_verify_ttl ml / 3600))).
Definition send_password_reset_email (to_email token username : string) : res string :=
  send_email to_email "Reset your Fusion password"
    (_RESET_BODY username _public_base token (Z.max 1 (ml_password_reset_ttl ml / 60))).
End mail.
