(* ===== verification/AuthRoutes.v ===== *)
(** * Authentication and second-factor handlers (routes/auth.py, mfa.py)

    The handlers over the store and the in-process rate limiter ([App]); [auth]
    is the [Authorization] header. A handler whose name is taken by the service
    method it calls has the suffix [_route]. Metrics are left out. *)
From S2P Require Import Prelude PyText StoreState Prims AuditLog Tenants Rbac Users Tokens Crypto.
From S2P Require Import Jwt Jwks Auth StoreSteps Invariants TableProps AuditProps AuthLemmas.
From S2P Require Import AuthProps Deps MemberRoutes RateLimit JoinRoutes Email.

(** [except JwtError: raise HTTPException(401, detail)] *)
Definition on_jwt_error {S A} (m : M S A) (detail : string) : M S A :=
  catch m (fun e => match e with JwtError _ => raise (unauthorized detail) | _ => raise e end).

(** What the introspection handler reads of a request: a form field, or the
    value [json.loads] gives ([None] when it is not JSON). *)
Inductive IntrospectBody : Type :=
  | FormBody (token : option string)
  | JsonBody (v : option json).

Section auth_routes.
Context `{HashLib, Argon2Lib, JwtLib, AeadLib, RsaLib, TotpLib}.
Variables (cfg : AuthConfig) (ring : KeyRing) (now : Z) (auth : string) (rate : RateView).
Variables (service_token : string) (service_token_prev : option string).

Definition service : M App unit := lift (require_service_token service_token service_token_prev auth).
Definition bearer : M App Claims := on_store (require_bearer cfg ring now auth).
Definition rated (scope : string) (username : option string) : M App unit :=
  on_limiter (check_login_rate now (rv_ip rate) scope username (rv_redis rate) (rv_limit rate)).

(** ** Sessions *)

(** The key of the buckets is the tenant as [str()] prints it. *)
Definition login_route (d : LoginDraws) (req : LoginRequest) : M App TokenResponse :=
  rated (default "None" (lr_tenant_id req)) (Some (lr_username req)) ;;;
  on_store (login cfg ring now d req false).

Definition verify_route (token : string) : M App VerifyResponse :=
  service ;;; on_jwt_error (on_store (verify cfg ring now token)) "invalid token".

Definition refresh_route (ajti nrjti refresh_token : string) : M App TokenResponse :=
  on_store (refresh cfg ring now ajti nrjti refresh_token).

Definition revoke_route (jti : string) : M App bool :=
  let! claims := bearer in
  if decide (c_role claims <> Some "tenant_admin") then raise (forbidden "tenant_admin role required")
  else on_store (revoke now jti (c_tid claims) (Some (c_sub claims))).

Definition logout_route (refresh_token : option string) : M App bool :=
  let! claims := bearer in
  on_store (logout cfg ring now claims refresh_token).

Definition change_password_route (salt old_password new_password : string) : M App bool :=
  let! claims := bearer in
  on_store (change_password now salt (c_sub claims) old_password new_password (c_tid claims)).

Definition issue_session (jti sub tenant_id role : string) (ttl_seconds : option Z) : M App SessionIssue :=
  service ;;; on_store (issue_session_token cfg ring now jti sub tenant_id role ttl_seconds).

Definition revoke_user_sessions_route (sub tenant_id : string) : M App (Z * Z) :=
  service ;;; on_store (revoke_user_sessions_and_tokens now sub tenant_id).

(** [claims["role"]] is a [KeyError] when the claim is missing. *)
Definition verify_session (token : string) : M App Claims :=
  service ;;;
  let! claims := on_jwt_error (on_store (verify_session_token cfg ring now token))
                   "invalid session token" in
  match c_role claims with
  | Some _ => ret claims
  | None => raise (KeyError "role")
  end.

(** [raw_len] is the length of the raw body. A JSON value that is no object
    has no [get]; a token that is no text does not decode. *)
Definition introspect_route (raw_len : Z) (body : IntrospectBody) : M App (option Introspection) :=
  service ;;;
  if 32768 <? raw_len then raise (http 413 "introspect body too large")
  else
    let! token := match body with
                  | FormBody token => ret (default "" token)
                  | JsonBody None => ret ""
                  | JsonBody (Some (JObj kvs)) =>
                      ret (match dget "token" kvs with Some (JStr token) => token | _ => "" end)
                  | JsonBody (Some _) => raise (AttributeError "'get'")
                  end in
    if negb (str_true token) then ret None
    else on_store (introspect cfg ring now token).

Definition issue_sso_ticket_route (rnd : string) : M App (string * Z) :=
  let! claims := bearer in
  on_store (issue_sso_ticket cfg now rnd (c_sub claims) (c_tid claims) (default "member" (c_role claims))).

Definition exchange_sso_ticket_route (d : LoginDraws) (ticket : string) : M App TokenResponse :=
  rated "_sso_ticket" None ;;; on_store (exchange_sso_ticket cfg ring now d ticket).

(** ** Password reset *)

Variables (ml : MailSettings) (smtp : Smtp).

Definition forgot_body (rnd_token email : string) : M Store bool :=
  let email := strip email in
  let! user := gets (get_user_by_email email) in
  match user with
  | None => ret true
  | Some user =>
      let! ok := set_password_reset_token (u_user_id user) (hash_token rnd_token)
                   (now + sec (ml_password_reset_ttl ml)) in
      (if (ok : bool) then
         catch (let! _ := lift (send_password_reset_email ml smtp email rnd_token (u_username user)) in
                ret tt)
               (fun e => match e with EmailDeliveryError _ => ret tt | _ => raise e end)
       else ret tt) ;;;
      ret true
  end.
(** Always [{"sent": true}]. *)
Definition forgot_password (rnd_token email : string) : M App bool :=
  rated "_pw_forgot" (Some email) ;;; on_store (forgot_body rnd_token email).

Definition reset_body (salt token new_password : string) : M Store bool :=
  let! user_id := consume_password_reset_token now (hash_token token) in
  match user_id with
  | None => raise (http 400 "invalid or expired reset token")
  | Some user_id =>
      let '(pw_hash, salt, algo) := hash_password new_password salt in
      update_user user_id (password_fields pw_hash salt algo (Some false)) ;;;
      revoke_user_sessions user_id ;;;
      catch (append_audit now "_system" (Some user_id) None (Some "public") "auth.password_reset" None
               (JObj [("via", JStr "self_service")]) ;;; ret tt)
            (fun _ => ret tt) ;;;
      ret true
  end.
Definition reset_password (salt token new_password : string) : M App bool :=
  rated "_pw_reset" None ;;; on_store (reset_body salt token new_password).

(** ** Second factors *)

Definition mfa_audit (claims : Claims) (action method : string) : M Store unit :=
  append_audit now (c_tid claims) (Some (c_sub claims)) None (c_role claims) action (Some "session")
    (JObj [("method", JStr method)]) ;;; ret tt.
Definition enroll_mfa_route (raw nonce : string) : M Store MfaEnrollment :=
  let! claims := require_bearer cfg ring now auth in
  let! res := enroll_mfa cfg now raw nonce (c_sub claims) in
  mfa_audit claims "mfa.enroll" "totp" ;;;
  ret res.
(** Denials become 401; other faults propagate. *)
Definition verify_mfa_route (code method : string) : M Store (string * bool * Z) :=
  let! claims := require_bearer cfg ring now auth in
  let! res := catch (verify_mfa cfg now (c_sub claims) code method)
    (fun e => match e with
              | HTTPException st _ =>
                  if st =? 401 then raise e else raise (unauthorized "mfa verification failed")
              | _ => raise e
              end) in
  mfa_audit claims "mfa.verify" method ;;;
  ret res.
Definition list_mfa_route : M Store (list (string * bool * Z)) :=
  let! claims := require_bearer cfg ring now auth in
  gets (list_mfa_status (c_sub claims)).
Definition delete_mfa_route (method : string) : M Store string :=
  let! claims := require_bearer cfg ring now auth in
  let! ok := delete_mfa (c_sub claims) method in
  if negb ok then raise (http 404 "mfa method not found")
  else mfa_audit claims "mfa.delete" method ;;; ret method.
End auth_routes.

(** * What the password-reset handlers guarantee (routes/auth.py) *)

Section reset.
Context `{HashLib, Argon2Lib, JwtLib, AeadLib, RsaLib, TotpLib}.

(** The mail client fails only in the ways [smtplib] documents. *)
Definition smtp_faults (smtp : Smtp) : Prop :=
  forall to_email subject body e, smtp to_email subject body = Raise e -> exists m, e = OSError m.

Lemma forgot_body_sent now ml smtp rnd email s :
  smtp_faults smtp -> (forgot_body now ml smtp rnd email s).1 = Ok true.
Proof.
  intros Hsm. unfold forgot_body. rewrite bind_gets.
  destruct (get_user_by_email (strip email) s) as [u|]; [|done].
  unfold set_password_reset_token. unfold bind at 1. unfold bind at 1. unfold gets.
  destruct (dget (u_user_id u) (users s)) as [u'|]; [|done].
  cbv [bind put_user modify ret lift catch].
  destruct (send_password_reset_email ml smtp (strip email) rnd (u_username u)) as [x|e] eqn:E; [done|].
  unfold send_password_reset_email, send_email in E. destruct (negb _); [done|].
  destruct (smtp _ _ _) as [|e'] eqn:Es; [done|]. apply Hsm in Es as [m ->]. by injection E as <-.
Qed.

(** Asking for a password reset does not tell whether an account exists. For
    the same request from the same address the answer is the same whatever
    accounts there are and whether the mail goes out: it depends on the rate
    limiter only, and is [sent] when that admits the request. *)
Theorem forgot_password_uniform now rate ml smtp rnd email s1 s2 l :
  smtp_faults smtp ->
  (forgot_password now rate ml smtp rnd email (s1, l)).1 =
  (forgot_password now rate ml smtp rnd email (s2, l)).1 /\
  ((rated now rate "_pw_forgot" (Some email) (s1, l)).1 = Ok tt ->
   (forgot_password now rate ml smtp rnd email (s1, l)).1 = Ok true).
Proof.
  intros Hsm. unfold forgot_password, rated, bind, on_limiter, on_store. simpl.
  destruct (check_login_rate _ _ _ _ _ _ l) as [[[]|e] l']; simpl; [|done].
  pose proof (forgot_body_sent now ml smtp rnd email s1 Hsm) as E1.
  pose proof (forgot_body_sent now ml smtp rnd email s2 Hsm) as E2.
  destruct (forgot_body _ _ _ _ _ s1) as [a1 t1], (forgot_body _ _ _ _ _ s2) as [a2 t2].
  simpl in *. by subst.
Qed.

(** [C32] A password reset does what it says. If the handler answers, the token was
    that of a user and in time; afterwards the new password is that user's,
    every refresh token of the user is revoked, the token is spent, and no
    other user has changed. *)
Theorem password_reset_effective `{!Argon2Laws} now rate salt token pw s l st :
  reachable s ->
  reset_password now rate salt token pw (s, l) = (Ok true, st) ->
  exists uid u u',
    dget uid (users s) = Some u /\ u_password_reset_token_hash u = Some (hash_token token) /\
    token_expired now (u_password_reset_expires u) = false /\
    dget uid (users st.1) = Some u' /\ password_ok pw u' = true /\
    u_password_reset_token_hash u' = None /\ u_must_change_password u' = false /\
    (forall jti r, dget jti (refresh_tokens st.1) = Some r -> rt_user_id r = uid ->
       rt_status r = "revoked") /\
    forall uid' u2, uid' <> uid -> dget uid' (users st.1) = Some u2 -> dget uid' (users s) = Some u2.
Proof.
  intros Hs Hrun. pose proof (reach_wf _ _ Hs) as Hwf. pose proof (reach_ids _ _ Hs) as Hids.
  apply bind_ok in Hrun as ([] & st1 & Hrate & Hrun).
  assert (Est : st1.1 = s).
  { revert Hrate. unfold rated, on_limiter. simpl. destruct (check_login_rate _ _ _ _ _ _ l).
    by intros [= _ <-]. }
  unfold on_store in Hrun. rewrite Est in Hrun.
  destruct (reset_body now salt token pw s) as [a s'] eqn:Hb. injection Hrun as -> <-. simpl.
  unfold reset_body, consume_password_reset_token in Hb.
  apply bind_ok in Hb as (uid & s1 & Hc & Hb). rewrite bind_gets in Hc.
  destruct (dfind _ (users s)) as [[k u]|] eqn:Hf; [|by injection Hc as <- <-].
  apply (dfind_dget _ _ _ _ (wf_users s Hwf)) in Hf as [Hk Hh]. apply bool_decide_eq_true in Hh.
  destruct (token_expired now (u_password_reset_expires u)) eqn:He; [by injection Hc as <- <-|].
  pose proof (id_user s Hids k u Hk) as Hid. cbv [put_user bind modify ret] in Hc.
  injection Hc as <- <-.
  set (u0 := set_u_password_reset_expires None (set_u_password_reset_token_hash None u)) in *.
  rewrite <- Hid in *. exists (u_user_id u), u. unfold hash_password in Hb. simpl in Hb.
  pose proof (argon2_nonempty pw salt) as Hne.
  erewrite bind_eq_ok in Hb by (apply (update_user_run _ _ u0); simpl; apply dget_dset_eq).
  set (u1 := apply_user_fields _ u0) in *. set (s1 := set_users _ _) in Hb.
  destruct (revoke_where_run (fun r => rt_user_id r = u_user_id u) s1) as (n & d & E).
  unfold revoke_user_sessions in Hb. erewrite bind_eq_ok in Hb by exact E.
  unfold catch, bind in Hb. rewrite append_audit_run in Hb. simpl in Hb. injection Hb as <-.
  exists u1. simpl. split_and!; try done.
  - by rewrite dget_dset_eq.
  - unfold password_ok, verify_password. simpl. by rewrite decide_True, argon2_verify_hash by done.
  - intros jti r Hg Hr. eapply (revoke_where_all (fun r => rt_user_id r = u_user_id u) jti r s1); [done| |done].
    by rewrite E.
  - intros uid' u2 Hne2. rewrite !dget_dset_ne by done. done.
Qed.
End reset.
