(* ===== verification/SecretRoutes.v ===== *)
(** * Application secrets, credentials, identity providers, departments and
    key rotation (routes/app_secrets.py, app_credentials.py, idps.py,
    departments.py, jwks.py) *)
From S2P Require Import Prelude PyText StoreState Prims AuditLog Tenants Rbac Users Keys Tokens Ledger.
From S2P Require Import Crypto Jwt Jwks Auth Deps MemberRoutes.

(** [_APP_ID_RE] and [_CRED_NAME_RE]. *)
Definition app_head (c : ascii) : bool := is_lower c || is_digit c.
Definition app_tail (c : ascii) : bool :=
  app_head c || bool_decide (c = "_"%char) || bool_decide (c = "-"%char).
Definition cred_tail (c : ascii) : bool := app_tail c || bool_decide (c = "."%char).
Definition app_id_ok (s : string) : bool := re_ident app_head app_tail 63 s.
Definition cred_name_ok (s : string) : bool := re_ident app_head cred_tail 63 s.

(** An issued secret: the raw material, shown once, the row and the demoted
    one. *)
Definition Issued : Type := (string * AppSecret * option AppSecret)%type.
(** What a credential read returns. *)
Record Fetched : Type := mkFetched {
  fe_app_id : string; fe_name : string; fe_value : string; fe_created_at : Z; fe_updated_at : Z;
  fe_fetch_count : Z; fe_last_fetched_at : option Z
}.
Record IdpCreate : Type := mkIdpCreate {
  ic_idp_id : string; ic_type : string; ic_issuer_url : option string; ic_client_id : option string;
  ic_client_secret : option string; ic_scopes : option string; ic_auto_provision : bool
}.
Record IdpUpdate : Type := mkIdpUpdate {
  iu_type : option string; iu_issuer_url : option string; iu_client_id : option string;
  iu_client_secret : option string; iu_scopes : option string; iu_auto_provision : option bool
}.
(** [rec.pop("client_secret_enc", None)] *)
Definition hide_secret (r : Idp) : Idp :=
  mkIdp (ip_idp_id r) (ip_tenant_id r) (ip_type r) (ip_issuer_url r) (ip_client_id r) None
    (ip_scopes r) (ip_auto_provision r) (ip_created_at r).

Section secret_routes.
Context `{HashLib, Argon2Lib, JwtLib, AeadLib, RsaLib}.
Variables (cfg : AuthConfig) (ring : KeyRing) (now : Z) (hdr : Headers).
Variables (service_token : string) (service_token_prev : option string) (secret_grace_seconds : Z).
#[local] Abbreviation guard := (guard cfg ring now hdr).

Definition by_service : M Store unit :=
  lift (require_service_token service_token service_token_prev (hd_authorization hdr)).
(** [_audit]: attributed to the service; a failing append is logged. *)
Definition service_audit (action resource : string) (detail : json) : M Store unit :=
  catch (append_audit now "_system" None None (Some "service") action (Some resource) detail ;;; ret tt)
        (fun _ => ret tt).

(** ** Application secrets *)

Definition _validate_app_id (app_id : string) : M Store unit :=
  if app_id_ok app_id then ret tt
  else raise (http 422 "app_id must match ^[a-z0-9][a-z0-9_-]{0,63}$").
Definition _grace_seconds (body : option Z) : Z := default secret_grace_seconds body.

Definition issue_app_secret_route (rnd_raw rnd_id app_id : string) (grace_seconds : option Z)
    : M Store Issued :=
  by_service ;;;
  _validate_app_id app_id ;;;
  let! current := gets (get_current_app_secret app_id) in
  match current with
  | Some c =>
      raise (http 409 ("app " +:+ app_id +:+ " already has a current secret (version " +:+
                       pretty (s_version c) +:+ ") — use POST /secrets/rotate"))
  | None =>
      let! (raw, record, prev) :=
        on_conflict (issue_app_secret now rnd_raw rnd_id app_id (_grace_seconds grace_seconds)) (http 409) in
      service_audit "app_secret.issued" app_id
        (JObj [("secret_id", JStr (s_secret_id record)); ("version", JInt (s_version record))]) ;;;
      ret (raw, record, prev)
  end.

Definition list_app_secrets_route (app_id : string) : M Store (list AppSecretItem) :=
  by_service ;;; _validate_app_id app_id ;;; gets (list_app_secrets now app_id).

Definition rotate_app_secret (rnd_raw rnd_id app_id : string) (grace_seconds : option Z)
    : M Store Issued :=
  by_service ;;;
  _validate_app_id app_id ;;;
  let! has := gets (has_app_secrets app_id) in
  if negb has then raise (http 404 ("app " +:+ app_id +:+ " has no secrets to rotate"))
  else
    let! (raw, record, prev) :=
      on_conflict (issue_app_secret now rnd_raw rnd_id app_id (_grace_seconds grace_seconds)) (http 409) in
    service_audit "app_secret.rotated" app_id
      (JObj [("secret_id", JStr (s_secret_id record)); ("version", JInt (s_version record));
             ("previous_version", match prev with Some r => JInt (s_version r) | None => JNull end)]) ;;;
    ret (raw, record, prev).

Definition revoke_app_secret_version_route (app_id : string) (version : Z) : M Store AppSecretItem :=
  by_service ;;;
  _validate_app_id app_id ;;;
  let! rec := revoke_app_secret_version app_id version in
  match rec with
  | None => raise (http 404 ("app " +:+ app_id +:+ " has no secret version " +:+ pretty version))
  | Some rec =>
      service_audit "app_secret.revoked" app_id
        (JObj [("secret_id", JStr (si_secret_id rec)); ("version", JInt version)]) ;;;
      ret rec
  end.

(** ** Stored credentials *)

Definition _validate_ids (app_id name : string) : M Store unit :=
  _validate_app_id app_id ;;;
  if cred_name_ok name then ret tt
  else raise (http 422 "credential name must match ^[a-z0-9][a-z0-9_.-]{0,63}$").
Definition credential_audit (action app_id name : string) : M Store unit :=
  service_audit action (app_id +:+ "/" +:+ name)
    (JObj [("app_id", JStr app_id); ("name", JStr name)]).

Definition put_app_credential_route (nonce app_id name value : string) : M Store AppCredential :=
  by_service ;;;
  _validate_ids app_id name ;;;
  let! rec := put_app_credential now app_id name (encrypt_secret nonce value (ac_kek cfg)) in
  credential_audit "app_credential.stored" app_id name ;;;
  ret rec.

Definition get_app_credential_route (app_id name : string) : M Store Fetched :=
  by_service ;;;
  _validate_ids app_id name ;;;
  let! rec := get_app_credential now app_id name in
  match rec with
  | None => raise (http 404 ("credential " +:+ name +:+ " not found for app " +:+ app_id))
  | Some rec =>
      let! value := match decrypt_secret (c_secret_enc rec) (ac_kek cfg) (ac_kek_prev cfg) with
                    | Ok v => ret v
                    | Raise (CryptoError _) =>
                        raise (http 500 "credential decryption failed (KEK mismatch or corrupt blob)")
                    | Raise e => raise e
                    end in
      credential_audit "app_credential.fetched" app_id name ;;;
      ret (mkFetched (c_app_id rec) (c_name rec) value (c_created_at rec) (c_updated_at rec)
             (c_fetch_count rec) (c_last_fetched_at rec))
  end.

(** ** Identity providers *)

(** [append_audit(tenant_id, None, None, None, action, "idp", detail)] *)
Definition idp_audit (tenant_id action : string) (detail : json) : M Store unit :=
  append_audit now tenant_id None None None action (Some "idp") detail ;;; ret tt.
(** [rec is None or rec["tenant_id"] != tenant_id] is a 404. *)
Definition own_idp (tenant_id idp_id : string) : M Store Idp :=
  let! rec := gets (get_idp idp_id) in
  match rec with
  | None => raise (http 404 "idp not found")
  | Some rec => if decide (ip_tenant_id rec <> tenant_id) then raise (http 404 "idp not found") else ret rec
  end.

Definition list_idps_route (tenant_id : string) : M Store (list Idp) :=
  guard "idps" "read" tenant_id ;;; gets (fun s => hide_secret <$> list_idps tenant_id s).

Definition create_idp_route (nonce tenant_id : string) (req : IdpCreate) : M Store Idp :=
  guard "idps" "write" tenant_id ;;;
  let! tenant := gets (get_tenant tenant_id) in
  match tenant with
  | None => raise (http 404 "tenant not found")
  | Some _ =>
      let enc := match ic_client_secret req with
                 | Some v => if str_true v then Some (encrypt_secret nonce v (ac_kek cfg)) else None
                 | None => None
                 end in
      let! rec := on_conflict (create_idp now (ic_idp_id req) tenant_id (ic_type req) (ic_issuer_url req)
                                 (ic_client_id req) enc (ic_scopes req) (ic_auto_provision req)) (http 409) in
      idp_audit tenant_id "idp.create" (JObj [("idp_id", JStr (ic_idp_id req))]) ;;;
      ret (hide_secret rec)
  end.

Definition get_idp_route (tenant_id idp_id : string) : M Store Idp :=
  guard "idps" "read" tenant_id ;;;
  let! rec := own_idp tenant_id idp_id in
  ret (hide_secret rec).

(** The names of the fields a request sets. *)
Definition named {A} (n : string) (o : option A) : list string :=
  match o with Some _ => [n] | None => [] end.
Definition update_idp_route (nonce tenant_id idp_id : string) (req : IdpUpdate) : M Store Idp :=
  guard "idps" "write" tenant_id ;;;
  let! rec := own_idp tenant_id idp_id in
  let enc := (fun v => encrypt_secret nonce v (ac_kek cfg)) <$> iu_client_secret req in
  let fields := mkIdpFields (iu_type req) (iu_issuer_url req) (iu_client_id req) enc (iu_scopes req)
                  (iu_auto_provision req) in
  let names := named "type" (iu_type req) ++ named "issuer_url" (iu_issuer_url req) ++
               named "client_id" (iu_client_id req) ++ named "client_secret_enc" enc ++
               named "scopes" (iu_scopes req) ++ named "auto_provision" (iu_auto_provision req) in
  let! updated := update_idp idp_id fields in
  idp_audit tenant_id "idp.update" (JObj [("idp_id", JStr idp_id); ("fields", jlist names)]) ;;;
  ret (hide_secret (default rec updated)).

Definition delete_idp_route (tenant_id idp_id : string) : M Store string :=
  guard "idps" "delete" tenant_id ;;;
  own_idp tenant_id idp_id ;;;
  delete_idp idp_id ;;;
  idp_audit tenant_id "idp.delete" (JObj [("idp_id", JStr idp_id)]) ;;;
  ret idp_id.

(** ** Departments *)

Definition dept_found {A} (what : string) (o : option A) : M Store A :=
  match o with Some a => ret a | None => raise (http 404 (what +:+ " not found")) end.
Definition create_department_route (rnd_id tenant_id name : string) (parent_id : option string)
    (tool_allowlist : option (list string)) : M Store Department :=
  guard "departments" "write" tenant_id ;;;
  let! t := gets (get_tenant tenant_id) in
  dept_found "tenant" t ;;;
  create_department now rnd_id tenant_id name parent_id tool_allowlist.
Definition list_departments_route (tenant_id : string) : M Store (list Department) :=
  guard "departments" "read" tenant_id ;;; gets (list_departments tenant_id).
Definition get_department_route (tenant_id dept_id : string) : M Store Department :=
  guard "departments" "read" tenant_id ;;;
  let! rec := gets (get_department tenant_id dept_id) in
  dept_found "department" rec.
Definition update_department_route (tenant_id dept_id : string) (name parent_id : option string)
    (tool_allowlist : option (list string)) : M Store Department :=
  guard "departments" "write" tenant_id ;;;
  let! rec := update_department now tenant_id dept_id name parent_id tool_allowlist in
  dept_found "department" rec.
Definition delete_department_route (tenant_id dept_id : string) : M Store string :=
  guard "departments" "delete" tenant_id ;;;
  let! ok := delete_department tenant_id dept_id in
  if negb ok then raise (http 404 "department not found") else ret dept_id.
End secret_routes.

(** ** Key rotation *)

(** [rotate_keys] over the key ring and the store: the new key id and the
    published keys. *)
Section rotation.
Context `{HashLib, RsaLib}.
Definition on_ring {A} (m : M KR A) : M (KR * Store) A :=
  fun st => let '(a, k) := m st.1 in (a, (k, st.2)).
Definition on_ledger {A} (m : M Store A) : M (KR * Store) A :=
  fun st => let '(a, s) := m st.2 in (a, (st.1, s)).
Definition rotate_keys (service_token : string) (service_token_prev : option string) (auth : string)
    (now : Z) (w : write_outcome) (new_key : RsaKey) : M (KR * Store) (string * list Jwk) :=
  lift (require_service_token service_token service_token_prev auth) ;;;
  let! new_kid := on_ring (rotate w new_key) in
  match new_kid with
  | None => raise (http 400 "rotation requires RS256")
  | Some kid =>
      let! alg := gets (fun st => kr_algorithm st.1.1) in
      catch (on_ledger (append_audit now "default" (Some "system") None (Some "operator") "jwks.rotate"
               (Some "key") (JObj [("new_kid", JStr kid); ("algorithm", JStr alg)])) ;;; ret tt)
            (fun _ => ret tt) ;;;
      let! keys := gets (fun st => jwks st.1.1) in
      let! keys := lift keys in
      ret (kid, keys)
  end.
End rotation.
