(* ===== verification/SecretProps.v ===== *)
(** * Stored credentials and the rotation of the key-encryption key

    A credential can be read back under the key it was stored with, also while
    that key is the previous one; the rotation sweep does not touch
    credentials, so closing the window loses them. *)
From S2P Require Import Prelude PyText StoreState Prims AuditLog Tenants Rbac Users Keys Tokens.
From S2P Require Import Ledger Crypto Jwt Jwks Auth StoreSteps Invariants TableProps Deps.
From S2P Require Import MemberRoutes Redis DataPlane AdminRoutes SecretRoutes.

Section credentials.
Context `{HashLib, Argon2Lib, JwtLib, AeadLib, RsaLib}.

(** The store after a put. *)
Lemma put_credential_run now app name enc s :
  exists rec, put_app_credential now app name enc s =
    (Ok rec, set_app_credentials (dset (app, name) rec (app_credentials s)) s) /\ c_secret_enc rec = enc.
Proof. unfold put_app_credential. rewrite bind_gets. destruct (dget _ _); by eexists. Qed.
Lemma service_audit_run now action resource det s :
  exists s', service_audit now action resource det s = (Ok tt, s') /\
    app_credentials s' = app_credentials s.
Proof. unfold service_audit, catch, bind. rewrite append_audit_run. simpl. by eexists. Qed.

Lemma get_credential_run cfg now hdr tok tprev app name rec s :
  require_service_token tok tprev (hd_authorization hdr) = Ok tt ->
  app_id_ok app = true -> cred_name_ok name = true ->
  dget (app, name) (app_credentials s) = Some rec ->
  exists s1, match decrypt_secret (c_secret_enc rec) (ac_kek cfg) (ac_kek_prev cfg) with
  | Ok v => exists f, get_app_credential_route cfg now hdr tok tprev app name s = (Ok f, s1) /\
              fe_value f = v /\ fe_fetch_count f = c_fetch_count rec + 1
  | Raise (CryptoError _) => get_app_credential_route cfg now hdr tok tprev app name s =
      (Raise (http 500 "credential decryption failed (KEK mismatch or corrupt blob)"), s1)
  | Raise e => get_app_credential_route cfg now hdr tok tprev app name s = (Raise e, s1)
  end.
Proof.
  intros Ht Ha Hn Hr. unfold get_app_credential_route.
  assert (E1 : by_service hdr tok tprev s = (Ok tt, s)) by (unfold by_service, lift; by rewrite Ht).
  assert (E2 : _validate_ids app name s = (Ok tt, s)).
  { unfold _validate_ids, _validate_app_id. by rewrite Ha, Hn. }
  set (rec' := set_c_last_fetched_at (Some now) (set_c_fetch_count (c_fetch_count rec + 1) rec)).
  set (s1 := set_app_credentials (dset (app, name) rec' (app_credentials s)) s).
  assert (E3 : get_app_credential now app name s = (Ok (Some rec'), s1)).
  { unfold get_app_credential. rewrite bind_gets, Hr. done. }
  rewrite (bind_eq_ok _ _ _ _ _ E1), (bind_eq_ok _ _ _ _ _ E2), (bind_eq_ok _ _ _ _ _ E3).
  change (c_secret_enc rec') with (c_secret_enc rec).
  destruct (decrypt_secret _ _ _) as [v|e]; [|destruct e; by exists s1].
  destruct (service_audit_run now "app_credential.fetched" (app +:+ "/" +:+ name)
    (JObj [("app_id", JStr app); ("name", JStr name)]) s1) as (s2 & E & _).
  exists s2. rewrite bind_ret_l. unfold credential_audit. rewrite (bind_eq_ok _ _ _ _ _ E). by eexists.
Qed.

(** The sweep leaves the credentials alone. *)
Lemma for_fold_frame {A C T} (f : Store -> T) (body : A -> C -> M Store C) :
  (forall x c s, f (body x c s).2 = f s) -> forall l c s, f (for_fold l body c s).2 = f s.
Proof.
  intros Hb l. induction l as [|x l IH]; intros c s; simpl; [done|].
  unfold bind. specialize (Hb x c s). destruct (body x c s) as [[c'|e] s1]; simpl in *; [|done].
  by rewrite IH.
Qed.
Lemma reencrypt_idp_frame kek nonce prev x c s :
  app_credentials (reencrypt_idp kek nonce prev x c s).2 = app_credentials s.
Proof.
  unfold reencrypt_idp. destruct (ip_client_secret_enc x); [|done]. destruct (negb _); [done|].
  destruct (reencrypted _ _ _ _ _) as [b|e']; [|by destruct e'].
  unfold update_idp, bind, gets, modify, ret. by destruct (dget _ _).
Qed.
Lemma reencrypt_mfa_frame now kek nonce prev x c s :
  app_credentials (reencrypt_mfa now kek nonce prev x c s).2 = app_credentials s.
Proof.
  unfold reencrypt_mfa. destruct (negb _); [done|].
  destruct (reencrypted _ _ _ _ _) as [b|e']; [done|by destruct e'].
Qed.
Lemma kek_sweep_credentials now kek nonce prev s :
  app_credentials (kek_sweep now kek nonce prev s).2 = app_credentials s.
Proof.
  unfold kek_sweep. rewrite bind_gets. unfold bind at 1.
  pose proof (for_fold_frame app_credentials _ (reencrypt_idp_frame kek nonce prev)
    (list_all_idps s) (mkSweep 0 0 0 0) s) as Hi.
  destruct (for_fold (list_all_idps s) _ _ s) as [[c|e] s1]; simpl in *; [|done].
  rewrite bind_gets. unfold bind.
  pose proof (for_fold_frame app_credentials _ (reencrypt_mfa_frame now kek nonce prev)
    (list_all_mfa s1) (mkSweep 0 0 0 0) s1) as Hm.
  destruct (for_fold (list_all_mfa s1) _ _ s1) as [[c'|e] s2]; simpl in *; congruence.
Qed.

(** A stored credential reads back as it was stored: under the key it was
    stored with, and, while a rotation is under way, under a new key with the
    old one as the previous key. It does not survive the end of the rotation:
    the sweep leaves credentials under the old key, and once the previous key
    is dropped, as the sweep's answer tells the operator to do, every read
    fails. ([Hrej]: the new key does not open the old ciphertext.) *)
Theorem credential_rotation `{!AeadLaws} cfg now hdr tok tprev nonce app name value s rec s1
    k2 nonces now' cfg1 cfg2 cfg3 :
  require_service_token tok tprev (hd_authorization hdr) = Ok tt ->
  String.length nonce = 12%nat -> ac_kek cfg <> "" ->
  put_app_credential_route cfg now hdr tok tprev nonce app name value s = (Ok rec, s1) ->
  aes_decrypt (derive_kek k2) nonce (aes_encrypt (derive_kek (ac_kek cfg)) nonce (utf8_encode value)) = None ->
  ac_kek cfg1 = ac_kek cfg ->
  ac_kek cfg2 = k2 -> ac_kek_prev cfg2 = Some (ac_kek cfg) ->
  ac_kek cfg3 = k2 -> ac_kek_prev cfg3 = None ->
  let swept := (kek_sweep now' k2 nonces (ac_kek cfg) s1).2 in
  (exists f s2, get_app_credential_route cfg1 now' hdr tok tprev app name s1 = (Ok f, s2) /\
     fe_value f = value /\ fe_fetch_count f = c_fetch_count rec + 1) /\
  (exists f s2, get_app_credential_route cfg2 now' hdr tok tprev app name swept = (Ok f, s2) /\
     fe_value f = value) /\
  (exists s2, get_app_credential_route cfg3 now' hdr tok tprev app name swept =
     (Raise (http 500 "credential decryption failed (KEK mismatch or corrupt blob)"), s2)).
Proof.
  intros Ht Hlen Hne Hput Hrej E1 E2 P2 E3 P3 swept. unfold put_app_credential_route in Hput.
  apply bind_ok in Hput as ([] & t0 & [= _ <-] & Hput).
  apply bind_ok in Hput as ([] & t0 & Hval & Hput).
  assert (t0 = s /\ app_id_ok app = true /\ cred_name_ok name = true) as (-> & Ha & Hn).
  { revert Hval. unfold _validate_ids, _validate_app_id, bind.
    destruct (app_id_ok app); [|done]. simpl. destruct (cred_name_ok name); [|done]. by intros [= <-]. }
  apply bind_ok in Hput as (rec' & t1 & Hp & Hput).
  destruct (put_credential_run now app name (encrypt_secret nonce value (ac_kek cfg)) s) as (r0 & Er & Hs).
  rewrite Er in Hp. injection Hp as <- <-.
  apply bind_ok in Hput as ([] & t2 & Haud & [= <- <-]).
  destruct (service_audit_run now "app_credential.stored" (app +:+ "/" +:+ name)
    (JObj [("app_id", JStr app); ("name", JStr name)])
    (set_app_credentials (dset (app, name) r0 (app_credentials s)) s)) as (t3 & Ea & Ec).
  unfold credential_audit in Haud. rewrite Ea in Haud. injection Haud as <-.
  assert (Hg : dget (app, name) (app_credentials t3) = Some r0) by (rewrite Ec; apply dget_dset_eq).
  assert (Hg' : dget (app, name) (app_credentials swept) = Some r0)
    by (unfold swept; by rewrite kek_sweep_credentials).
  assert (Hrej' : exists m, decrypt_with (encrypt_secret nonce value (ac_kek cfg)) k2 = Raise (CryptoError m)).
  { rewrite decrypt_with_sealed; [|done|rewrite aes_length; unfold slen; lia]. rewrite Hrej. by eexists. }
  destruct Hrej' as [m Hrej'].
  pose proof (decrypt_with_same nonce value (ac_kek cfg) Hlen) as Hsame.
  split; [|split].
  - destruct (get_credential_run cfg1 now' hdr tok tprev app name r0 t3 Ht Ha Hn Hg) as (s2 & Hr).
    rewrite Hs, E1 in Hr. unfold decrypt_secret in Hr. rewrite Hsame in Hr.
    destruct Hr as (f & ? & ? & ?). eauto 10.
  - destruct (get_credential_run cfg2 now' hdr tok tprev app name r0 swept Ht Ha Hn Hg') as (s2 & Hr).
    rewrite Hs, E2, P2 in Hr. unfold decrypt_secret in Hr. rewrite Hrej' in Hr.
    rewrite decide_False in Hr.
    + rewrite Hsame in Hr. destruct Hr as (f & ? & ? & ?). eauto 10.
    + intros [?|E]; [done|]. rewrite <- E, Hsame in Hrej'. done.
  - destruct (get_credential_run cfg3 now' hdr tok tprev app name r0 swept Ht Ha Hn Hg') as (s2 & Hr).
    rewrite Hs, E3, P3 in Hr. unfold decrypt_secret in Hr. rewrite Hrej' in Hr. eauto.
Qed.
End credentials.

(** * Rotation of the key-encryption key (routes/admin.py, [admin_kek_reencrypt])

    The sweep rewrites every stored client secret and second factor under the
    current key: what it decrypts it re-encrypts, what it cannot decrypt it
    leaves, and it runs to the end. *)

(** Rows carry the key they are stored under. *)
Record rows_named (s : Store) : Prop := {
  rn_idp : forall k r, dget k (idps s) = Some r -> ip_idp_id r = k;
  rn_mfa : forall k r, dget k (mfa s) = Some r -> (mf_user_id r, mf_method r) = k
}.
Lemma rows_named_frame s s' : idps s' = idps s -> mfa s' = mfa s -> rows_named s -> rows_named s'.
Proof. intros E1 E2 []. constructor; rewrite ?E1, ?E2; done. Qed.


Lemma named_put_idp s k r : rows_named s -> ip_idp_id r = k -> rows_named (set_idps (dset k r (idps s)) s).
Proof. intros [] E. constructor; simpl; [|done]. intros k' r' [[-> ->]|[_ ?]]%dget_dset_inv; auto. Qed.
Lemma named_put_mfa s k r :
  rows_named s -> (mf_user_id r, mf_method r) = k -> rows_named (set_mfa (dset k r (mfa s)) s).
Proof. intros [] E. constructor; simpl; [done|]. intros k' r' [[-> ->]|[_ ?]]%dget_dset_inv; auto. Qed.

Section named.
Context `{HashLib, Argon2Lib}.
Lemma exec_named s op : store_wf s -> rows_named s -> rows_named (exec op s).
Proof.
  intros Hwf Hs. destruct op; frame_ops (rows_named_frame s); exec_run; try done;
    try (apply named_put_mfa; done);
    try (apply named_put_idp; [done|]; simpl; try done; by eapply rn_idp);
    destruct Hs; constructor; simpl; try done; intros k r; rewrite dget_dpop; case_decide; naive_solver.
Qed.
Lemma reach_named ok s : reach ok s -> rows_named s.
Proof.
  intros Hr. assert (store_wf s /\ rows_named s) as [_ ?]; [|done]. induction Hr as [|s op _ [] _].
  - split; [apply init_wf|by constructor].
  - split; [by apply exec_wf|by apply exec_named].
Qed.
End named.

Section sweep.
Context `{AeadLib} (kek prev : string) (nonce : string -> string) (now : Z).

(** What the sweep makes of a stored secret, and of a row. *)
Definition swept_blob (id blob : string) : string :=
  match decrypt_with blob prev with
  | Ok plain => encrypt_secret (nonce id) plain kek
  | Raise _ => blob
  end.
Lemma reencrypted_run id blob :
  (exists nb, reencrypted kek nonce id blob prev = Ok nb /\ swept_blob id blob = nb) \/
  (exists m, reencrypted kek nonce id blob prev = Raise (CryptoError m) /\ swept_blob id blob = blob).
Proof.
  unfold reencrypted, swept_blob, decrypt_secret.
  destruct (decrypt_with blob prev) as [pt|e] eqn:E; [left; eauto|right].
  destruct (decrypt_with_errors _ _ _ E) as [[m ->]|[-> _]]; eauto.
Qed.
Definition swept_idp (r : Idp) : Idp :=
  match ip_client_secret_enc r with
  | Some blob =>
      mkIdp (ip_idp_id r) (ip_tenant_id r) (ip_type r) (ip_issuer_url r) (ip_client_id r)
        (Some (if str_true blob then swept_blob (ip_idp_id r) blob else blob))
        (ip_scopes r) (ip_auto_provision r) (ip_created_at r)
  | None => r
  end.
Definition swept_mfa (r : Mfa) : Mfa :=
  mkMfa (mf_user_id r) (mf_method r)
    (if str_true (mf_secret_enc r) then swept_blob (mfa_row r) (mf_secret_enc r) else mf_secret_enc r)
    (mf_enrolled_at r) (mf_enabled r).

(** A counted row: one more in total, and in exactly one of the classes. *)
Definition counted (c : Sweep) : Prop := sw_total c = sw_migrated c + sw_skipped c + sw_failed c.

Lemma idp_step r c s :
  dget (ip_idp_id r) (idps s) = Some r ->
  exists c' s', reencrypt_idp kek nonce prev r c s = (Ok c', s') /\ sw_total c' = sw_total c + 1 /\
    (counted c -> counted c') /\ (forall k, dget k (idps s') =
      if decide (k = ip_idp_id r) then Some (swept_idp r) else dget k (idps s)) /\ mfa s' = mfa s.
Proof.
  intros Hr. unfold reencrypt_idp, swept_idp.
  assert (Hsame : forall k, dget k (idps s) = if decide (k = ip_idp_id r) then Some r else dget k (idps s)).
  { intros k. by case_decide; subst. }
  destruct (ip_client_secret_enc r) as [blob|] eqn:Eb.
  2:{ eexists _, _. split; [done|]. split; [done|]. split; [unfold counted; simpl; lia|done]. }
  assert (Hrow : r = mkIdp (ip_idp_id r) (ip_tenant_id r) (ip_type r) (ip_issuer_url r) (ip_client_id r)
    (Some blob) (ip_scopes r) (ip_auto_provision r) (ip_created_at r)) by (rewrite <- Eb; by destruct r).
  destruct (str_true blob) eqn:Es; simpl.
  2:{ eexists _, _. split; [done|]. split; [done|]. split; [unfold counted; simpl; lia|].
      split; [|done]. by rewrite <- Hrow. }
  destruct (reencrypted_run (ip_idp_id r) blob) as [(nb & -> & ->)|(m & -> & ->)].
  - unfold bind, update_idp, gets, modify, ret. unfold bind. rewrite Hr.
    eexists _, _. split; [done|]. split; [done|]. split; [unfold counted; simpl; lia|].
    split; [|done]. intros k. simpl. by rewrite dget_dset.
  - eexists _, _. split; [done|]. split; [done|]. split; [unfold counted; simpl; lia|].
    split; [|done]. by rewrite <- Hrow.
Qed.
Lemma mfa_step r c s :
  dget (mf_user_id r, mf_method r) (mfa s) = Some r ->
  exists c' s', reencrypt_mfa now kek nonce prev r c s = (Ok c', s') /\ sw_total c' = sw_total c + 1 /\
    (counted c -> counted c') /\ (forall k, dget k (mfa s') =
      if decide (k = (mf_user_id r, mf_method r)) then Some (swept_mfa r) else dget k (mfa s)) /\
    idps s' = idps s.
Proof.
  intros Hr. unfold reencrypt_mfa, swept_mfa.
  assert (Hsame : forall k, dget k (mfa s) =
    if decide (k = (mf_user_id r, mf_method r)) then Some r else dget k (mfa s)).
  { intros k. by case_decide; subst. }
  assert (Hrow : r = mkMfa (mf_user_id r) (mf_method r) (mf_secret_enc r) (mf_enrolled_at r) (mf_enabled r))
    by by destruct r.
  destruct (str_true (mf_secret_enc r)) eqn:Es; simpl.
  2:{ eexists _, _. split; [done|]. split; [done|]. split; [unfold counted; simpl; lia|].
      split; [|done]. by rewrite <- Hrow. }
  destruct (reencrypted_run (mfa_row r) (mf_secret_enc r)) as [(nb & -> & ->)|(m & -> & ->)].
  - unfold bind, upsert_mfa, gets, modify, ret. unfold bind. rewrite Hr.
    eexists _, _. split; [done|]. split; [done|]. split; [unfold counted; simpl; lia|].
    split; [|done]. intros k. simpl. by rewrite dget_dset.
  - eexists _, _. split; [done|]. split; [done|]. split; [unfold counted; simpl; lia|].
    split; [|done]. by rewrite <- Hrow.
Qed.

(** A loop over rows whose body rewrites its own row. *)
Lemma fold_rows {K R T} `{EqDecision K} (get : Store -> K -> option R) (key : R -> K) (f : R -> R)
    (body : R -> Sweep -> M Store Sweep) (other : Store -> T) :
  (forall r c s, get s (key r) = Some r -> exists c' s', body r c s = (Ok c', s') /\
     sw_total c' = sw_total c + 1 /\ (counted c -> counted c') /\
     (forall k, get s' k = if decide (k = key r) then Some (f r) else get s k) /\ other s' = other s) ->
  forall rows c s, NoDup (key <$> rows) -> (forall r, r ∈ rows -> get s (key r) = Some r) ->
  exists c' s', for_fold rows body c s = (Ok c', s') /\ sw_total c' = sw_total c + zlen rows /\
    (counted c -> counted c') /\ (forall r, r ∈ rows -> get s' (key r) = Some (f r)) /\
    (forall k, k ∉ key <$> rows -> get s' k = get s k) /\ other s' = other s.
Proof.
  intros Hstep. induction rows as [|r rows IH]; intros c s Hnd Hrows; simpl.
  { eexists _, _. split; [done|]. unfold zlen. simpl. split; [lia|]. split; [done|].
    split; [by intros r ?%elem_of_nil|]. done. }
  csimpl in Hnd. apply NoDup_cons in Hnd as [Hr Hnd].
  destruct (Hstep r c s) as (c1 & s1 & E1 & Ht1 & Hc1 & Hg1 & Hk1); [apply Hrows; left|].
  destruct (IH c1 s1) as (c2 & s2 & E2 & Ht2 & Hc2 & Hin2 & Hout2 & Hk2); [done| |].
  { intros r' Hr'. rewrite Hg1, decide_False; [apply Hrows; by right|].
    intros Ek. apply Hr. rewrite <- Ek. by apply list_elem_of_fmap_2. }
  exists c2, s2. unfold bind. rewrite E1. split; [done|]. split; [unfold zlen in *; simpl; lia|].
  split; [auto|]. split; [|split; [|congruence]].
  - intros r' [->|Hr']%elem_of_cons; [|auto]. rewrite Hout2 by done. by rewrite Hg1, decide_True.
  - csimpl. intros k Hk. rewrite Hout2 by set_solver. rewrite Hg1, decide_False; set_solver.
Qed.

Lemma listed_rows {K R} `{EqDecision K} (d : list (K * R)) (key : R -> K) (P : R -> Prop)
    `{forall r, Decision (P r)} :
  dict_wf d -> (forall k r, dget k d = Some r -> key r = k) ->
  NoDup (key <$> filter P (dvalues d)) /\
  (forall r, r ∈ filter P (dvalues d) -> dget (key r) d = Some r /\ P r) /\
  forall k r, dget k d = Some r -> P r -> r ∈ filter P (dvalues d).
Proof.
  intros Hwf Hkey.
  assert (Hd : key <$> dvalues d = dkeys d).
  { unfold dvalues, dkeys. rewrite <- list_fmap_compose. apply list_fmap_ext. intros i [k r] Hi. simpl.
    apply Hkey. apply elem_of_dget; [done|]. by eapply list_elem_of_lookup_2. }
  split; [|split].
  - eapply sublist_NoDup; [exact Hwf|]. fold (dkeys d). rewrite <- Hd. apply fmap_sublist, sublist_filter.
  - intros r [HP Hr]%list_elem_of_filter. apply elem_of_dvalues in Hr as [k Hk]; [|done].
    by rewrite (Hkey _ _ Hk).
  - intros k r Hk HP. apply list_elem_of_filter. split; [done|]. apply elem_of_dvalues; eauto.
Qed.

Lemma kek_sweep_run s :
  store_wf s -> rows_named s ->
  exists ci cm s', kek_sweep now kek nonce prev s = (Ok (ci, cm), s') /\
    sw_total ci = zlen (list_all_idps s) /\ counted ci /\
    sw_total cm = zlen (list_all_mfa s) /\ counted cm /\
    (forall id r, dget id (idps s) = Some r -> dget id (idps s') = Some (swept_idp r)) /\
    (forall k r, dget k (mfa s) = Some r -> dget k (mfa s') = Some (swept_mfa r)).
Proof.
  intros Hwf Hn.
  destruct (listed_rows (idps s) ip_idp_id (fun r => opt_true (ip_client_secret_enc r) = true)
    (wf_idps s Hwf) (rn_idp s Hn)) as (Hnd & Hin & Hall).
  destruct (fold_rows (fun s k => dget k (idps s)) ip_idp_id swept_idp (reencrypt_idp kek nonce prev)
    mfa idp_step (list_all_idps s) (mkSweep 0 0 0 0) s)
    as (ci & s1 & E1 & Ht1 & Hc1 & Hi1 & Ho1 & Hm1); [done|intros r Hr; by apply Hin|].
  destruct (listed_rows (mfa s1) (fun r => (mf_user_id r, mf_method r)) (fun r => mf_secret_enc r <> ""))
    as (Hnd2 & Hin2 & Hall2); [rewrite Hm1; by apply wf_mfa|intros k r; rewrite Hm1; by apply (rn_mfa s Hn)|].
  destruct (fold_rows (fun s k => dget k (mfa s)) (fun r => (mf_user_id r, mf_method r)) swept_mfa
    (reencrypt_mfa now kek nonce prev) idps mfa_step (list_all_mfa s1)
    (mkSweep 0 0 0 0) s1)
    as (cm & s2 & E2 & Ht2 & Hc2 & Hi2 & Ho2 & Hm2); [done|intros r Hr; by apply Hin2|].
  exists ci, cm, s2. split.
  { unfold kek_sweep. rewrite bind_gets. unfold bind at 1. rewrite E1, bind_gets.
    unfold bind. by rewrite E2. }
  split; [done|]. split; [by apply Hc1|].
  split; [unfold list_all_mfa in *; by rewrite Ht2, Hm1|]. split; [by apply Hc2|].
  split.
  - intros id r Hr. rewrite Hm2. pose proof (rn_idp s Hn _ _ Hr) as Hid.
    destruct (decide (opt_true (ip_client_secret_enc r) = true)) as [Ht|Ht].
    + rewrite <- Hid. apply Hi1. eapply Hall; eauto.
    + rewrite Ho1.
      * rewrite Hr. f_equal. unfold swept_idp, opt_true in *.
        destruct r as [? ? ? ? ? [b|] ? ? ?]; simpl in *; [|done]. by destruct (str_true b).
      * intros (r' & Ek & Hr')%list_elem_of_fmap. destruct (Hin r' Hr') as [Hg Hs].
        rewrite <- Ek, Hr in Hg. naive_solver.
  - intros k r Hr. assert (Hr1 : dget k (mfa s1) = Some r) by by rewrite Hm1.
    pose proof (rn_mfa s Hn _ _ Hr) as Hid.
    destruct (decide (mf_secret_enc r <> "")) as [Ht|Ht].
    + rewrite <- Hid. apply Hi2. eapply Hall2; eauto.
    + rewrite Ho2.
      * rewrite Hr1. f_equal. unfold swept_mfa, str_true. apply dec_stable in Ht.
        destruct r as [? ? b ? ?]; simpl in *. subst b. done.
      * intros (r' & Ek & Hr')%list_elem_of_fmap. destruct (Hin2 r' Hr') as [Hg Hs].
        rewrite <- Ek, Hr1 in Hg. naive_solver.
Qed.
End sweep.

(** [C18] Rotating the key-encryption key loses nothing. On an authorized call with
    a previous key configured, the sweep visits every client secret and second
    factor, never fails, accounts for each row once, and leaves every row as it
    was except that a secret it could decrypt under the previous key is now
    stored under the current one: it decrypts to the same text with the
    current key alone, so the previous key can be dropped. *)
Theorem kek_rotation_lossless `{HashLib, Argon2Lib, AeadLib, !AeadLaws} `{RedisLib} tok tprev now auth kek prev nonce p :
  reachable (pl_store p) -> require_service_token tok tprev auth = Ok tt -> str_true prev = true ->
  (forall id, String.length (nonce id) = 12%nat) ->
  exists ci cm p', admin_kek_reencrypt tok tprev now auth kek (Some prev) nonce p = (Ok (ci, cm), p') /\
    sw_total ci = zlen (list_all_idps (pl_store p)) /\ counted ci /\
    sw_total cm = zlen (list_all_mfa (pl_store p)) /\ counted cm /\
    (forall id r, dget id (idps (pl_store p)) = Some r ->
       dget id (idps (pl_store p')) = Some (swept_idp kek prev nonce r)) /\
    (forall k r, dget k (mfa (pl_store p)) = Some r ->
       dget k (mfa (pl_store p')) = Some (swept_mfa kek prev nonce r)) /\
    forall id blob pt, decrypt_secret blob prev None = Ok pt ->
      decrypt_secret (swept_blob kek prev nonce id blob) kek None = Ok pt.
Proof.
  intros Hr Hg Hp Hnonce.
  destruct (kek_sweep_run kek prev nonce now (pl_store p)) as (ci & cm & s' & E & ? & ? & ? & ? & ? & ?);
    [by eapply reach_wf|by eapply reach_named|].
  exists ci, cm, (mkPlane s' (pl_redis p)). split.
  { unfold admin_kek_reencrypt, service_guard, bind, lift. rewrite Hg, Hp. unfold in_store. by rewrite E. }
  split_and!; try done. intros id blob pt Hb. unfold swept_blob.
  assert (decrypt_with blob prev = Ok pt) as ->.
  { unfold decrypt_secret in Hb. destruct (decrypt_with blob prev) as [|[]]; done. }
  unfold decrypt_secret. by rewrite decrypt_with_same.
Qed.
