(* ===== verification/AuditRoutes.v ===== *)
(** * Audit and usage handlers (routes/audit.py, usage.py)

    Listing, verification, ingest, the filtered scan of business events, the
    exports. A streamed response is modelled as the text it streams. *)
From S2P Require Import Prelude PyText Json StoreState Prims AuditLog Tenants Rbac Users Keys.
From S2P Require Import Tokens Ledger Crypto Jwt Jwks Auth StoreSteps Invariants AuditProps Deps.
From S2P Require Import MemberRoutes Redis DataPlane Webhook TenantRoutes.

(** [s.endswith(p)] *)
Definition endswith (p s : string) : bool :=
  startswith (of_chars (reverse (chars p))) (of_chars (reverse (chars s))).
(** [{k: v for ...}] and [{**a, **b}] on string keys. *)
Definition dict_merge (a b : list (string * json)) : list (string * json) :=
  foldl (fun d kv => dset kv.1 kv.2 d) a b.

Record AuditEventIn : Type := mkAuditEventIn {
  ae_action : string; ae_resource : option string; ae_user_id : option string; ae_severity : string;
  ae_detail : list (string * json)
}.
Record BusinessEventIn : Type := mkBusinessEventIn {
  be_actor : string; be_action : string; be_object_id : string; be_trace_id : string;
  be_timestamp : Z; be_severity : string; be_payload : list (string * json)
}.

Definition external_action (action : string) : string :=
  if startswith "external." action then action else "external." +:+ action.

Definition _BIZ_SOURCE : string := "business".
Definition _BIZ_PAGE : Z := 1000.
Definition _BIZ_MAX_PAGES : nat := 20.

Record BizFilter : Type := mkBizFilter {
  bf_actor : option string; bf_action : option string; bf_object_id : option string;
  bf_trace_id : option string
}.
(** [f is not None and x != f] as a [None]-means-anything test. *)
Definition opt_match (f : option string) (x : option string) : bool :=
  match f with Some v => bool_decide (x = Some v) | None => true end.
(** [d.get(k) == text] *)
Definition jis (text : string) (o : option json) : bool :=
  match o with Some (JStr v) => bool_decide (v = text) | _ => false end.
Definition _biz_match (f : BizFilter) (a : AuditRecord) : bool :=
  match af_detail (a_fields a) with
  | JObj detail =>
      jis _BIZ_SOURCE (dget "source" detail) &&
      opt_match (bf_actor f) (af_user_id (a_fields a)) &&
      match bf_action f with Some act => endswith act (af_action (a_fields a)) | None => true end &&
      opt_match (bf_object_id f) (af_resource (a_fields a)) &&
      match bf_trace_id f with
      | Some tr => jis tr (dget "trace_id" detail)
      | None => true
      end
  | _ => false
  end.

(** The inner loop: the matches of a page, and whether [limit] was reached. *)
Fixpoint scan_page (f : BizFilter) (limit : Z) (rows out : list AuditRecord)
    : list AuditRecord * bool :=
  match rows with
  | [] => (out, false)
  | a :: rows' =>
      if _biz_match f a then
        let out' := out ++ [a] in
        if limit <=? zlen out' then (out', true) else scan_page f limit rows' out'
      else scan_page f limit rows' out
  end.
(** [for _ in range(pages)]: page after page towards older records; the flag
    is [truncated]. *)
Fixpoint biz_pages (pages : nat) (f : BizFilter) (tenant_id : string) (since until : option Z)
    (limit : Z) (cursor : option Z) (out : list AuditRecord) (s : Store)
    : list AuditRecord * bool :=
  match pages with
  | O => (out, true)
  | S pages' =>
      let rows := list_audit tenant_id _BIZ_PAGE since until cursor s in
      match last rows with
      | None => (out, false)
      | Some oldest =>
          let '(out', full) := scan_page f limit rows out in
          if (full : bool) then (out', false)
          else biz_pages pages' f tenant_id since until limit (Some (a_id oldest)) out' s
      end
  end.
Definition _biz_query (f : BizFilter) (tenant_id : string) (since until : option Z) (limit : Z)
    (s : Store) : list AuditRecord * bool :=
  biz_pages _BIZ_MAX_PAGES f tenant_id since until limit None [] s.

(** An OTLP attribute, and the log record of an audit record. *)
Definition string_attr (k v : string) : json :=
  JObj [("key", JStr k); ("value", JObj [("stringValue", JStr v)])].
Definition _AUDIT_SEVERITY (s : json) : string :=
  match s with
  | JStr "ERROR" => "ERROR" | JStr "FATAL" => "FATAL" | JStr "WARN" => "WARN" | _ => "INFO"
  end.
Definition opt_attr (k : string) (o : option string) : list json :=
  match o with Some v => if str_true v then [string_attr k v] else [] | None => [] end.
Definition otlp_record (a : AuditRecord) : json :=
  let f := a_fields a in
  let detail := af_detail f in
  JObj [("timeUnixNano", JStr (pretty (af_ts f * 1000)));
        ("severityText", JStr (match detail with
                               | JObj d => _AUDIT_SEVERITY (default (JStr "INFO") (dget "severity" d))
                               | _ => "INFO"
                               end));
        ("body", JObj [("stringValue", JStr (af_action f))]);
        ("attributes", JArr (
          [string_attr "tenant.id" (af_tenant_id f);
           JObj [("key", JStr "audit.seq"); ("value", JObj [("intValue", JStr (pretty (a_seq a)))])];
           string_attr "audit.resource" (default "" (af_resource f));
           string_attr "audit.role" (default "" (af_role f))] ++
          opt_attr "user.id" (af_user_id f) ++ opt_attr "audit.jti" (af_jti f) ++
          match detail with JNull => [] | d => [string_attr "audit.detail" (json_text d)] end))].
Definition otlp_envelope (records : list json) : json :=
  JObj [("resourceLogs", JArr [JObj
    [("resource", JObj [("attributes", JArr [string_attr "service.name" "fusion-identity"])]);
     ("scopeLogs", JArr [JObj [("scope", JObj [("name", JStr "fusion-identity.audit")]);
                               ("logRecords", JArr records)]])]])].

(** ** CSV, as [csv.writer] writes it *)

Definition quote : ascii := "034"%char.
(** Quoted when it holds a comma, a quote or a line break; a lone empty field
    cannot occur in the four-column rows here. *)
Definition csv_field (s : string) : list ascii :=
  let l := chars s in
  if existsb (fun c => bool_decide (c ∈ [","%char; quote; "010"%char; "013"%char])) l
  then [quote] ++ (l ≫= (fun c => if decide (c = quote) then [quote; quote] else [c])) ++ [quote]
  else l.
Fixpoint csv_join (fields : list string) : list ascii :=
  match fields with
  | [] => []
  | [f] => csv_field f
  | f :: fs => csv_field f ++ [","%char] ++ csv_join fs
  end.
Definition csv_row (fields : list string) : list ascii := csv_join fields ++ ["013"%char; "010"%char].
(** [writerow] prints [None] as the empty text, other values with [str]. *)
Definition csv_value (j : json) : string := match j with JNull => "" | _ => py_str j end.

(** ** Rows as the exports print them *)

Definition jtime (o : option Z) : json := match o with Some t => JFloat t | None => JNull end.
Definition member_json (m : Member) : list (string * json) :=
  [("tenant_id", JStr (m_tenant_id m)); ("user_id", JStr (m_user_id m)); ("role", JStr (m_role m));
   ("added_by", jopt (m_added_by m)); ("added_at", JFloat (m_added_at m));
   ("joined_at", JFloat (m_joined_at m))].
Definition key_json (k : KeyView) : list (string * json) :=
  [("key_id", JStr (kv_key_id k)); ("tenant_id", JStr (kv_tenant_id k)); ("user_id", jopt (kv_user_id k));
   ("prefix", JStr (kv_prefix k)); ("scopes", jlist (kv_scopes k)); ("created_at", JFloat (kv_created_at k));
   ("revoked_at", jtime (kv_revoked_at k))].
Definition quota_rows (q : option TenantQuota) : list (string * json) :=
  match q with Some q => match quota_json q with JObj kvs => kvs | _ => [] end | None => [] end.
Definition usage_json (u : string * Z) : list (string * json) :=
  [("metric", JStr u.1); ("value", JInt u.2)].
Definition tenant_view (t : Tenant) : list (string * json) :=
  [("tenant_id", JStr (t_tenant_id t)); ("display_name", JStr (t_display_name t));
   ("plan", JStr (t_plan t)); ("status", JStr (t_status t))].

Definition _EXPORT_USAGE_CAP : Z := 50000.
Definition _export_json (t : Tenant) (members : list Member) (keys : list KeyView)
    (quota : option TenantQuota) (usage : list (string * Z)) : string :=
  json_text (JObj [("tenant", JObj (tenant_view t));
                   ("members", JArr ((fun m => JObj (member_json m)) <$> members));
                   ("api_keys", JArr ((fun k => JObj (key_json k)) <$> keys));
                   ("quota", JObj (quota_rows quota));
                   ("usage", JArr ((fun u => JObj (usage_json u)) <$> usage))]).
(** The rows of a section; list values of the quota are printed as JSON. *)
Definition csv_section (name tenant_id : string) (show : json -> string) (kvs : list (string * json))
    : list ascii :=
  kvs ≫= (fun kv => csv_row [name; tenant_id; kv.1; show kv.2]).
Definition quota_value (j : json) : string :=
  match j with JArr _ | JObj _ => json_text j | _ => csv_value j end.
Definition _export_csv (tenant_id : string) (t : Tenant) (members : list Member) (keys : list KeyView)
    (quota : option TenantQuota) (usage : list (string * Z)) : string :=
  of_chars (csv_row ["section"; "tenant_id"; "field"; "value"] ++
    csv_section "tenant" tenant_id csv_value (tenant_view t) ++
    (members ≫= (fun m => csv_section "member" tenant_id csv_value (member_json m))) ++
    (keys ≫= (fun k => csv_section "api_key" tenant_id csv_value (key_json k))) ++
    csv_section "quota" tenant_id quota_value (quota_rows quota) ++
    (usage ≫= (fun u => csv_section "usage" tenant_id csv_value (usage_json u)))).

Section audit_routes.
Context `{HashLib, Argon2Lib, JwtLib}.
Variables (cfg : AuthConfig) (ring : KeyRing) (now : Z) (hdr : Headers).
Variables (service_token : string) (service_token_prev : option string).
#[local] Abbreviation guard := (guard cfg ring now hdr).
Definition service_only : M Store unit :=
  lift (require_service_token service_token service_token_prev (hd_authorization hdr)).
Definition tenant_404 (tenant_id : string) : M Store Tenant :=
  let! t := gets (get_tenant tenant_id) in
  match t with Some t => ret t | None => raise (http 404 "tenant not found") end.

(** [require_admin_or_service]: the current service token opens it for any
    tenant; otherwise the audit permission. [None] is the service. *)
Definition require_admin_or_service (tenant_id : string) : M Store (option Claims) :=
  let token := if str_true (hd_authorization hdr)
               then match extract_bearer (hd_authorization hdr) with Ok t => t | Raise _ => "" end
               else "" in
  if str_true token && compare_digest token service_token then ret None
  else let! c := guard "audit" "read" tenant_id in ret (Some c).

(** ** Audit *)

Definition list_audit_route (tenant_id : string) (limit : Z) (since until cursor : option Z)
    : M Store (list AuditRecord) :=
  guard "audit" "read" tenant_id ;;;
  if (limit <? 1) || (1000 <? limit) then raise (http 400 "limit must be 1..1000")
  else gets (list_audit tenant_id limit since until cursor).

(** The first broken record, [None] when the chain verifies. *)
Definition verify_audit_route (tenant_id : string) : M Store (option Z) :=
  guard "audit" "read" tenant_id ;;; gets (verify_audit_chain tenant_id).

Definition ingest_event (tenant_id : string) (body : AuditEventIn) : M Store AuditRecord :=
  service_only ;;;
  tenant_404 tenant_id ;;;
  append_audit now tenant_id (ae_user_id body) None (Some "service") (external_action (ae_action body))
    (ae_resource body) (JObj (dict_merge [("severity", JStr (ae_severity body))] (ae_detail body))).

Definition append_business_event (tenant_id : string) (body : BusinessEventIn) : M Store AuditRecord :=
  service_only ;;;
  tenant_404 tenant_id ;;;
  append_audit now tenant_id (Some (be_actor body)) None (Some "service")
    (external_action (be_action body)) (Some (be_object_id body))
    (JObj [("source", JStr _BIZ_SOURCE); ("trace_id", JStr (be_trace_id body));
           ("client_ts", JFloat (be_timestamp body)); ("actor", JStr (be_actor body));
           ("object_id", JStr (be_object_id body)); ("severity", JStr (be_severity body));
           ("payload", JObj (be_payload body))]).

Definition list_business_events (tenant_id : string) (f : BizFilter) (since until : option Z) (limit : Z)
    : M Store (list AuditRecord * bool) :=
  guard "audit" "read" tenant_id ;;; gets (_biz_query f tenant_id since until limit).

(** The chain's verdict with the exported slice. *)
Definition export_audit (tenant_id : string) (since until : option Z) (limit : Z)
    : M Store (option Z * list AuditRecord) :=
  require_admin_or_service tenant_id ;;;
  let! chain := gets (verify_audit_chain tenant_id) in
  let! events := gets (list_audit tenant_id limit since until None) in
  ret (chain, events).

Definition export_otlp (tenant_id : string) (limit : Z) (since : option Z) : M Store json :=
  require_admin_or_service tenant_id ;;;
  let! rows := gets (list_audit tenant_id limit since None None) in
  ret (otlp_envelope (otlp_record <$> rows)).

(** ** Usage *)

Definition emit_usage (tenant_id : string) (user_id : option string) (metric : string) (value : Z)
    (source : string) (model : option string) : M Store (string * Z) :=
  service_only ;;;
  tenant_404 tenant_id ;;;
  record_usage now tenant_id user_id metric value source model ;;;
  ret (metric, value).

Definition get_usage (tenant_id : string) (since until : option Z) (metric : option string)
    : M Store (list (string * Z)) :=
  guard "usage" "read" tenant_id ;;; gets (aggregate_usage tenant_id since until metric).

Definition get_usage_summary (tenant_id : string) (since until : option Z) : M Store UsageSummary :=
  guard "usage" "read" tenant_id ;;; tenant_404 tenant_id ;;;
  gets (usage_summary tenant_id since until).

Definition get_tenant_config (tenant_id : string) : M Store (Tenant * option TenantQuota) :=
  guard "usage" "read" tenant_id ;;;
  let! t := tenant_404 tenant_id in
  let! q := gets (get_quota tenant_id) in
  ret (t, q).

(** [format] is ["json"] or ["csv"]. *)
Definition export_tenant (tenant_id format : string) (since until : option Z) : M Store string :=
  let! claims := guard "usage" "read" tenant_id in
  let! t := tenant_404 tenant_id in
  let! members := gets (list_members tenant_id) in
  let! keys := gets (fun s => _scrub_api_key <$> list_api_keys tenant_id s) in
  let! quota := gets (get_quota tenant_id) in
  let! usage := gets (aggregate_usage tenant_id since until None) in
  let usage := py_take _EXPORT_USAGE_CAP usage in
  append_audit now tenant_id (Some (c_sub claims)) None (c_role claims) "tenant.export" (Some "tenant")
    (JObj [("members", JInt (zlen members)); ("api_keys", JInt (zlen keys)); ("format", JStr format);
           ("usage_rows", JInt (zlen usage)); ("since", jtime since); ("until", jtime until)]) ;;;
  ret (if decide (format = "csv") then _export_csv tenant_id t members keys quota usage
       else _export_json t members keys quota usage).
End audit_routes.

(** * The paged scan of business events is a filter (routes/audit.py)

    [_biz_query] walks the ledger page by page; the theorem says what it
    computes without pages: the newest matches among the newest 20 000
    records, and when it reports a truncated answer. *)

Lemma filter_none {A} (P : A -> Prop) `{forall x, Decision (P x)} (l : list A) :
  (forall x, x ∈ l -> ~ P x) -> filter P l = [].
Proof. induction l as [|x l IH]; [done|]. intros Hl. rewrite filter_cons_False by set_solver. set_solver. Qed.
Lemma filter_every {A} (P : A -> Prop) `{forall x, Decision (P x)} (l : list A) :
  (forall x, x ∈ l -> P x) -> filter P l = l.
Proof.
  induction l as [|x l IH]; [done|]. intros Hl. rewrite filter_cons_True by set_solver.
  rewrite IH; set_solver.
Qed.

(** The inner loop in one step. *)
Lemma scan_page_spec f limit rows out :
  zlen out < limit ->
  let m := filter (fun a => _biz_match f a = true) rows in
  scan_page f limit rows out =
  (out ++ take (Z.to_nat (limit - zlen out)) m, limit <=? zlen out + zlen m).
Proof.
  revert out. induction rows as [|a rows IH]; intros out Hout; simpl.
  { rewrite filter_nil, take_nil, app_nil_r. f_equal. symmetry. apply Z.leb_gt. unfold zlen in *. simpl. lia. }
  rewrite filter_cons. destruct (_biz_match f a) eqn:Ea; [rewrite decide_True by done|
    rewrite decide_False by done; by apply IH].
  assert (Hz : zlen (out ++ [a]) = zlen out + 1) by (unfold zlen; rewrite length_app; simpl; lia).
  destruct (Z.leb_spec limit (zlen (out ++ [a]))) as [Hl|Hl].
  - replace (Z.to_nat (limit - zlen out)) with 1%nat by lia. simpl.
    f_equal. symmetry. apply Z.leb_le. unfold zlen in *. simpl. lia.
  - rewrite IH by lia. rewrite Hz. replace (Z.to_nat (limit - zlen out))
      with (S (Z.to_nat (limit - (zlen out + 1)))) by lia. simpl.
    rewrite <- app_assoc. f_equal. f_equal. unfold zlen. simpl. lia.
Qed.

(** Records newest first. *)
Definition descending (R : list AuditRecord) : Prop :=
  forall i j a b, (i < j)%nat -> R !! i = Some a -> R !! j = Some b -> a_id b < a_id a.

(** What follows a page is what is older than its last record. *)
Lemma older_than_page n R a :
  descending R -> last (take n R) = Some a ->
  filter (fun x => a_id x < a_id a) R = drop n R.
Proof.
  intros Hd Ha. rewrite <- (take_drop n R) at 1. rewrite filter_app.
  rewrite last_lookup in Ha. set (p := Init.Nat.pred _) in *.
  assert (Hp : (p < n)%nat /\ R !! p = Some a) by by apply lookup_take_Some in Ha as [? ?].
  destruct Hp as [Hpn Hp].
  assert (filter (fun x => a_id x < a_id a) (take n R) = []) as ->.
  { apply filter_none. intros x Hx Hlt. apply list_elem_of_lookup in Hx as [i Hi].
    assert (Hi' : (i <= p)%nat).
    { apply lookup_lt_Some in Hi as Hl. unfold p. lia. }
    apply lookup_take_Some in Hi as [Hi _]. destruct (decide (i = p)) as [->|Hne]; [simplify_eq; lia|].
    specialize (Hd i p x a ltac:(lia) Hi Hp). lia. }
  simpl. apply filter_every. intros x Hx. apply list_elem_of_lookup in Hx as [j Hj].
  rewrite lookup_drop in Hj. eapply (Hd p (n + j)%nat); [lia|done|done].
Qed.

Section query.
Context `{HashLib, Argon2Lib}.
Variables (f : BizFilter) (tid : string) (since until : option Z) (limit : Z) (s : Store).
Hypothesis Hs : reachable s.

(** The records in view, newest first. *)
Definition in_view (cursor : option Z) : list AuditRecord :=
  reverse (filter (audit_selected tid since until cursor) (audit s)).

Lemma view_page cursor : list_audit tid _BIZ_PAGE since until cursor s = take 1000 (in_view cursor).
Proof using Type Hs.
  pose proof Hs as (start & Hinv & _)%reach_ledger. erewrite list_audit_spec by eauto. done.
Qed.
Lemma view_descending cursor : descending (in_view cursor).
Proof using Type Hs.
  pose proof Hs as (start & Hinv & _)%reach_ledger. intros i j a b Hij Ha Hb.
  unfold in_view in *. apply reverse_lookup_Some in Ha as [Ha Hi]. apply reverse_lookup_Some in Hb as [Hb Hj].
  eapply (ids_from_strict_filter _ _ _ _ _ b a (inv_ids _ _ Hinv)); [|exact Hb|exact Ha]. lia.
Qed.
Lemma view_next cursor a :
  last (take 1000 (in_view cursor)) = Some a ->
  in_view (Some (a_id a)) = drop 1000 (in_view cursor).
Proof using Type Hs.
  intros Ha. rewrite <- (older_than_page 1000 (in_view cursor) a) by (auto using view_descending).
  assert (Hsel : a ∈ in_view cursor).
  { apply last_Some_elem_of, elem_of_take in Ha as (i & Hi & _). by eapply list_elem_of_lookup_2. }
  unfold in_view in *. rewrite filter_reverse. f_equal. rewrite list_filter_filter.
  apply list_filter_iff. intros x. apply elem_of_reverse, list_elem_of_filter in Hsel as [Hsel _].
  unfold audit_selected in *. destruct cursor; naive_solver lia.
Qed.

(** The flag after [k] pages over the records [R] without reaching the limit. *)
Definition capped (k : nat) (R : list AuditRecord) : Prop :=
  match k with O => True | S k' => (k' * 1000 < length R)%nat end.
#[export] Instance capped_dec k R : Decision (capped k R).
Proof. unfold capped. destruct k; apply _. Defined.

Lemma biz_pages_spec k cursor out :
  zlen out < limit ->
  let m := filter (fun a => _biz_match f a = true) (take (k * 1000) (in_view cursor)) in
  biz_pages k f tid since until limit cursor out s =
  (out ++ take (Z.to_nat (limit - zlen out)) m,
   bool_decide (zlen out + zlen m < limit /\ capped k (in_view cursor))).
Proof using Type Hs.
  revert cursor out. induction k as [|k IH]; intros cursor out Hout; cbn [biz_pages].
  { change (0 * 1000)%nat with 0%nat. rewrite take_0, filter_nil, take_nil, app_nil_r, bool_decide_true; [done|].
    unfold zlen in *. simpl. lia. }
  rewrite view_page. destruct (last (take 1000 (in_view cursor))) as [a|] eqn:Ha.
  2: { apply last_None in Ha. destruct (in_view cursor) as [|b R]; [|done].
       rewrite take_nil, filter_nil, take_nil, app_nil_r, bool_decide_false; [done|]. simpl. lia. }
  rewrite scan_page_spec by done. cbv zeta.
  replace (S k * 1000)%nat with (1000 + k * 1000)%nat by lia.
  rewrite <- take_take_drop, filter_app. set (m1 := filter _ (take 1000 _)).
  set (m2 := filter _ (take (k * 1000) _)).
  destruct (Z.leb_spec limit (zlen out + zlen m1)) as [Hl|Hl].
  - rewrite take_app_le by (unfold zlen in *; lia). rewrite bool_decide_false; [done|].
    unfold zlen in *. rewrite length_app. lia.
  - rewrite (take_ge m1) by (unfold zlen in *; lia).
    rewrite IH by (unfold zlen in *; rewrite length_app; lia). cbv zeta. rewrite (view_next _ a Ha).
    fold m2. rewrite <- app_assoc, take_app_ge by (unfold zlen in *; lia). f_equal.
    + f_equal. f_equal. f_equal. unfold zlen. rewrite length_app. lia.
    + apply bool_decide_ext. unfold zlen. rewrite !length_app.
      assert (0 < length (in_view cursor))%nat by (destruct (in_view cursor); simpl in *; [done|lia]).
      destruct k; simpl; rewrite ?length_drop; lia.
Qed.
End query.

(** [C23] The paged scan of business events is a filter: on a reachable store
    [_biz_query] returns, newest first, the first [limit] records that pass
    the filter among the newest 20 000 of the tenant in the time window, and
    it reports a truncated answer exactly when fewer than [limit] matched and
    the window holds more than 19 000 records. *)
Theorem biz_query_exact `{HashLib, Argon2Lib} f tid since until limit s :
  reachable s -> 1 <= limit ->
  let newest := reverse (filter (audit_selected tid since until None) (audit s)) in
  let m := filter (fun a => _biz_match f a = true) (py_take 20000 newest) in
  _biz_query f tid since until limit s =
  (take (Z.to_nat limit) m, bool_decide (zlen m < limit /\ 19000 < zlen newest)).
Proof.
  intros Hs Hlim. unfold _biz_query. rewrite biz_pages_spec by (done || (unfold zlen; simpl; lia)).
  cbv zeta. fold (in_view tid since until s None). set (R := in_view _ _ _ _ _).
  assert (take (_BIZ_MAX_PAGES * 1000) R = py_take 20000 R) as -> by done.
  rewrite app_nil_l. replace (limit - zlen []) with limit by (unfold zlen; simpl; lia). f_equal.
  apply bool_decide_ext. unfold zlen, capped, _BIZ_MAX_PAGES. simpl length. lia.
Qed.
