(* ===== verification/Config.v ===== *)
(** * Settings from the environment (config.py)

    [load_settings] as a computation over the process environment, which it
    reads and never writes. [fusion_core]'s port resolution is a parameter.
    Every refusal is a [ConfigError]. *)
From S2P Require Import Prelude PyText StoreState Jwks Email.

Definition Environ : Type := list (string * string).
(** [os.environ.get(name, dflt)]; [os.environ.get(name) or None]. *)
Definition env_get (name dflt : string) (env : Environ) : string := default dflt (dget name env).
Definition env_opt (name : string) (env : Environ) : option string :=
  match dget name env with Some v => if str_true v then Some v else None | None => None end.

(** [str.upper] on ASCII. *)
Definition upper_char (c : ascii) : ascii := if is_lower c then ascii_of_N (chr c - 32) else c.
Definition upper (s : string) : string := of_chars (upper_char <$> chars s).

(** [int(s)] on a stripped ASCII text: a sign, then digits with single
    underscores between them, at most 4300 of them. *)
Fixpoint digits_value (acc : Z) (under : bool) (l : list ascii) : option Z :=
  match l with
  | [] => if under then None else Some acc
  | c :: l' =>
      if is_digit c then digits_value (10 * acc + (Z.of_N (chr c) - 48)) false l'
      else if bool_decide (c = "_"%char) && negb under then digits_value acc true l'
      else None
  end.
Definition parse_int (s : string) : option Z :=
  let value l := if (zlen (filter (fun c => is_digit c = true) l) <=? 4300)
                 then digits_value 0 true l else None in
  match chars s with
  | [] => None
  | c :: l => if decide (c = "-"%char) then Z.opp <$> value l
              else if decide (c = "+"%char) then value l
              else value (c :: l)
  end.

Definition DEFAULT_HOST : string := "127.0.0.1".
Definition DEFAULT_PORT : Z := 11470.
Definition DEFAULT_JWT_ISSUER : string := "fusion-identity".
Definition DEFAULT_JWT_AUDIENCE : string := "fusion-cluster".
Definition DEFAULT_JWT_TTL_SECONDS : Z := 8 * 3600.
Definition DEFAULT_REFRESH_TTL_SECONDS : Z := 7 * 24 * 3600.
Definition DEFAULT_DATABASE_URL : string := "postgresql://127.0.0.1:5432/fusion_identity".
Definition config_LOGIN_LIMIT : Z := 10.
Definition config_LOGIN_WINDOW : Z := 60.
Definition DEFAULT_GRPC_PORT : Z := 50051.
Definition DEFAULT_LEASE_TTL : Z := 120.
Definition DEFAULT_DB_POOL_MAX : Z := 8.
Definition DEFAULT_SECRET_GRACE_SECONDS : Z := 24 * 3600.
Definition _MIN_KEY_LEN : Z := 32.
Definition _MIN_TOKEN_LEN : Z := 24.
Definition _MIN_BOOTSTRAP_PASS_LEN : Z := 12.
Definition _KNOWN_JWT_ALGORITHMS : list string := ["HS256"; "RS256"].

Record Settings : Type := mkSettings {
  st_host : string;
  st_port : Z;
  st_database_url : string;
  st_use_pgstore : bool;
  st_jwt_signing_key : string;
  st_jwt_issuer : string;
  st_jwt_audience : string;
  st_jwt_ttl_seconds : Z;
  st_refresh_ttl_seconds : Z;
  st_service_token : string;
  st_bootstrap_admin_user : option string;
  st_bootstrap_admin_pass : option string;
  st_bootstrap_tenants : option string;
  st_log_level : string;
  st_log_json : bool;
  st_login_rate_limit : Z;
  st_login_rate_window : Z;
  st_jwt_algorithm : string;
  st_jwt_private_key_pem : option string;
  st_jwt_public_keys : option string;
  st_kek : string;
  st_mfa_enforce_admin : bool;
  st_redis_url : string;
  st_grpc_port : Z;
  st_lease_ttl_seconds : Z;
  st_trusted_proxies : list string;
  st_jwt_keyring_path : string;
  st_db_pool_max : Z;
  st_kek_prev : option string;
  st_service_token_prev : option string;
  st_webhook_url : string;
  st_webhook_secret : string;
  st_webhook_tick_seconds : Z;
  st_webhook_max_attempts : Z;
  st_secret_grace_seconds : Z;
  st_registration_enabled : bool;
  st_email_verification_required : bool;
  st_email_verify_ttl_seconds : Z;
  st_sso_ticket_ttl_seconds : Z;
  st_password_reset_ttl_seconds : Z;
  st_registration_default_tenant : string;
  st_smtp_host : string;
  st_smtp_port : Z;
  st_smtp_username : string;
  st_smtp_password : string;
  st_smtp_from : string;
  st_public_base_url : string;
  st_smtp_starttls : bool
}.

Definition config_error {A} (msg : string) : M Environ A := raise (ConfigError msg).
Definition refuse_if (b : bool) (msg : string) : M Environ unit :=
  if b then config_error msg else ret tt.
(** [os.environ.get(name, "").strip()] *)
Definition stripped (name : string) : M Environ string := gets (fun env => strip (env_get name "" env)).
(** [os.environ.get(name, dflt).strip() in ("1", "true", "yes")], lowered
    first where the code does. *)
Definition truthy (v : string) : bool := bool_decide (v ∈ ["1"; "true"; "yes"]).
Definition flag (name dflt : string) : M Environ bool :=
  gets (fun env => truthy (strip (env_get name dflt env))).
Definition flag_lower (name dflt : string) : M Environ bool :=
  gets (fun env => truthy (lower (strip (env_get name dflt env)))).

Definition _int_env (name : string) (dflt : Z) : M Environ Z :=
  let! raw := stripped name in
  if negb (str_true raw) then ret dflt
  else match parse_int raw with
       | Some z => ret z
       | None => config_error ("invalid int for " +:+ name +:+ ": " +:+ py_repr raw)
       end.

Section load.
(** [fusion_core.config.service_port(app, default=...)] *)
Variable core_service_port : string -> Z -> Environ -> res Z.

Definition _core_port (dflt : Z) : M Environ Z :=
  catch (fun env => (core_service_port "identity" dflt env, env))
        (fun e => match e with ValueError m => config_error m | _ => raise e end).

(** The signing key and the service tokens. *)
Definition load_jwt_key : M Environ string :=
  let! k := stripped "FUSION_IDENTITY_JWT_KEY" in
  refuse_if (negb (str_true k)) "missing FUSION_IDENTITY_JWT_KEY" ;;;
  refuse_if (slen k <? _MIN_KEY_LEN) "FUSION_IDENTITY_JWT_KEY must be at least 32 bytes" ;;;
  ret k.
Definition load_service_token : M Environ string :=
  let! k := stripped "FUSION_IDENTITY_SERVICE_TOKEN" in
  refuse_if (negb (str_true k)) "missing FUSION_IDENTITY_SERVICE_TOKEN" ;;;
  refuse_if (slen k <? _MIN_TOKEN_LEN) "FUSION_IDENTITY_SERVICE_TOKEN must be at least 24 bytes" ;;;
  ret k.
(** [strip() or None] *)
Definition stripped_opt (name : string) : M Environ (option string) :=
  let! v := stripped name in ret (if str_true v then Some v else None).
Definition load_service_token_prev (service_token : string) : M Environ (option string) :=
  let! prev := stripped_opt "FUSION_IDENTITY_SERVICE_TOKEN_PREV" in
  match prev with
  | None => ret None
  | Some p =>
      refuse_if (bool_decide (p = service_token))
        "FUSION_IDENTITY_SERVICE_TOKEN_PREV must differ from the current service token" ;;;
      refuse_if (slen p <? _MIN_TOKEN_LEN)
        "FUSION_IDENTITY_SERVICE_TOKEN_PREV must be at least 24 bytes" ;;;
      ret (Some p)
  end.
Definition load_algorithm : M Environ string :=
  let! alg := gets (fun env => upper (strip (env_get "FUSION_IDENTITY_JWT_ALGORITHM" "HS256" env))) in
  refuse_if (negb (bool_decide (alg ∈ _KNOWN_JWT_ALGORITHMS)))
    ("unsupported jwt_algorithm: " +:+ py_repr alg) ;;;
  ret alg.
Definition load_kek (jwt_signing_key : string) : M Environ string :=
  let! kek := stripped "FUSION_IDENTITY_KEK" in
  refuse_if (negb (str_true kek)) "missing FUSION_IDENTITY_KEK (must not reuse JWT signing key)" ;;;
  refuse_if (bool_decide (kek = jwt_signing_key))
    "FUSION_IDENTITY_KEK must differ from the JWT signing key" ;;;
  ret kek.
Definition load_kek_prev (jwt_signing_key kek : string) : M Environ (option string) :=
  let! prev := stripped_opt "FUSION_IDENTITY_KEK_PREV" in
  match prev with
  | None => ret None
  | Some p =>
      refuse_if (bool_decide (p = kek)) "FUSION_IDENTITY_KEK_PREV must differ from the current KEK" ;;;
      refuse_if (bool_decide (p = jwt_signing_key))
        "FUSION_IDENTITY_KEK_PREV must differ from the JWT signing key" ;;;
      ret (Some p)
  end.
Definition load_bootstrap_pass : M Environ (option string) :=
  let! pass := gets (env_opt "FUSION_BOOTSTRAP_ADMIN_PASS") in
  refuse_if (match pass with Some p => slen p <? _MIN_BOOTSTRAP_PASS_LEN | None => false end)
    "FUSION_BOOTSTRAP_ADMIN_PASS must be at least 12 chars" ;;;
  ret pass.
Definition load_webhook : M Environ (string * string) :=
  let! url := stripped "FUSION_IDENTITY_WEBHOOK_URL" in
  let! secret := stripped "FUSION_IDENTITY_WEBHOOK_SECRET" in
  refuse_if (str_true url && negb (str_true secret))
    "FUSION_IDENTITY_WEBHOOK_SECRET is required when WEBHOOK_URL is set" ;;;
  ret (url, secret).
(** [frozenset(p.strip() for p in ... .split(",") if p.strip())], duplicates
    kept: only membership is read. *)
Definition load_trusted_proxies (env : Environ) : list string :=
  filter (fun p => str_true p = true)
    (strip <$> split "," (env_get "FUSION_IDENTITY_TRUSTED_PROXIES" "" env)).

Definition load_settings : M Environ Settings :=
  let! jwt_signing_key := load_jwt_key in
  let! service_token := load_service_token in
  let! service_token_prev := load_service_token_prev service_token in
  let! jwt_algorithm := load_algorithm in
  let! kek := load_kek jwt_signing_key in
  let! kek_prev := load_kek_prev jwt_signing_key kek in
  let! bootstrap_admin_pass := load_bootstrap_pass in
  let! webhook := load_webhook in
  let! host := gets (env_get "FUSION_IDENTITY_HOST" DEFAULT_HOST) in
  let! port := _core_port DEFAULT_PORT in
  let! database_url := gets (env_get "FUSION_IDENTITY_DATABASE_URL" DEFAULT_DATABASE_URL) in
  let! use_pgstore := flag "FUSION_IDENTITY_USE_PGSTORE" "0" in
  let! jwt_issuer := gets (env_get "FUSION_IDENTITY_JWT_ISSUER" DEFAULT_JWT_ISSUER) in
  let! jwt_audience := gets (env_get "FUSION_IDENTITY_JWT_AUDIENCE" DEFAULT_JWT_AUDIENCE) in
  let! jwt_ttl := _int_env "FUSION_IDENTITY_JWT_TTL" DEFAULT_JWT_TTL_SECONDS in
  let! refresh_ttl := _int_env "FUSION_IDENTITY_REFRESH_TTL" DEFAULT_REFRESH_TTL_SECONDS in
  let! bootstrap_admin_user := gets (env_opt "FUSION_BOOTSTRAP_ADMIN_USER") in
  let! bootstrap_tenants := gets (env_opt "FUSION_BOOTSTRAP_TENANTS") in
  let! log_level := gets (env_get "FUSION_IDENTITY_LOG_LEVEL" "INFO") in
  let! log_json := flag "FUSION_IDENTITY_LOG_JSON" "0" in
  let! login_limit := _int_env "FUSION_IDENTITY_LOGIN_RATE_LIMIT" config_LOGIN_LIMIT in
  let! login_window := _int_env "FUSION_IDENTITY_LOGIN_RATE_WINDOW" config_LOGIN_WINDOW in
  let! private_pem := gets (env_opt "FUSION_IDENTITY_JWT_PRIVATE_KEY_PEM") in
  let! public_keys := gets (env_opt "FUSION_IDENTITY_JWT_PUBLIC_KEYS") in
  let! mfa_enforce := flag_lower "FUSION_IDENTITY_MFA_ENFORCE_ADMIN" "0" in
  let! redis_url := gets (env_get "FUSION_IDENTITY_REDIS_URL" "") in
  let! grpc_port := _int_env "FUSION_IDENTITY_GRPC_PORT" DEFAULT_GRPC_PORT in
  let! lease_ttl := _int_env "FUSION_IDENTITY_LEASE_TTL" DEFAULT_LEASE_TTL in
  let! proxies := gets load_trusted_proxies in
  let! keyring_path := gets (env_get "FUSION_IDENTITY_JWT_KEYRING_PATH" "") in
  let! pool_max := _int_env "FUSION_IDENTITY_DB_POOL_MAX" DEFAULT_DB_POOL_MAX in
  let! grace := _int_env "FUSION_IDENTITY_SECRET_GRACE_SECONDS" DEFAULT_SECRET_GRACE_SECONDS in
  let! tick := _int_env "FUSION_IDENTITY_WEBHOOK_TICK" 5 in
  let! attempts := _int_env "FUSION_IDENTITY_WEBHOOK_MAX_ATTEMPTS" 5 in
  let! registration := flag_lower "FUSION_IDENTITY_REGISTRATION_ENABLED" "1" in
  let! verification := flag_lower "FUSION_IDENTITY_EMAIL_VERIFICATION_REQUIRED" "1" in
  let! verify_ttl := _int_env "FUSION_IDENTITY_EMAIL_VERIFY_TTL" 86400 in
  let! ticket_ttl := _int_env "FUSION_IDENTITY_SSO_TICKET_TTL" 60 in
  let! reset_ttl := _int_env "FUSION_IDENTITY_PASSWORD_RESET_TTL" 3600 in
  let! default_tenant := gets (env_get "FUSION_IDENTITY_REGISTRATION_DEFAULT_TENANT" "community") in
  let! smtp_host := gets (env_get "FUSION_IDENTITY_SMTP_HOST" "") in
  let! smtp_port := _int_env "FUSION_IDENTITY_SMTP_PORT" 587 in
  let! smtp_username := gets (env_get "FUSION_IDENTITY_SMTP_USERNAME" "") in
  let! smtp_password := gets (env_get "FUSION_IDENTITY_SMTP_PASSWORD" "") in
  let! smtp_from := gets (env_get "FUSION_IDENTITY_SMTP_FROM" "") in
  let! base_url := gets (fun env => rstrip_slash (env_get "FUSION_IDENTITY_PUBLIC_BASE_URL" "" env)) in
  let! starttls := flag_lower "FUSION_IDENTITY_SMTP_STARTTLS" "1" in
  ret (mkSettings host port database_url use_pgstore jwt_signing_key jwt_issuer jwt_audience jwt_ttl
         refresh_ttl service_token bootstrap_admin_user bootstrap_admin_pass bootstrap_tenants
         log_level log_json login_limit login_window jwt_algorithm private_pem public_keys kek
         mfa_enforce redis_url grpc_port lease_ttl proxies keyring_path pool_max kek_prev
         service_token_prev webhook.1 webhook.2 tick attempts grace registration verification
         verify_ttl ticket_ttl reset_ttl default_tenant smtp_host smtp_port smtp_username
         smtp_password smtp_from base_url starttls).
End load.

(** ** What an accepted configuration satisfies *)

(** A computation that leaves the environment alone and either refuses with
    [ConfigError] or returns a value with [P]. *)
Definition fails_closed {A} (P : A -> Prop) (m : M Environ A) : Prop :=
  forall env, (m env).2 = env /\
    match (m env).1 with Ok a => P a | Raise (ConfigError _) => True | Raise _ => False end.

Lemma closed_bind {A B} (P : A -> Prop) (Q : B -> Prop) m (k : A -> M Environ B) :
  fails_closed P m -> (forall a, P a -> fails_closed Q (k a)) -> fails_closed Q (bind m k).
Proof.
  intros Hm Hk env. destruct (Hm env) as [He Ha]. unfold bind.
  destruct (m env) as [[a|e] env'] eqn:E; simpl in *; subst env'; [by apply Hk|by destruct e].
Qed.
Lemma closed_gets {A} (f : Environ -> A) : fails_closed (fun _ => True) (gets f).
Proof. by intros env. Qed.
Lemma closed_ret {A} (P : A -> Prop) a : P a -> fails_closed P (ret a).
Proof. by intros ? env. Qed.
Lemma closed_refuse b msg : fails_closed (fun _ => b = false) (refuse_if b msg).
Proof. by destruct b; intros env. Qed.
Lemma closed_stripped name : fails_closed (fun _ => True) (stripped name).
Proof. apply closed_gets. Qed.
Lemma closed_stripped_opt name :
  fails_closed (fun o => forall v, o = Some v -> v <> "") (stripped_opt name).
Proof.
  eapply closed_bind; [apply closed_stripped|]. intros v _. apply closed_ret. intros w.
  unfold str_true. case_bool_decide; naive_solver.
Qed.
Lemma closed_flag name d : fails_closed (fun _ => True) (flag name d).
Proof. apply closed_gets. Qed.
Lemma closed_flag_lower name d : fails_closed (fun _ => True) (flag_lower name d).
Proof. apply closed_gets. Qed.
Lemma closed_int_env name d : fails_closed (fun _ => True) (_int_env name d).
Proof.
  eapply closed_bind; [apply closed_stripped|]. intros v _. destruct (negb _); [by apply closed_ret|].
  destruct (parse_int v); [by apply closed_ret|]. by intros env.
Qed.
Create HintDb closed.
#[export] Hint Resolve closed_gets closed_refuse closed_stripped closed_stripped_opt closed_flag
  closed_flag_lower closed_int_env : closed.
(** One reading of the environment after another. *)
Ltac read_env := eapply closed_bind; [solve [eauto with closed]|intros ? ?; cbv beta in *].

(** A current and an optional previous value of a secret of length [n]. *)
Record pair_ok (n : Z) (cur : string) (prev : option string) : Prop := mkPairOk {
  po_cur : n <= slen cur;
  po_prev : forall p, prev = Some p -> p <> cur /\ n <= slen p
}.
Record settings_ok (st : Settings) : Prop := mkSettingsOk {
  so_key : _MIN_KEY_LEN <= slen (st_jwt_signing_key st);
  so_tokens : pair_ok _MIN_TOKEN_LEN (st_service_token st) (st_service_token_prev st);
  so_algorithm : st_jwt_algorithm st ∈ _KNOWN_JWT_ALGORITHMS;
  so_keks : pair_ok 1 (st_kek st) (st_kek_prev st);
  so_isolated : st_kek st <> st_jwt_signing_key st /\
                st_kek_prev st <> Some (st_jwt_signing_key st);
  so_bootstrap : forall p, st_bootstrap_admin_pass st = Some p -> _MIN_BOOTSTRAP_PASS_LEN <= slen p;
  so_webhook : st_webhook_url st <> "" -> st_webhook_secret st <> ""
}.

Lemma slen_pos s : s <> "" -> 1 <= slen s.
Proof. destruct s; [done|]. unfold slen. simpl. lia. Qed.
Lemma str_true_false s : negb (str_true s) = false -> s <> "".
Proof. unfold str_true. case_bool_decide; naive_solver. Qed.

Lemma load_jwt_key_ok : fails_closed (fun k => _MIN_KEY_LEN <= slen k) load_jwt_key.
Proof. repeat read_env. apply closed_ret. lia. Qed.
Lemma load_service_token_ok : fails_closed (fun k => _MIN_TOKEN_LEN <= slen k) load_service_token.
Proof. repeat read_env. apply closed_ret. lia. Qed.
Lemma load_service_token_prev_ok cur :
  _MIN_TOKEN_LEN <= slen cur ->
  fails_closed (pair_ok _MIN_TOKEN_LEN cur) (load_service_token_prev cur).
Proof.
  intros Hc. read_env. destruct a as [p|]; [|by apply closed_ret].
  repeat read_env. apply closed_ret. split; [done|]. intros ? [= <-].
  split; [by apply bool_decide_eq_false in H0|lia].
Qed.
Lemma load_algorithm_ok : fails_closed (fun a => a ∈ _KNOWN_JWT_ALGORITHMS) load_algorithm.
Proof. repeat read_env. apply closed_ret. by case_bool_decide. Qed.
Lemma load_kek_ok key : fails_closed (fun k => k <> "" /\ k <> key) (load_kek key).
Proof.
  repeat read_env. apply closed_ret. split; [by apply str_true_false|by apply bool_decide_eq_false in H1].
Qed.
Lemma load_kek_prev_ok key cur :
  cur <> "" -> fails_closed (fun p => pair_ok 1 cur p /\ p <> Some key) (load_kek_prev key cur).
Proof.
  intros Hc. read_env. destruct a as [p|]; [|by apply closed_ret; split_and!; [split; auto using slen_pos|]].
  repeat read_env. apply closed_ret. apply bool_decide_eq_false in H0, H1.
  split; [|congruence]. split; [auto using slen_pos|]. intros ? [= <-]. auto using slen_pos.
Qed.
Lemma load_bootstrap_pass_ok :
  fails_closed (fun o => forall p, o = Some p -> _MIN_BOOTSTRAP_PASS_LEN <= slen p) load_bootstrap_pass.
Proof. repeat read_env. apply closed_ret. intros p ->. lia. Qed.
Lemma load_webhook_ok : fails_closed (fun w => w.1 <> "" -> w.2 <> "") load_webhook.
Proof.
  repeat read_env. apply closed_ret. simpl in *. intros Hu ->. unfold str_true in *.
  rewrite bool_decide_true in H1 by done. done.
Qed.
#[export] Hint Resolve load_jwt_key_ok load_service_token_ok load_service_token_prev_ok load_algorithm_ok
  load_kek_ok load_kek_prev_ok load_bootstrap_pass_ok load_webhook_ok : closed.

Section load_props.
Variable core_service_port : string -> Z -> Environ -> res Z.
(** The port resolution raises [ValueError] on a malformed port, nothing else. *)
Hypothesis core_value_error : forall app d env,
  match core_service_port app d env with Ok _ => True | Raise (ValueError _) => True | _ => False end.

Lemma core_port_ok d : fails_closed (fun _ => True) (_core_port core_service_port d).
Proof using Type core_value_error.
  intros env. unfold _core_port, catch. specialize (core_value_error "identity" d env).
  destruct (core_service_port _ _ _) as [|[]]; done.
Qed.
#[local] Hint Resolve core_port_ok : closed.

(** [C21] The service never starts on a weak or unseparated set of secrets:
    whatever the environment, [load_settings] leaves it unchanged and either
    raises [ConfigError] or returns settings with a signing key of 32
    characters or more, current and previous service tokens of 24 or more that
    differ, a known algorithm, current and previous key-encryption keys that
    differ from each other and from the signing key, a bootstrap password of
    12 or more when one is set, and a webhook secret when a webhook is set. *)
Theorem load_settings_fails_closed : fails_closed settings_ok (load_settings core_service_port).
Proof using Type core_value_error.
  unfold load_settings. do 5 read_env.
  eapply closed_bind; [apply load_kek_prev_ok; naive_solver|intros ? ?]. repeat read_env.
  apply closed_ret. split; simpl; naive_solver.
Qed.
End load_props.
