(* ===== verification/Provision.v ===== *)
(** * Tenant provisioning (routes/provisioning.py)

    [provision_core] creates a tenant, its quota, its first administrator and
    an API key in one request, and keeps the response under the caller's
    idempotency key. The response is a dict the store keeps by reference: what
    the handler writes into it afterwards is in the stored row too
    ([aliased]). *)
From S2P Require Import Prelude PyText StoreState Prims AuditLog Tenants Rbac Users Keys Tokens Ledger.
From S2P Require Import Crypto Jwt Jwks Auth Deps MemberRoutes Redis Cache DataPlane Webhook.
From S2P Require Import TenantRoutes AuditRoutes.

Record SeedAdminSpec : Type := mkSeedAdminSpec {
  sa_username : string; sa_password : option string; sa_email : option string;
  sa_email_verified : bool
}.
(** [ApiKeySpec]: the name is not used. *)
Record ApiKeySpec : Type := mkApiKeySpec { ks_name : option string; ks_scopes : list string }.
Record ProvisionRequest : Type := mkProvisionRequest {
  pr_tenant_id : option string; pr_display_name : string; pr_plan : string;
  pr_join_policy : option string; pr_quotas : option QuotaFields;
  pr_seed_admin : option SeedAdminSpec; pr_api_key : option ApiKeySpec; pr_hook_url : option string
}.
(** The random draws of one request. *)
Record ProvisionDraws : Type := mkProvisionDraws {
  pd_tenant : string; pd_password : string; pd_user : string; pd_salt : string;
  pd_raw : string; pd_key : string; pd_event1 : string; pd_event2 : string
}.

Definition _effective_quota (template : option Quota) (overrides : option QuotaFields) : Quota :=
  let quota := default DEFAULT_QUOTA template in
  match overrides with Some o => merge_quota quota o | None => quota end.
(** [put_quota(tid, **quota)] with every field. *)
Definition all_fields (q : Quota) : QuotaFields :=
  mkQuotaFields (Some (q_rpm q)) (Some (q_tpm q)) (Some (q_concurrent q)) (Some (q_storage_mb q))
    (Some (q_allowed_models q)) (Some (q_allowed_modules q)) (Some (q_default_priority q)).

(** ** The response, as the dict it is *)

Definition dict := list (string * json).
Definition json_dict (j : json) : dict := match j with JObj kvs => kvs | _ => [] end.
Definition tenant_json (t : Tenant) : json :=
  JObj [("tenant_id", JStr (t_tenant_id t)); ("display_name", JStr (t_display_name t));
        ("status", JStr (t_status t)); ("plan", JStr (t_plan t));
        ("join_policy", JStr (t_join_policy t)); ("created_at", JFloat (t_created_at t));
        ("disabled_at", jtime (t_disabled_at t)); ("deleted_at", jtime (t_deleted_at t))].
Definition admin_json (user_id username : string) (generated : bool) (password : string) : json :=
  JObj [("user_id", JStr user_id); ("username", JStr username);
        ("must_change_password", JBool generated); ("initial_password", JStr password)].
Definition api_key_json (raw : string) (k : ApiKey) : json :=
  JObj (dset "raw_key" (JStr raw) (key_json (_scrub_api_key k))).
Definition jnull_or (o : option json) : json := default JNull o.

(** What the handler writes into a response that is already stored. *)
Definition aliased (idem_key : string) (f : dict -> dict) : M Store unit :=
  modify (fun s => set_idempotency
    (dupd idem_key (fun row => mkIdempotency (im_idem_key row) (im_endpoint row)
        (JObj (f (json_dict (im_response row)))) (im_created_at row)) (idempotency s)) s).

Section provision.
Context `{HashLib, Argon2Lib} `{RedisLib}.
Variables (cache : bool) (now : Z) (d : ProvisionDraws).

(** The checks before the tenant is created. *)
Definition preflight (seed_admin : option SeedAdminSpec) : M Store unit :=
  match seed_admin with
  | None => ret tt
  | Some sa =>
      let! existing := gets (get_user_by_username (sa_username sa)) in
      match existing with
      | Some _ => raise (http 409 ("username " +:+ py_repr (sa_username sa) +:+ " already exists"))
      | None =>
          match sa_email sa with
          | Some e =>
              if str_true e then
                let! taken := gets (get_user_by_email e) in
                match taken with
                | Some _ => raise (http 409 "email already registered")
                | None => ret tt
                end
              else ret tt
          | None => ret tt
          end
      end
  end.

(** The first administrator: [Some (user_id, admin_out)]. *)
Definition provision_admin (tid : string) (seed_admin : option SeedAdminSpec) (added_by : option string)
    : M Store (option (string * json)) :=
  match seed_admin with
  | None => ret None
  | Some sa =>
      let generated := match sa_password sa with None => true | Some _ => false end in
      let password := or_default (pd_password d) (sa_password sa) in
      let user_id := "usr_" +:+ pd_user d in
      create_user now (pd_salt d) user_id (sa_username sa) password (sa_email sa) generated
        (sa_email_verified sa) None ;;;
      add_member now tid user_id "tenant_admin" added_by ;;;
      ret (Some (user_id, admin_json user_id (sa_username sa) generated password))
  end.

(** The API key: [Some (row, api_key_out)]. *)
Definition provision_key (tid : string) (admin_id : option string) (api_key : option ApiKeySpec)
    : M Store (option (ApiKey * json)) :=
  match api_key with
  | None => ret None
  | Some ks =>
      let! rk := create_api_key now (pd_raw d) (pd_key d) tid admin_id (ks_scopes ks) in
      ret (Some (rk.2, api_key_json rk.1 rk.2))
  end.

(** Everything that is written to the store up to the events. *)
Definition provision_rows (tid : string) (b : ProvisionRequest) (added_by : option string)
    : M Store dict :=
  let! template := gets (get_plan_template (pr_plan b)) in
  let quota := _effective_quota template (pr_quotas b) in
  preflight (pr_seed_admin b) ;;;
  let! tenant := on_conflict (create_tenant now tid (pr_display_name b) (pr_plan b)
                                (or_default "invite" (pr_join_policy b))) (http 409) in
  let! quota := put_quota now tid (all_fields quota) in
  let! admin := provision_admin tid (pr_seed_admin b) added_by in
  let! key := provision_key tid (fst <$> admin) (pr_api_key b) in
  emit_event now (pd_event1 d) EVENT_TENANT_CREATED tid
    (JObj [("tenant_id", JStr tid); ("plan", JStr (pr_plan b));
           ("display_name", JStr (pr_display_name b))]) ;;;
  match key with
  | Some (k, _) =>
      emit_event now (pd_event2 d) EVENT_APIKEY_CREATED tid
        (JObj [("tenant_id", JStr tid); ("key_id", JStr (k_key_id k)); ("prefix", JStr (k_prefix k))])
  | None => ret tt
  end ;;;
  ret [("tenant", tenant_json tenant);
       ("quota", match quota with Some q => quota_json q | None => JObj [] end);
       ("admin", jnull_or (snd <$> admin)); ("api_key", jnull_or (snd <$> key))].

(** [dispatch_hook] when a hook is asked for. *)
Definition provision_hook (secret : string) (hook_url : option string) (result : dict)
    : M Store dict :=
  if opt_true hook_url then
    let url := default "" hook_url in
    let! hook_result := dispatch_hook url secret "provision.completed"
      (JObj [("tenant", jnull_or (dget "tenant" result)); ("quota", jnull_or (dget "quota" result));
             ("admin", JObj (dpop "initial_password" (json_dict (jnull_or (dget "admin" result)))));
             ("api_key", jnull_or (dget "api_key" result))]) in
    ret (dset "hook" (JObj (dict_merge [("url", JStr url)] (json_dict hook_result))) result)
  else ret result.

Definition idem_key_of (endpoint : string) (idempotency_key : option string) : option string :=
  if opt_true idempotency_key
  then Some (endpoint +:+ ":" +:+ default "" idempotency_key) else None.

(** [secret] is [settings.webhook_secret or settings.service_token];
    [has_request] is whether a request, hence a cache, was passed. *)
Definition provision_core (secret : string) (has_request : bool) (b : ProvisionRequest)
    (endpoint : string) (idempotency_key added_by : option string) : M Plane dict :=
  let key := idem_key_of endpoint idempotency_key in
  let! cached := gets (fun p => match key with
                                | Some k => get_idempotency k (pl_store p)
                                | None => None
                                end) in
  match cached with
  | Some row => ret (dset "idempotent_replay" (JBool true) (json_dict (im_response row)))
  | None =>
      let tid := or_default ("tnt_" +:+ pd_tenant d) (pr_tenant_id b) in
      let! result := in_store (provision_rows tid b added_by) in
      let! result := in_store (provision_hook secret (pr_hook_url b) result) in
      match key with
      | Some k => in_store (put_idempotency now k endpoint (JObj result))
      | None => ret tt
      end ;;;
      (if has_request then invalidate_tenant_cache cache now tid else ret tt) ;;;
      match key with
      | Some k => in_store (aliased k (dset "idempotent_replay" (JBool false)))
      | None => ret tt
      end ;;;
      ret (dset "idempotent_replay" (JBool false) result)
  end.
End provision.

Section provision_routes.
Context `{HashLib, Argon2Lib} `{RedisLib}.
Variables (service_token : string) (service_token_prev : option string) (webhook_secret : string).
Variables (cache : bool) (now : Z) (auth : string).

Definition plane_service {S} : M S unit :=
  lift (require_service_token service_token service_token_prev auth).
Definition hook_secret : string := str_or webhook_secret service_token.

Definition provision_tenant (d : ProvisionDraws) (b : ProvisionRequest) (idempotency_key : option string)
    : M Plane dict :=
  plane_service ;;;
  provision_core cache now d hook_secret true b "/api/v1/admin/tenants/provision" idempotency_key None.

Definition list_plan_templates_route : M Store (list (string * Quota)) :=
  plane_service ;;; gets list_plan_templates.
Definition get_plan_template_route (plan : string) : M Store Quota :=
  plane_service ;;;
  let! quota := gets (get_plan_template plan) in
  match quota with
  | None => raise (http 404 ("plan template " +:+ py_repr plan +:+ " not found"))
  | Some q => ret q
  end.
Definition put_plan_template_route (plan : string) (quota : QuotaFields) : M Store Quota :=
  plane_service ;;; on_conflict (put_plan_template plan quota) (http 409).
(** The events after the cursor, and the next cursor. *)
Definition list_events_route (cursor limit : Z) : M Store (list Event * Z) :=
  plane_service ;;;
  if (limit <? 1) || (1000 <? limit) then raise (http 422 "limit must be 1..1000")
  else
    let! events := gets (list_events cursor limit) in
    ret (events, match last events with Some e => e_seq e | None => cursor end).
End provision_routes.
