(* ===== verification/Registration.v ===== *)
(** * Public signup (routes/registration.py)

    Personal and tenant registration, email verification and its resend, over
    the store, Redis and the login rate limiter. The request models' checks
    ([_check_username], [_check_password]) are [valid_register] and
    [valid_register_tenant]: a request that fails them does not reach the
    handler. *)
From S2P Require Import Prelude PyText StoreState Prims AuditLog Tenants Rbac Users Keys Tokens Ledger.
From S2P Require Import Crypto Jwt Jwks Auth Deps MemberRoutes RateLimit JoinRoutes Redis Cache DataPlane.
From S2P Require Import Webhook TenantRoutes Email AuditRoutes Provision.

(** ** Request models *)

Definition is_letter (c : ascii) : bool := is_upper c || is_lower c.
(** [_validate_password]; [\d] on ASCII. *)
Definition _validate_password (v : string) : res string :=
  if slen v <? 10 then Raise (ValueError "password must be at least 10 characters")
  else if negb (existsb is_letter (chars v))
  then Raise (ValueError "password must contain at least one letter")
  else if negb (existsb is_digit (chars v))
  then Raise (ValueError "password must contain at least one digit")
  else Ok v.
Definition username_char (c : ascii) : bool :=
  is_letter c || is_digit c || bool_decide (c ∈ chars "_.-").
(** [^[a-zA-Z0-9_.-]{3,64}$], whose [$] matches before a final newline. *)
Definition _USERNAME_RE (v : string) : bool :=
  let body := strip_final_newline (chars v) in
  forallb username_char body && (3 <=? length body)%nat && (length body <=? 64)%nat.

Record RegisterRequest : Type := mkRegisterRequest {
  rg_username : string; rg_password : string; rg_display_name : option string;
  rg_email : option string
}.
Record RegisterTenantRequest : Type := mkRegisterTenantRequest {
  rt_tenant_display_name : string; rt_admin_username : string; rt_admin_password : string;
  rt_admin_email : option string; rt_plan : string
}.
Definition between (lo hi : Z) (s : string) : bool := (lo <=? slen s) && (slen s <=? hi).
Definition opt_len (hi : Z) (o : option string) : bool :=
  match o with Some s => slen s <=? hi | None => true end.
Definition valid_register (b : RegisterRequest) : bool :=
  between 3 64 (rg_username b) && between 10 256 (rg_password b) && opt_len 128 (rg_display_name b) &&
  opt_len 254 (rg_email b) && _USERNAME_RE (rg_username b) && is_ok (_validate_password (rg_password b)).
Definition valid_register_tenant (b : RegisterTenantRequest) : bool :=
  between 1 128 (rt_tenant_display_name b) && between 3 64 (rt_admin_username b) &&
  between 12 256 (rt_admin_password b) && opt_len 254 (rt_admin_email b) && (slen (rt_plan b) <=? 32) &&
  _USERNAME_RE (rt_admin_username b) && is_ok (_validate_password (rt_admin_password b)).

(** [email.partition("@")] and the masked address. *)
Fixpoint partition_at (l : list ascii) : list ascii * list ascii :=
  match l with
  | [] => ([], [])
  | c :: l' => if decide (c = "@"%char) then ([], l')
               else let '(name, domain) := partition_at l' in (c :: name, domain)
  end.
Definition _mask_email (email : string) : string :=
  let '(name, domain) := partition_at (chars email) in
  if decide (domain = []) then "***"
  else of_chars (take (if (2 <? length name)%nat then 2 else 1) name) +:+ "***@" +:+ of_chars domain.

(** What the handlers read of the settings. *)
Record SignupSettings : Type := mkSignupSettings {
  sg_registration_enabled : bool;
  sg_email_verification_required : bool;
  sg_default_tenant : string;
  sg_hook_secret : string;
  sg_mail : MailSettings
}.
(** The draws of a personal signup: user id, salt, verification token. *)
Record SignupDraws : Type := mkSignupDraws {
  sd_user : string; sd_salt : string; sd_token : string; sd_login : LoginDraws
}.
Record Registered : Type := mkRegistered {
  ro_user_id : string; ro_username : string; ro_tenant_id : string; ro_email_verified : bool;
  ro_tokens : option TokenResponse
}.
Definition token_json (t : TokenResponse) : json :=
  JObj [("access_token", JStr (tr_access_token t)); ("refresh_token", JStr (tr_refresh_token t));
        ("token_type", JStr "Bearer"); ("expires_in", JInt (tr_expires_in t));
        ("must_change_password", JBool (tr_must_change_password t));
        ("mfa_required", JBool (tr_mfa_required t))].
(** [(x or "").strip() or None] *)
Definition clean_email (o : option string) : option string :=
  let e := strip (default "" o) in if str_true e then Some e else None.

Section registration.
Context `{HashLib, Argon2Lib, JwtLib, AeadLib, RsaLib, TotpLib} `{RedisLib}.
Variables (cfg : AuthConfig) (ring : KeyRing) (sg : SignupSettings) (smtp : Smtp).
Variables (cache : bool) (now : Z) (rate : RateView).

(** The store and Redis, and the limiter. *)
Definition Front : Type := Plane * Limiter.
Definition on_plane {A} (m : M Plane A) : M Front A :=
  fun st => let '(r, p) := m st.1 in (r, (p, st.2)).
Definition front_store {A} (m : M Store A) : M Front A := on_plane (in_store m).
Definition front_rate (scope username : string) : M Front unit :=
  fun st => let '(r, l) := check_login_rate now (rv_ip rate) scope (Some username) (rv_redis rate)
                             (rv_limit rate) st.2 in (r, (st.1, l)).

(** [_audit]: a failing append is logged. *)
Definition signup_audit (action : string) (user_id : option string) (detail : json) : M Store unit :=
  catch (append_audit now "_system" user_id None (Some "public") action None detail ;;; ret tt)
        (fun _ => ret tt).

Definition _issue_verify_token (token user_id email username : string) : M Store unit :=
  let! ok := set_email_verify_token user_id (hash_token token)
               (now + sec (ml_email_verify_ttl (sg_mail sg))) in
  if negb ok then raise (http 500 "failed to arm verification token")
  else
    catch (let! _ := lift (send_verification_email (sg_mail sg) smtp email token username) in ret tt)
          (fun e => match e with EmailDeliveryError _ => ret tt | _ => raise e end).

(** The default tenant of personal signups, created on first use. *)
Definition ensure_default_tenant (tenant_id : string) : M Store unit :=
  let! status := gets (get_tenant_status tenant_id) in
  match status with
  | Some _ => ret tt
  | None =>
      let! template := gets (get_plan_template "free") in
      create_tenant now tenant_id "Community" "free" "open" ;;;
      match template with
      | Some q => put_quota now tenant_id (all_fields q) ;;; ret tt
      | None => ret tt
      end
  end.

(** The part of [register] after the rate limit. *)
Definition register_body (d : SignupDraws) (body : RegisterRequest) : M Store Registered :=
  let email := clean_email (rg_email body) in
  let required := sg_email_verification_required sg in
  if required && negb (opt_true email)
  then raise (http 422 "email is required while email verification is enforced")
  else
    let! named := gets (get_user_by_username (rg_username body)) in
    match named with
    | Some _ => raise (http 409 "username already exists")
    | None =>
        let! mailed := gets (fun s => match email with
                                      | Some e => get_user_by_email e s
                                      | None => None
                                      end) in
        match mailed with
        | Some _ => raise (http 409 "email already registered")
        | None =>
            let user_id := "usr_" +:+ sd_user d in
            let verified_now := negb required in
            let! user := on_conflict
              (create_user now (sd_salt d) user_id (rg_username body) (rg_password body) email false
                 verified_now (rg_display_name body))
              (fun _ => http 409 "username or email already registered") in
            let tenant_id := sg_default_tenant sg in
            ensure_default_tenant tenant_id ;;;
            add_member now tenant_id user_id "member" (Some user_id) ;;;
            let! tokens :=
              (if verified_now then
                 let! t := login cfg ring now (sd_login d)
                   (mkLoginRequest (rg_username body) (rg_password body) (Some tenant_id) None) false in
                 ret (Some t)
               else _issue_verify_token (sd_token d) user_id (default "" email) (rg_username body) ;;;
                    ret None) in
            signup_audit "auth.registered" (Some user_id)
              (JObj [("username", JStr (rg_username body)); ("tenant_id", JStr tenant_id);
                     ("email", jopt (_mask_email <$> email));
                     ("verification", JStr (if verified_now then "verified" else "pending"))]) ;;;
            ret (mkRegistered (u_user_id user) (u_username user) tenant_id verified_now tokens)
        end
    end.
Definition register (d : SignupDraws) (body : RegisterRequest) : M Front Registered :=
  if negb (sg_registration_enabled sg) then raise (http 403 "public registration is disabled")
  else front_rate "register" (rg_username body) ;;; front_store (register_body d body).

(** [result["tenant"]["tenant_id"]]; [result["admin"]["user_id"]] when there
    is an administrator. *)
Definition jstr_at (k : string) (o : option json) : res string :=
  match o with
  | Some (JObj kvs) => match dget k kvs with Some (JStr v) => Ok v | _ => Raise (KeyError k) end
  | _ => Raise (KeyError k)
  end.
Definition admin_of (result : dict) : option json :=
  match dget "admin" result with Some JNull | None => None | Some j => Some j end.
(** [result["admin"].pop("initial_password", None)] *)
Definition drop_password (result : dict) : dict :=
  match admin_of result with
  | Some (JObj kvs) => dset "admin" (JObj (dpop "initial_password" kvs)) result
  | _ => result
  end.

Definition REGISTER_TENANT : string := "/api/v1/auth/register-tenant".
Definition tenant_signup (email : option string) (body : RegisterTenantRequest) : ProvisionRequest :=
  mkProvisionRequest None (rt_tenant_display_name body) (rt_plan body) (Some "invite") None
    (Some (mkSeedAdminSpec (rt_admin_username body) (Some (rt_admin_password body)) email
             (negb (sg_email_verification_required sg))))
    (Some (mkApiKeySpec None [])) None.

(** The part of [register_tenant] after the response of [provision_core]. The
    administrator's dict is shared with the stored response; the response
    itself is, unless it is a replay. *)
Definition finish_tenant (token : string) (ld : LoginDraws) (email idempotency_key : option string)
    (body : RegisterTenantRequest) (result : dict) : M Store dict :=
  let key := idem_key_of REGISTER_TENANT idempotency_key in
  let! tenant_id := lift (jstr_at "tenant_id" (dget "tenant" result)) in
  match key with Some k => aliased k drop_password | None => ret tt end ;;;
  let result := drop_password result in
  (match email, admin_of result with
   | Some e, Some a =>
       if sg_email_verification_required sg then
         let! uid := lift (jstr_at "user_id" (Some a)) in
         _issue_verify_token token uid e (rt_admin_username body)
       else ret tt
   | _, _ => ret tt
   end) ;;;
  let! tokens := login cfg ring now ld
    (mkLoginRequest (rt_admin_username body) (rt_admin_password body) (Some tenant_id) None) true in
  let! uid := match admin_of result with
              | Some a => let! u := lift (jstr_at "user_id" (Some a)) in ret (Some u)
              | None => ret None
              end in
  signup_audit "auth.tenant_registered" uid
    (JObj [("tenant_id", JStr tenant_id); ("plan", JStr (rt_plan body));
           ("admin_username", JStr (rt_admin_username body))]) ;;;
  match key, dget "idempotent_replay" result with
  | Some k, Some (JBool false) => aliased k (dset "tokens" (token_json tokens))
  | _, _ => ret tt
  end ;;;
  ret (dset "tokens" (token_json tokens) result).

Definition register_tenant_body (d : ProvisionDraws) (token : string) (ld : LoginDraws)
    (idempotency_key : option string) (body : RegisterTenantRequest) : M Plane dict :=
  let email := clean_email (rt_admin_email body) in
  if sg_email_verification_required sg && negb (opt_true email)
  then raise (http 422 "admin_email is required while email verification is enforced")
  else
    let! template := gets (fun p => get_plan_template (rt_plan body) (pl_store p)) in
    match template with
    | None => raise (http 422 ("unknown plan " +:+ py_repr (rt_plan body)))
    | Some _ =>
        let! result := provision_core cache now d (sg_hook_secret sg) true (tenant_signup email body)
                         REGISTER_TENANT idempotency_key None in
        in_store (finish_tenant token ld email idempotency_key body result)
    end.
Definition register_tenant (d : ProvisionDraws) (token : string) (ld : LoginDraws)
    (idempotency_key : option string) (body : RegisterTenantRequest) : M Front dict :=
  if negb (sg_registration_enabled sg) then raise (http 403 "public registration is disabled")
  else front_rate "register-tenant" (rt_admin_username body) ;;;
       on_plane (register_tenant_body d token ld idempotency_key body).

(** The verified user. *)
Definition verify_email (token : string) : M Store string :=
  let! user_id := verify_email_token now (hash_token token) in
  match user_id with
  | None => raise (http 400 "invalid or expired verification token")
  | Some uid => signup_audit "auth.email_verified" (Some uid) (JObj []) ;;; ret uid
  end.

(** The [resent] of the answer. *)
Definition resend_body (token username : string) : M Store bool :=
  let! user := gets (get_user_by_username username) in
  match user with
  | Some u =>
      if negb (u_email_verified u) && opt_true (u_email u) && sg_registration_enabled sg then
        _issue_verify_token token (u_user_id u) (default "" (u_email u)) (u_username u) ;;; ret true
      else ret false
  | None => ret false
  end.
Definition resend_verification (token username : string) : M Front bool :=
  front_rate "verify-resend" username ;;; front_store (resend_body token username).
End registration.
