(* ===== verification/Models.v ===== *)
(** * Request bodies (models.py)

    What FastAPI hands to a handler has passed the constraints of its model:
    [valid_X] are the constraints of the model [X] on fields of the declared
    types. The theorems relate them to the limits of the store and of the
    service behind the handlers. *)
From S2P Require Import Prelude PyText StoreState Prims AuditLog Tenants Rbac Users Keys Tokens Ledger.
From S2P Require Import Crypto Jwt Jwks Auth Deps MemberRoutes RateLimit JoinRoutes Redis Cache DataPlane.
From S2P Require Import Webhook TenantRoutes Email AuditRoutes Config Provision Registration.

Definition VALID_ROLES : list string := ["tenant_admin"; "operator"; "member"; "viewer"].
Definition VALID_USER_STATUS : list string := ["active"; "disabled"; "locked"].

(** [Field(min_length=n)], [Field(min_length=n, max_length=m)] and their optional
    forms. *)
Definition at_least (lo : Z) (s : string) : bool := lo <=? slen s.
Definition opt_is (f : string -> bool) (o : option string) : bool :=
  match o with Some s => f s | None => true end.
Definition opt_list (hi : Z) (o : option (list string)) : bool :=
  match o with Some l => zlen l <=? hi | None => true end.
Definition good_password (s : string) : bool := is_ok (_validate_password s).

(** ** Sign-in, sessions, passwords *)

Definition valid_LoginRequest (b : LoginRequest) : bool :=
  at_least 1 (lr_username b) && at_least 1 (lr_password b) && opt_is (at_least 1) (lr_tenant_id b).
Definition valid_SsoTicketExchangeRequest (ticket : string) : bool := at_least 1 ticket.
Definition valid_PasswordForgotRequest (email : string) : bool := between 3 254 email.
Definition valid_PasswordResetConfirmRequest (token new_password : string) : bool :=
  between 16 256 token && between 10 256 new_password && good_password new_password.
Definition valid_VerifyRequest (token : string) : bool := at_least 1 token.
Definition valid_RefreshRequest (refresh_token : string) : bool := at_least 1 refresh_token.
Definition valid_RevokeRequest (jti : string) : bool := at_least 1 jti.
Definition valid_PasswordChangeRequest (old_password new_password : string) : bool :=
  at_least 1 old_password && at_least 1 new_password && good_password new_password.
Definition valid_PasswordResetRequest (new_password : string) : bool :=
  at_least 1 new_password && good_password new_password.
Definition valid_SessionIssueRequest (sub tenant_id role : string) (ttl_seconds : option Z) : bool :=
  between 1 128 sub && between 1 64 tenant_id && between 1 64 role &&
  match ttl_seconds with Some t => (60 <=? t) && (t <=? 86400) | None => true end.
Definition valid_SessionVerifyRequest (token : string) : bool := at_least 1 token.
Definition valid_SessionRevokeRequest (sub tenant_id : string) : bool :=
  between 1 128 sub && between 1 64 tenant_id.
Definition valid_ApprovalValidateRequest (requester_id approver_id : string) : bool :=
  at_least 1 requester_id && at_least 1 approver_id.

(** ** Tenants and members *)

Definition valid_TenantCreate (tenant_id display_name : string) : bool :=
  between 1 64 tenant_id && at_least 1 display_name.
Definition valid_TenantUpdate (f : TenantFields) : bool :=
  opt_is (fun st => bool_decide (st ∈ ["active"; "disabled"])) (tf_status f).
Definition valid_MemberAdd (user_id role : string) : bool := at_least 1 user_id && between 1 64 role.
Definition valid_MemberCreate (b : MemberCreate) : bool :=
  at_least 1 (mc_username b) && at_least 1 (mc_password b) && between 1 64 (mc_role b) &&
  good_password (mc_password b).
Definition valid_MemberRoleUpdate (role : string) : bool := between 1 64 role.
Definition valid_MemberStatusUpdate (status : string) : bool :=
  at_least 1 status && bool_decide (status ∈ VALID_USER_STATUS).
Definition valid_UsageEmit (metric : string) (value : Z) (source : string) : bool :=
  at_least 1 metric && (0 <=? value) && at_least 1 source.
Definition valid_DepartmentCreate (name : string) (parent_id : option string) : bool :=
  between 1 128 name && opt_len 64 parent_id.
Definition valid_DepartmentUpdate (name parent_id : option string) : bool :=
  opt_is (between 1 128) name && opt_len 64 parent_id.

(** ** Roles and menus *)

Definition valid_RoleCreate (role_id display_name : string) (write_classes : list string) : bool :=
  between 1 64 role_id && between 1 128 display_name && (zlen write_classes <=? 64).
Definition valid_RoleUpdate (display_name : option string) (write_classes : option (list string)) : bool :=
  opt_is (between 1 128) display_name && opt_list 64 write_classes.
Definition valid_RoleMenusUpdate (menus : list string) : bool := zlen menus <=? 64.
Definition valid_MenusAddRequest (menus : list string) : bool := (1 <=? zlen menus) && (zlen menus <=? 256).

(** ** Audit events *)

Definition SEVERITIES : list string := ["TRACE"; "DEBUG"; "INFO"; "WARN"; "ERROR"; "FATAL"].
Definition _check_severity (v : string) : res string :=
  if decide (upper v ∈ SEVERITIES) then Ok (upper v)
  else Raise (ValueError "severity must be a standard level (TRACE..FATAL)").
(** The body with its severity in canonical form, or the refusal. *)
Definition check_AuditEventIn (b : AuditEventIn) : res AuditEventIn :=
  if negb (between 1 128 (ae_action b) && opt_len 256 (ae_resource b) && opt_len 64 (ae_user_id b))
  then Raise (ValueError "length") else
  match _check_severity (ae_severity b) with
  | Ok sv => Ok (mkAuditEventIn (ae_action b) (ae_resource b) (ae_user_id b) sv (ae_detail b))
  | Raise e => Raise e
  end.
(** [v <= 0 or v > now + 300] *)
Definition _check_timestamp (now v : Z) : bool := (0 <? v) && (v <=? now + sec 300).
Definition check_BusinessEventIn (now : Z) (b : BusinessEventIn) : res BusinessEventIn :=
  if negb (between 1 128 (be_actor b) && between 1 128 (be_action b) && between 1 256 (be_object_id b) &&
           between 1 128 (be_trace_id b))
  then Raise (ValueError "length")
  else if negb (_check_timestamp now (be_timestamp b))
  then Raise (ValueError "timestamp must be a unix epoch within 5 minutes of now")
  else match _check_severity (be_severity b) with
       | Ok sv => Ok (mkBusinessEventIn (be_actor b) (be_action b) (be_object_id b) (be_trace_id b)
                        (be_timestamp b) sv (be_payload b))
       | Raise e => Raise e
       end.

(** ** What an accepted body means behind the handler *)

(** The limits of the store are never what refuses an accepted body: the only
    reason left for its list checks is an identifier of the wrong form, and a
    session lives exactly as long as the body asks. *)
Theorem accepted_bodies_fit rid dn wc menus more sub tid role ttl :
  valid_RoleCreate rid dn wc = true -> valid_RoleMenusUpdate menus = true ->
  valid_MenusAddRequest more = true -> valid_SessionIssueRequest sub tid role (Some ttl) = true ->
  valid_write_classes wc = forallb valid_id wc /\
  ~ zlen menus > MAX_MENUS_PER_ROLE /\ ~ zlen more > MAX_MENUS_PER_TENANT /\
  session_ttl (Some ttl) = ttl.
Proof.
  unfold valid_RoleCreate, valid_RoleMenusUpdate, valid_MenusAddRequest, valid_SessionIssueRequest.
  rewrite !andb_true_iff, !Z.leb_le. intros [_ Hwc] Hm [_ Hmore] [_ [Hlo Hhi]].
  unfold MAX_MENUS_PER_ROLE, MAX_MENUS_PER_TENANT, session_ttl, SESSION_MAX_TTL. split_and!; [|lia|lia|].
  - unfold valid_write_classes, MAX_WRITE_CLASSES_PER_ROLE. rewrite decide_False by lia. done.
  - rewrite decide_True by lia. lia.
Qed.

(** Every body that sets a password sets one of ten characters with a letter
    and a digit. *)
Theorem accepted_passwords p tok old m u t :
  (valid_PasswordResetConfirmRequest tok p = true \/ valid_PasswordChangeRequest old p = true \/
   valid_PasswordResetRequest p = true \/ (valid_MemberCreate m = true /\ p = mc_password m) \/
   (valid_register u = true /\ p = rg_password u) \/
   (valid_register_tenant t = true /\ p = rt_admin_password t)) ->
  10 <= slen p /\ existsb is_letter (chars p) = true /\ existsb is_digit (chars p) = true.
Proof.
  intros Hp. assert (good_password p = true) as Hg.
  { unfold valid_PasswordResetConfirmRequest, valid_PasswordChangeRequest, valid_PasswordResetRequest,
      valid_MemberCreate, valid_register, valid_register_tenant in Hp.
    rewrite !andb_true_iff in Hp. unfold good_password in *. naive_solver. }
  unfold good_password, _validate_password in Hg. repeat case_match; try done.
  apply Z.ltb_ge in H. by rewrite !negb_false_iff in *.
Qed.

(** A level is stored in canonical form, which is accepted again as it is. *)
Theorem severity_canonical v w :
  _check_severity v = Ok w -> w ∈ SEVERITIES /\ _check_severity w = Ok w.
Proof.
  unfold _check_severity. case_decide as Hv; [|done]. intros [= <-]. split; [done|].
  assert (upper (upper v) = upper v) as ->; [|by rewrite decide_True].
  revert Hv. generalize (upper v). apply Forall_forall. unfold SEVERITIES. repeat constructor.
Qed.

(** The message of the timestamp check speaks of five minutes around now; the
    check has no lower bound but zero. *)
Theorem old_timestamp_accepted now v : 0 < v <= now -> _check_timestamp now v = true.
Proof. intros Hv. unfold _check_timestamp, sec. apply andb_true_iff. split; [apply Z.ltb_lt|apply Z.leb_le]; lia. Qed.
