(* ===== verification/ProvisionProps.v ===== *)
(** * What provisioning guarantees (routes/provisioning.py) *)
From S2P Require Import Prelude PyText StoreState Prims AuditLog Tenants Rbac Users Keys Tokens.
From S2P Require Import Ledger Crypto Jwt Jwks Auth AuthLemmas Deps MemberRoutes RateLimit.
From S2P Require Import JoinRoutes Redis Cache DataPlane Webhook TenantRoutes Email AuthRoutes.
From S2P Require Import AuditRoutes Provision Registration StoreSteps Invariants TableProps.

Lemma dset_dset {V} (k : string) (v w : V) d : dset k v (dset k w d) = dset k v d.
Proof.
  induction d as [|[k' u] d IH]; simpl; [by rewrite decide_True|].
  destruct (decide (k = k')) as [->|Hn]; simpl; [by rewrite decide_True|].
  rewrite decide_False by done. by rewrite IH.
Qed.

Section provision_props.
Context `{HashLib, Argon2Lib} `{RedisLib}.

Lemma in_store_run {A} (m : M Store A) p a s' :
  m (pl_store p) = (a, s') -> in_store m p = (a, mkPlane s' (pl_redis p)).
Proof. unfold in_store. by intros ->. Qed.
Lemma in_store_snd {A} (m : M Store A) p a p' : in_store m p = (a, p') -> pl_store p' = (m (pl_store p)).2.
Proof. unfold in_store. destruct (m (pl_store p)). by intros [= <- <-]. Qed.
Lemma invalidate_store cache t tid p : pl_store (invalidate_tenant_cache cache t tid p).2 = pl_store p.
Proof.
  unfold invalidate_tenant_cache, in_redis. destruct cache; [|done].
  by destruct (invalidate_tenant t tid (pl_redis p)).
Qed.

(** ** Replay *)

Lemma remembered k now ep r f s :
  get_idempotency k (aliased k f (put_idempotency now k ep (JObj r) s).2).2 =
  Some (mkIdempotency k ep (JObj (f r)) now).
Proof. unfold get_idempotency, aliased, put_idempotency. simpl. by rewrite dget_dupd, decide_True, dget_dset_eq. Qed.

(** Provisioning is idempotent: once a call with an idempotency key has
    answered, every later call with that key, whatever its body, its draws and
    the time, changes nothing and answers the same response, marked as a
    replay. The replay includes the initial password and the raw API key. *)
Theorem provision_replays cache now d secret req b ep key added p r p1
    cache' now' d' secret' req' b' added' :
  key <> "" ->
  provision_core cache now d secret req b ep (Some key) added p = (Ok r, p1) ->
  provision_core cache' now' d' secret' req' b' ep (Some key) added' p1 =
    (Ok (dset "idempotent_replay" (JBool true) r), p1).
Proof.
  intros Hk. assert (Ek : idem_key_of ep (Some key) = Some (ep +:+ ":" +:+ key)).
  { unfold idem_key_of. simpl. unfold str_true. by rewrite bool_decide_true. }
  unfold provision_core. rewrite Ek, !bind_gets.
  destruct (get_idempotency _ (pl_store p)) as [row|] eqn:E.
  { intros [= <- <-]. rewrite E. unfold ret. by rewrite dset_dset. }
  intros (r0 & q0 & _ & (r1 & q1 & _ & ([] & q2 & Hp & ([] & q3 & Hi & ([] & q4 & Ha & [= <- <-])%bind_ok)%bind_ok)%bind_ok)%bind_ok)%bind_ok.
  assert (Hs : pl_store q3 = pl_store q2).
  { destruct req; [|by injection Hi as <-]. pose proof (invalidate_store cache now
      (or_default ("tnt_" +:+ pd_tenant d) (pr_tenant_id b)) q2) as Hv. by rewrite Hi in Hv. }
  apply in_store_snd in Hp, Ha. rewrite Ha, Hs, Hp, remembered. simpl. unfold ret. by rewrite dset_dset.
Qed.

(** ** All or nothing *)

Lemma preflight_cases sa s :
  preflight sa s = (Ok tt, s) \/ exists msg, preflight sa s = (Raise (http 409 msg), s).
Proof.
  unfold preflight. destruct sa as [sa|]; [|by left]. rewrite bind_gets.
  destruct (get_user_by_username _ _); [by right; eexists|].
  destruct (sa_email sa) as [e|]; [|by left]. destruct (str_true e); [|by left].
  rewrite bind_gets. destruct (get_user_by_email _ _); [by right; eexists|by left].
Qed.
Lemma create_tenant_cases now tid name plan policy s :
  (exists msg, on_conflict (create_tenant now tid name plan policy) (http 409) s = (Raise (http 409 msg), s)) \/
  (get_tenant tid s = None /\
   on_conflict (create_tenant now tid name plan policy) (http 409) s =
     (Ok (mkTenant tid name "active" plan policy now None None),
      set_quotas (dset tid (mkTenantQuota tid now DEFAULT_QUOTA) (quotas s))
        (set_tenants (dset tid (mkTenant tid name "active" plan policy now None None) (tenants s)) s))).
Proof.
  unfold on_conflict, catch, create_tenant. rewrite bind_gets. unfold get_tenant, dmem.
  destruct (dget tid (tenants s)) eqn:E; [left; by eexists|].
  destruct (decide (policy ∉ JOIN_POLICIES)); [left; by eexists|by right].
Qed.
Lemma emit_run now rnd ty tid pl s :
  exists evs n, emit_event now rnd ty tid pl s = (Ok tt, set_events evs (set_event_seq n s)).
Proof. unfold emit_event, catch, append_event. simpl. by eexists _, _. Qed.

Record admin_in (d : ProvisionDraws) (tid : string) (sa : SeedAdminSpec) (s : Store) : Prop := mkAdminIn {
  ai_user : exists u, get_user ("usr_" +:+ pd_user d) s = Some u /\ u_username u = sa_username sa /\
    u_email u = sa_email sa /\ u_email_verified u = sa_email_verified sa /\
    u_must_change_password u = bool_decide (sa_password sa = None);
  ai_role : get_member_role tid ("usr_" +:+ pd_user d) s = Some "tenant_admin"
}.
(** What a completed request leaves in the store. *)
Record provisioned (now : Z) (d : ProvisionDraws) (tid : string) (b : ProvisionRequest) (s0 s : Store)
    : Prop := mkProvisioned {
  pv_new : get_tenant tid s0 = None;
  pv_tenant : get_tenant tid s = Some (mkTenant tid (pr_display_name b) "active" (pr_plan b)
                (or_default "invite" (pr_join_policy b)) now None None);
  pv_quota : get_quota tid s = Some (mkTenantQuota tid now
               (_effective_quota (get_plan_template (pr_plan b) s0) (pr_quotas b)));
  pv_admin : forall sa, pr_seed_admin b = Some sa -> admin_in d tid sa s;
  pv_key : forall ks, pr_api_key b = Some ks -> exists k,
    get_api_key_by_hash (sha256 ("fmu_" +:+ pd_raw d)) s = Some k /\ k_tenant_id k = tid /\
    k_scopes k = ks_scopes ks
}.
Lemma provisioned_idem now d tid b s0 s v :
  provisioned now d tid b s0 s -> provisioned now d tid b s0 (set_idempotency v s).
Proof.
  intros [Hn Ht Hq Ha Hk]. split; [exact Hn|exact Ht|exact Hq| |exact Hk].
  intros sa Hsa. destruct (Ha sa Hsa) as [Hu Hm]. split; [exact Hu|exact Hm].
Qed.
Lemma merge_all q0 q : merge_quota q0 (all_fields q) = q.
Proof. by destruct q. Qed.

Lemma put_quota_run now tid f q s :
  dget tid (quotas s) = Some q ->
  put_quota now tid f s =
    (Ok (Some (mkTenantQuota (tq_tenant_id q) now (merge_quota (tq_quota q) f))),
     set_quotas (dset tid (mkTenantQuota (tq_tenant_id q) now (merge_quota (tq_quota q) f)) (quotas s)) s).
Proof. intros Hq. unfold put_quota. rewrite bind_gets, Hq. done. Qed.

Lemma admin_run now d tid sa ab s :
  dget ("usr_" +:+ pd_user d) (users s) = None ->
  exists a us ms, provision_admin now d tid sa ab s = (Ok a, set_members ms (set_users us s)) /\
    forall x, sa = Some x -> forall s', users s' = us -> members s' = ms -> admin_in d tid x s'.
Proof.
  intros Hu. destruct sa as [x|]; simpl.
  2: { exists None, (users s), (members s). split; [by destruct s|done]. }
  unfold provision_admin, create_user, add_member, bind, gets, dmem. rewrite Hu.
  destruct (hash_password _ _) as [[h salt] algo] eqn:Eh.
  unfold modify, ret. simpl. eexists _, _, _. split; [reflexivity|].
  intros ? [= <-] s' Es Em. split; unfold get_user, get_member_role; rewrite ?Es, ?Em, dget_dset_eq; [|done].
  eexists. split; [done|]. simpl. split_and!; [done..|]. by destruct (sa_password x).
Qed.
Lemma key_run now d tid aid ks s :
  exists k aks idx, provision_key now d tid aid ks s = (Ok k, set_key_hash_index idx (set_api_keys aks s)) /\
    forall x, ks = Some x -> forall s', api_keys s' = aks -> key_hash_index s' = idx -> exists k',
      get_api_key_by_hash (sha256 ("fmu_" +:+ pd_raw d)) s' = Some k' /\ k_tenant_id k' = tid /\
      k_scopes k' = ks_scopes x.
Proof.
  destruct ks as [x|].
  2: { exists None, (api_keys s), (key_hash_index s). split; [by destruct s|done]. }
  unfold provision_key, create_api_key, bind, modify, ret. simpl. eexists _, _, _. split; [reflexivity|].
  intros ? [= <-] s' Ea Ei. unfold get_api_key_by_hash. rewrite Ei, dget_dset_eq, Ea, dget_dset_eq.
  by eexists.
Qed.

(** The rows, when the checks pass and the user id is new. *)
Lemma rows_run now d tid b ab s :
  dget ("usr_" +:+ pd_user d) (users s) = None ->
  (exists msg, provision_rows now d tid b ab s = (Raise (http 409 msg), s)) \/
  (exists r s', provision_rows now d tid b ab s = (Ok r, s') /\ provisioned now d tid b s s' /\
     idempotency s' = idempotency s).
Proof.
  intros Hu. unfold provision_rows. rewrite bind_gets.
  destruct (preflight_cases (pr_seed_admin b) s) as [E|[msg E]];
    [rewrite (bind_eq_ok _ _ _ _ _ E); clear E|left; eexists; by apply bind_eq_raise].
  destruct (create_tenant_cases now tid (pr_display_name b) (pr_plan b)
    (or_default "invite" (pr_join_policy b)) s) as [[msg E]|[Hn E]];
    [left; eexists; by apply bind_eq_raise|right].
  rewrite (bind_eq_ok _ _ _ _ _ E); clear E. set (t := mkTenant _ _ _ _ _ _ _ _).
  erewrite bind_eq_ok; [|apply put_quota_run, dget_dset_eq]. rewrite merge_all.
  set (q := mkTenantQuota _ _ _). set (s2 := set_quotas _ (set_quotas _ _)).
  destruct (admin_run now d tid (pr_seed_admin b) ab s2 Hu) as (a & us & ms & Ea & Ha).
  rewrite (bind_eq_ok _ _ _ _ _ Ea). set (s3 := set_members _ _).
  destruct (key_run now d tid (fst <$> a) (pr_api_key b) s3) as (k & aks & idx & Ek & Hk).
  rewrite (bind_eq_ok _ _ _ _ _ Ek). set (s4 := set_key_hash_index _ _).
  destruct (emit_run now (pd_event1 d) EVENT_TENANT_CREATED tid
    (JObj [("tenant_id", JStr tid); ("plan", JStr (pr_plan b)); ("display_name", JStr (pr_display_name b))]) s4)
    as (ev1 & n1 & E1). rewrite (bind_eq_ok _ _ _ _ _ E1). set (s5 := set_events _ _).
  assert (Hfin : forall evs n, provisioned now d tid b s (set_events evs (set_event_seq n s5))).
  { intros evs n. split; [done|apply dget_dset_eq|apply dget_dset_eq| |].
    - intros sa Hsa. by apply (Ha sa Hsa).
    - intros ks Hks. by apply (Hk ks Hks). }
  destruct k as [[k kj]|].
  - edestruct (emit_run now (pd_event2 d)) as (ev2 & n2 & E2). rewrite (bind_eq_ok _ _ _ _ _ E2).
    eexists _, _. split; [done|]. split; [apply Hfin|done].
  - eexists _, s5. split; [done|]. split; [|done]. specialize (Hfin (events s5) (event_seq s5)). by destruct s5.
Qed.

Lemma remember_run now key ep r p :
  exists v, match key with Some k => in_store (put_idempotency now k ep r) | None => ret tt end p =
    (Ok tt, mkPlane (set_idempotency v (pl_store p)) (pl_redis p)).
Proof.
  destruct key; [by eexists|]. exists (idempotency (pl_store p)). by destruct p as [[] ?].
Qed.
Lemma alias_run key f p :
  exists v, match key with Some k => in_store (aliased k f) | None => ret tt end p =
    (Ok tt, mkPlane (set_idempotency v (pl_store p)) (pl_redis p)).
Proof.
  destruct key; [by eexists|]. exists (idempotency (pl_store p)). by destruct p as [[] ?].
Qed.

(** [C14] Provisioning is all or nothing. A request with a new user id, no hook
    and no response stored under its idempotency key either is refused with 409 and leaves store and
    Redis as they were, or creates all of it: an active tenant that did not
    exist, the quota of the plan's template with the overrides, the first
    administrator with the role [tenant_admin], and an API key that resolves
    to the tenant. The answer then is a response unless Redis failed. *)
Theorem provision_all_or_nothing cache now d secret req b ep ik ab p :
  let tid := or_default ("tnt_" +:+ pd_tenant d) (pr_tenant_id b) in
  dget ("usr_" +:+ pd_user d) (users (pl_store p)) = None ->
  opt_true (pr_hook_url b) = false ->
  (forall k, idem_key_of ep ik = Some k -> get_idempotency k (pl_store p) = None) ->
  (exists msg, provision_core cache now d secret req b ep ik ab p = (Raise (http 409 msg), p)) \/
  (exists o p', provision_core cache now d secret req b ep ik ab p = (o, p') /\
     provisioned now d tid b (pl_store p) (pl_store p') /\ (cache = false -> exists r, o = Ok r)).
Proof.
  intros tid Hu Hh Hi. unfold provision_core. rewrite bind_gets.
  assert (match idem_key_of ep ik with Some k => get_idempotency k (pl_store p) | None => None end = None)
    as -> by (destruct (idem_key_of ep ik); auto). fold tid.
  destruct (rows_run now d tid b ab (pl_store p) Hu) as [[msg E]|(r & s' & E & Hp & _)].
  { left. exists msg. apply bind_eq_raise. rewrite (in_store_run _ _ _ _ E). by destruct p. }
  right. rewrite (bind_eq_ok _ _ _ _ _ (in_store_run _ _ _ _ E)).
  assert (Eh : provision_hook secret (pr_hook_url b) r s' = (Ok r, s'))
    by (unfold provision_hook; by rewrite Hh).
  rewrite (bind_eq_ok _ _ _ _ _ (in_store_run _ (mkPlane s' _) _ _ Eh)).
  destruct (remember_run now (idem_key_of ep ik) ep (JObj r) (mkPlane s' (pl_redis p))) as (v & Ev).
  rewrite (bind_eq_ok _ _ _ _ _ Ev). set (p1 := mkPlane _ _).
  assert (Hp1 : provisioned now d tid b (pl_store p) (pl_store p1)) by (by apply provisioned_idem).
  set (inv := if req then _ else _).
  assert (Hinv : pl_store (inv p1).2 = pl_store p1 /\ (cache = false -> (inv p1).1 = Ok tt)).
  { subst inv. destruct req; [|done]. split; [apply invalidate_store|]. by intros ->. }
  destruct (inv p1) as [[[]|e] p2] eqn:E2; destruct Hinv as [Es2 Hok]; simpl in Es2, Hok.
  2: { eexists _, p2. split; [by apply bind_eq_raise|]. rewrite Es2. split; [done|]. intros Hc.
       by specialize (Hok Hc). }
  rewrite (bind_eq_ok _ _ _ _ _ E2).
  destruct (alias_run (idem_key_of ep ik) (dset "idempotent_replay" (JBool false)) p2) as (w & Ew).
  rewrite (bind_eq_ok _ _ _ _ _ Ew). eexists _, _. split; [reflexivity|]. rewrite Es2.
  split; [by apply provisioned_idem|by eexists].
Qed.

(** ** The hook *)

Lemma rows_conflict now d tid b ab s t :
  get_tenant tid s = Some t -> exists msg, provision_rows now d tid b ab s = (Raise (http 409 msg), s).
Proof.
  intros Ht. unfold provision_rows. rewrite bind_gets.
  destruct (preflight_cases (pr_seed_admin b) s) as [E|[msg E]];
    [rewrite (bind_eq_ok _ _ _ _ _ E); clear E|eexists; by apply bind_eq_raise].
  destruct (create_tenant_cases now tid (pr_display_name b) (pr_plan b)
    (or_default "invite" (pr_join_policy b)) s) as [[msg E]|[Hn E]]; [|congruence].
  eexists. by apply bind_eq_raise.
Qed.

(** A request with a hook never completes. When it is not refused with
    409, it creates the tenant, its administrator and its key and then raises
    [AttributeError] before the response is stored under the idempotency key;
    every retry of the same request is refused with 409. *)
Theorem provision_hook_fails cache now d secret req b ep ik ab p tid :
  pr_tenant_id b = Some tid -> str_true tid = true -> opt_true (pr_hook_url b) = true ->
  dget ("usr_" +:+ pd_user d) (users (pl_store p)) = None ->
  (forall k, idem_key_of ep ik = Some k -> get_idempotency k (pl_store p) = None) ->
  (exists msg, provision_core cache now d secret req b ep ik ab p = (Raise (http 409 msg), p)) \/
  (exists e p', provision_core cache now d secret req b ep ik ab p = (Raise (AttributeError e), p') /\
     provisioned now d tid b (pl_store p) (pl_store p') /\
     forall now' d', exists msg,
       provision_core cache now' d' secret req b ep ik ab p' = (Raise (http 409 msg), p')).
Proof.
  intros Ht Hs Hh Hu Hi.
  assert (Hnone : forall p', idempotency (pl_store p') = idempotency (pl_store p) ->
    match idem_key_of ep ik with Some k => get_idempotency k (pl_store p') | None => None end = None).
  { intros p' E. destruct (idem_key_of ep ik); [|done]. unfold get_idempotency in *. rewrite E. auto. }
  assert (Htid : forall d', or_default ("tnt_" +:+ pd_tenant d') (pr_tenant_id b) = tid).
  { intros d'. rewrite Ht. simpl. by rewrite Hs. }
  unfold provision_core at 1 2. rewrite bind_gets, Hnone, Htid by done.
  destruct (rows_run now d tid b ab (pl_store p) Hu) as [[msg E]|(r & s' & E & Hp & Eid)].
  { left. exists msg. apply bind_eq_raise. rewrite (in_store_run _ _ _ _ E). by destruct p. }
  right. rewrite (bind_eq_ok _ _ _ _ _ (in_store_run _ _ _ _ E)).
  eexists _, (mkPlane s' (pl_redis p)). split_and!; [|done|].
  - apply bind_eq_raise. unfold provision_hook, in_store. rewrite Hh. done.
  - intros now' d'. unfold provision_core. rewrite bind_gets, Hnone, Htid by done.
    destruct (rows_conflict now' d' tid b ab s' _ (pv_tenant _ _ _ _ _ _ Hp)) as [msg Em].
    exists msg. apply bind_eq_raise. by rewrite (in_store_run _ (mkPlane s' _) _ _ Em).
Qed.
End provision_props.

(** * What public signup guarantees (routes/registration.py) *)

(** A row under a new key is found when no earlier row qualifies. *)
Lemma dfind_new {V} (P : V -> bool) k v (d : list (string * V)) :
  dget k d = None -> dfind P d = None -> P v = true -> dfind P (dset k v d) = Some (k, v).
Proof.
  intros Hk Hf Hv. induction d as [|[k' w] d IH]; simpl in *; [by rewrite Hv|].
  destruct (decide (k = k')) as [->|Hn]; [done|]. simpl.
  destruct (P w); [done|]. by apply IH.
Qed.

(** The first hit stays the first when an entry is written that is a hit iff it was. *)
Lemma dfind_dset {V} (P : V -> bool) (d : list (string * V)) k v k0 u0 :
  dict_wf d -> dfind P d = Some (k0, u0) -> (k = k0 -> P v = true) ->
  (forall v', k <> k0 -> dget k d = Some v' -> P v = P v') ->
  dfind P (dset k v d) = Some (k0, if decide (k = k0) then v else u0).
Proof.
  intros Hwf Hf Heq Hne. induction d as [|[k1 v1] d IH]; [done|]. simpl in *.
  apply NoDup_cons in Hwf as [Hk1 Hwf]. destruct (P v1) eqn:P1.
  - injection Hf as -> ->. destruct (decide (k = k0)) as [->|]; simpl; [by rewrite Heq|by rewrite P1].
  - destruct (decide (k = k1)) as [->|Hk]; simpl.
    + assert (k1 <> k0) as Hk0.
      { intros ->. apply Hk1, list_elem_of_fmap. exists (k0, u0). split; [done|]. by apply dfind_Some in Hf as [_ ?]. }
      rewrite (Hne v1), P1; [by rewrite decide_False|done|by case_decide].
    + rewrite P1. apply IH; [done|done|]. intros v' Hk' Hv'. apply Hne; [done|]. by case_decide.
Qed.

(** ** An account that waits for its confirmation *)

Section waiting.
Context `{HashLib, Argon2Lib}.

(** The operation confirms the address of the account. *)
Definition confirms (uid : string) (op : store_op) (s : Store) : bool :=
  match op with
  | OpVerifyEmailToken now h =>
      match (verify_email_token now h s).1 with Ok (Some u) => bool_decide (u = uid) | _ => false end
  | _ => false
  end.
Fixpoint unconfirmed (uid : string) (ops : list store_op) (s : Store) : bool :=
  match ops with
  | [] => true
  | op :: ops => negb (confirms uid op s) && unconfirmed uid ops (exec op s)
  end.
(** The operation neither redeems nor replaces the token with this digest. *)
Definition leaves_token (uid h : string) (op : store_op) : bool :=
  match op with
  | OpSetEmailVerifyToken k h' _ => bool_decide (k <> uid /\ h' <> h)
  | OpVerifyEmailToken _ h' => bool_decide (h' <> h)
  | _ => true
  end.

Definition unverified (uid name : string) (d : list (string * User)) : Prop :=
  exists u, dfind (fun u => bool_decide (u_username u = name)) d = Some (uid, u) /\
    u_user_id u = uid /\ u_email_verified u = false.
Definition armed (uid h : string) (x : Z) (d : list (string * User)) : Prop :=
  (exists u, dget uid d = Some u /\ u_user_id u = uid /\ u_email_verify_token_hash u = Some h /\
     u_email_verify_expires u = Some x) /\
  forall k u, dget k d = Some u -> u_email_verify_token_hash u = Some h -> k = uid.

Lemma step_unverified uid name op s :
  store_wf s -> unverified uid name (users s) -> confirms uid op s = false -> unverified uid name (users (exec op s)).
Proof.
  intros Hwf (u & Hu & Hid & Hv) Hc. pose proof (wf_users _ Hwf) as Hd.
  pose proof (dfind_dget _ _ _ _ Hd Hu) as [Hg Hn].
  assert (forall k v, (k = uid -> u_username v = name /\ u_user_id v = uid /\ u_email_verified v = false) ->
    (forall v', dget k (users s) = Some v' -> u_username v = u_username v') ->
    unverified uid name (dset k v (users s))) as Hput.
  { intros k v Hk Hk'. eexists. split.
    - apply dfind_dset; [done|exact Hu| |].
      + intros E. apply bool_decide_eq_true. by apply Hk.
      + intros v' _ Hv'. by rewrite (Hk' v').
    - destruct (decide (k = uid)) as [E|]; [by apply Hk|done]. }
  apply bool_decide_eq_true in Hn.
  destruct (exec_users op s Hwf) as [|k w Hk _|k w w' Hk []|k h x w -> Hk|now h k w -> Hk He].
  - by exists u.
  - apply Hput; [intros ->; congruence|intros v' E; congruence].
  - apply Hput; [intros ->; simplify_eq; repeat split; congruence|intros v' E; congruence].
  - apply Hput; [intros ->; by simplify_eq|intros v' E; by simplify_eq].
  - pose proof (dfind_dget _ _ _ _ Hd Hk) as [Hk' _]. apply Hput; [|intros v' E; by simplify_eq].
    intros ->. exfalso. unfold confirms, verify_email_token in Hc. rewrite bind_gets in Hc.
    unfold has_verify_hash in Hk. rewrite Hk, He in Hc. simpl in Hc. simplify_eq.
    by rewrite bool_decide_eq_true_2 in Hc.
Qed.
Lemma ops_unverified uid name ops s :
  store_wf s -> unverified uid name (users s) -> unconfirmed uid ops s = true ->
  unverified uid name (users (exec_all ops s)).
Proof.
  revert s. induction ops as [|op ops IH]; intros s Hwf Hu Hc; [done|]. simpl in Hc.
  apply andb_true_iff in Hc as [Hc%negb_true_iff Hcs].
  apply IH; [by apply exec_wf|by apply step_unverified|done].
Qed.

Lemma step_armed uid h x op s :
  store_wf s -> armed uid h x (users s) -> leaves_token uid h op = true -> armed uid h x (users (exec op s)).
Proof.
  intros Hwf [(u & Hu & Hid & Hh & Hx) Hf] Hl.
  assert (forall k v, (k = uid -> u_user_id v = uid /\ u_email_verify_token_hash v = Some h /\
      u_email_verify_expires v = Some x) ->
    (k <> uid -> u_email_verify_token_hash v <> Some h) -> armed uid h x (dset k v (users s))) as Hput.
  { intros k v Hk Hk'. split.
    - destruct (decide (uid = k)) as [<-|]; [exists v; rewrite dget_dset_eq; split; [done|by apply Hk]|].
      exists u. by rewrite dget_dset_ne.
    - intros k' u' [[-> ->]|[_ E]]%dget_dset_inv Hh'; [|by eapply Hf].
      destruct (decide (k = uid)) as [|Hn]; [done|]. by destruct (Hk' Hn). }
  destruct (exec_users op s Hwf) as [|k w Hk Hn|k w w' Hk []|k h' x' w -> Hk|now h' k w -> Hk He]; simpl in Hl.
  - split; [by exists u|done].
  - apply Hput; [intros ->; congruence|congruence].
  - apply Hput; [intros ->; simplify_eq; repeat split; congruence|]. intros Hne E.
    apply Hne. eapply Hf; [exact Hk|congruence].
  - apply bool_decide_eq_true in Hl as [Hk' Hh']. apply Hput; [done|]. simpl. congruence.
  - apply bool_decide_eq_true in Hl. pose proof (dfind_dget _ _ _ _ (wf_users _ Hwf) Hk) as [Hk' Hw].
    apply bool_decide_eq_true in Hw. apply Hput; [intros ->; congruence|done].
Qed.
Lemma ops_armed uid h x ops s :
  store_wf s -> armed uid h x (users s) -> forallb (leaves_token uid h) ops = true ->
  armed uid h x (users (exec_all ops s)).
Proof.
  revert s. induction ops as [|op ops IH]; intros s Hwf Hu Hc; [done|]. simpl in Hc.
  apply andb_true_iff in Hc as [Hc Hcs]. apply IH; [by apply exec_wf|by apply step_armed|done].
Qed.

(** Redeeming the token of an armed account. *)
Lemma armed_redeem uid h x now s :
  store_wf s -> armed uid h x (users s) -> now <= x -> exists u,
    verify_email_token now h s = (Ok (Some uid),
      set_users (dset uid (set_u_email_verify_expires None (set_u_email_verify_token_hash None
                             (set_u_email_verified true u))) (users s)) s).
Proof.
  intros Hwf [(u & Hu & Hid & Hh & Hx) Hf] Hnow. exists u. unfold verify_email_token. rewrite bind_gets.
  change (fun u0 => bool_decide (u_email_verify_token_hash u0 = Some h)) with (has_verify_hash h).
  destruct (dfind (has_verify_hash h) (users s)) as [[k w]|] eqn:Ed.
  - pose proof (dfind_dget _ _ _ _ (wf_users _ Hwf) Ed) as [Hk Hw%bool_decide_eq_true].
    pose proof (Hf k w Hk Hw) as ->. rewrite Hu in Hk. simplify_eq. unfold token_expired. rewrite Hx.
    by rewrite bool_decide_eq_false_2 by lia.
  - exfalso. rewrite dfind_None in Ed. specialize (Ed uid u (dget_elem_of _ _ _ Hu)).
    by apply bool_decide_eq_false in Ed.
Qed.
End waiting.

Section signup.
Context `{HashLib, Argon2Lib, JwtLib, AeadLib, RsaLib, TotpLib} `{RedisLib}.
Variables (cfg : AuthConfig) (sg : SignupSettings) (smtp : Smtp).

Lemma safe_register_body ring now d body : safe (register_body cfg ring sg smtp now d body).
Proof.
  unfold register_body, on_conflict, ensure_default_tenant, _issue_verify_token, signup_audit.
  solve_safe; auto using safe_login.
Qed.

Lemma signup_audit_run now action uid det s :
  exists a n t, signup_audit now action uid det s =
    (Ok tt, set_audit_tail_hash t (set_audit a (set_seq_audit n s))).
Proof. unfold signup_audit, catch, bind. rewrite append_audit_run. simpl. by eexists _, _, _. Qed.

Lemma signup_audit_frame now action uid det s s' :
  signup_audit now action uid det s = (Ok tt, s') ->
  users s' = users s /\ members s' = members s.
Proof. destruct (signup_audit_run now action uid det s) as (? & ? & ? & ->). by intros [= <-]. Qed.

Lemma ensure_frame now tid s a s' :
  ensure_default_tenant now tid s = (a, s') -> users s' = users s /\ members s' = members s.
Proof.
  unfold ensure_default_tenant. rewrite bind_gets. destruct (get_tenant_status tid s); [by intros [= _ <-]|].
  rewrite bind_gets. unfold create_tenant, put_quota, bind, gets, modify, ret, raise.
  destruct (dmem tid (tenants s)); [by intros [= _ <-]|]. simpl.
  destruct (get_plan_template "free" s); simpl; [|by intros [= _ <-]].
  rewrite dget_dset_eq. by intros [= _ <-].
Qed.

(** Arming a token touches one user row. *)
Lemma issue_run now token uid email username s s' :
  _issue_verify_token sg smtp now token uid email username s = (Ok tt, s') ->
  exists u, dget uid (users s) = Some u /\
    s' = set_users (dset uid (set_u_email_verify_expires (Some (now + sec (ml_email_verify_ttl (sg_mail sg))))
           (set_u_email_verify_token_hash (Some (hash_token token)) u)) (users s)) s.
Proof.
  unfold _issue_verify_token, set_email_verify_token. intros (ok & s1 & Hset & Hmail)%bind_ok.
  rewrite bind_gets in Hset. destruct (dget uid (users s)) as [u|]; [|by injection Hset as <- <-].
  cbv [put_user bind modify ret] in Hset. injection Hset as <- <-. exists u. split; [done|].
  simpl in Hmail. unfold catch, bind, lift in Hmail.
  destruct (send_verification_email _ _ _ _ _) as [|e]; [by injection Hmail as <-|].
  destruct e; try done; by injection Hmail as <-.
Qed.

(** The state a personal signup leaves when email verification is on. *)
Record pending (now : Z) (d : SignupDraws) (body : RegisterRequest) (s s' : Store) (u : User) : Prop :=
  mkPending {
    pn_free : get_user_by_username (rg_username body) s = None;
    pn_users : users s' = dset ("usr_" +:+ sd_user d) u (users s);
    pn_id : u_user_id u = "usr_" +:+ sd_user d;
    pn_name : u_username u = rg_username body;
    pn_unverified : u_email_verified u = false;
    pn_token : u_email_verify_token_hash u = Some (hash_token (sd_token d));
    pn_expires : u_email_verify_expires u = Some (now + sec (ml_email_verify_ttl (sg_mail sg)));
    pn_role : get_member_role (sg_default_tenant sg) ("usr_" +:+ sd_user d) s' = Some "member"
  }.

Lemma register_pending ring now d body s r s' :
  sg_email_verification_required sg = true ->
  register_body cfg ring sg smtp now d body s = (Ok r, s') ->
  r = mkRegistered ("usr_" +:+ sd_user d) (rg_username body) (sg_default_tenant sg) false None /\
  exists u, pending now d body s s' u.
Proof.
  intros Hreq. unfold register_body. rewrite Hreq.
  destruct (true && negb _); [done|]. rewrite bind_gets.
  destruct (get_user_by_username (rg_username body) s) as [|] eqn:Hname; [done|]. rewrite bind_gets.
  destruct (match clean_email (rg_email body) with Some e => get_user_by_email e s | None => None end); [done|].
  intros (u & s1 & Hc & (x & s2 & Hen & (m & s3 & Hm & Hrest)%bind_ok)%bind_ok)%bind_ok.
  unfold on_conflict, catch, create_user, bind, gets in Hc. destruct (dmem _ (users s)); [done|].
  destruct (hash_password _ _) as [[h salt] algo]. injection Hc as <- <-.
  apply ensure_frame in Hen as [Eu2 Em2]. unfold add_member in Hm. rewrite bind_gets in Hm. simpl in Hm.
  injection Hm as _ <-. apply bind_ok in Hrest as (o & s4 & Ht & Hrest).
  apply bind_ok in Ht as ([] & s5 & Ht & [= <- <-]).
  apply issue_run in Ht as (u' & Hu' & ->). simpl in Hu', Eu2, Em2. rewrite Eu2, dget_dset_eq in Hu'.
  injection Hu' as <-. apply bind_ok in Hrest as ([] & s6 & Ha & [= <- <-]).
  apply signup_audit_frame in Ha as (Eu & Em). simpl in Eu, Em. split; [done|]. eexists. split.
  - done.
  - by rewrite Eu, Eu2, dset_dset.
  - done.
  - done.
  - done.
  - done.
  - done.
  - unfold get_member_role. by rewrite Em, Em2, dget_dset_eq.
Qed.

(** Signing in to an unverified account raises and changes nothing. *)
Lemma unverified_login ring now ld req s u :
  ac_email_verification_required cfg = true ->
  get_user_by_username (lr_username req) s = Some u -> u_email_verified u = false ->
  exists e, login cfg ring now ld req false s = (Raise e, s).
Proof.
  intros Hc Hu Hv. unfold login. rewrite bind_gets. destruct (tenant_denied _); [by eexists|].
  rewrite bind_gets, Hu. destruct (is_locked now u); [by eexists|].
  destruct (user_denied _); [by eexists|]. rewrite Hc, Hv. by eexists.
Qed.

(** [C15] A personal signup stays locked until its address is confirmed. With
    email verification on, a registration that answers has issued no token and
    has made the account a plain member of the default tenant. Whatever happens
    to the store afterwards, as long as no verification confirms the account,
    every sign-in at the login endpoint with that name, with any password,
    tenant and second factor, raises and changes nothing. And as long as the
    mailed token is neither redeemed nor replaced (a resend replaces it),
    redeeming it within its lifetime verifies exactly this account. A sign-in
    through an identity provider never asks for the confirmation and is not
    meant. *)
Theorem register_gated ring now d body s r s' ops :
  sg_email_verification_required sg = true -> ac_email_verification_required cfg = true ->
  reachable s -> dget ("usr_" +:+ sd_user d) (users s) = None ->
  register_body cfg ring sg smtp now d body s = (Ok r, s') ->
  let s1 := exec_all ops s' in
  ro_tokens r = None /\
  get_member_role (sg_default_tenant sg) (ro_user_id r) s' = Some "member" /\
  (unconfirmed (ro_user_id r) ops s' = true -> forall ring' now' ld pw tid mfa, exists e,
     login cfg ring' now' ld (mkLoginRequest (rg_username body) pw tid mfa) false s1 = (Raise e, s1)) /\
  (forallb (leaves_token (ro_user_id r) (hash_token (sd_token d))) ops = true ->
   (forall k u, dget k (users s) = Some u -> u_email_verify_token_hash u <> Some (hash_token (sd_token d))) ->
   forall now', now' <= now + sec (ml_email_verify_ttl (sg_mail sg)) ->
    exists s2 u, verify_email now' (sd_token d) s1 = (Ok (ro_user_id r), s2) /\
      dget (ro_user_id r) (users s2) = Some u /\ u_email_verified u = true /\
      forall k, k <> ro_user_id r -> dget k (users s2) = dget k (users s1)).
Proof.
  intros Hreq Hcfg Hs Hnew Hrun s1.
  assert (store_wf s') as Hwf.
  { eapply reach_wf. assert (s' = (register_body cfg ring sg smtp now d body s).2) as -> by by rewrite Hrun.
    apply safe_reachable; [apply safe_register_body|done]. }
  apply register_pending in Hrun as [-> [u [Hfree Hus Hid Hname Hun Htok Hexp Hrole]]];
    [simpl|done].
  split_and!; [done|done| |].
  - intros Hc ring' now' ld pw tid mfa.
    destruct (ops_unverified ("usr_" +:+ sd_user d) (rg_username body) ops s') as (u1 & Hu1 & _ & Hv1); [done| |done|].
    { exists u. split_and!; [|done..]. rewrite Hus. unfold get_user_by_username in Hfree. apply fmap_None in Hfree.
      apply dfind_new; [done|done|]. by apply bool_decide_eq_true. }
    eapply unverified_login; [done| |exact Hv1]. simpl. unfold get_user_by_username, s1. by rewrite Hu1.
  - intros Hl Hfresh now' Hnow.
    destruct (armed_redeem ("usr_" +:+ sd_user d) (hash_token (sd_token d))
      (now + sec (ml_email_verify_ttl (sg_mail sg))) now' s1) as [u1 Hr]; [|apply ops_armed; [done| |done]|done|].
    { clear -Hwf. subst s1. revert s' Hwf. induction ops; intros; simpl; [done|]. by apply IHops, exec_wf. }
    { rewrite Hus. split; [exists u; by rewrite dget_dset_eq|].
      intros k v [[-> ->]|[_ Hk]]%dget_dset_inv Hh; [done|]. by destruct (Hfresh _ _ Hk). }
    unfold verify_email. rewrite (bind_eq_ok _ _ _ _ _ Hr).
    match type of Hr with _ = (_, ?s2) =>
      destruct (signup_audit_run now' "auth.email_verified" (Some ("usr_" +:+ sd_user d)) (JObj []) s2)
        as (a & n & t & Ea) end.
    erewrite bind_eq_ok by exact Ea. eexists _, _. split; [done|]. simpl.
    split; [apply dget_dset_eq|]. split; [done|]. intros k Hk. by rewrite dget_dset_ne.
Qed.

(** The resend endpoint answers according to the account: [resent] is true
    exactly when the name belongs to an unverified account with an address
    and registration is on. *)
Theorem resend_reveals now token username s b s' :
  resend_body sg smtp now token username s = (Ok b, s') ->
  b = true <-> sg_registration_enabled sg = true /\ exists u,
    get_user_by_username username s = Some u /\ u_email_verified u = false /\ opt_true (u_email u) = true.
Proof.
  unfold resend_body. rewrite bind_gets. destruct (get_user_by_username username s) as [u|] eqn:E.
  2: { intros [= <- _]. split; [done|]. by intros (_ & u & [=] & _). }
  destruct (negb _ && _ && _) eqn:Ec.
  - intros ([] & s1 & _ & [= <- _])%bind_ok. destruct (u_email_verified u) eqn:Ev; [done|].
    apply andb_true_iff in Ec as [Ec Eg]. simpl in Ec. split; [|done]. intros _. eauto 6.
  - intros [= <- _]. split; [done|]. intros (Eg & u' & [= <-] & Ev & Em). by rewrite Eg, Ev, Em in Ec.
Qed.
End signup.
