(* ===== verification/Oidc.v ===== *)
(** * Sign-in through an identity provider (routes/oidc.py)

    The login redirect and the callback. The provider and [PyJWT]'s check of
    its id tokens are parameters ([IdpNet]); the process keeps a table of login
    states, used when there is no Redis, and a cache of discovery documents.
    A login state and a discovery document are dicts of JSON values. *)
From S2P Require Import Prelude PyText StoreState Prims AuditLog Tenants Rbac Users Keys Tokens Ledger.
From S2P Require Import Crypto Jwt Jwks Auth Deps MemberRoutes Redis Cache DataPlane Email.
From S2P Require Import AuditRoutes Provision.

(** HTTP exchanges answer a status and a body, which may fail to parse, or
    raise; [id_token_decode jwks_uri token client_id issuer] fetches the keys
    and decodes. *)
Class IdpNet := {
  http_get : string -> list (string * string) -> res (Z * res json);
  http_post : string -> list (string * string) -> res (Z * res json);
  id_token_decode : json -> json -> string -> option json -> res json
}.

Definition _STATES_MAX : Z := 1024.
Definition _STATES_TTL : Z := 600.
Definition oidc_username_char (c : ascii) : bool :=
  is_upper c || is_lower c || is_digit c || bool_decide (c ∈ chars "._@-").
(** [^[A-Za-z0-9._@\-]{1,128}$] *)
Definition oidc_username_re (s : string) : bool :=
  re_ident oidc_username_char oidc_username_char 127 s.

(** ** Texts *)

(** [urllib.parse.urlencode]: [quote_plus] on both sides. *)
Definition unreserved (c : ascii) : bool :=
  is_upper c || is_lower c || is_digit c || bool_decide (c ∈ chars "_.-~").
Definition upper_hex (n : N) : ascii := ascii_of_N (if (n <? 10)%N then n + 48 else n + 55)%N.
Definition quote_plus (s : string) : string :=
  of_chars (chars s ≫= (fun c =>
    if unreserved c then [c] else if decide (c = " "%char) then ["+"%char]
    else ["%"%char; upper_hex (chr c / 16); upper_hex (chr c mod 16)])).
Definition urlencode (params : list (string * string)) : string :=
  join "&" ((fun kv => quote_plus kv.1 +:+ "=" +:+ quote_plus kv.2) <$> params).
(** The bytes of a hex digest, and their base64url without padding. *)
Fixpoint unhex (l : list ascii) : list ascii :=
  match l with
  | a :: b :: l' => ascii_of_N (hex_value a * 16 + hex_value b)%N :: unhex l'
  | _ => []
  end.
Definition _pkce_challenge `{HashLib} (verifier : string) : string :=
  of_chars (urlsafe_char <$> filter (fun c => c <> pad) (b64encode_chars (unhex (chars (sha256 verifier))))).

(** A JSON value where a text is needed. *)
Definition as_text (j : option json) : res string :=
  match j with
  | Some (JStr s) => Ok s
  | Some _ => Raise (TypeError "expected str")
  | None => Raise (KeyError "missing")
  end.
(** [j.get(k)] on a value that should be a dict. *)
Definition dict_get (k : string) (j : json) : res (option json) :=
  match j with JObj kvs => Ok (dget k kvs) | _ => Raise (AttributeError "'get'") end.
(** [a or b] *)
Definition jor (a b : option json) : option json :=
  match a with Some j => if jtrue j then a else b | None => b end.
(** [v.get("ts", 0)], in microseconds. *)
Definition ts_of (info : json) : Z :=
  match jget "ts" info with Some (JFloat us) => us | Some (JInt n) => sec n | _ => 0 end.

(** [(raw or "").strip()] on a JSON value. *)
Definition _sanitize_username (raw : option json) : res string :=
  match raw with
  | Some (JStr s) =>
      let cleaned := strip s in
      if oidc_username_re cleaned then Ok cleaned
      else Raise (http 400 "invalid username from idp")
  | None => Raise (http 400 "invalid username from idp")
  | Some j => if jtrue j then Raise (AttributeError "'strip'")
              else Raise (http 400 "invalid username from idp")
  end.
Definition _redirect_uri (base_url idp_id : string) : string :=
  rstrip_slash base_url +:+ "/api/v1/auth/oidc/" +:+ idp_id +:+ "/callback".

(** What the callback draws: user id, password, salt, the token ids. *)
Record CallbackDraws : Type := mkCallbackDraws {
  cb_user : string; cb_password : string; cb_salt : string; cb_login : LoginDraws
}.
Record OidcTokens : Type := mkOidcTokens {
  ot_access_token : string; ot_refresh_token : string; ot_expires_in : Z
}.

Section oidc.
Context `{HashLib, Argon2Lib, JwtLib, AeadLib} `{RedisLib} `{IdpNet}.
Variables (cfg : AuthConfig) (ring : KeyRing) (cache : bool) (now : Z) (base_url : string).

(** The store and Redis, [_STATES] and [_DISCOVERY]. *)
Record OidcApp : Type := mkOidcApp {
  oa_plane : Plane;
  oa_states : list (string * json);
  oa_discovery : list (string * Provision.dict)
}.
Definition oidc_plane {A} (m : M Plane A) : M OidcApp A :=
  fun st => let '(r, p) := m (oa_plane st) in (r, mkOidcApp p (oa_states st) (oa_discovery st)).
Definition oidc_store {A} (m : M Store A) : M OidcApp A := oidc_plane (in_store m).
Definition oidc_read {A} (f : Store -> A) : M OidcApp A := gets (fun st => f (pl_store (oa_plane st))).
Definition set_states (f : list (string * json) -> list (string * json)) : M OidcApp unit :=
  modify (fun st => mkOidcApp (oa_plane st) (f (oa_states st)) (oa_discovery st)).

(** ** Login states *)

Definition stale (info : json) : bool := bool_decide (now - ts_of info > sec _STATES_TTL).
Definition _purge_states : M OidcApp unit :=
  set_states (filter (fun kv => stale kv.2 = false)).
(** Insert at the end, then drop the oldest beyond the cap. *)
Definition push_state (state : string) (info : json) (d : list (string * json)) : list (string * json) :=
  let d' := dpop state d ++ [(state, info)] in
  drop (Z.to_nat (zlen d' - _STATES_MAX)) d'.
Definition remember_state (state : string) (info : json) : M OidcApp unit :=
  _purge_states ;;; set_states (push_state state info).
Definition _put_state (state : string) (info : Provision.dict) : M OidcApp unit :=
  let info := JObj (dset "ts" (JFloat now) info) in
  if cache then
    catch (oidc_plane (in_redis (put_oidc_state now state info _STATES_TTL)))
          (fun _ => remember_state state info)
  else remember_state state info.

Definition pop_local (state : string) : M OidcApp (option json) :=
  _purge_states ;;;
  let! st := gets (fun st => dget state (oa_states st)) in
  set_states (dpop state) ;;;
  match st with
  | None => ret None
  | Some info => if stale info then ret None else ret (Some info)
  end.
Definition _pop_state (state : string) : M OidcApp (option json) :=
  if cache then catch (oidc_plane (in_redis (pop_oidc_state now state))) (fun _ => pop_local state)
  else pop_local state.

(** ** Discovery *)

Definition fallback_doc (issuer : string) : Provision.dict :=
  [("issuer", JStr issuer); ("authorization_endpoint", JStr (issuer +:+ "/authorize"));
   ("token_endpoint", JStr (issuer +:+ "/token")); ("userinfo_endpoint", JStr (issuer +:+ "/userinfo"));
   ("jwks_uri", JStr (issuer +:+ "/jwks"))].
(** [{k: doc.get(k, fallback[k])}] *)
Definition resolved_doc (issuer : string) (doc : Provision.dict) : Provision.dict :=
  (fun kv => (kv.1, default kv.2 (dget kv.1 doc))) <$> fallback_doc issuer.
Definition cache_doc (issuer : string) (disc : Provision.dict) : M OidcApp Provision.dict :=
  modify (fun st => mkOidcApp (oa_plane st) (oa_states st) (dset issuer disc (oa_discovery st))) ;;;
  ret disc.
Definition _discovery (issuer_url : option string) : M OidcApp Provision.dict :=
  match issuer_url with
  | None => raise (AttributeError "'rstrip'")
  | Some url =>
      let issuer := rstrip_slash url in
      let! cached := gets (fun st => dget issuer (oa_discovery st)) in
      match cached with
      | Some disc => ret disc
      | None =>
          match http_get (issuer +:+ "/.well-known/openid-configuration") [] with
          | Ok (200, Ok (JObj doc)) => cache_doc issuer (resolved_doc issuer doc)
          | Ok (200, Ok _) => raise (AttributeError "'get'")
          | _ => cache_doc issuer (fallback_doc issuer)
          end
      end
  end.

(** ** The redirect *)

(** The location; [state], [code_verifier] and [nonce] are drawn. *)
Definition oidc_login (state code_verifier nonce idp_id : string) : M OidcApp string :=
  let! idp := oidc_read (get_idp idp_id) in
  match idp with
  | None => raise (http 404 "idp not found")
  | Some idp =>
      if negb (opt_true (ip_issuer_url idp)) then raise (http 400 "idp missing issuer_url")
      else
        _put_state state [("idp_id", JStr idp_id); ("tenant_id", JStr (ip_tenant_id idp));
                          ("code_verifier", JStr code_verifier); ("nonce", JStr nonce)] ;;;
        let! disc := _discovery (ip_issuer_url idp) in
        let! endpoint := lift (as_text (dget "authorization_endpoint" disc)) in
        ret (endpoint +:+ "?" +:+ urlencode
          [("response_type", "code"); ("client_id", or_default "" (ip_client_id idp));
           ("redirect_uri", _redirect_uri base_url idp_id);
           ("scope", or_default "openid profile email" (ip_scopes idp));
           ("state", state); ("nonce", nonce);
           ("code_challenge", _pkce_challenge code_verifier); ("code_challenge_method", "S256")])
  end.

(** ** The callback *)

Definition _verify_id_token (id_token : json) (disc : Provision.dict) (client_id : string)
    (nonce : option json) : res json :=
  match dget "jwks_uri" disc with
  | Some uri =>
      if negb (jtrue uri) then Raise (http 502 "idp jwks_uri missing")
      else match id_token_decode uri id_token client_id (dget "issuer" disc) with
           | Raise _ => Raise (http 401 "id_token verification failed")
           | Ok claims =>
               match nonce with
               | Some JNull | None => Ok claims
               | Some n => match jget "nonce" claims, n with
                           | Some (JStr a), JStr b => if decide (a = b) then Ok claims
                                                      else Raise (http 401 "id_token nonce mismatch")
                           | _, _ => Raise (http 401 "id_token nonce mismatch")
                           end
               end
           end
  | None => Raise (http 502 "idp jwks_uri missing")
  end.

(** The state the callback accepts. *)
Definition accept_state (idp_id : string) (state : option string) : M OidcApp json :=
  if negb (opt_true state) then raise (http 400 "missing state (csrf protection required)")
  else
    let! st := _pop_state (default "" state) in
    match st with
    | None => raise (http 400 "unknown or expired state")
    | Some st =>
        if stale st then raise (http 400 "state expired")
        else if negb (jis idp_id (jget "idp_id" st)) then raise (http 400 "state mismatch")
        else ret st
    end.

(** The form of the token request. *)
Definition token_form (idp_id : string) (idp : Idp) (code : string) (client_secret : option string)
    (code_verifier : option json) : list (string * string) :=
  [("grant_type", "authorization_code"); ("code", code);
   ("redirect_uri", _redirect_uri base_url idp_id); ("client_id", or_default "" (ip_client_id idp))] ++
  match client_secret with Some s => if str_true s then [("client_secret", s)] else [] | None => [] end ++
  match code_verifier with Some (JStr v) => if str_true v then [("code_verifier", v)] else [] | _ => [] end.

(** The exchanges with the provider: who signs in. *)
Definition fetch_userinfo (idp_id : string) (idp : Idp) (code : string) (st : json) (client_secret : option string)
    (disc : Provision.dict) : res json :=
  match as_text (dget "token_endpoint" disc) with
  | Ok token_url =>
      match http_post token_url (token_form idp_id idp code client_secret (jget "code_verifier" st)) with
      | Raise e | Ok (200, Raise e) => Raise e
      | Ok (200, Ok (JObj tjson)) =>
          match jor (dget "access_token" tjson) None with
          | None => Raise (http 502 "idp returned no access_token")
          | Some access_token =>
              match jor (dget "id_token" tjson) None with
              | Some id_token => _verify_id_token id_token disc (or_default "" (ip_client_id idp)) (jget "nonce" st)
              | None =>
                  match as_text (dget "userinfo_endpoint" disc) with
                  | Raise e => Raise e
                  | Ok userinfo_url =>
                      match http_get userinfo_url [("Authorization", "Bearer " +:+ py_str access_token)] with
                      | Raise e => Raise e
                      | Ok (200, body) => body
                      | Ok _ => Raise (http 502 "idp userinfo failed")
                      end
                  end
              end
          end
      | Ok (200, Ok _) => Raise (AttributeError "'get'")
      | Ok _ => Raise (http 502 "idp token exchange failed")
      end
  | Raise e => Raise e
  end.
(** The user name of a userinfo document. *)
Definition userinfo_name (userinfo : json) : res string :=
  match userinfo with
  | JObj kvs =>
      match jor (jor (dget "sub" kvs) (dget "email" kvs)) None with
      | None => Raise (http 502 "idp userinfo missing sub/email")
      | Some sub => _sanitize_username (jor (dget "email" kvs) (Some sub))
      end
  | _ => Raise (AttributeError "'get'")
  end.

(** The account of a name; a new one joins the tenant. *)
Definition resolve_account (d : CallbackDraws) (idp : Idp) (username : string) : M Store string :=
  let! user := gets (get_user_by_username username) in
  match user with
  | Some u => ret (u_user_id u)
  | None =>
      if negb (ip_auto_provision idp)
      then raise (http 403 "auto_provision disabled; user not found")
      else
        let uid := "usr_" +:+ cb_user d in
        create_user now (cb_salt d) uid username (cb_password d) None false true None ;;;
        add_member now (ip_tenant_id idp) uid "member" None ;;;
        ret uid
  end.
Definition oidc_tokens (d : LoginDraws) (idp_id : string) (idp : Idp) (uid role : string) : M Store OidcTokens :=
  let tenant_id := ip_tenant_id idp in
  let '(access, jti) := issue cfg ring now (ld_jti d) uid tenant_id role (ac_ttl cfg) "access" in
  let '(refresh, rjti) := issue cfg ring now (ld_rjti d) uid tenant_id role (ac_refresh_ttl cfg) "refresh" in
  insert_refresh_token now rjti (ld_family d) tenant_id uid (now + sec (ac_refresh_ttl cfg)) None "active" ;;;
  record_issued_jti now jti tenant_id uid ;;;
  append_audit now tenant_id (Some uid) (Some jti) (Some role) "auth.oidc_login" (Some "session")
    (JObj [("idp", JStr idp_id)]) ;;;
  ret (mkOidcTokens access refresh (ac_ttl cfg)).
(** From the name to the tokens. *)
Definition oidc_sign_in (d : CallbackDraws) (idp_id : string) (idp : Idp) (username : string) : M Store OidcTokens :=
  let! uid := resolve_account d idp username in
  let! role := gets (get_member_role (ip_tenant_id idp) uid) in
  match role with
  | None => raise (http 403 "user not a member of this tenant; add membership first")
  | Some role => oidc_tokens (cb_login d) idp_id idp uid role
  end.

Definition oidc_callback (d : CallbackDraws) (idp_id code : string) (state : option string)
    : M OidcApp OidcTokens :=
  let! idp := oidc_read (get_idp idp_id) in
  match idp with
  | None => raise (http 404 "idp not found")
  | Some idp =>
      let! st := accept_state idp_id state in
      let! client_secret :=
        lift (match ip_client_secret_enc idp with
              | Some blob => if str_true blob
                             then match decrypt_secret blob (ac_kek cfg) (ac_kek_prev cfg) with
                                  | Ok s => Ok (Some s) | Raise e => Raise e end
                             else Ok None
              | None => Ok None
              end) in
      let! disc := _discovery (ip_issuer_url idp) in
      let! userinfo := lift (fetch_userinfo idp_id idp code st client_secret disc) in
      let! username := lift (userinfo_name userinfo) in
      oidc_store (oidc_sign_in d idp_id idp username)
  end.
End oidc.
