(* ===== verification/OidcProps.v ===== *)
(** * What sign-in through an identity provider guarantees (routes/oidc.py) *)
From S2P Require Import Prelude PyText StoreState Prims AuditLog Tenants Rbac Users Keys Tokens Ledger.
From S2P Require Import Crypto Jwt Jwks Auth Deps MemberRoutes Redis Cache CacheProps DataPlane PlaneProps.
From S2P Require Import AuditRoutes Provision ProvisionProps Oidc.

Section oidc_props.
Context `{HashLib, Argon2Lib, JwtLib, AeadLib} `{RedisLib} `{IdpNet}.
Variables (cfg : AuthConfig) (ring : KeyRing) (cache : bool).

Definition st_store (st : OidcApp) : Store := pl_store (oa_plane st).

(** ** The store, up to the sign-in *)

Lemma oidc_redis_store {A} (m : M redis A) st : st_store (oidc_plane (in_redis m) st).2 = st_store st.
Proof. unfold oidc_plane, in_redis, st_store. by destruct (m _). Qed.
Lemma pop_local_store now state st : st_store (pop_local now state st).2 = st_store st.
Proof.
  unfold pop_local, bind, gets, set_states, _purge_states, modify, ret. simpl.
  destruct (dget _ _) as [info|]; [by destruct (stale now info)|done].
Qed.
Lemma pop_state_store now state st : st_store (_pop_state cache now state st).2 = st_store st.
Proof.
  unfold _pop_state. destruct cache; [|apply pop_local_store]. unfold catch.
  pose proof (oidc_redis_store (pop_oidc_state now state) st) as E.
  destruct (oidc_plane _ st) as [[a|e] st1]; simpl in *; [done|]. by rewrite pop_local_store.
Qed.
Lemma accept_ok now idp_id state st info st' :
  accept_state cache now idp_id state st = (Ok info, st') ->
  st_store st' = st_store st /\ jis idp_id (jget "idp_id" info) = true /\ stale now info = false /\
  exists x, state = Some x /\ _pop_state cache now x st = (Ok (Some info), st').
Proof.
  unfold accept_state. destruct state as [x|]; simpl; [|done]. destruct (str_true x); simpl; [|done].
  intros (o & st1 & Hpop & Hrest)%bind_ok. pose proof (pop_state_store now x st) as E. rewrite Hpop in E.
  destruct o as [i|]; [|done]. destruct (stale now i) eqn:Es; [done|].
  destruct (jis idp_id _) eqn:Ei; [|done]. injection Hrest as <- <-. simpl in E. eauto 6.
Qed.
Lemma discovery_store issuer st : st_store (_discovery issuer st).2 = st_store st.
Proof.
  unfold _discovery. destruct issuer; [|done]. rewrite bind_gets. destruct (dget _ _); [done|].
  destruct (http_get _ _) as [[z [[]|]]|]; try done; repeat (destruct z as [|z|]; try done).
Qed.

Lemma discovery_rest issuer st :
  oa_plane (_discovery issuer st).2 = oa_plane st /\ oa_states (_discovery issuer st).2 = oa_states st.
Proof.
  unfold _discovery. destruct issuer; [|done]. rewrite bind_gets. destruct (dget _ _); [done|].
  destruct (http_get _ _) as [[z [[]|]]|]; try done; repeat (destruct z as [|z|]; try done).
Qed.

(** ** The sign-in *)

Lemma tokens_ok now d idp_id idp uid role s tk s' :
  oidc_tokens cfg ring now d idp_id idp uid role s = (Ok tk, s') ->
  users s' = users s /\ members s' = members s /\
  ot_access_token tk = (issue cfg ring now (ld_jti d) uid (ip_tenant_id idp) role (ac_ttl cfg) "access").1 /\
  ot_refresh_token tk =
    (issue cfg ring now (ld_rjti d) uid (ip_tenant_id idp) role (ac_refresh_ttl cfg) "refresh").1.
Proof.
  unfold oidc_tokens. destruct (issue _ _ _ (ld_jti d) _ _ _ _ _) as [access jti] eqn:Ea.
  destruct (issue _ _ _ (ld_rjti d) _ _ _ _ _) as [refresh rjti] eqn:Er.
  unfold insert_refresh_token, record_issued_jti, sweep_issued_jtis, bind, modify, ret.
  rewrite append_audit_run. simpl. by intros [= <- <-].
Qed.

(** Who is signed in: an existing account, with nothing changed, or a new one
    that becomes a plain member. *)
Definition signed_in (idp : Idp) (username uid : string) (s s' : Store) : Prop :=
  (exists u, get_user_by_username username s = Some u /\ u_user_id u = uid /\
     users s' = users s /\ members s' = members s) \/
  (get_user_by_username username s = None /\ ip_auto_provision idp = true /\
     dget uid (users s) = None /\ get_member_role (ip_tenant_id idp) uid s' = Some "member" /\
     forall k, k <> (ip_tenant_id idp, uid) -> dget k (members s') = dget k (members s)).

Lemma sign_in_ok now d idp_id idp username s tk s' :
  oidc_sign_in cfg ring now d idp_id idp username s = (Ok tk, s') ->
  exists uid role, get_member_role (ip_tenant_id idp) uid s' = Some role /\
    ot_access_token tk =
      (issue cfg ring now (ld_jti (cb_login d)) uid (ip_tenant_id idp) role (ac_ttl cfg) "access").1 /\
    signed_in idp username uid s s'.
Proof.
  unfold oidc_sign_in. intros (uid & s1 & Hacc & Hrest)%bind_ok. rewrite bind_gets in Hrest.
  destruct (get_member_role (ip_tenant_id idp) uid s1) as [role|] eqn:Hr; [|done].
  apply tokens_ok in Hrest as (Eu & Em & Ea & _). exists uid, role.
  assert (Hr' : get_member_role (ip_tenant_id idp) uid s' = Some role).
  { unfold get_member_role in *. by rewrite Em. }
  split; [done|]. split; [done|].
  unfold resolve_account in Hacc. rewrite bind_gets in Hacc.
  destruct (get_user_by_username username s) as [u|] eqn:Hu.
  { injection Hacc as <- <-. left. eauto. }
  destruct (ip_auto_provision idp) eqn:Hauto; [|done]. simpl in Hacc.
  unfold create_user, add_member, bind, gets, dmem in Hacc.
  destruct (dget ("usr_" +:+ cb_user d) (users s)) eqn:Hn; [done|].
  destruct (hash_password _ _) as [[h salt] algo]. unfold modify, ret in Hacc. simpl in Hacc.
  injection Hacc as <- <-. right. split_and!; try done.
  - unfold get_member_role. rewrite Em. simpl. by rewrite dget_dset_eq.
  - intros k Hk. rewrite Em. simpl. by rewrite dget_dset_ne.
Qed.

(** ** One callback per login state *)

(** The state is spent: not in the process table, not in Redis. *)
Definition spent `{!RedisLaws} (now : Z) (x : string) (st : OidcApp) : Prop :=
  if cache then r_view now (pl_redis (oa_plane st)) (_oidc_state_key x) = None
  else dget x (oa_states st) = None.

Lemma pop_oidc_spent `{!RedisLaws} now x r info r' :
  pop_oidc_state now x r = (Ok (Some info), r') -> r_view now r' (_oidc_state_key x) = None.
Proof.
  unfold pop_oidc_state, catch, bind, trip, POP_OIDC_STATE_LUA, gets, modify, ret. unfold bind.
  destruct (r_conn now r); [|done]. destruct (r_get now _ r) as [v|]; [|done].
  destruct (match v with RText "" => true | _ => false end).
  all: intros Hrun; assert (r' = r_del now (_oidc_state_key x) r) as ->
    by (destruct v as [[|? ?]| | |]; simpl in Hrun; congruence).
  all: by rewrite del_law, decide_True.
Qed.
Lemma pop_oidc_none `{!RedisLaws} now x r :
  r_view now r (_oidc_state_key x) = None -> exists r', pop_oidc_state now x r = (Ok None, r').
Proof.
  intros Hv. unfold pop_oidc_state, catch, bind, trip, POP_OIDC_STATE_LUA, gets, modify, ret. unfold bind.
  destruct (r_conn now r); [|by eexists]. rewrite get_law; rewrite Hv; [by eexists|done].
Qed.

Lemma pop_state_spent `{!RedisLaws} now x st info st' :
  _pop_state cache now x st = (Ok (Some info), st') -> spent now x st'.
Proof.
  unfold _pop_state, spent. destruct cache.
  - unfold catch, oidc_plane, in_redis.
    destruct (pop_oidc_state now x (pl_redis (oa_plane st))) as [[o|e] r'] eqn:E; simpl.
    + intros [= -> <-]. simpl. by eapply pop_oidc_spent.
    + exfalso. unfold pop_oidc_state, catch in E. apply bind_raise in E as [E|(v & r1 & E & Ev)].
      * by destruct (trip _ _ _) as [[]].
      * destruct v as [[[|? ?]| | |]|]; done.
  - unfold pop_local, bind, gets, set_states, _purge_states, modify, ret. simpl.
    destruct (dget _ _) as [i|]; [|done]. destruct (stale now i); [done|]. intros [= <- <-]. simpl.
    apply dget_dpop_eq.
Qed.
(** The process, or Redis when there is one, holds [info] for the state [x]. *)
Definition held (now : Z) (x : string) (info : json) (st : OidcApp) : Prop :=
  if cache then exists d, r_get now (_oidc_state_key x) (pl_redis (oa_plane st)) = Some d /\ loads d = Some info
  else dget x (oa_states st) = Some info.
Lemma dget_filter_inv {V} (P : string * V -> Prop) `{forall x, Decision (P x)} k v d :
  dict_wf d -> dget k (filter P d) = Some v -> dget k d = Some v.
Proof.
  intros Hwf Hf. apply dget_elem_of, list_elem_of_filter in Hf as [_ Hf]. by apply elem_of_dget.
Qed.
Lemma pop_state_held now x st info st' :
  dict_wf (oa_states st) -> _pop_state cache now x st = (Ok (Some info), st') -> held now x info st.
Proof.
  intros Hwf. unfold _pop_state, held. destruct cache.
  - unfold catch, oidc_plane, in_redis.
    destruct (pop_oidc_state now x (pl_redis (oa_plane st))) as [[o|e] r'] eqn:E; simpl.
    + intros [= -> _]. revert E.
      unfold pop_oidc_state, catch, bind, trip, POP_OIDC_STATE_LUA, gets, modify, ret. unfold bind.
      destruct (r_conn now _); [|done]. destruct (r_get now _ _) as [v|] eqn:Ev; [|done].
      intros Hrun. exists v. split; [done|]. destruct v as [[|? ?]| | |]; simpl in *; congruence.
    + exfalso. unfold pop_oidc_state, catch in E. apply bind_raise in E as [E|(v & r1 & E & Ev)].
      * by destruct (trip _ _ _) as [[]].
      * destruct v as [[[|? ?]| | |]|]; done.
  - unfold pop_local, bind, gets, set_states, _purge_states, modify, ret. simpl.
    destruct (dget _ _) as [i|] eqn:Ei; [|done]. destruct (stale now i); [done|]. intros [= -> _].
    by eapply dget_filter_inv.
Qed.

(** [C16] Tokens from an identity provider are for members of its tenant. A
    callback that answers presented a login state that the service held, for this
    very provider and for at most 600 seconds, and has spent it; the name is the
    one the provider vouched for in the exchange made with the verifier and the
    nonce of that login; the access token carries the role the account has in the
    provider's tenant: an account that existed keeps its memberships as they
    were, and only a name with no account, when the provider may create accounts,
    gets one, as a plain member of that tenant and no other. *)
Theorem oidc_members_only `{!RedisLaws} now base d idp_id code state st tk st' :
  dict_wf (oa_states st) ->
  oidc_callback cfg ring cache now base d idp_id code state st = (Ok tk, st') ->
  exists idp x info secret disc userinfo username uid role,
    get_idp idp_id (st_store st) = Some idp /\
    state = Some x /\ held now x info st /\ spent now x st' /\
    jis idp_id (jget "idp_id" info) = true /\ now - ts_of info <= sec _STATES_TTL /\
    (exists st1, (_discovery (ip_issuer_url idp) st1).1 = Ok disc) /\
    fetch_userinfo base idp_id idp code info secret disc = Ok userinfo /\
    userinfo_name userinfo = Ok username /\
    get_member_role (ip_tenant_id idp) uid (st_store st') = Some role /\
    ot_access_token tk =
      (issue cfg ring now (ld_jti (cb_login d)) uid (ip_tenant_id idp) role (ac_ttl cfg) "access").1 /\
    signed_in idp username uid (st_store st) (st_store st').
Proof.
  intros Hwf. unfold oidc_callback, oidc_read. rewrite bind_gets. fold (st_store st).
  destruct (get_idp idp_id (st_store st)) as [idp|] eqn:Hidp; [|done].
  intros (info & st1 & Hacc & (secret & st2 & Hsec & (disc & st3 & Hdisc & (ui & st4 & Hui & Hrest)%bind_ok)%bind_ok)%bind_ok)%bind_ok.
  apply accept_ok in Hacc as (E1 & Hid & Hst & x & -> & Hpop). injection Hsec as _ <-.
  pose proof (discovery_store (ip_issuer_url idp) st1) as E3.
  pose proof (discovery_rest (ip_issuer_url idp) st1) as [Ep Es]. rewrite Hdisc in E3, Ep, Es. simpl in E3, Ep, Es.
  injection Hui as Hui <-. apply bind_ok in Hrest as (username & st5 & Hname & Hrest).
  injection Hname as Hname <-.
  unfold oidc_store, oidc_plane, in_store in Hrest. fold (st_store st3) in Hrest.
  destruct (oidc_sign_in _ _ _ _ _ _ _ (st_store st3)) as [[tk'|] s'] eqn:Hsi; [|done].
  injection Hrest as <- <-. rewrite E3, E1 in Hsi.
  apply sign_in_ok in Hsi as (uid & role & Hr & Ha & Hs).
  exists idp, x, info, secret, disc, ui, username, uid, role. split_and!; try done.
  - by eapply pop_state_held.
  - apply pop_state_spent in Hpop. unfold spent in *. simpl. by rewrite Ep, Es.
  - unfold stale in Hst. apply bool_decide_eq_false in Hst. lia.
  - exists st1. by rewrite Hdisc.
Qed.

Lemma dget_filter_None {V} (P : string * V -> Prop) `{forall x, Decision (P x)} k d :
  dget k d = None -> dget k (filter P d) = None.
Proof.
  rewrite !dget_None. unfold dkeys. intros Hk ([k' v] & -> & [_ Hin]%list_elem_of_filter)%list_elem_of_fmap.
  apply Hk, list_elem_of_fmap. by eexists.
Qed.
Lemma accept_spent `{!RedisLaws} now now' idp_id x st :
  str_true x = true -> now <= now' -> spent now x st ->
  exists st', accept_state cache now' idp_id (Some x) st = (Raise (http 400 "unknown or expired state"), st').
Proof.
  intros Hx Hnow Hsp. unfold accept_state. simpl. rewrite Hx. simpl.
  assert (exists st', _pop_state cache now' x st = (Ok None, st')) as [st' E].
  2: { exists st'. by rewrite (bind_eq_ok _ _ _ _ _ E). }
  unfold _pop_state, spent in *. destruct cache.
  - unfold catch, oidc_plane, in_redis. destruct (pop_oidc_none now' x (pl_redis (oa_plane st))) as [r' ->];
      [by rewrite (view_later now), Hsp|by eexists].
  - unfold pop_local, bind, gets, set_states, _purge_states, modify, ret. simpl.
    rewrite (dget_filter_None _ x) by done. by eexists.
Qed.

(** A login state lets one callback in. After a callback that answered,
    every later callback that presents the same state, for any provider and
    with any code, is refused and leaves the store unchanged, whether the
    states are in Redis or in the process. *)
Theorem oidc_state_spent `{!RedisLaws} now base d idp_id code x st tk st' now' base' d' idp_id' code' :
  now <= now' ->
  oidc_callback cfg ring cache now base d idp_id code (Some x) st = (Ok tk, st') ->
  exists e st'',
    oidc_callback cfg ring cache now' base' d' idp_id' code' (Some x) st' = (Raise e, st'') /\
    (e = http 404 "idp not found" \/ e = http 400 "unknown or expired state") /\
    st_store st'' = st_store st'.
Proof.
  intros Hnow. unfold oidc_callback at 1. unfold oidc_read. rewrite bind_gets.
  destruct (get_idp idp_id _) as [idp|]; [|done].
  intros (info & st1 & Hacc & (secret & st2 & Hsec & (disc & st3 & Hdisc & (ui & st4 & Hui & Hrest)%bind_ok)%bind_ok)%bind_ok)%bind_ok.
  assert (Hx : str_true x = true).
  { unfold accept_state in Hacc. simpl in Hacc. by destruct (str_true x). }
  apply accept_ok in Hacc as (_ & _ & _ & y & [= <-] & Hpop). apply pop_state_spent in Hpop.
  injection Hsec as _ <-. injection Hui as _ <-. apply bind_ok in Hrest as (username & st5 & [= _ <-] & Hrest).
  assert (Hsp : spent now x st').
  { unfold spent in *. pose proof (discovery_rest (ip_issuer_url idp) st1) as [Ep Es].
    rewrite Hdisc in Ep, Es. simpl in Ep, Es. unfold oidc_store, oidc_plane, in_store in Hrest.
    destruct (oidc_sign_in _ _ _ _ _ _ _ _) as [a s']. injection Hrest as _ <-. simpl.
    by rewrite Ep, Es. }
  unfold oidc_callback, oidc_read. rewrite bind_gets.
  destruct (get_idp idp_id' _) as [idp'|]; [|by eauto 6].
  destruct (accept_spent now now' idp_id' x st' Hx Hnow Hsp) as [st'' E].
  eexists _, st''. split; [by apply bind_eq_raise|]. split; [by right|].
  revert E. unfold accept_state. simpl. rewrite Hx. simpl. intros [E|(o & st6 & E & Er)]%bind_raise.
  - pose proof (pop_state_store now' x st') as Ep. by rewrite E in Ep.
  - pose proof (pop_state_store now' x st') as Ep. rewrite E in Ep. simpl in Ep. rewrite <- Ep.
    destruct o as [i|]; [destruct (stale now' i); [|destruct (negb _)]|]; unfold raise, ret in Er; congruence.
Qed.

Lemma dget_snoc {V} k (v : V) (d : list (string * V)) : dget k d = None -> dget k (d ++ [(k, v)]) = Some v.
Proof.
  induction d as [|[k' w] d IH]; simpl; [by rewrite decide_True|]. case_decide; [done|]. apply IH.
Qed.
Lemma push_state_get x i d : dget x (push_state x i d) = Some i.
Proof.
  unfold push_state. set (l := dpop x d). rewrite drop_app_le.
  - apply dget_snoc, dget_None. intros Hin. assert (x ∈ dkeys l) as Hl.
    { unfold dkeys in *. apply list_elem_of_fmap in Hin as (kv & -> & Hin). apply list_elem_of_fmap.
      exists kv. split; [done|]. apply list_elem_of_lookup in Hin as [j Hj]. rewrite lookup_drop in Hj.
      by eapply list_elem_of_lookup_2. }
    revert Hl. apply dget_None, dget_dpop_eq.
  - unfold zlen, _STATES_MAX. rewrite length_app. simpl. lia.
Qed.

(** With Redis unreachable no provider sign-in completes: the redirect
    falls back to the process table and stores the state there, but the
    callback answers that the state is unknown without reading that table. *)
Theorem oidc_fallback_unread now now' x info idp_id st e1 :
  cache = true -> str_true x = true ->
  (forall t, r_conn t (pl_redis (oa_plane st)) = Raise e1) ->
  exists st' i, _put_state cache now x info st = (Ok tt, st') /\ dget x (oa_states st') = Some i /\
    accept_state cache now' idp_id (Some x) st' = (Raise (http 400 "unknown or expired state"), st').
Proof.
  intros -> Hx Hdown. unfold _put_state, catch, oidc_plane, in_redis, put_oidc_state, trip, bind. simpl.
  rewrite Hdown. destruct st as [[s r] states docs]. simpl in *.
  eexists _, _. split; [reflexivity|]. simpl. split; [apply push_state_get|].
  unfold accept_state. simpl. rewrite Hx. simpl.
  unfold _pop_state, catch, oidc_plane, in_redis, pop_oidc_state, catch, trip, bind. simpl.
  by rewrite Hdown.
Qed.
End oidc_props.
