(* ===== verification/Scim.v ===== *)
(** * SCIM provisioning (routes/scim.py)

    Users and groups of a tenant for a directory that holds the service token.
    Request bodies are JSON; a display name that is not a text is kept as the
    text Python prints for it. *)
From S2P Require Import Prelude PyText StoreState Prims AuditLog Tenants Rbac Users Tokens Ledger.
From S2P Require Import Crypto Jwt Jwks Auth Deps MemberRoutes DataPlane AuditRoutes.

(** ** The filter expression *)

(** [\w] on ASCII. *)
Definition word_char (c : ascii) : bool :=
  is_upper c || is_lower c || is_digit c || bool_decide (c = "_"%char).
(** The longest prefix with [p], and what follows. *)
Fixpoint span (p : ascii -> bool) (l : list ascii) : list ascii * list ascii :=
  match l with
  | c :: l' => if p c then let '(a, b) := span p l' in (c :: a, b) else ([], l)
  | [] => ([], [])
  end.
Definition not_quote (c : ascii) : bool := negb (bool_decide (c = quote)).
(** The match of the filter pattern: a word, blanks, [eq], blanks, an optional
    quote, and a value of characters that are no quotes. The blanks after [eq]
    are taken greedily; when no value follows them, the engine gives one blank
    back, which is then the value. *)
Definition match_filter (s : string) : option (string * string) :=
  let '(attr, l) := span word_char (chars s) in
  let '(sp1, l) := span is_space l in
  match attr, sp1, l with
  | _ :: _, _ :: _, "e"%char :: "q"%char :: l =>
      let '(sp2, l) := span is_space l in
      let value := match l with
                   | c :: l' => if decide (c = quote) then (span not_quote l').1 else (span not_quote l).1
                   | [] => []
                   end in
      match sp2, value with
      | [], _ => None
      | _, _ :: _ => Some (of_chars attr, of_chars value)
      | _ :: b :: _, [] => Some (of_chars attr, of_chars [default b (last sp2)])
      | _, _ => None
      end
  | _, _, _ => None
  end.

(** ** Resources *)

(** A resource as the dict it is; [str(r.get(attr, ""))]. *)
Definition resource : Type := list (string * json).
Definition str_attr (attr : string) (r : resource) : string := py_str (default (JStr "") (dget attr r)).
Definition unsupported : exn :=
  let q := of_chars [quote] in
  http 400 ("unsupported SCIM filter (only `attr eq " +:+ q +:+ "val" +:+ q +:+ "` is supported)").
Definition _apply_scim_filter (resources : list resource) (filter_expr : option string)
    : res (list resource) :=
  if negb (opt_true filter_expr) then Ok resources
  else match match_filter (strip (default "" filter_expr)) with
       | None => Raise unsupported
       | Some (attr, val) => Ok (filter (fun r => str_attr attr r = val) resources)
       end.
Definition _scim_user_view (u : User) (tenant_id : string) : resource :=
  [("id", JStr (u_user_id u)); ("userName", JStr (u_username u));
   ("displayName", JStr (or_default (u_username u) (u_display_name u)));
   ("active", JBool (bool_decide (u_status u = "active"))); ("tenant_id", JStr tenant_id)].
(** [resources[start_index - 1 : start_index - 1 + count]] for indexes from 1. *)
Definition scim_page (start_index count : Z) (l : list resource) : list resource :=
  take (Z.to_nat count) (drop (Z.to_nat (start_index - 1)) l).
Record ScimList : Type := mkScimList { sl_total : Z; sl_start : Z; sl_page : list resource }.

Definition _SCIM_GROUP_ROLES : list string := ["tenant_admin"; "operator"; "member"; "viewer"].
Definition member_ref (uid : string) : json :=
  JObj [("value", JStr uid); ("$ref", JStr ("/scim/v2/Users/" +:+ uid))].
Definition group_view (id tenant_id role : string) (uids : list string) : resource :=
  [("id", JStr id); ("displayName", JStr (tenant_id +:+ " " +:+ role)); ("members", JArr (member_ref <$> uids))].

(** ** PATCH *)

(** The two columns a PATCH writes, in the order they were first set. *)
Definition patch_fields : Type := list (string * string).
Definition scim_map (k : string) : option string :=
  dget k [("displayName", "display_name"); ("userName", "username"); ("active", "active")].
(** [value] is [None] when absent. A [path] that is a truthy non-text has no
    [strip]. *)
Definition _scim_patch_attrs (path : json) (value : json) : res (list (string * json)) :=
  match path with
  | JStr p =>
      if str_true p then
        let p := strip p in Ok [(default (lower p) (scim_map p), value)]
      else match value with
           | JObj kvs => Ok (foldl (fun d kv => dset (default (lower kv.1) (scim_map kv.1)) kv.2 d) [] kvs)
           | _ => Ok []
           end
  | _ => Raise (AttributeError "'strip'")
  end.
(** One attribute of one operation. *)
Definition patch_attr (op_type : string) (fields : patch_fields) (kv : string * json) : patch_fields :=
  match kv.1, kv.2 with
  | "display_name", JNull => fields
  | "display_name", val =>
      if decide (op_type = "replace" \/ op_type = "add") then dset "display_name" (py_str val) fields
      else fields
  | "active", val =>
      if decide (op_type = "remove") then dset "status" "disabled" fields
      else dset "status" (if jtrue val then "active" else "disabled") fields
  | _, _ => fields
  end.
Definition patch_op (fields : patch_fields) (op : json) : res patch_fields :=
  match op with
  | JObj kvs =>
      let op_type := strip (lower (py_str (default (JStr "") (dget "op" kvs)))) in
      if decide (op_type ∈ ["replace"; "add"; "remove"]) then
        let path := match dget "path" kvs with Some j => if jtrue j then j else JStr "" | None => JStr "" end in
        match _scim_patch_attrs path (default JNull (dget "value" kvs)) with
        | Ok attrs => Ok (foldl (patch_attr op_type) fields attrs)
        | Raise e => Raise e
        end
      else Ok fields
  | _ => Ok fields
  end.
Fixpoint patch_ops (fields : patch_fields) (ops : list json) : res patch_fields :=
  match ops with
  | [] => Ok fields
  | op :: ops' => match patch_op fields op with
                  | Ok fields' => patch_ops fields' ops'
                  | Raise e => Raise e
                  end
  end.
(** The flat body of older clients. *)
Definition flat_patch (body : list (string * json)) : patch_fields :=
  match dget "displayName" body with
  | Some JNull | None => []
  | Some v => [("display_name", py_str v)]
  end ++
  match dget "active" body with
  | Some v => [("status", if jtrue v then "active" else "disabled")]
  | None => []
  end.
Definition patch_of (body : list (string * json)) : res patch_fields :=
  match dget "Operations" body with
  | Some (JArr ops) => patch_ops [] ops
  | _ => Ok (flat_patch body)
  end.
Definition fields_of (f : patch_fields) : UserFields :=
  mkUserFields None None None None (dget "status" f) None None None None (dget "display_name" f) None.

(** ** Handlers *)
Section scim.
Context `{HashLib, Argon2Lib}.
Variables (service_token : string) (service_token_prev : option string) (now : Z) (auth : string).

Definition _require_tenant (tenant_id : string) : M Store unit :=
  let! tenant := gets (get_tenant tenant_id) in
  match tenant with
  | None => raise (http 404 "tenant not found")
  | Some t => if decide (t_status t <> "active") then raise (http 404 "tenant not found") else ret tt
  end.
Definition scim_guard (tenant_id : string) : M Store unit :=
  lift (require_service_token service_token service_token_prev auth) ;;; _require_tenant tenant_id.
Definition scim_audit (tenant_id user_id action : string) (det : json) : M Store unit :=
  append_audit now tenant_id (Some user_id) None None action (Some "user") det ;;; ret tt.

Definition member_views (tenant_id : string) (s : Store) : list resource :=
  omap (fun m => (fun u => _scim_user_view u tenant_id) <$> get_user (m_user_id m) s)
       (list_members tenant_id s).
Definition list_users (tenant_id : string) (start_index count : Z) (filter_ sort_by_ : option string)
    : M Store ScimList :=
  scim_guard tenant_id ;;;
  let! resources := gets (member_views tenant_id) in
  let! resources := lift (_apply_scim_filter resources filter_) in
  let resources := match sort_by_ with
                   | Some k => if str_true k
                               then sort_by (fun a b => String.leb (str_attr k a) (str_attr k b)) resources
                               else resources
                   | None => resources
                   end in
  ret (mkScimList (zlen resources) start_index (scim_page start_index count resources)).

(** [username] and [display] are the body's texts, [active] its flag. *)
Definition scim_create_user (rnd_user rnd_password salt tenant_id : string)
    (username displayName : option string) (active : option json) : M Store resource :=
  scim_guard tenant_id ;;;
  if negb (opt_true username) then raise (http 400 "userName required")
  else
    let username := default "" username in
    let! existing := gets (get_user_by_username username) in
    match existing with
    | Some _ => raise (http 409 "user already exists")
    | None =>
        let uid := "usr_" +:+ rnd_user in
        let display := or_default username displayName in
        let active := default (JBool true) active in
        create_user now salt uid username rnd_password None false true None ;;;
        (if str_true display then update_user uid (display_name_field display) ;;; ret tt else ret tt) ;;;
        (if negb (jtrue active) then update_user uid (status_field "disabled") ;;; ret tt else ret tt) ;;;
        add_member now tenant_id uid "member" None ;;;
        scim_audit tenant_id uid "scim.user.create" (JObj [("userName", JStr username)]) ;;;
        ret [("id", JStr uid); ("userName", JStr username); ("displayName", JStr display);
             ("active", active); ("tenant_id", JStr tenant_id)]
    end.

(** A user of the tenant. *)
Definition tenant_user (tenant_id user_id : string) : M Store User :=
  let! member := gets (get_member tenant_id user_id) in
  match member with
  | None => raise (http 404 "user not found in tenant")
  | Some _ =>
      let! user := gets (get_user user_id) in
      match user with None => raise (http 404 "user not found") | Some u => ret u end
  end.
Definition scim_get_user (tenant_id user_id : string) : M Store resource :=
  scim_guard tenant_id ;;;
  let! u := tenant_user tenant_id user_id in ret (_scim_user_view u tenant_id).

Definition patch_user (tenant_id user_id : string) (body : list (string * json)) : M Store resource :=
  scim_guard tenant_id ;;;
  let! user := tenant_user tenant_id user_id in
  let! fields := lift (patch_of body) in
  let! user := (match fields with
                | [] => ret (Some user)
                | _ => update_user user_id (fields_of fields)
                end) in
  scim_audit tenant_id user_id "scim.user.patch" (JObj [("fields", jlist (dkeys fields))]) ;;;
  match user with
  | Some u => ret (_scim_user_view u tenant_id)
  | None => raise (KeyError "user_id")
  end.

Definition delete_user (tenant_id user_id : string) : M Store string :=
  scim_guard tenant_id ;;;
  let! member := gets (get_member tenant_id user_id) in
  match member with
  | None => raise (http 404 "user not found in tenant")
  | Some _ =>
      remove_member tenant_id user_id ;;;
      update_user user_id (status_field "disabled") ;;;
      scim_audit tenant_id user_id "scim.user.delete" (JObj [("user_id", JStr user_id)]) ;;;
      ret user_id
  end.

Definition role_members (tenant_id role : string) (s : Store) : list string :=
  m_user_id <$> filter (fun m => m_role m = role) (list_members tenant_id s).
Definition list_groups (tenant_id : string) (start_index count : Z) (filter_ : option string)
    : M Store ScimList :=
  scim_guard tenant_id ;;;
  let! resources := gets (fun s =>
    (fun role => group_view (tenant_id +:+ ":" +:+ role) tenant_id role (role_members tenant_id role s)) <$>
    filter (fun role => role_members tenant_id role s <> []) _SCIM_GROUP_ROLES) in
  let! resources := lift (_apply_scim_filter resources filter_) in
  ret (mkScimList (zlen resources) start_index (scim_page start_index count resources)).
(** [group_id.split(":")[-1] if ":" in group_id else group_id] *)
Definition group_role (group_id : string) : string :=
  if contains ":" group_id then default "" (last (split ":" group_id)) else group_id.
Definition get_group (tenant_id group_id : string) : M Store resource :=
  scim_guard tenant_id ;;;
  gets (fun s => group_view group_id tenant_id (group_role group_id)
                   (role_members tenant_id (group_role group_id) s)).
End scim.
