(* ===== verification/ScimProps.v ===== *)
(** * What the SCIM handlers guarantee (routes/scim.py) *)
From S2P Require Import Prelude PyText StoreState Prims AuditLog Tenants Rbac Users Tokens Ledger.
From S2P Require Import Crypto Jwt Jwks Auth Deps MemberRoutes DataPlane AuditRoutes Scim.

(** Every outcome of a computation relates its two states by [F]. *)
Definition stays {S A} (F : S -> S -> Prop) (m : M S A) : Prop := forall s, F s (m s).2.
Section stays.
Context {S : Type} (F : S -> S -> Prop) `{!PreOrder F}.
Lemma stays_ret {A} (a : A) : stays F (ret a).
Proof. by intros s. Qed.
Lemma stays_raise {A} e : stays F (raise e : M S A).
Proof. by intros s. Qed.
Lemma stays_gets {A} (f : S -> A) : stays F (gets f).
Proof. by intros s. Qed.
Lemma stays_lift {A} (r : res A) : stays F (lift r : M S A).
Proof. by intros s. Qed.
Lemma stays_bind {A B} (m : M S A) (k : A -> M S B) :
  stays F m -> (forall a, stays F (k a)) -> stays F (bind m k).
Proof.
  intros Hm Hk s. unfold bind. specialize (Hm s). destruct (m s) as [[a|e] s1]; [|done].
  etrans; [exact Hm|apply Hk].
Qed.
End stays.
Create HintDb stays.
(** Through the binds and branches of a handler. *)
Ltac go_stays :=
  repeat first
    [ progress intros | solve [eauto with stays] | apply stays_bind; [apply _| |]
    | apply stays_ret; apply _ | apply stays_raise; apply _ | apply stays_gets; apply _
    | apply stays_lift; apply _
    | match goal with
      | |- stays _ (if ?b then _ else _) => destruct b
      | |- stays _ (match ?x with _ => _ end) => destruct x
      end ].

(** At most the user [uid] and memberships of [tid] differ. *)
Record touches (tid uid : string) (s s' : Store) : Prop := mkTouches {
  tc_users : forall k, k <> uid -> dget k (users s') = dget k (users s);
  tc_members : forall t k, t <> tid -> dget (t, k) (members s') = dget (t, k) (members s)
}.
#[export] Instance touches_preorder tid uid : PreOrder (touches tid uid).
Proof.
  split; [by split|]. intros s1 s2 s3 [U1 M1] [U2 M2]. split; intros; [by rewrite U2, U1|by rewrite M2, M1].
Qed.

Section scim_props.
Context `{HashLib, Argon2Lib}.
Variables (tok : string) (prev : option string) (now : Z) (auth : string).

Lemma touches_update tid uid f : stays (touches tid uid) (update_user uid f).
Proof.
  intros s. unfold update_user. rewrite bind_gets. destruct (dget uid (users s)); [|reflexivity].
  split; simpl; [|done]. intros k Hk. by rewrite dget_dset_ne.
Qed.
Lemma touches_create tid uid t salt name pw e b1 b2 dn :
  stays (touches tid uid) (create_user t salt uid name pw e b1 b2 dn).
Proof.
  intros s. unfold create_user. rewrite bind_gets. destruct (dmem uid (users s)); [reflexivity|].
  destruct (hash_password _ _) as [[h sl] al]. split; simpl; [|done]. intros k Hk. by rewrite dget_dset_ne.
Qed.
Lemma touches_add tid uid t u role by_ : stays (touches tid uid) (add_member t tid u role by_).
Proof.
  intros s. unfold add_member. rewrite bind_gets. destruct (negb _); [reflexivity|]. split; simpl; [done|].
  intros t' k Ht. rewrite dget_dset_ne; congruence.
Qed.
Lemma touches_remove tid uid u : stays (touches tid uid) (remove_member tid u).
Proof.
  intros s. unfold remove_member. rewrite bind_gets. split; simpl; [done|].
  intros t' k Ht. rewrite dget_dpop_ne; congruence.
Qed.
Lemma touches_audit tid uid t u act det : stays (touches tid uid) (scim_audit now t u act det).
Proof. intros s. unfold scim_audit, bind. rewrite append_audit_run. by split. Qed.
Lemma touches_guard tid uid t : stays (touches tid uid) (scim_guard tok prev auth t).
Proof. unfold scim_guard, _require_tenant. go_stays. Qed.
#[local] Hint Resolve touches_update touches_create touches_add touches_remove touches_audit touches_guard : stays.

Lemma create_touches u pw salt tid name dn act :
  stays (touches tid ("usr_" +:+ u)) (scim_create_user tok prev now auth u pw salt tid name dn act).
Proof. unfold scim_create_user. go_stays. Qed.
Lemma patch_touches tid uid body : stays (touches tid uid) (patch_user tok prev now auth tid uid body).
Proof. unfold patch_user, tenant_user. go_stays. Qed.
Lemma delete_touches tid uid : stays (touches tid uid) (delete_user tok prev now auth tid uid).
Proof. unfold delete_user. go_stays. Qed.

(** ** Isolation *)

(** A request of the SCIM surface. *)
Inductive scim_call : Type :=
  | ListUsers (start_index count : Z) (filter_ sort_by_ : option string)
  | CreateUser (rnd_user rnd_password salt : string) (username displayName : option string)
      (active : option json)
  | GetUser (user_id : string)
  | PatchUser (user_id : string) (body : list (string * json))
  | DeleteUser (user_id : string)
  | ListGroups (start_index count : Z) (filter_ : option string)
  | GetGroup (group_id : string).
Definition scim_do (tid : string) (c : scim_call) : M Store unit :=
  match c with
  | ListUsers i n f k => list_users tok prev auth tid i n f k ;;; ret tt
  | CreateUser u pw salt name dn act => scim_create_user tok prev now auth u pw salt tid name dn act ;;; ret tt
  | GetUser u => scim_get_user tok prev auth tid u ;;; ret tt
  | PatchUser u body => patch_user tok prev now auth tid u body ;;; ret tt
  | DeleteUser u => delete_user tok prev now auth tid u ;;; ret tt
  | ListGroups i n f => list_groups tok prev auth tid i n f ;;; ret tt
  | GetGroup g => get_group tok prev auth tid g ;;; ret tt
  end.

(** Handlers that start with the guard, on a tenant it refuses. *)
Lemma guard_refuses {A} tid (k : unit -> M Store A) s :
  (forall t, get_tenant tid s = Some t -> t_status t <> "active") ->
  exists e, bind (scim_guard tok prev auth tid) k s = (Raise e, s).
Proof.
  intros Ht. unfold scim_guard, _require_tenant, bind, lift, gets.
  destruct (require_service_token _ _ _); [|by eexists].
  destruct (get_tenant tid s) as [t|]; [|by eexists]. rewrite decide_True by auto. by eexists.
Qed.
Lemma guard_refuses_bind {A B} tid (k : unit -> M Store A) (k' : A -> M Store B) s :
  (forall t, get_tenant tid s = Some t -> t_status t <> "active") ->
  exists e, bind (bind (scim_guard tok prev auth tid) k) k' s = (Raise e, s).
Proof.
  intros Ht. destruct (guard_refuses tid k s Ht) as [e E]. exists e. by apply bind_eq_raise.
Qed.
Lemma reads_keep {A} tid uid (m : M Store A) :
  stays (touches tid uid) m -> stays (touches tid uid) (m ;;; ret tt).
Proof. intros Hm. go_stays. Qed.

(** The account a request may write. *)
Definition scim_target (c : scim_call) : option string :=
  match c with
  | CreateUser u _ _ _ _ _ => Some ("usr_" +:+ u)
  | PatchUser u _ | DeleteUser u => Some u
  | _ => None
  end.
Lemma scim_touches tid c : stays (touches tid (default "" (scim_target c))) (scim_do tid c).
Proof.
  destruct c; simpl; apply reads_keep;
    auto using create_touches, patch_touches, delete_touches;
    unfold list_users, scim_get_user, list_groups, get_group, tenant_user; go_stays.
Qed.
Lemma scim_reads_only tid c s : scim_target c = None -> (scim_do tid c s).2 = s.
Proof.
  intros Hc. assert (stays eq (scim_do tid c)) as Hs; [|symmetry; apply Hs].
  destruct c; try discriminate Hc; simpl;
    unfold list_users, scim_get_user, list_groups, get_group, tenant_user, scim_guard, _require_tenant; go_stays.
Qed.
(** An account that exists and is no member of the tenant is not written. *)
Lemma scim_outsider tid c s uid u :
  scim_target c = Some uid -> get_member tid uid s = None -> dget uid (users s) = Some u ->
  users (scim_do tid c s).2 = users s.
Proof.
  intros Hc Hm Hu. assert (Hg : forall A (k : unit -> M Store A),
    (forall s', users s' = users s -> members s' = members s -> users (k tt s').2 = users s) ->
    users (bind (scim_guard tok prev auth tid) k s).2 = users s).
  { intros A k Hk. unfold scim_guard, _require_tenant, bind, lift, gets.
    destruct (require_service_token _ _ _); [|done]. destruct (get_tenant tid s); [|done].
    destruct (decide _); [done|]. by apply Hk. }
  assert (Hb : forall A (m : M Store A), users (m s).2 = users s -> users ((m ;;; ret tt) s).2 = users s).
  { intros A m. unfold bind. by destruct (m s) as [[] ?]. }
  destruct c as [| u' pw salt name dn act| |u' body|u'| |]; simpl in Hc; try discriminate Hc;
    injection Hc as <-; simpl; apply Hb, Hg; intros s' Eu Em.
  - destruct (negb _); [done|]. rewrite bind_gets. destruct (get_user_by_username _ s'); [done|].
    unfold create_user. unfold bind at 1. unfold bind at 1. unfold gets, dmem. rewrite Eu, Hu. done.
  - unfold tenant_user, get_member in *. unfold bind, gets. by rewrite Em, Hm.
  - unfold get_member in *. rewrite bind_gets. by rewrite Em, Hm.
Qed.

(** [C26] A directory that provisions one tenant stays inside it. Whatever
    request it sends for tenant [tid]: when the tenant is unknown or not
    active, the request raises and changes nothing; no membership of another
    tenant changes; and no account that exists outside the tenant changes. *)
Theorem scim_isolated tid c s :
  ((forall t, get_tenant tid s = Some t -> t_status t <> "active") ->
     exists e, scim_do tid c s = (Raise e, s)) /\
  (forall tid' uid, tid' <> tid ->
     dget (tid', uid) (members (scim_do tid c s).2) = dget (tid', uid) (members s)) /\
  (forall uid u, get_member tid uid s = None -> dget uid (users s) = Some u ->
     dget uid (users (scim_do tid c s).2) = Some u).
Proof.
  split_and!.
  - intros Ht. destruct c; by apply guard_refuses_bind.
  - intros tid' uid Hne. by apply (scim_touches tid c s).
  - intros uid u Hm Hu. destruct (decide (scim_target c = Some uid)) as [Hc|Hc].
    + by rewrite (scim_outsider tid c s uid u).
    + destruct (scim_target c) as [x|] eqn:Ex.
      * pose proof (scim_touches tid c s) as [Hus _]. rewrite Ex in Hus. simpl in Hus. rewrite Hus; congruence.
      * rewrite (scim_reads_only tid c s Ex). done.
Qed.

(** Deleting a user over SCIM ends its access. When the handler answers,
    the user was a member of an active tenant and no longer is; every token of
    that user is refused from then on, in this and every other tenant, and
    every sign-in to the account raises and changes nothing. *)
Theorem scim_delete_bars cfg `{JwtLib, AeadLib, RsaLib, TotpLib} tid uid s r s' :
  delete_user tok prev now auth tid uid s = (Ok r, s') ->
  is_Some (get_member tid uid s) /\ get_member tid uid s' = None /\
  (forall now' claims, c_sub claims = uid ->
     exists e s'', authorize now' claims s' = (Raise e, s'')) /\
  (forall ring now' ld req skip u, get_user_by_username (lr_username req) s' = Some u ->
     u_user_id u = uid -> dget uid (users s') = Some u ->
     exists e, login cfg ring now' ld req skip s' = (Raise e, s')).
Proof.
  unfold delete_user. intros ([] & s0 & Hg & Hrun)%bind_ok.
  assert (Hs0 : s0 = s).
  { assert (stays eq (scim_guard tok prev auth tid)) as Hst by (unfold scim_guard, _require_tenant; go_stays).
    specialize (Hst s). by rewrite Hg in Hst. }
  subst s0. rewrite bind_gets in Hrun. destruct (get_member tid uid s) as [m|] eqn:Hm; [|done].
  apply bind_ok in Hrun as (b & s1 & Hrem & Hrun). unfold remove_member in Hrem. rewrite bind_gets in Hrem.
  injection Hrem as _ <-. apply bind_ok in Hrun as (o & s2 & Hupd & Hrun).
  apply bind_ok in Hrun as ([] & s3 & Haud & [= _ <-]).
  unfold scim_audit, bind in Haud. rewrite append_audit_run in Haud. injection Haud as <-.
  assert (Hst : members s2 = dpop (tid, uid) (members s) /\
    user_denied (get_user_status uid s2) = true /\
    forall u, dget uid (users s2) = Some u -> u_status u = "disabled").
  { unfold update_user in Hupd. rewrite bind_gets in Hupd. simpl in Hupd. unfold get_user_status.
    destruct (dget uid (users s)) as [u|] eqn:Hu.
    - cbv [put_user bind modify ret] in Hupd. injection Hupd as _ <-. simpl. rewrite dget_dset_eq. simpl.
      split_and!; [done|done|]. by intros ? [= <-].
    - injection Hupd as _ <-. simpl. by rewrite Hu. }
  destruct Hst as (Em & Hden & Hdis). split_and!.
  - by eexists.
  - unfold get_member. simpl. rewrite Em. apply dget_dpop_eq.
  - intros now' claims Hsub. unfold authorize. erewrite bind_eq_ok by (unfold is_jti_revoked; reflexivity).
    destruct (dmem _ _); [by eexists _, _|]. rewrite bind_gets. destruct (tenant_denied _); [by eexists _, _|].
    rewrite bind_gets. subst uid. unfold get_user_status in *. simpl in *. rewrite Hden. by eexists _, _.
  - intros ring now' ld req skip u Hname Hid Hu. simpl in Hu. apply Hdis in Hu.
    unfold login. rewrite bind_gets. destruct (tenant_denied _); [by eexists|].
    rewrite bind_gets, Hname. destruct (is_locked now' u); [by eexists|]. rewrite Hu. by eexists.
Qed.
End scim_props.
