(* ===== verification/App.v ===== *)
(** * Wiring (app.py), readiness and metrics (routes/health.py, metrics.py)

    The two middlewares as functions on headers, the choice of store, key ring
    and Redis, the start sequence over the in-process store, the gRPC guard
    (grpc_server.py), the probe and the metrics page. What a network call
    answers at start is a parameter of the definition that makes it. *)
From S2P Require Import Prelude PyText StoreState Prims AuditLog Tenants Rbac Users Tokens Ledger.
From S2P Require Import Crypto Jwt Jwks Auth Deps DataPlane AdminRoutes Email Config.

(** ** Query strings: [urllib.parse.parse_qs] *)

Definition hex_digit_value (c : ascii) : option N :=
  if is_digit c then Some (chr c - 48)%N
  else if in_range 65 70 c then Some (chr c - 55)%N
  else if in_range 97 102 c then Some (chr c - 87)%N else None.
(** [unquote], on escapes below 128. *)
Fixpoint unquote (l : list ascii) : list ascii :=
  match l with
  | "%"%char :: ((a :: b :: l') as rest) =>
      match hex_digit_value a, hex_digit_value b with
      | Some x, Some y => ascii_of_N (x * 16 + y) :: unquote l'
      | _, _ => "%"%char :: unquote rest
      end
  | c :: l' => c :: unquote l'
  | [] => []
  end.
Definition unquote_plus (s : string) : string :=
  of_chars (unquote ((fun c => if decide (c = "+"%char) then " "%char else c) <$> chars s)).
(** The pairs with a value that is not empty. *)
Definition parse_qs (qs : string) : list (string * string) :=
  omap (fun piece =>
    match split "=" piece with
    | k :: v :: vs => let v := join "=" (v :: vs) in
                      if str_true v then Some (unquote_plus k, unquote_plus v) else None
    | _ => None
    end) (split "&" qs).
(** The first value of a parameter. *)
Definition _query_param (query_string name : string) : option string :=
  dget name (parse_qs query_string).

(** ** Middlewares *)

Definition headers_t : Type := list (string * string).
Definition PREFIX_EXEMPT : string := "/api/v1/auth/oidc/".
Definition SCIM_PREFIX : string := "/scim/v2/".
Definition has_header (name : string) (hs : headers_t) : bool :=
  existsb (fun kv => bool_decide (kv.1 = name)) hs.
(** [_OidcContextMiddleware]: the request headers it passes on. *)
Definition oidc_context (path query_string : string) (hs : headers_t) : headers_t :=
  if startswith PREFIX_EXEMPT path then
    if has_header "x-tenant-id" hs then hs else hs ++ [("x-tenant-id", "oidc")]
  else if startswith SCIM_PREFIX path && negb (has_header "x-tenant-id" hs) then
    match _query_param query_string "tenantId" with
    | Some tid => if str_true tid then hs ++ [("x-tenant-id", tid)] else hs
    | None => hs
    end
  else hs.

Definition SECURITY_HEADERS : headers_t :=
  [("x-content-type-options", "nosniff"); ("x-frame-options", "DENY");
   ("strict-transport-security", "max-age=31536000; includeSubDomains"); ("x-xss-protection", "0");
   ("referrer-policy", "no-referrer")].
(** [any(k.lower() == name for k, _ in headers)] *)
Definition has_header_ci (name : string) (hs : headers_t) : bool :=
  existsb (fun kv => bool_decide (lower kv.1 = name)) hs.
(** [_SecurityHeadersMiddleware]: the response headers it sends. *)
Definition add_header (hs : headers_t) (h : string * string) : headers_t :=
  if has_header_ci h.1 hs then hs else hs ++ [h].
Definition secure_headers (hs : headers_t) : headers_t := foldl add_header hs SECURITY_HEADERS.

Definition TENANT_EXEMPT : list string :=
  ["/health"; "/ready"; "/docs"; "/openapi.json"; "/redoc"; "/.well-known/jwks.json";
   "/.well-known/jwks/rotate"; "/metrics"; "/api/v1/auth/login"; "/api/v1/auth/verify";
   "/api/v1/auth/refresh"; "/api/v1/auth/introspect"; "/api/v1/auth/ticket/exchange";
   "/api/v1/auth/session"; "/api/v1/auth/session/verify"; "/api/v1/auth/sessions";
   "/api/v1/auth/register"; "/api/v1/auth/register-tenant"; "/api/v1/auth/verify-email";
   "/api/v1/auth/verify-email/resend"; "/api/v1/auth/password/forgot"; "/api/v1/auth/password/reset";
   "/scim/v2/Users"].

(** [_safe_url]: the part before the first [@] is hidden; a text with an [@]
    and no scheme does not unpack. *)
Definition split_once (sep s : string) : option (string * string) :=
  match split sep s with
  | a :: b :: l => Some (a, join sep (b :: l))
  | _ => None
  end.
Definition _safe_url (url : string) : res string :=
  if contains "@" url then
    match split_once "://" url with
    | None => Raise (ValueError "not enough values to unpack (expected 2, got 1)")
    | Some (scheme, rest) =>
        match split_once "@" rest with
        | Some (_, host) => Ok (scheme +:+ "://***@" +:+ host)
        | None => Raise (IndexError "list index out of range")
        end
    end
  else Ok url.

(** ** Components *)

Inductive StoreKind : Type := PgStore (url : string) (pool_max : Z) | InMemory.
Definition _build_store (st : Settings) : StoreKind :=
  if st_use_pgstore st && str_true (st_database_url st)
  then PgStore (st_database_url st) (st_db_pool_max st) else InMemory.

(** Whether there is a Redis client; [ping] is what the first ping answers. *)
Definition _build_redis (st : Settings) (ping : res unit) : res bool :=
  if negb (str_true (st_redis_url st)) then Ok false
  else match ping with
       | Ok _ => Ok true
       | Raise _ => Raise (RuntimeError "redis connect failed but FUSION_IDENTITY_REDIS_URL is set")
       end.

(** [grpc_server.serve] gives the interceptor the current token only. *)
Definition serve_token (st : Settings) : res string := interceptor_init (st_service_token st).

Section app.
Context `{HashLib, Argon2Lib, RsaLib}.

(** The key ring and the configuration of the service; [gen] is the key
    generated when there is none, [file] the key file. *)
Definition _build_auth_service (st : Settings) (now : Z) (gen : RsaKey) (file : disk)
    : res (AuthConfig * KeyRing) :=
  let cfg := auth_init (st_jwt_signing_key st) (st_jwt_issuer st) (st_jwt_audience st)
               (st_jwt_ttl_seconds st) (st_refresh_ttl_seconds st) (Some (st_kek st)) (st_kek_prev st)
               (st_mfa_enforce_admin st) (st_email_verification_required st)
               (st_sso_ticket_ttl_seconds st) in
  if decide (st_jwt_algorithm st = "RS256") then
    match rs256 now gen (st_jwt_private_key_pem st) (st_jwt_public_keys st) (st_jwt_keyring_path st) file with
    | Ok ring => Ok (cfg, ring)
    | Raise e => Raise e
    end
  else Ok (cfg, hs256 (st_jwt_signing_key st)).

(** What is running after the start. *)
Record Running : Type := mkRunning { ru_redis : bool; ru_grpc : bool; ru_webhook : bool }.
(** [_startup] over the in-process store, whose [connect] and [ensure_schema]
    do nothing; [ping] and [serve] are the outcomes of the Redis ping and of
    the gRPC start, [tenants_json] what [FUSION_BOOTSTRAP_TENANTS] parses to. *)
Definition startup (st : Settings) (run_bootstrap : bool) (now : Z) (salt : string)
    (tenants_json : option (json + string)) (ping serve : res unit) : M Store Running :=
  let! redis := lift (_build_redis st ping) in
  (if run_bootstrap
   then bootstrap now salt (st_bootstrap_admin_user st) (st_bootstrap_admin_pass st) tenants_json
   else ret tt) ;;;
  let! grpc := (if (0 <? st_grpc_port st) && redis
                then let! _ := lift (serve_token st) in let! _ := lift serve in ret true
                else ret false) in
  ret (mkRunning redis grpc (str_true (st_webhook_url st) && str_true (st_webhook_secret st))).
End app.

(** [_package_version]: the installed version, when the metadata answers. *)
Definition _package_version (installed : res string) : string :=
  match installed with Ok v => v | Raise _ => "0.0.0" end.
(** [_verify_jwt], which the tenant middleware calls on a bearer: [decode] is
    fusion_core's [decode_jwt_claims]. *)
Definition _verify_jwt {C} (decode : string -> res C) (token : string) : option C :=
  if bool_decide (length (split "." token) <> 3%nat) then None
  else match decode token with Ok claims => Some claims | Raise _ => None end.

(** ** The stop *)

(** The four calls of [_shutdown]; [answer] is how each ends. *)
Inductive stop_call : Type := StopWebhook | StopGrpc | CloseRedis | CloseStore.
#[export] Instance stop_call_eq_dec : EqDecision stop_call.
Proof. solve_decision. Defined.
Section stop.
Variable answer : stop_call -> res unit.
(** What is running, and the calls made so far. *)
Definition Stopping : Type := Running * list stop_call.
Definition stop (c : stop_call) : M Stopping unit := fun p => (answer c, (p.1, p.2 ++ [c])).
(** [try: await ... except Exception: logger.warning(...)] *)
Definition try_stop (c : stop_call) : M Stopping unit := catch (stop c) (fun _ => ret tt).
Definition _shutdown : M Stopping unit :=
  let! ru := gets fst in
  (if ru_webhook ru
   then try_stop StopWebhook ;;;
        modify (fun p => (mkRunning (ru_redis p.1) (ru_grpc p.1) false, p.2))
   else ret tt) ;;;
  (if ru_grpc ru then try_stop StopGrpc else ret tt) ;;;
  (if ru_redis ru then try_stop CloseRedis else ret tt) ;;;
  stop CloseStore.
End stop.

(** ** Readiness and metrics *)

(** [ready]: the store's and Redis' probes ([None]: there is none); status and
    whether it is ready. *)
Definition ready (store redis : option (res unit)) : Z * bool :=
  let store_ok := match store with Some (Ok _) => true | _ => false end in
  let redis_ok := match redis with Some (Raise _) => false | _ => true end in
  if store_ok && redis_ok then (200, true) else (503, false).

Definition gauge (name help : string) (value : Z) : list string :=
  ["# HELP fusion_identity_" +:+ name +:+ " " +:+ help; "# TYPE fusion_identity_" +:+ name +:+ " gauge";
   "fusion_identity_" +:+ name +:+ " " +:+ pretty value].
(** The page; [stats] may fail, then every count is 0 and the flag is 1.
    [info] is the interpreter's line, [rendered] the collector's text. *)
Definition metrics_route (start now : Z) (st : res Stats) (info : string) (rendered : res string) : string :=
  let count f := match st with Ok s => f s | Raise _ => 0 end in
  join nl (gauge "stats_error" "1 if store.stats() failed this scrape"
             (match st with Ok _ => 0 | Raise _ => 1 end) ++
    gauge "tenants" "Total active tenants" (count st_tenants) ++
    gauge "users" "Total users" (count st_users) ++
    gauge "members" "Total tenant memberships" (count st_members) ++
    gauge "api_keys" "Active API keys" (count st_api_keys) ++
    gauge "audit_records" "Audit log records" (count st_audit_records) ++
    gauge "revoked_jtis" "Revoked JTIs" (count st_revoked_jtis) ++
    gauge "active_refresh" "Active refresh tokens" (count st_refresh_tokens) ++
    gauge "legacy_scrypt_users" "Legacy scrypt accounts (fixed salt, force-reset)"
      (count st_legacy_scrypt_users) ++
    gauge "uptime_seconds" "Process uptime" (round_div (now - start) 1000000) ++
    ["# HELP fusion_identity_python_info Python version info";
     "# TYPE fusion_identity_python_info gauge"; info] ++
    match rendered with Ok text => [text] | Raise _ => [] end) +:+ nl.

(** ** What the wiring guarantees *)

Lemma has_header_app name hs h : has_header_ci name hs = true -> has_header_ci name (hs ++ [h]) = true.
Proof. unfold has_header_ci. rewrite existsb_app. by intros ->. Qed.
Lemma add_header_has hs h : lower h.1 = h.1 -> has_header_ci h.1 (add_header hs h) = true.
Proof.
  intros Hl. unfold add_header. destruct (has_header_ci h.1 hs) eqn:E; [done|].
  unfold has_header_ci. rewrite existsb_app. simpl. rewrite bool_decide_true by done. by rewrite orb_true_r.
Qed.
Lemma add_header_keeps name hs h : has_header_ci name hs = true -> has_header_ci name (add_header hs h) = true.
Proof. unfold add_header. destruct (has_header_ci h.1 hs); auto using has_header_app. Qed.
Lemma add_headers_prefix l : forall hs, hs `prefix_of` foldl add_header hs l.
Proof.
  induction l as [|h l IH]; intros hs; simpl; [done|]. etrans; [|apply IH].
  unfold add_header. destruct (has_header_ci h.1 hs); [done|]. by eexists.
Qed.
Lemma add_headers_keep name l : forall hs, has_header_ci name hs = true ->
  has_header_ci name (foldl add_header hs l) = true.
Proof. induction l; intros hs Hh; simpl; [done|]. by apply IHl, add_header_keeps. Qed.

(** Every response leaves with the five security headers; the headers the
    handler set are all kept, first and in order, and win over the defaults. *)
Lemma security_headers_set hs name v :
  (name, v) ∈ SECURITY_HEADERS ->
  hs `prefix_of` secure_headers hs /\ has_header_ci name (secure_headers hs) = true.
Proof.
  intros Hin. split; [apply add_headers_prefix|].
  assert (Hgen : forall l hs, (name, v) ∈ l -> lower name = name ->
    has_header_ci name (foldl add_header hs l) = true).
  { intros l. induction l as [|h l IH]; intros hs' Hin' Hl; [by apply elem_of_nil in Hin'|]. simpl.
    apply elem_of_cons in Hin' as [<-|Hin']; [|by apply IH].
    apply add_headers_keep. apply (add_header_has hs' (name, v)). done. }
  apply Hgen; [done|]. repeat (apply elem_of_cons in Hin as [[= -> ->]|Hin]; [done|]).
  by apply elem_of_nil in Hin.
Qed.

(** The gRPC surface does not take part in the rotation of the service token:
    a call with the previous token, which every service-token route accepts in
    the window, is refused. *)
Lemma grpc_refuses_previous {S A} st prev token metadata (k : M S (rpc A)) (s : S) auth :
  settings_ok st -> st_service_token_prev st = Some prev -> serve_token st = Ok token ->
  dget SERVICE_TOKEN_METADATA_KEY (dict_of metadata) = Some prev ->
  intercept_service token metadata k s = (Ok (Abort UNAUTHENTICATED), s) /\
  (extract_bearer auth = Ok prev ->
     require_service_token (st_service_token st) (st_service_token_prev st) auth = Ok tt).
Proof.
  intros [_ [_ Hp] _ _ _ _ _] Eprev Etok Em. destruct (Hp _ Eprev) as [Hne Hlen].
  unfold serve_token, interceptor_init in Etok. destruct (str_true _); [|done]. injection Etok as <-.
  unfold intercept_service. rewrite Em. simpl. unfold compare_digest. rewrite bool_decide_false by done.
  rewrite orb_true_r. split; [done|]. intros Hb. unfold require_service_token.
  assert (str_true auth = true) as ->.
  { unfold extract_bearer in Hb. by destruct (str_true auth). }
  rewrite Hb, Eprev. simpl. unfold compare_digest. rewrite bool_decide_false, (bool_decide_true (prev = prev)) by done.
  assert (str_true prev = true) as ->; [|done]. unfold str_true. apply bool_decide_eq_true. intros ->.
  unfold _MIN_TOKEN_LEN, slen in Hlen. simpl in Hlen. lia.
Qed.

(** However the parts end, the stop tries each that runs once, in the order
    worker, gRPC, Redis, and closes the store last; only the store's own
    failure is raised, and no worker is left to tick on a closed store. *)
Lemma shutdown_closes_store answer ru :
  _shutdown answer (ru, []) =
  (answer CloseStore,
   (mkRunning (ru_redis ru) (ru_grpc ru) false,
    (if ru_webhook ru then [StopWebhook] else []) ++ (if ru_grpc ru then [StopGrpc] else []) ++
    (if ru_redis ru then [CloseRedis] else []) ++ [CloseStore])).
Proof.
  destruct ru as [redis grpc webhook].
  assert (Ht : forall c p, try_stop answer c p = (Ok tt, (p.1, p.2 ++ [c]))).
  { intros c p. unfold try_stop, catch, stop. by destruct (answer c) as [[]|]. }
  unfold _shutdown. rewrite bind_gets. destruct webhook, grpc, redis; simpl;
    unfold bind; rewrite ?Ht; simpl; rewrite ?Ht; simpl; rewrite ?Ht; reflexivity.
Qed.
