(* ===== verification/Regex.v ===== *)
(** * Unicode text and regular expressions

    The document checks (ci/validate_docs.py) read texts in any script and
    search them with [re]. A text is the list of its code points. The
    properties of code points above 127 that need the Unicode database are a
    parameter; the rest (white space, line boundaries, the four letters that
    [re.I] adds to the ASCII ones) is written out.

    [rmatch] is the backtracking matcher of [re] for the constructs that the
    repository uses, with a continuation for what follows. [matches] says which
    ends a pattern has; [rmatch_exact] that the matcher finds one exactly if
    there is one. *)
From S2P Require Import Prelude PyText.

Definition utext : Type := list N.

(** ** Literals

    A literal of this development is UTF-8. *)
Definition tail_bits (c : ascii) : N := (chr c - 128)%N.
Fixpoint utf8_points (l : list ascii) : utext :=
  match l with
  | [] => []
  | a :: l1 =>
      if (chr a <? 128)%N then chr a :: utf8_points l1 else
      match l1 with
      | [] => []
      | b :: l2 =>
          if (chr a <? 224)%N then ((chr a - 192) * 64 + tail_bits b)%N :: utf8_points l2 else
          match l2 with
          | [] => []
          | c :: l3 =>
              if (chr a <? 240)%N
              then ((chr a - 224) * 4096 + tail_bits b * 64 + tail_bits c)%N :: utf8_points l3 else
              match l3 with
              | [] => []
              | d :: l4 => ((chr a - 240) * 262144 + tail_bits b * 4096 + tail_bits c * 64 + tail_bits d)%N
                             :: utf8_points l4
              end
          end
      end
  end.
Definition u (s : string) : utext := utf8_points (chars s).
#[global] Arguments u _ : simpl never.

(** ** Characters *)

(** Above 127: [\w], the value of a decimal digit ([\d]), [str.isdigit]. *)
Class Unicode := {
  u_word : N -> bool;
  u_decimal : N -> option N;
  u_isdigit : N -> bool
}.
Definition within (lo hi c : N) : bool := ((lo <=? c) && (c <=? hi))%N.
Definition ascii_digit : N -> bool := within 48 57.
Definition ascii_letter (c : N) : bool := within 65 90 c || within 97 122 c.
(** [str.isspace], and [\s]. *)
Definition u_space (c : N) : bool :=
  within 9 13 c || within 28 32 c || bool_decide (c ∈ [133; 160; 5760; 8232; 8233; 8239; 8287; 12288]%N)
  || within 8192 8202 c.
(** Where [str.splitlines] cuts. *)
Definition line_break (c : N) : bool :=
  within 10 13 c || within 28 30 c || bool_decide (c ∈ [133; 8232; 8233]%N).
(** The letter that [re.I] compares with a lower-case ASCII letter. *)
Definition fold_case (c : N) : N :=
  if within 65 90 c then (c + 32)%N
  else if bool_decide (c ∈ [304; 305]%N) then 105%N
  else if (c =? 383)%N then 115%N
  else if (c =? 8490)%N then 107%N
  else c.

Section characters.
Context `{Unicode}.
Definition decimal (c : N) : option N :=
  if ascii_digit c then Some (c - 48)%N else if (c <? 128)%N then None else u_decimal c.
Definition is_decimal (c : N) : bool := match decimal c with Some _ => true | None => false end.
Definition isdigit (c : N) : bool := ascii_digit c || ((128 <=? c)%N && u_isdigit c).
Definition is_word (c : N) : bool :=
  ascii_digit c || ascii_letter c || (c =? 95)%N || ((128 <=? c)%N && u_word c).
End characters.

(** ** Methods of [str] *)

Fixpoint drop_while (f : N -> bool) (l : utext) : utext :=
  match l with
  | [] => []
  | c :: l' => if f c then drop_while f l' else l
  end.
Definition ulstrip (l : utext) : utext := drop_while u_space l.
Definition urstrip_of (f : N -> bool) (l : utext) : utext := reverse (drop_while f (reverse l)).
Definition ustrip_of (f : N -> bool) (l : utext) : utext := urstrip_of f (drop_while f l).
Definition ustrip : utext -> utext := ustrip_of u_space.
Definition is_quote (c : N) : bool := (c =? 39)%N || (c =? 34)%N.
Fixpoint ustartswith (p l : utext) : bool :=
  match p, l with
  | [], _ => true
  | c :: p', d :: l' => (c =? d)%N && ustartswith p' l'
  | _, [] => false
  end.
Definition uendswith (p l : utext) : bool := ustartswith (reverse p) (reverse l).
Fixpoint ucontains (p l : utext) : bool :=
  ustartswith p l || match l with [] => false | _ :: l' => ucontains p l' end.
(** [l.split(c)] *)
Fixpoint usplit (c : N) (l : utext) : list utext :=
  match l with
  | [] => [[]]
  | d :: l' =>
      if (d =? c)%N then [] :: usplit c l'
      else match usplit c l' with
           | [] => [[d]]
           | p :: ps => (d :: p) :: ps
           end
  end.
Fixpoint ujoin (sep : utext) (ps : list utext) : utext :=
  match ps with
  | [] => []
  | [p] => p
  | p :: ps' => p ++ sep ++ ujoin sep ps'
  end.
Fixpoint splitlines_from (cur : utext) (l : utext) : list utext :=
  match l with
  | [] => match cur with [] => [] | _ => [reverse cur] end
  | c :: l' =>
      if (c =? 13)%N then
        reverse cur :: match l' with
                       | d :: l'' => if (d =? 10)%N then splitlines_from [] l'' else splitlines_from [] l'
                       | [] => []
                       end
      else if line_break c then reverse cur :: splitlines_from [] l'
      else splitlines_from (c :: cur) l'
  end.
Definition splitlines : utext -> list utext := splitlines_from [].
(** [int(digits)] *)
Definition to_int `{Unicode} (l : utext) : Z :=
  foldl (fun n c => n * 10 + Z.of_N (default 0%N (decimal c))) 0 l.
Definition ulower : utext -> utext := fmap (fun c => if within 65 90 c then (c + 32)%N else c).
(** Order of texts, and [str(n)]. *)
Fixpoint ule (a b : utext) : bool :=
  match a, b with
  | [], _ => true
  | _, [] => false
  | c :: a', d :: b' => if (c =? d)%N then ule a' b' else (c <? d)%N
  end.
Definition unum (n : Z) : utext := u (pretty n).

(** *** Stripping and splitting *)

Lemma drop_while_keep f l : (forall c, head l = Some c -> f c = false) -> drop_while f l = l.
Proof. destruct l as [|c l]; [done|]. intros Hc. simpl. by rewrite Hc. Qed.
Lemma strip_keep f l :
  (forall c, head l = Some c \/ last l = Some c -> f c = false) -> ustrip_of f l = l.
Proof.
  intros Hc. unfold ustrip_of, urstrip_of. rewrite (drop_while_keep f l) by auto.
  rewrite drop_while_keep, reverse_involutive; [done|]. intros c Hl. apply Hc. right. by rewrite <- head_reverse.
Qed.
Lemma strip_head f c l : f c = false -> exists l', ustrip_of f (c :: l) = c :: l'.
Proof.
  intros Hc. unfold ustrip_of, urstrip_of. simpl. rewrite Hc, reverse_cons.
  assert (forall xs, exists ys, drop_while f (xs ++ [c]) = ys ++ [c]) as Hd.
  { induction xs as [|x xs IH]; simpl; [exists []; by rewrite Hc|]. destruct (f x); [done|by exists (x :: xs)]. }
  destruct (Hd (reverse l)) as [ys ->]. rewrite reverse_snoc. eauto.
Qed.
Definition one_line (l : utext) : Prop := Forall (fun c => line_break c = false) l.
Definition text_of (lines : list utext) : utext := lines ≫= (fun l => l ++ [10%N]).
Lemma splitlines_text lines : Forall one_line lines -> splitlines (text_of lines) = lines.
Proof.
  unfold splitlines, text_of. induction 1 as [|l lines Hl _ IH]; [done|]. simpl. rewrite <- app_assoc. simpl.
  assert (forall cur, splitlines_from cur (l ++ 10%N :: (lines ≫= (fun l => l ++ [10%N]))) =
    (reverse cur ++ l) :: lines) as Hcur; [|by apply (Hcur [])].
  induction Hl as [|c l Hc _ IHl]; intros cur; simpl; [by rewrite IH, app_nil_r|].
  rewrite Hc. destruct (c =? 13)%N eqn:E; [apply N.eqb_eq in E; by subst|].
  by rewrite IHl, reverse_cons, <- app_assoc.
Qed.

(** ** Patterns *)

Inductive rx : Type :=
  | Chr (f : N -> bool)
  | Rep (greedy : bool) (f : N -> bool) (lo : nat) (hi : option nat)
  | Cat (a b : rx)
  | Alt (a b : rx)
  | Opt (a : rx)
  | Grp (i : nat) (a : rx)
  | NotAhead (a : rx)
  | Bound
  | Start
  | End_.
Declare Scope rx_scope.
Delimit Scope rx_scope with rx.
Bind Scope rx_scope with rx.
Infix "+++" := Cat (at level 60, right associativity) : rx_scope.
Infix "||" := Alt : rx_scope.

Definition one (c : N) : rx := Chr (N.eqb c).
Definition any : N -> bool := fun c => negb (c =? 10)%N.
Definition star (f : N -> bool) : rx := Rep true f 0 None.
Definition plus (f : N -> bool) : rx := Rep true f 1 None.
Definition times (n : nat) (f : N -> bool) : rx := Rep true f n (Some n).
Fixpoint word_rx (eq : N -> N -> bool) (w : utext) : rx :=
  match w with
  | [] => Rep true (fun _ => false) 0 None
  | [c] => Chr (eq c)
  | c :: w' => Cat (Chr (eq c)) (word_rx eq w')
  end.
Definition lit (s : string) : rx := word_rx N.eqb (u s).
(** A lower-case literal under [re.I]. *)
Definition lit_i (w : utext) : rx := word_rx (fun p c => (fold_case c =? p)%N) w.

(** ** The matcher *)

(** A position: the character before it, the text after it, the groups. *)
Record Pos : Type := mkPos { before : option N; after : utext; caps : list (nat * utext) }.
Definition advance (n : nat) (s : Pos) : Pos :=
  mkPos (match last (take n (after s)) with Some c => Some c | None => before s end)
    (drop n (after s)) (caps s).
Definition consumed (s s' : Pos) : utext := take (length (after s) - length (after s')) (after s).
Definition capture (i : nat) (s s' : Pos) : Pos :=
  mkPos (before s') (after s') (dset i (consumed s s') (caps s')).

(** The length of the run of [f] at the front, at most [hi]. *)
Fixpoint run_length (f : N -> bool) (l : utext) : nat :=
  match l with
  | c :: l' => if f c then S (run_length f l') else 0
  | [] => 0
  end.
Definition run_max (f : N -> bool) (hi : option nat) (l : utext) : nat :=
  match hi with Some h => Nat.min h (run_length f l) | None => run_length f l end.
Fixpoint first_some {A B} (f : A -> option B) (l : list A) : option B :=
  match l with
  | [] => None
  | x :: l' => match f x with Some y => Some y | None => first_some f l' end
  end.
(** The counts to try, the preferred one first. *)
Definition counts (greedy : bool) (lo n : nat) : list nat :=
  let l := seq lo (S n - lo) in if greedy then reverse l else l.

Section matcher.
Context `{Unicode}.

Definition at_bound (s : Pos) : bool :=
  xorb (from_option is_word false (before s)) (from_option is_word false (head (after s))).
Definition at_end (s : Pos) : bool := bool_decide (after s = [] \/ after s = [10%N]).

Fixpoint rmatch (r : rx) (s : Pos) (k : Pos -> option Pos) : option Pos :=
  match r with
  | Chr f =>
      match after s with
      | c :: _ => if f c then k (advance 1 s) else None
      | [] => None
      end
  | Rep greedy f lo hi =>
      first_some (fun n => k (advance n s)) (counts greedy lo (run_max f hi (after s)))
  | Cat a b => rmatch a s (fun s' => rmatch b s' k)
  | Alt a b => match rmatch a s k with Some p => Some p | None => rmatch b s k end
  | Opt a => match rmatch a s k with Some p => Some p | None => k s end
  | Grp i a => rmatch a s (fun s' => k (capture i s s'))
  | NotAhead a => match rmatch a s Some with Some _ => None | None => k s end
  | Bound => if at_bound s then k s else None
  | Start => match before s with None => k s | Some _ => None end
  | End_ => if at_end s then k s else None
  end.

(** [re.match] at the start of a text, [re.search] from left to right. *)
Definition start_of (l : utext) : Pos := mkPos None l [].
Definition re_match (r : rx) (l : utext) : option Pos := rmatch r (start_of l) Some.
Fixpoint search_from (r : rx) (b : option N) (l : utext) : option (Pos * Pos) :=
  match rmatch r (mkPos b l []) Some with
  | Some e => Some (mkPos b l [], e)
  | None => match l with [] => None | c :: l' => search_from r (Some c) l' end
  end.
Definition re_search (r : rx) (l : utext) : option (Pos * Pos) := search_from r None l.
(** [finditer]: the matches that do not overlap, for a pattern without empty
    matches; [skip] characters belong to the last match. *)
Fixpoint finditer_from (r : rx) (b : option N) (l : utext) (skip : nat) : list (Pos * Pos) :=
  match l with
  | [] => []
  | c :: l' =>
      match skip with
      | S skip' => finditer_from r (Some c) l' skip'
      | O =>
          match rmatch r (mkPos b l []) Some with
          | Some e =>
              (mkPos b l [], e) :: finditer_from r (Some c) l' (length (consumed (mkPos b l []) e) - 1)
          | None => finditer_from r (Some c) l' 0
          end
      end
  end.
Definition finditer (r : rx) (l : utext) : list (Pos * Pos) := finditer_from r None l 0.
(** [re.sub(r, by, l)] *)
Fixpoint sub_from (r : rx) (by_ : utext) (b : option N) (l : utext) (skip : nat) : utext :=
  match l with
  | [] => []
  | c :: l' =>
      match skip with
      | S skip' => sub_from r by_ (Some c) l' skip'
      | O =>
          match rmatch r (mkPos b l []) Some with
          | Some e => by_ ++ sub_from r by_ (Some c) l' (length (consumed (mkPos b l []) e) - 1)
          | None => c :: sub_from r by_ (Some c) l' 0
          end
      end
  end.
Definition re_sub (r : rx) (by_ l : utext) : utext := sub_from r by_ None l 0.
(** [m.group(i)], [None] when the group took no part; [m.group(0)]. *)
Definition group (i : nat) (m : Pos) : option utext := dget i (caps m).
Definition group_all (m : Pos * Pos) : utext := consumed m.1 m.2.
Definition found {A} (o : option A) : bool := match o with Some _ => true | None => false end.

(** ** What a pattern means *)

Definition rep_ok (f : N -> bool) (lo : nat) (hi : option nat) (l : utext) (n : nat) : Prop :=
  (lo <= n)%nat /\ (n <= length l)%nat /\ Forall (fun c => f c = true) (take n l) /\
  match hi with Some h => (n <= h)%nat | None => True end.
Fixpoint matches (r : rx) (s s' : Pos) : Prop :=
  match r with
  | Chr f => exists c l, after s = c :: l /\ f c = true /\ s' = advance 1 s
  | Rep _ f lo hi => exists n, rep_ok f lo hi (after s) n /\ s' = advance n s
  | Cat a b => exists s1, matches a s s1 /\ matches b s1 s'
  | Alt a b => matches a s s' \/ matches b s s'
  | Opt a => matches a s s' \/ s' = s
  | Grp i a => exists s1, matches a s s1 /\ s' = capture i s s1
  | NotAhead a => (forall s1, ~ matches a s s1) /\ s' = s
  | Bound => at_bound s = true /\ s' = s
  | Start => before s = None /\ s' = s
  | End_ => at_end s = true /\ s' = s
  end.
End matcher.

(** ** The matcher is exact *)

Lemma first_some_None {A B} (f : A -> option B) l :
  first_some f l = None <-> forall x, x ∈ l -> f x = None.
Proof.
  induction l as [|x l IH]; simpl; [split; [set_solver|done]|].
  destruct (f x) eqn:E; [split; [done|]|rewrite IH; set_solver].
  intros Hall. rewrite Hall in E; [done|left].
Qed.
Lemma first_some_Some {A B} (f : A -> option B) l y :
  first_some f l = Some y -> exists x, x ∈ l /\ f x = Some y.
Proof.
  induction l as [|x l IH]; simpl; [done|]. destruct (f x) eqn:E.
  - intros [= <-]. exists x. split; [left|done].
  - intros (x' & Hx & Hf)%IH. exists x'. split; [by right|done].
Qed.
Lemma elem_of_counts g lo m n : n ∈ counts g lo m <-> (lo <= n <= m)%nat.
Proof. unfold counts. destruct g; rewrite ?elem_of_reverse, elem_of_seq; lia. Qed.
Lemma run_length_le f l n :
  (n <= run_length f l)%nat <-> (n <= length l)%nat /\ Forall (fun c => f c = true) (take n l).
Proof.
  revert n. induction l as [|c l IH]; intros [|n]; simpl.
  - split; [by repeat constructor|lia].
  - split; [lia|]. intros [? _]. lia.
  - split; [|lia]. intros _. split; [lia|constructor].
  - rewrite Forall_cons. destruct (f c); [|split; [lia|naive_solver]].
    rewrite <- Nat.succ_le_mono, IH, <- Nat.succ_le_mono. naive_solver.
Qed.
Lemma counted_rep g f lo hi l n :
  n ∈ counts g lo (run_max f hi l) <-> rep_ok f lo hi l n.
Proof.
  rewrite elem_of_counts. unfold rep_ok, run_max. pose proof (run_length_le f l n) as Hr.
  destruct hi as [h|]; [rewrite Nat.min_glb_iff|]; naive_solver.
Qed.

Section exact.
Context `{Unicode}.

(** [None] exactly if no end of the pattern lets the rest succeed, and
    otherwise the result of the rest at such an end. *)
Definition exact (r : rx) : Prop := forall s k,
  (rmatch r s k = None <-> forall s', matches r s s' -> k s' = None) /\
  (forall p, rmatch r s k = Some p -> exists s', matches r s s' /\ k s' = Some p).
Lemma exact_test (P : Prop) (b : bool) s (k : Pos -> option Pos) :
  (b = true <-> P) ->
  ((if b then k s else None) = None <-> forall s', P /\ s' = s -> k s' = None) /\
  (forall p, (if b then k s else None) = Some p -> exists s', (P /\ s' = s) /\ k s' = Some p).
Proof. intros HP. destruct b; naive_solver. Qed.

Theorem rmatch_exact r : exact r.
Proof.
  induction r as [f|g f lo hi|a IHa b IHb|a IHa b IHb|a IHa|i a IHa|a IHa| | |]; intros s k; simpl.
  - destruct (after s) as [|c l]; [naive_solver|]. destruct (f c) eqn:E.
    + split; [split|]; [by intros Hk s' (? & ? & ? & ? & ->)|intros Hall; apply Hall; eauto 8|eauto 8].
    + split; [split; [|done]|done]. intros _ s' (c' & l' & [= <- <-] & Hc & _). congruence.
  - split.
    + rewrite first_some_None. setoid_rewrite counted_rep. naive_solver.
    + intros p (n & Hn%counted_rep & Hk)%first_some_Some. eauto.
  - split.
    + destruct (IHa s (fun s' => rmatch b s' k)) as [-> _].
      setoid_rewrite (fun s' => proj1 (IHb s' k)). naive_solver.
    + intros p (s1 & Ha & (s2 & Hb & Hk)%IHb)%IHa. eauto 6.
  - destruct (IHa s k) as [Na Sa], (IHb s k) as [Nb Sb].
    destruct (rmatch a s k) as [p|] eqn:E; [|naive_solver].
    destruct (Sa p eq_refl) as (s1 & H1 & H2). split; [split; [done|]|naive_solver].
    intros Hall. rewrite Hall in H2; [done|by left].
  - destruct (IHa s k) as [Na Sa]. destruct (rmatch a s k) as [p|] eqn:E; [|naive_solver].
    destruct (Sa p eq_refl) as (s1 & H1 & H2). split; [split; [done|]|naive_solver].
    intros Hall. rewrite Hall in H2; [done|by left].
  - destruct (IHa s (fun s' => k (capture i s s'))) as [Na Sa]. split; [rewrite Na; naive_solver|].
    intros p (s1 & ? & ?)%Sa. eauto.
  - destruct (IHa s Some) as [Na Sa]. destruct (rmatch a s Some) as [p|] eqn:E.
    + destruct (Sa p eq_refl) as (s1 & H1 & _). naive_solver.
    + assert (forall s1, ~ matches a s s1) as Hn; [|naive_solver].
      intros s1 H1. destruct Na as [Na _]. by specialize (Na eq_refl s1 H1).
  - by apply exact_test.
  - destruct (before s); naive_solver.
  - by apply exact_test.
Qed.

(** A search finds a match exactly if the pattern matches somewhere. *)
Theorem search_exact r l :
  re_search r l = None <->
  forall b t, (b = None /\ t = l) \/ (exists p c, l = p ++ c :: t /\ b = Some c) ->
    forall s', ~ matches r (mkPos b t []) s'.
Proof.
  unfold re_search.
  assert (forall b0, search_from r b0 l = None <->
    forall b t, (b = b0 /\ t = l) \/ (exists p c, l = p ++ c :: t /\ b = Some c) ->
      forall s', ~ matches r (mkPos b t []) s') as Hs; [|apply Hs].
  induction l as [|c l IH]; intros b0; simpl;
    destruct (rmatch_exact r (mkPos b0 [] []) Some) as [N0 S0].
  - destruct (rmatch r _ Some) as [e|] eqn:E.
    + destruct (S0 e eq_refl) as (s1 & H1 & _). split; [done|]. intros Hall. edestruct Hall; [by left|exact H1].
    + split; [|done]. intros _ b t [[-> ->]|(p & d & Hp & _)] s' Hm; [|by destruct p].
      by destruct N0 as [N0 _]; specialize (N0 eq_refl s' Hm).
  - clear N0 S0. destruct (rmatch_exact r (mkPos b0 (c :: l) []) Some) as [N0 S0].
    destruct (rmatch r _ Some) as [e|] eqn:E.
    + destruct (S0 e eq_refl) as (s1 & H1 & _). split; [done|]. intros Hall. edestruct Hall; [by left|exact H1].
    + rewrite IH. split.
      * intros Hall b t [[-> ->]|(p & d & Hp & ->)] s' Hm.
        { by destruct N0 as [N0 _]; specialize (N0 eq_refl s' Hm). }
        destruct p as [|c' p]; simplify_eq/=; eapply (Hall _ t); [|exact Hm| |exact Hm]; [by left|eauto].
      * intros Hall b t [[-> ->]|(p & d & -> & ->)] s' Hm.
        { eapply (Hall (Some c) l); [|exact Hm]. right. by exists [], c. }
        eapply (Hall (Some d) t); [|exact Hm]. right. by exists (c :: p), d.
Qed.
End exact.

(** ** Runs of the matcher

    When the first choice of every repetition goes through, the match is read off
    the text. *)
Section runs.
Context `{Unicode}.

Definition yields (r : rx) (s : Pos) (k : Pos -> option Pos) (Q : Pos -> Prop) : Prop :=
  exists p, rmatch r s k = Some p /\ Q p.
Definition stops (f : N -> bool) (rest : utext) : Prop :=
  match rest with c :: _ => f c = false | [] => True end.

Lemma run_length_app f xs rest :
  Forall (fun c => f c = true) xs -> stops f rest -> run_length f (xs ++ rest) = length xs.
Proof.
  intros Hx Hr. induction Hx as [|c xs Hc _ IH]; simpl; [|by rewrite Hc, IH].
  destruct rest as [|c rest]; simpl in *; [done|]. by rewrite Hr.
Qed.
Lemma advance_app b xs rest cs : exists b', advance (length xs) (mkPos b (xs ++ rest) cs) = mkPos b' rest cs.
Proof. unfold advance. simpl. rewrite drop_app_length. by eexists. Qed.
Lemma capture_app i b b' xs rest cs cs' :
  capture i (mkPos b (xs ++ rest) cs) (mkPos b' rest cs') = mkPos b' rest (dset i xs cs').
Proof.
  unfold capture, consumed. simpl. rewrite length_app, Nat.add_sub, take_app_length. done.
Qed.

Lemma yields_cat a b s k Q : yields a s (fun s' => rmatch b s' k) Q -> yields (Cat a b) s k Q.
Proof. done. Qed.
Lemma yields_grp i a s k Q : yields a s (fun s' => k (capture i s s')) Q -> yields (Grp i a) s k Q.
Proof. done. Qed.
Lemma yields_start l cs k Q :
  (exists p, k (mkPos None l cs) = Some p /\ Q p) -> yields Start (mkPos None l cs) k Q.
Proof. done. Qed.
Lemma yields_end b cs k Q : (exists p, k (mkPos b [] cs) = Some p /\ Q p) -> yields End_ (mkPos b [] cs) k Q.
Proof. done. Qed.
Lemma yields_chr f b c l cs k Q :
  f c = true -> (forall b', exists p, k (mkPos b' l cs) = Some p /\ Q p) -> yields (Chr f) (mkPos b (c :: l) cs) k Q.
Proof.
  intros Hc Hk. unfold yields. simpl. rewrite Hc.
  destruct (advance_app b [c] l cs) as [b' E]. simpl in E. rewrite E. apply Hk.
Qed.
Lemma yields_rep f lo b xs rest cs k Q :
  Forall (fun c => f c = true) xs -> stops f rest -> (lo <= length xs)%nat ->
  (forall b', exists p, k (mkPos b' rest cs) = Some p /\ Q p) ->
  yields (Rep true f lo None) (mkPos b (xs ++ rest) cs) k Q.
Proof.
  intros Hx Hr Hlo Hk. unfold yields. cbn [rmatch after]. unfold run_max. rewrite run_length_app by done.
  assert (exists l, counts true lo (length xs) = length xs :: l) as [l ->].
  { unfold counts. replace (S (length xs) - lo)%nat with (S (length xs - lo)) by lia.
    rewrite seq_S, reverse_snoc. eexists. f_equal. lia. }
  simpl. destruct (advance_app b xs rest cs) as [b' ->]. destruct (Hk b') as (p & -> & HQ). eauto.
Qed.
(** To the end of the text. *)
Lemma yields_rest f lo b xs cs k Q :
  Forall (fun c => f c = true) xs -> (lo <= length xs)%nat ->
  (forall b', exists p, k (mkPos b' [] cs) = Some p /\ Q p) -> yields (Rep true f lo None) (mkPos b xs cs) k Q.
Proof. intros Hx Hlo Hk. rewrite <- (app_nil_r xs). by apply yields_rep. Qed.
Lemma capture_rest i b b' xs cs cs' :
  capture i (mkPos b xs cs) (mkPos b' [] cs') = mkPos b' [] (dset i xs cs').
Proof. rewrite <- (app_nil_r xs) at 1. apply capture_app. Qed.
End runs.

(** ** An instance, for execution

    Above 127 the CJK ideographs are the word characters, without digits. *)
Definition cjk_unicode : Unicode :=
  {| u_word := within 19968 40959; u_decimal := fun _ => None; u_isdigit := fun _ => false |}.
