(* ===== verification/Docs.v ===== *)
(** * The document checks of the repository (ci/validate_docs.py)

    A static validator that CI runs over the Markdown files: front matter,
    completeness of the document set, paths of [source_of_truth], banned words,
    placeholders, secrets, links and line budgets. The file system is a tree
    without symbolic links; a file is its decoded text or the error of reading
    it. A check returns the findings it appends. *)
From S2P Require Import Prelude PyText Json StoreState Regex.

(** ** Constants *)

Definition REQUIRED_KEYS : list utext := u <$>
  ["doc_id"; "product"; "class"; "entry"; "doc_type"; "title"; "audience"; "status"; "version";
   "updated"; "owner"; "source_of_truth"].
Definition VALID_CLASS : list utext := u <$> ["core"; "platform"; "app"].
Definition VALID_ENTRY : list utext := u <$> ["developer"; "service"; "guided-ui"; "none"].
Definition VALID_STATUS : list utext := u <$> ["draft"; "review"; "stable"; "deprecated"].
Definition VALID_DOC_TYPE : list utext := u <$>
  ["readme"; "product-page"; "get-started"; "api-reference"; "config-reference"; "architecture";
   "troubleshooting"; "recipe"; "changelog"; "guide"].
Definition LINE_BUDGET : list (utext * Z) :=
  [(u "get-started", 120); (u "troubleshooting", 250); (u "architecture", 250); (u "recipe", 80);
   (u "config-reference", 400)].
Definition GUIDED_UI_BUDGET : Z := 100.

Definition TIER1 : list (utext * utext * list utext) :=
  [(u "core", u "developer", u <$> ["docs/api-reference.md"; "docs/config-reference.md";
      "docs/architecture.md"; "CHANGELOG.md"]);
   (u "core", u "service", u <$> ["docs/api-reference.md"; "docs/config-reference.md";
      "docs/architecture.md"; "docs/troubleshooting.md"; "CHANGELOG.md"]);
   (u "platform", u "developer", u <$> ["docs/api-reference.md"; "docs/config-reference.md";
      "docs/architecture.md"; "CHANGELOG.md"]);
   (u "platform", u "service", u <$> ["docs/api-reference.md"; "docs/config-reference.md";
      "docs/architecture.md"; "docs/troubleshooting.md"; "docs/guides"; "CHANGELOG.md"]);
   (u "app", u "developer", u <$> ["docs/api-reference.md"; "docs/config-reference.md"; "CHANGELOG.md"]);
   (u "app", u "service", u <$> ["docs/api-reference.md"; "docs/config-reference.md";
      "docs/troubleshooting.md"; "CHANGELOG.md"]);
   (u "app", u "guided-ui", u <$> ["docs/troubleshooting.md"; "docs/img"; "CHANGELOG.md"])].
Definition TIER0 : list utext := u <$> ["README.md"; "docs/product-page.md"; "docs/get-started.md"].
Definition TIER1_MIN_COUNT : list (utext * utext * list (utext * Z)) :=
  [(u "core", u "developer", [(u "docs/recipes", 2)]);
   (u "platform", u "developer", [(u "docs/recipes", 2)]);
   (u "app", u "developer", [(u "docs/recipes", 2)])].

Definition FORBIDDEN_ZH : list utext := u <$>
  ["强大的"; "十分强大"; "业界领先"; "行业领先"; "领先的"; "极致的"; "极致"; "完美的"; "完美"; "顶级";
   "顶尖"; "最强"; "首屈一指"; "革命性"; "颠覆性"; "颠覆"; "划时代"; "里程碑"; "黑科技"; "一站式"; "全场景";
   "全栈赋能"; "赋能"; "闭环打通"; "打通"; "无与伦比"; "卓越"; "惊艳"; "灵动"; "丝滑"; "无缝"; "海量"; "超高";
   "超低"].
Definition FORBIDDEN_EN : list utext := u <$>
  ["powerful"; "robust"; "world-class"; "best-in-class"; "cutting-edge"; "state-of-the-art";
   "industry-leading"; "seamless"; "blazing"; "revolutionary"; "game-changing"; "effortless";
   "unparalleled"].
Definition HTML_SAFE : list utext := u <$>
  ["br"; "/br"; "p"; "/p"; "b"; "/b"; "i"; "/i"; "code"; "/code"; "span"; "/span"; "div"; "/div";
   "table"; "/table"; "tr"; "/tr"; "td"; "/td"; "th"; "/th"; "a"; "/a"; "img"; "/img"; "svg"; "/svg";
   "script"; "/script"; "style"; "/style"; "html"; "/html"].
Definition IP_ALLOW : list utext := u <$> ["127.0.0.1"; "0.0.0.0"; "255.255.255.255"].

Definition slash : N := 47.
Definition char_in (l : utext) (c : N) : bool := bool_decide (c ∈ l).
Definition alnum (c : N) : bool := ascii_letter c || ascii_digit c.

(** ** Patterns *)

Section patterns.
Context `{Unicode}.
#[local] Open Scope rx_scope.

Definition PLACEHOLDER_RE : rx :=
  lit "<" +++ NotAhead (lit "http" +++ Opt (lit "s") +++ lit ":" || lit "mailto:") +++
  Grp 1 (Rep true (fun c => negb (char_in [60; 62; 10]%N c)) 0 (Some 40%nat)) +++ lit ">".
(** A class of [A-Za-z0-9] under [(?i)]. *)
Definition alnum_i (c : N) : bool := alnum (fold_case c).
Definition SECRET_PATTERNS : list (rx * utext) :=
  [(lit "sk-" +++ Rep true alnum 16 None, u "possible OpenAI-style API key");
   (lit "AKIA" +++ times 16 (fun c => ascii_digit c || within 65 90 c)%bool, u "possible AWS Access Key");
   (lit_i (u "bearer") +++ plus u_space +++
      Rep true (fun c => alnum_i c || char_in (u "._-") c)%bool 24 None, u "possible hardcoded Bearer token");
   (Grp 1 (lit_i (u "password") || lit_i (u "passwd") || lit_i (u "secret") || lit_i (u "token")) +++
      star u_space +++ Chr (char_in (u ":=")) +++ star u_space +++ Chr is_quote +++
      Rep true (fun c => negb (is_quote c || u_space c))%bool 8 None +++ Chr is_quote,
    u "possible hardcoded password")].
Definition octet : rx := Rep true is_decimal 1 (Some 3%nat).
Definition IP_RE : rx :=
  Bound +++ Grp 1 octet +++ lit "." +++ Grp 2 octet +++ lit "." +++ Grp 3 octet +++ lit "." +++
  Grp 4 octet +++ Bound.
Definition LINK_RE : rx :=
  lit "](" +++ Grp 1 (plus (fun c => negb ((c =? 41)%N || u_space c))%bool) +++ lit ")".
Definition KEY_RE : rx :=
  Start +++ Grp 1 (Chr (fun c => ascii_letter c || (c =? 95)%N)%bool +++
                   star (fun c => alnum c || char_in (u "_-") c)%bool) +++
  star u_space +++ lit ":" +++ star u_space +++ Grp 2 (star any) +++ End_.
Definition ITEM_RE : rx :=
  Start +++ star u_space +++ lit "-" +++ plus u_space +++ Grp 1 (plus any) +++ End_.
Definition DATE_RE : rx :=
  Start +++ times 4 is_decimal +++ lit "-" +++ times 2 is_decimal +++ lit "-" +++ times 2 is_decimal +++ End_.
Definition id_char (c : N) : bool := within 97 122 c || ascii_digit c || (c =? 45)%N.
Definition DOC_ID_RE : rx :=
  Start +++ plus id_char +++ lit "/" +++ plus id_char +++ Opt (Grp 1 (lit "/" +++ plus id_char)) +++ End_.
Definition RANGE_RE : rx := lit "#L" +++ Grp 1 (plus is_decimal) +++ Opt (lit "-L" +++ Grp 2 (plus is_decimal)).
Definition word_re (w : utext) : rx := Bound +++ lit_i w +++ Bound.
Definition COMMENT_RE : rx := lit "<!--" +++ Rep false any 0 None +++ lit "-->".
Definition TAG_RE : rx := Start +++ Opt (lit "/") +++ Grp 1 (Chr ascii_letter +++ star alnum).
Definition SCHEME_RE : rx :=
  Start +++ Chr ascii_letter +++ star (fun c => alnum c || char_in (u "+.-") c)%bool +++ lit ":".
End patterns.

(** ** Data *)

Inductive level : Type := ERROR | WARN | INFO.
#[export] Instance level_eq_dec : EqDecision level.
Proof. solve_decision. Defined.
Record Finding : Type := mkFinding {
  fd_level : level; fd_code : utext; fd_file : utext; fd_line : Z; fd_msg : utext
}.
Definition level_text (l : level) : utext :=
  u (match l with ERROR => "ERROR" | WARN => "WARN" | INFO => "INFO" end).
Definition finding_str (f : Finding) : utext :=
  let loc := if (fd_line f =? 0) then fd_file f else fd_file f ++ u ":" ++ unum (fd_line f) in
  u "[" ++ level_text (fd_level f) ++ u "] " ++ fd_code f ++ u " " ++ loc ++ u "  " ++ fd_msg f.

Inductive meta_val : Type := MText (t : utext) | MList (l : list utext).
Definition meta_map : Type := list (utext * meta_val).
Record Doc : Type := mkDoc { d_path : utext; d_meta : meta_map; d_body_start : Z; d_body_lines : Z }.

(** ** The file system and os.path *)

Inductive node : Type :=
  | FileNode (content : res utext)
  | DirNode (entries : list (utext * node)).
(** Follow the components of a path; [stack] are the parents. *)
Fixpoint walk_path (stack : list node) (cur : node) (ps : list utext) : option node :=
  match ps with
  | [] => Some cur
  | p :: ps' =>
      match cur with
      | FileNode _ => None
      | DirNode es =>
          if decide (p = [] \/ p = u ".") then walk_path stack cur ps'
          else if decide (p = u "..") then
            match stack with
            | top :: stack' => walk_path stack' top ps'
            | [] => walk_path [] cur ps'
            end
          else match dget p es with
               | Some n => walk_path (cur :: stack) n ps'
               | None => None
               end
      end
  end.

Definition path_join (a b : utext) : utext :=
  if ustartswith [slash] b then b
  else if bool_decide (a = []) || uendswith [slash] a then a ++ b
  else a ++ [slash] ++ b.
(** [p[:p.rfind("/") + 1]], without the slashes at its end unless it has only
    those. *)
Definition dirname (p : utext) : utext :=
  let head := urstrip_of (fun c => negb (c =? slash)%N) p in
  if forallb (N.eqb slash) head then head else urstrip_of (N.eqb slash) head.
Definition norm_step (initial : bool) (new : list utext) (comp : utext) : list utext :=
  if decide (comp = [] \/ comp = u ".") then new
  else if decide (comp <> u ".." \/ (initial = false /\ new = []) \/ head new = Some (u ".."))
  then comp :: new
  else match new with _ :: new' => new' | [] => [] end.
Definition normpath (path : utext) : utext :=
  if decide (path = []) then u "." else
  let slashes := if ustartswith (u "//") path && negb (ustartswith (u "///") path) then u "//"
                 else if ustartswith (u "/") path then u "/" else [] in
  let comps := foldl (norm_step (bool_decide (slashes <> []))) [] (usplit slash path) in
  let out := slashes ++ ujoin [slash] (reverse comps) in
  if decide (out = []) then u "." else out.
Fixpoint drop_common (a b : list utext) : list utext * list utext :=
  match a, b with
  | x :: a', y :: b' => if decide (x = y) then drop_common a' b' else (a, b)
  | _, _ => (a, b)
  end.
Definition parts (p : utext) : list utext := filter (fun x => x <> []) (usplit slash p).
(** [os.path.relpath] of absolute paths. *)
Definition relpath (path start : utext) : utext :=
  let '(up, down) := drop_common (parts start) (parts path) in
  let rel := ((fun _ => u "..") <$> up) ++ down in
  if decide (rel = []) then u "." else ujoin [slash] rel.

Section filesystem.
Variable fs : node.
(** [fs] is the root directory; the paths are absolute. *)
Definition lookup_path (p : utext) : option node := walk_path [] fs (usplit slash p).
Definition path_exists (p : utext) : bool := found (lookup_path p).
Definition isfile (p : utext) : bool := match lookup_path p with Some (FileNode _) => true | _ => false end.
Definition isdir (p : utext) : bool := match lookup_path p with Some (DirNode _) => true | _ => false end.
Definition listdir (p : utext) : list utext :=
  match lookup_path p with Some (DirNode es) => es.*1 | _ => [] end.
Definition read_file (p : utext) : res utext :=
  match lookup_path p with
  | Some (FileNode c) => c
  | _ => Raise (OSError "cannot open")
  end.
End filesystem.

(** ** Front matter *)

Section validator.
Context `{Unicode}.

Definition fence : utext := u "---".
Fixpoint find_fence (i : Z) (ls : list utext) : option Z :=
  match ls with
  | [] => None
  | l :: ls' => if decide (ustrip l = fence) then Some i else find_fence (i + 1) ls'
  end.
(** One line of the loop: the dict so far and the current key. *)
Definition meta_line (st : meta_map * option utext) (raw : utext) : meta_map * option utext :=
  let '(meta, current) := st in
  if bool_decide (ustrip raw = []) || ustartswith (u "#") (ulstrip raw) then st else
  match (if ustartswith (u " ") raw || ustartswith [9%N] raw then None else re_match KEY_RE raw) with
  | Some m =>
      let key := default [] (group 1 m) in
      let val := ustrip (default [] (group 2 m)) in
      (dset key (if decide (val = []) then MList []
                 else if ustartswith (u "{") val && uendswith (u "}") val then MText val
                 else MText (ustrip_of is_quote val)) meta, Some key)
  | None =>
      match re_match ITEM_RE raw, current with
      | Some im, Some key =>
          let item := ustrip_of is_quote (ustrip (default [] (group 1 im))) in
          let old := match dget key meta with Some (MList l) => l | _ => [] end in
          (dset key (MList (old ++ [item])) meta, current)
      | _, _ => st
      end
  end.
Definition parse_frontmatter (text : utext) : meta_map * Z * Z :=
  let lines := splitlines text in
  let total := zlen lines in
  match lines with
  | [] => ([], 0, total)
  | first :: rest =>
      if decide (ustrip first <> fence) then ([], 0, total) else
      match find_fence 1 rest with
      | None => ([], 0, total)
      | Some end_ => ((foldl meta_line ([], None) (take (Z.to_nat (end_ - 1)) rest)).1, end_ + 1, total)
      end
  end.
Definition load_doc (fs : node) (path : utext) : res Doc :=
  match read_file fs path with
  | Ok text => let '(meta, body_start, total) := parse_frontmatter text in
               Ok (mkDoc path meta body_start (total - body_start))
  | Raise e => Raise e
  end.

(** ** Checks *)

Definition err (code : string) (rel : utext) (line : Z) (msg : utext) : Finding :=
  mkFinding ERROR (u code) rel line msg.
Definition when (b : bool) (f : Finding) : list Finding := if b then [f] else [].
(** [v if isinstance(v, str) else None], and its truth value. *)
Definition val (meta : meta_map) (k : string) : option utext :=
  match dget (u k) meta with Some (MText t) => Some t | _ => None end.
Definition given (o : option utext) : bool := match o with Some (_ :: _) => true | _ => false end.
Definition bad_value (allowed : list utext) (o : option utext) : bool :=
  given o && bool_decide (default [] o ∉ allowed).
Definition meta_true (o : option meta_val) : bool :=
  match o with Some (MText (_ :: _)) | Some (MList (_ :: _)) => true | _ => false end.

Definition check_frontmatter (doc : Doc) (rel : utext) : list Finding :=
  let meta := d_meta doc in
  match meta with
  | [] => [err "FM-MISSING" rel 1 (u "missing frontmatter (first line of the file must be ---)")]
  | _ =>
      let owner := val meta "owner" in
      let named := given owner && ustartswith (u "@") (default [] owner) in
      let st := val meta "status" in
      omap (fun key => if dmem key meta then None
                       else Some (err "FM-KEY" rel 1 (u "missing required key " ++ key))) REQUIRED_KEYS ++
      when (bad_value VALID_CLASS (val meta "class"))
        (err "FM-CLASS" rel 1 (u "invalid class: " ++ default [] (val meta "class"))) ++
      when (bad_value VALID_ENTRY (val meta "entry"))
        (err "FM-ENTRY" rel 1 (u "invalid entry: " ++ default [] (val meta "entry"))) ++
      when (bad_value VALID_STATUS st) (err "FM-STATUS" rel 1 (u "invalid status: " ++ default [] st)) ++
      when (bad_value VALID_DOC_TYPE (val meta "doc_type"))
        (err "FM-DOCTYPE" rel 1 (u "invalid doc_type: " ++ default [] (val meta "doc_type"))) ++
      when (given owner && negb named)
        (err "FM-OWNER" rel 1 (u "owner must be an @handle (a single specific person)")) ++
      when (named && (39 <? zlen (ustrip_of (N.eqb 64) (default [] owner))))
        (mkFinding WARN (u "FM-OWNER") rel 1
           (u "owner too long, looks like a team name: " ++ default [] owner)) ++
      when (given (val meta "updated") && negb (found (re_match DATE_RE (default [] (val meta "updated")))))
        (err "FM-DATE" rel 1 (u "updated must be YYYY-MM-DD: " ++ default [] (val meta "updated"))) ++
      when (given (val meta "doc_id") && negb (found (re_match DOC_ID_RE (default [] (val meta "doc_id")))))
        (err "FM-DOCID" rel 1 (u "doc_id must be <product>/<doc_type>: " ++ default [] (val meta "doc_id"))) ++
      when (bool_decide (st = Some (u "deprecated")) && negb (meta_true (dget (u "superseded_by") meta)))
        (err "FM-SUPERSEDE" rel 1 (u "status=deprecated requires superseded_by")) ++
      when (match dget (u "source_of_truth") meta with Some (MList (_ :: _)) => false | _ => true end)
        (err "FM-SOT" rel 1 (u "source_of_truth must be a non-empty list"))
  end.

(** [sum(1 for _ in fh)] *)
Definition count_lines (text : utext) : Z :=
  zlen (filter (fun c => c = 10%N) text) +
  match last text with Some c => if decide (c = 10%N) then 0 else 1 | None => 0 end.
(** [str(item).split("#")[0].strip()] *)
Definition sot_path (item : utext) : utext := ustrip (default [] (head (usplit 35 item))).
Definition sot_range (fs : node) (rel target item : utext) : list Finding :=
  if negb (ucontains (u "#L") item && isfile fs target) then [] else
  match re_search RANGE_RE item with
  | None => []
  | Some m =>
      let start := to_int (default [] (group 1 m.2)) in
      let end_ := match group 2 m.2 with Some (c :: l) => to_int (c :: l) | _ => start end in
      match read_file fs target with
      | Raise _ => []
      | Ok text =>
          let n := count_lines text in
          when ((n <? end_) || (start <? 1) || (end_ <? start))
            (err "SOT-LINE" rel 1 (u "line range out of bounds: " ++ item ++ u " (file has " ++ unum n ++ u " lines)"))
      end
  end.
Definition check_sot_item (fs : node) (rel root item : utext) : list Finding :=
  let p := sot_path item in
  if decide (p = []) then [] else
  let target := path_join root p in
  if negb (path_exists fs target)
  then [err "SOT-PATH" rel 1 (u "source_of_truth path does not exist: " ++ p)]
  else sot_range fs rel target item.
Definition check_sot_paths (fs : node) (doc : Doc) (rel root : utext) : list Finding :=
  match dget (u "source_of_truth") (d_meta doc) with
  | Some (MList items) => items ≫= check_sot_item fs rel root
  | _ => []
  end.

(** The parts of a line outside inline code, and the state after it: it toggles
    at each backtick. *)
Fixpoint prose_of (in_inline : bool) (segs : list utext) : utext * bool :=
  match segs with
  | [] => ([], in_inline)
  | [seg] => (if in_inline then [] else seg, in_inline)
  | seg :: segs' =>
      let '(rest, st) := prose_of (negb in_inline) segs' in
      ((if in_inline then [] else seg) ++ rest, st)
  end.
Definition prose_line (in_inline : bool) (line : utext) : utext * bool := prose_of in_inline (usplit 96 line).

Definition marketing (rel : utext) (idx : Z) (line : utext) : list Finding :=
  omap (fun w => if ucontains w line
                 then Some (err "RED-MKT" rel idx (u "marketing/vague word: " ++ w)) else None) FORBIDDEN_ZH ++
  omap (fun w => if found (re_search (word_re w) line)
                 then Some (err "RED-MKT" rel idx (u "marketing word: " ++ w)) else None) FORBIDDEN_EN.
(** Whether the text between angle brackets is a leftover placeholder. *)
Definition leftover (inner : utext) : bool :=
  match inner with
  | [] => false
  | c :: _ =>
      negb (bool_decide (inner ∈ HTML_SAFE)) &&
      negb (match re_match TAG_RE inner with
            | Some m => bool_decide (ulower (default [] (group 1 m)) ∈ HTML_SAFE)
            | None => false
            end) &&
      negb (isdigit c) && negb (ustartswith (u "//") inner || uendswith (u "/") inner)
  end.
Definition placeholders (rel : utext) (idx : Z) (prose : utext) : list Finding :=
  omap (fun m : Pos * Pos =>
    let inner := ustrip (default [] (group 1 m.2)) in
    if leftover inner then Some (err "RED-PH" rel idx (u "leftover placeholder: <" ++ inner ++ u ">")) else None)
    (finditer PLACEHOLDER_RE (re_sub COMMENT_RE (u " ") prose)).
Definition secrets (rel : utext) (idx : Z) (line : utext) : list Finding :=
  omap (fun p : rx * utext =>
    match re_search p.1 line with
    | Some m => if uendswith (u ">") (urstrip_of is_quote (group_all m)) then None
                else Some (err "RED-SECRET" rel idx p.2)
    | None => None
    end) SECRET_PATTERNS.
Definition raw_ips (rel : utext) (idx : Z) (line : utext) : list Finding :=
  omap (fun m => let ip := group_all m in
    if decide (ip ∈ IP_ALLOW) then None
    else Some (mkFinding WARN (u "RED-IP") rel idx
                 (u "raw IPv4 address: " ++ ip ++ u " (confirm it is not an intranet address)")))
    (finditer IP_RE line).
Definition backticks : utext := u "```".
Definition is_fence (line : utext) : bool := ustartswith backticks (ustrip line).
Fixpoint redlines_from (rel : utext) (idx : Z) (in_fence in_inline : bool) (lines : list utext) : list Finding :=
  match lines with
  | [] => []
  | line :: lines' =>
      if is_fence line then redlines_from rel (idx + 1) (negb in_fence) false lines' else
      let '(ph, in_inline') :=
        if in_fence then ([], in_inline)
        else let '(prose, st) := prose_line (in_inline && bool_decide (ustrip line <> [])) line in
             (placeholders rel idx prose, st) in
      marketing rel idx line ++ ph ++ secrets rel idx line ++ raw_ips rel idx line ++
      redlines_from rel (idx + 1) in_fence in_inline' lines'
  end.
Definition check_redlines (text rel : utext) : list Finding :=
  redlines_from rel 1 false false (splitlines text).

(** The lines without code, for the links. *)
Fixpoint stripped_lines (in_fence in_inline : bool) (lines : list utext) : list utext :=
  match lines with
  | [] => []
  | line :: lines' =>
      if is_fence line then stripped_lines (negb in_fence) false lines'
      else if in_fence || bool_decide (ustrip line = [])
      then [] :: stripped_lines in_fence (if decide (ustrip line = []) then false else in_inline) lines'
      else let '(prose, st) := prose_line in_inline line in prose :: stripped_lines in_fence st lines'
  end.
Definition check_link (fs : node) (doc_path rel target : utext) : list Finding :=
  if ustartswith (u "#") target then []
  else if found (re_match SCHEME_RE target) then [] else
  let frag := default [] (head (usplit 35 target)) in
  if decide (frag = []) then [] else
  when (negb (path_exists fs (normpath (path_join (dirname doc_path) frag))))
    (err "LINK-BROKEN" rel 0 (u "relative link target does not exist: " ++ target)).
Definition links_of (text : utext) : list utext :=
  (fun m : Pos * Pos => default [] (group 1 m.2)) <$>
    finditer LINK_RE (ujoin [10%N] (stripped_lines false false (splitlines text))).
Definition check_links (fs : node) (doc_path text rel : utext) : list Finding :=
  links_of text ≫= check_link fs doc_path rel.

Definition budget_of (meta : meta_map) : option Z :=
  match val meta "doc_type" with
  | Some dt => if decide (dt = u "get-started" /\ val meta "entry" = Some (u "guided-ui"))
               then Some GUIDED_UI_BUDGET else dget dt LINE_BUDGET
  | None => None
  end.
(** [int(limit * 0.9)] is exact for the budgets above. *)
Definition check_budget (doc : Doc) (rel : utext) : list Finding :=
  let n := d_body_lines doc in
  match val (d_meta doc) "doc_type" with
  | None => []
  | Some dt =>
      match budget_of (d_meta doc) with
      | None => [mkFinding INFO (u "BUDGET") rel 0 (u "body " ++ unum n ++ u " lines (" ++ dt ++ u " has no hard cap)")]
      | Some limit =>
          if limit <? n then
            [err "BUDGET" rel 0 (u "body " ++ unum n ++ u " lines, exceeds the " ++ dt ++ u " budget of " ++
               unum limit ++ u " lines (over by " ++ unum (n - limit) ++ u ")")]
          else if limit * 9 / 10 <? n then
            [mkFinding WARN (u "BUDGET") rel 0 (u "body " ++ unum n ++ u " lines, close to the " ++ dt ++
               u " budget cap of " ++ unum limit)]
          else [mkFinding INFO (u "BUDGET") rel 0 (u "body " ++ unum n ++ u " lines / cap " ++ unum limit)]
      end
  end.

Definition check_bi_lingual (doc : Doc) (rel : utext) : list Finding :=
  match dget (u "title") (d_meta doc) with
  | Some (MText t) =>
      when (negb (ucontains (u "zh") t && ucontains (u "en") t))
        (mkFinding WARN (u "I18N-TITLE") rel 1 (u "title should be { zh: ..., en: ... }"))
  | Some (MList _) =>
      [mkFinding WARN (u "I18N-TITLE") rel 1 (u "title failed to parse, check indentation")]
  | None => []
  end.

Definition grid {A} (cls entry : utext) (t : list (utext * utext * A)) : option A :=
  dget (cls, entry) t.
Definition tier1_doc (fs : node) (root cls entry rel : utext) : list Finding :=
  let p := path_join root rel in
  if negb (path_exists fs p)
  then [err "INV-T1" rel 0 (u "Tier 1 doc missing (grid position " ++ cls ++ u "x" ++ entry ++ u ")")]
  else when (isdir fs p && bool_decide (listdir fs p = [])) (err "INV-T1" rel 0 (u "Tier 1 directory is empty")).
Definition min_count (fs : node) (root : utext) (need : utext * Z) : list Finding :=
  let d := path_join root need.1 in
  if negb (isdir fs d) then [] else
  let n := zlen (filter (fun f => uendswith (u ".md") f && negb (ustartswith (u "_") f) = true) (listdir fs d)) in
  when (n <? need.2)
    (err "INV-COUNT" need.1 0 (u "need at least " ++ unum need.2 ++ u " docs, found " ++ unum n)).
Definition check_inventory (fs : node) (root cls entry : utext) : list Finding :=
  match grid cls entry TIER1 with
  | None => [err "INV-KEY" root 0 (u "grid position does not exist: class=" ++ cls ++ u " entry=" ++ entry ++
                                   u " (see master spec section 2.3)")]
  | Some docs =>
      omap (fun rel => if path_exists fs (path_join root rel) then None
                       else Some (err "INV-T0" rel 0 (u "Tier 0 doc missing"))) TIER0 ++
      (docs ≫= tier1_doc fs root cls entry) ++
      (default [] (grid cls entry TIER1_MIN_COUNT) ≫= min_count fs root)
  end.

(** ** The run *)

Definition skipped (skip : list utext) (d : utext) : bool :=
  bool_decide (d ∈ skip) || ustartswith (u ".") d.
(** [os.walk] with the directories pruned; the order in which it meets files does
    not matter, since [iter_docs] sorts them. *)
Fixpoint md_files (skip : list utext) (dirpath : utext) (n : node) : list utext :=
  match n with
  | FileNode _ => []
  | DirNode es =>
      (fix go es := match es with
       | [] => []
       | (name, child) :: es' =>
           match child with
           | FileNode _ => if uendswith (u ".md") name then [path_join dirpath name] else []
           | DirNode _ => if skipped skip name then [] else md_files skip (path_join dirpath name) child
           end ++ go es'
       end) es
  end.
Definition iter_docs (fs : node) (root : utext) (skip : list utext) : list utext :=
  sort_by ule (match lookup_path fs root with Some n => md_files skip root n | None => [] end).

(** The parsed command line. *)
Record Args : Type := mkArgs {
  a_root : utext; a_product : option utext; a_cls : option utext; a_entry : option utext;
  a_strict : bool; a_skip_inventory : bool; a_skip_placeholder : bool; a_skip_dirs : utext
}.
Record Outcome : Type := mkOutcome { o_code : Z; o_stdout : list utext; o_stderr : list utext }.
Definition usage (msg : utext) : res Outcome := Ok (mkOutcome 2 [] [msg]).
Definition abspath (cwd p : utext) : utext := normpath (path_join cwd p).
Definition skip_list (dirs : utext) : list utext :=
  filter (fun x => x <> []) (ustrip <$> usplit 44 dirs).

Definition doc_findings (fs : node) (root path text : utext) (doc : Doc) : list Finding :=
  let rel := relpath path root in
  check_frontmatter doc rel ++ check_sot_paths fs doc rel root ++ check_budget doc rel ++
  check_bi_lingual doc rel ++ check_links fs path text rel ++ check_redlines text rel.
(** [findings[:] = [f for f in findings if not (f.code == "RED-PH" and f.file == rel)]] *)
Definition drop_placeholders (rel : utext) (fs : list Finding) : list Finding :=
  filter (fun f => ~ (fd_code f = u "RED-PH" /\ fd_file f = rel)) fs.
Fixpoint check_docs (fs : node) (a : Args) (root : utext) (paths : list utext) (findings : list Finding)
    : res (list Finding) :=
  match paths with
  | [] => Ok findings
  | path :: paths' =>
      match load_doc fs path, read_file fs path with
      | Ok doc, Ok text =>
          let all := findings ++ doc_findings fs root path text doc in
          check_docs fs a root paths'
            (if a_skip_placeholder a then drop_placeholders (relpath path root) all else all)
      | Raise e, _ | _, Raise e => Raise e
      end
  end.
Definition of_level (l : level) (fs : list Finding) : list Finding := filter (fun f => fd_level f = l) fs.
Definition summary (a : Args) (docs : list utext) (findings : list Finding) : Outcome :=
  let errs := of_level ERROR findings in
  let warns := of_level WARN findings in
  let infos := of_level INFO findings in
  mkOutcome (if bool_decide (errs <> []) then 1 else if a_strict a && bool_decide (warns <> []) then 1 else 0)
    ((finding_str <$> errs ++ warns ++ infos) ++
     [[]; u "scanned " ++ unum (zlen docs) ++ u " docs | ERROR " ++ unum (zlen errs) ++ u " | WARN " ++
          unum (zlen warns) ++ u " | INFO " ++ unum (zlen infos)]) [].
Definition docs_main (fs : node) (cwd : utext) (a : Args) : res Outcome :=
  let root := abspath cwd (a_root a) in
  if negb (isdir fs root) then usage (u "[ERROR] root does not exist: " ++ root) else
  let incomplete := given (a_product a) && negb (given (a_cls a) && given (a_entry a)) in
  if incomplete then usage (u "[ERROR] --class and --entry are required together with --product") else
  let inventory := if given (a_product a) && negb (a_skip_inventory a)
                   then check_inventory fs root (default [] (a_cls a)) (default [] (a_entry a)) else [] in
  let docs := iter_docs fs root (skip_list (a_skip_dirs a)) in
  if bool_decide (docs = []) then usage (u "[ERROR] no .md files found under " ++ root) else
  match check_docs fs a root docs inventory with
  | Ok findings => Ok (summary a docs findings)
  | Raise e => Raise e
  end.
End validator.

(** ** What a passing run means *)

Section passing.
Context `{Unicode}.

Definition link_ok (fs : node) (path target : utext) : Prop :=
  let frag := default [] (head (usplit 35 target)) in
  ustartswith (u "#") target = true \/ found (re_match SCHEME_RE target) = true \/ frag = [] \/
  path_exists fs (normpath (path_join (dirname path) frag)) = true.
(** A text with the word nowhere, whatever the case of its letters. *)
Definition free_of (w line : utext) : Prop :=
  forall b t, (b = None /\ t = line) \/ (exists p c, line = p ++ c :: t /\ b = Some c) ->
    forall s', ~ matches (word_re w) (mkPos b t []) s'.
Record doc_ok (fs : node) (root path text : utext) (doc : Doc) : Prop := {
  ok_keys : forall k, k ∈ REQUIRED_KEYS -> dmem k (d_meta doc) = true;
  ok_values : forall k allowed t,
    (k, allowed) ∈ [("class", VALID_CLASS); ("entry", VALID_ENTRY); ("status", VALID_STATUS);
                    ("doc_type", VALID_DOC_TYPE)] ->
    val (d_meta doc) k = Some t -> t <> [] -> t ∈ allowed;
  ok_sources : exists items, dget (u "source_of_truth") (d_meta doc) = Some (MList items) /\ items <> [] /\
    Forall (fun i => sot_path i <> [] -> path_exists fs (path_join root (sot_path i)) = true) items;
  ok_budget : forall limit, budget_of (d_meta doc) = Some limit -> d_body_lines doc <= limit;
  ok_links : Forall (link_ok fs path) (links_of text);
  ok_words : forall line, line ∈ splitlines text -> is_fence line = false ->
    (forall w, w ∈ FORBIDDEN_ZH -> ucontains w line = false) /\
    (forall w, w ∈ FORBIDDEN_EN -> free_of w line);
  ok_secrets : forall line p m, line ∈ splitlines text -> is_fence line = false -> p ∈ SECRET_PATTERNS ->
    re_search p.1 line = Some m -> uendswith (u ">") (urstrip_of is_quote (group_all m)) = true
}.

(** No finding of the list is an error that survives [--skip-placeholder]. *)
Definition error_free (l : list Finding) : Prop :=
  forall f, f ∈ l -> fd_level f = ERROR -> fd_code f = u "RED-PH".
Lemma error_free_app l l' : error_free (l ++ l') <-> error_free l /\ error_free l'.
Proof. unfold error_free. set_solver. Qed.
Lemma error_free_when b f : error_free (when b f) -> fd_level f = ERROR -> fd_code f <> u "RED-PH" -> b = false.
Proof. unfold error_free, when. intros Hf Hl Hc. destruct b; [|done]. destruct Hc. apply Hf; [left|done]. Qed.
Lemma error_free_omap {A} (g : A -> option Finding) l x f :
  error_free (omap g l) -> x ∈ l -> g x = Some f -> fd_level f = ERROR -> fd_code f = u "RED-PH".
Proof. intros Hf Hx Hg. apply Hf. apply list_elem_of_omap. eauto. Qed.
Lemma error_free_bind {A} (g : A -> list Finding) l x :
  error_free (l ≫= g) -> x ∈ l -> error_free (g x).
Proof. intros Hf Hx f Hin. apply Hf. apply list_elem_of_bind. eauto. Qed.

Lemma check_docs_keeps fs a root paths F G f :
  check_docs fs a root paths F = Ok G -> f ∈ F -> fd_code f <> u "RED-PH" -> f ∈ G.
Proof.
  revert F. induction paths as [|p ps IH]; intros F E Hf Hc; simpl in E; [by simplify_eq|].
  destruct (load_doc fs p) as [doc|], (read_file fs p) as [text|]; try done.
  eapply IH; [exact E| |done]. case_match; [|set_solver].
  unfold drop_placeholders. apply list_elem_of_filter. split; [naive_solver|set_solver].
Qed.
Lemma check_docs_covers fs a root paths F G p :
  check_docs fs a root paths F = Ok G -> p ∈ paths ->
  exists doc text, load_doc fs p = Ok doc /\ read_file fs p = Ok text /\
    forall f, f ∈ doc_findings fs root p text doc -> fd_code f <> u "RED-PH" -> f ∈ G.
Proof.
  revert F. induction paths as [|q ps IH]; intros F E Hp; [by apply not_elem_of_nil in Hp|]. simpl in E.
  destruct (load_doc fs q) as [doc|] eqn:Ed, (read_file fs q) as [text|] eqn:Et; try done.
  apply elem_of_cons in Hp as [->|Hp]; [|by eapply IH].
  exists doc, text. do 2 (split; [done|]). intros f Hf Hc. eapply check_docs_keeps; [exact E| |done].
  case_match; [|set_solver]. apply list_elem_of_filter. split; [naive_solver|set_solver].
Qed.

Lemma redlines_clean rel idx b1 b2 lines line :
  error_free (redlines_from rel idx b1 b2 lines) -> line ∈ lines -> is_fence line = false ->
  exists i, error_free (marketing rel i line) /\ error_free (secrets rel i line).
Proof.
  revert idx b1 b2. induction lines as [|l ls IH]; intros idx b1 b2 Hf Hin Hn; [by apply not_elem_of_nil in Hin|].
  simpl in Hf. destruct (is_fence l) eqn:El.
  - apply elem_of_cons in Hin as [->|Hin]; [congruence|]. by eapply IH.
  - destruct (if b1 then _ else _) as [ph st]. rewrite !error_free_app in Hf.
    destruct Hf as (Hm & _ & Hs & _ & Hrest).
    apply elem_of_cons in Hin as [->|Hin]; [by exists idx|by eapply IH].
Qed.

(** No check but the one for placeholders reports under its code. *)
Lemma error_free_one code rel line msg :
  u code <> u "RED-PH" -> error_free [err code rel line msg] -> False.
Proof. intros Hc Hf. apply Hc. apply (Hf (err code rel line msg)); [left|done]. Qed.
Lemma error_free_missing {A} (g : A -> option Finding) (P : A -> bool) code l x :
  u code <> u "RED-PH" ->
  (forall x, P x = true -> exists rel line msg, g x = Some (err code rel line msg)) ->
  error_free (omap g l) -> x ∈ l -> P x = false.
Proof.
  intros Hc Hg Hf Hx. destruct (P x) eqn:E; [|done]. destruct (Hg x E) as (rel & line & msg & Eg).
  destruct Hc. exact (error_free_omap _ _ _ _ Hf Hx Eg eq_refl).
Qed.
Lemma error_free_guard b code rel line msg :
  u code <> u "RED-PH" -> error_free (when b (err code rel line msg)) -> b = false.
Proof. intros Hc Hf. by eapply error_free_when. Qed.

Ltac other_code := apply (bool_decide_unpack _); vm_compute; exact I.

Lemma frontmatter_clean doc rel : error_free (check_frontmatter doc rel) ->
  (forall k, k ∈ REQUIRED_KEYS -> dmem k (d_meta doc) = true) /\
  (forall k allowed t,
    (k, allowed) ∈ [("class", VALID_CLASS); ("entry", VALID_ENTRY); ("status", VALID_STATUS);
                    ("doc_type", VALID_DOC_TYPE)] ->
    val (d_meta doc) k = Some t -> t <> [] -> t ∈ allowed) /\
  exists items, dget (u "source_of_truth") (d_meta doc) = Some (MList items) /\ items <> [].
Proof.
  unfold check_frontmatter. destruct (d_meta doc) as [|kv meta] eqn:Em; intros Hf.
  { exfalso. eapply error_free_one, Hf. other_code. }
  rewrite !error_free_app in Hf. destruct Hf as (Hkeys & Hcls & Hent & Hst & Hdt & _ & _ & _ & _ & _ & Hsot).
  apply error_free_guard in Hcls; [|other_code].
  apply error_free_guard in Hent; [|other_code].
  apply error_free_guard in Hst; [|other_code].
  apply error_free_guard in Hdt; [|other_code].
  apply error_free_guard in Hsot; [|other_code].
  split_and!.
  - intros k Hk. apply negb_false_iff.
    eapply (error_free_missing _ (fun k => negb (dmem k (kv :: meta))) "FM-KEY"); [other_code| |exact Hkeys|exact Hk].
    intros x Hx%negb_true_iff. cbv beta. rewrite Hx. eauto.
  - assert (forall k allowed t, bad_value allowed (val (kv :: meta) k) = false ->
      val (kv :: meta) k = Some t -> t <> [] -> t ∈ allowed) as Hval.
    { intros k allowed t Hb Hv Ht. unfold bad_value in Hb. rewrite Hv in Hb. simpl in Hb. destruct t; [done|].
      simpl in Hb. apply bool_decide_eq_false in Hb. by destruct (decide (n :: t ∈ allowed)). }
    intros k allowed t Hk. rewrite !elem_of_cons, elem_of_nil in Hk.
    destruct Hk as [[= -> ->]|[[= -> ->]|[[= -> ->]|[[= -> ->]|[]]]]]; by apply Hval.
  - clear -Hsot. destruct (dget _ (kv :: meta)) as [[|[|i items]]|]; [done..| |done]. by exists (i :: items).
Qed.

Lemma sources_clean fs doc rel root items : error_free (check_sot_paths fs doc rel root) ->
  dget (u "source_of_truth") (d_meta doc) = Some (MList items) ->
  Forall (fun i => sot_path i <> [] -> path_exists fs (path_join root (sot_path i)) = true) items.
Proof.
  unfold check_sot_paths. intros Hf Hi. rewrite Hi in Hf. apply Forall_forall. intros i Hin Hp.
  apply (error_free_bind _ _ i) in Hf; [|done]. unfold check_sot_item in Hf. rewrite decide_False in Hf by done.
  destruct (path_exists _ _); [done|]. exfalso. eapply error_free_one, Hf. other_code.
Qed.
Lemma budget_clean doc rel limit : error_free (check_budget doc rel) ->
  budget_of (d_meta doc) = Some limit -> d_body_lines doc <= limit.
Proof.
  unfold check_budget. intros Hf Hb. rewrite Hb in Hf. unfold budget_of in Hb.
  destruct (val (d_meta doc) "doc_type"); [|done]. destruct (limit <? d_body_lines doc) eqn:E; [|by apply Z.ltb_ge in E].
  exfalso. eapply error_free_one, Hf. other_code.
Qed.
Lemma links_clean fs path text rel : error_free (check_links fs path text rel) ->
  Forall (link_ok fs path) (links_of text).
Proof.
  intros Hf. apply Forall_forall. intros t Ht. apply (error_free_bind _ _ t) in Hf; [|done].
  unfold check_link in Hf. unfold link_ok. destruct (ustartswith _ t); [by left|].
  destruct (found _); [by right; left|]. case_decide; [by right; right; left|].
  apply error_free_guard in Hf; [|other_code]. apply negb_false_iff in Hf. by right; right; right.
Qed.
Lemma words_clean rel i line : error_free (marketing rel i line) ->
  (forall w, w ∈ FORBIDDEN_ZH -> ucontains w line = false) /\ (forall w, w ∈ FORBIDDEN_EN -> free_of w line).
Proof.
  unfold marketing. rewrite error_free_app. intros [Hz He]. split; intros w Hw.
  - eapply (error_free_missing _ (fun w => ucontains w line) "RED-MKT"); [other_code| |exact Hz|exact Hw].
    intros x Hx. cbv beta. rewrite Hx. eauto.
  - unfold free_of. apply search_exact.
    assert (found (re_search (word_re w) line) = false) as Hn; [|by destruct (re_search _ line)].
    eapply (error_free_missing _ (fun w => found (re_search (word_re w) line)) "RED-MKT");
      [other_code| |exact He|exact Hw].
    intros x Hx. cbv beta. rewrite Hx. eauto.
Qed.
Lemma secrets_clean rel i line p m : error_free (secrets rel i line) -> p ∈ SECRET_PATTERNS ->
  re_search p.1 line = Some m -> uendswith (u ">") (urstrip_of is_quote (group_all m)) = true.
Proof.
  intros Hf Hp Hm.
  pose (P := fun p : rx * utext => match re_search p.1 line with
    | Some m => negb (uendswith (u ">") (urstrip_of is_quote (group_all m))) | None => false end).
  assert (P p = false) as HP; [|by unfold P in HP; rewrite Hm in HP; apply negb_false_iff].
  eapply (error_free_missing _ P "RED-SECRET"); [other_code| |exact Hf|exact Hp].
  intros x Hx. unfold P in Hx. cbv beta. destruct (re_search x.1 line); [|done].
  apply negb_true_iff in Hx. rewrite Hx. eauto.
Qed.

(** [C38] A run that exits with 0 vouches for every Markdown file it looks at:
    its front matter is complete and its values are legal, every path of
    [source_of_truth] exists, its body is within its budget, every relative
    link leads to a file, and outside the lines that open or close a code fence
    there is no banned word and no secret. *)
Theorem passing_docs_ok fs cwd a o path :
  docs_main fs cwd a = Ok o -> o_code o = 0 ->
  let root := abspath cwd (a_root a) in
  path ∈ iter_docs fs root (skip_list (a_skip_dirs a)) ->
  exists doc text, load_doc fs path = Ok doc /\ read_file fs path = Ok text /\ doc_ok fs root path text doc.
Proof.
  intros E Hcode root Hp. unfold docs_main, usage in E. fold root in E.
  destruct (negb _); [by simplify_eq|]. destruct (_ && _); [by simplify_eq|].
  destruct (bool_decide _); [by simplify_eq|]. destruct (check_docs _ _ _ _ _) as [G|] eqn:Ec; [|done].
  simplify_eq. destruct (check_docs_covers _ _ _ _ _ _ _ Ec Hp) as (doc & text & Hd & Ht & Hin).
  exists doc, text. do 2 (split; [done|]).
  assert (error_free (doc_findings fs root path text doc)) as Hf.
  { intros f Hf Hl. destruct (decide (fd_code f = u "RED-PH")) as [|Hc]; [done|]. exfalso.
    specialize (Hin f Hf Hc). unfold summary in Hcode. simpl in Hcode.
    destruct (decide (of_level ERROR G = [])) as [D|D]; [|by rewrite bool_decide_eq_true_2 in Hcode].
    apply (not_elem_of_nil f). rewrite <- D. by apply list_elem_of_filter. }
  clear -Hf. unfold doc_findings in Hf. rewrite !error_free_app in Hf.
  destruct Hf as (Hfm & Hsot & Hbud & _ & Hlinks & Hred).
  apply frontmatter_clean in Hfm as (Hkeys & Hvals & items & Hi & Hne).
  split; [done|done| | | | |].
  - exists items. eauto using sources_clean.
  - intros limit. by apply budget_clean with (rel := relpath path root).
  - by eapply links_clean.
  - intros line Hl Hn. destruct (redlines_clean _ _ _ _ _ _ Hred Hl Hn) as (i & Hm & _). by eapply words_clean.
  - intros line p m Hl Hn Hpat Hm. destruct (redlines_clean _ _ _ _ _ _ Hred Hl Hn) as (i & _ & Hs).
    by eapply secrets_clean.
Qed.
End passing.

(** ** Front matter round trip *)

Section roundtrip.
Context `{Unicode}.

Definition key_char (c : N) : bool := alnum c || char_in (u "_-") c.
Definition key_ok (k : utext) : Prop :=
  match k with
  | c :: l => (ascii_letter c || (c =? 95)%N) = true /\ Forall (fun c => key_char c = true) l
  | [] => False
  end.
(** A text on one line that neither starts nor ends with white space or a quote. *)
Definition plain (t : utext) : Prop :=
  t <> [] /\ one_line t /\
  forall c, head t = Some c \/ last t = Some c -> u_space c = false /\ is_quote c = false.
Definition entry_ok (kv : utext * meta_val) : Prop :=
  key_ok kv.1 /\ match kv.2 with MText t => plain t | MList l => Forall plain l end.
Definition item_line (i : utext) : utext := u "  - " ++ i.
Definition entry_lines (kv : utext * meta_val) : list utext :=
  match kv.2 with
  | MText t => [kv.1 ++ u ": " ++ t]
  | MList l => (kv.1 ++ u ":") :: (item_line <$> l)
  end.
Definition header (m : meta_map) : list utext := fence :: (m ≫= entry_lines) ++ [fence].

Lemma any_one_line t : one_line t -> Forall (fun c => any c = true) t.
Proof.
  intros Ht. eapply Forall_impl; [exact Ht|]. intros c Hc. unfold any. apply negb_true_iff, N.eqb_neq. intros ->. vm_compute in Hc. done.
Qed.
(** Colons and spaces end a key. *)
Lemma key_line_match k sp t :
  key_ok k -> Forall (fun c => u_space c = true) sp -> one_line t -> stops u_space t ->
  exists m, re_match KEY_RE (k ++ u ":" ++ sp ++ t) = Some m /\ group 1 m = Some k /\ group 2 m = Some t.
Proof.
  intros Hk Hsp Ht Hst. destruct k as [|c l]; [done|]. destruct Hk as [Hc Hl].
  apply yields_cat, yields_start, yields_cat, yields_grp, yields_cat.
  change ((c :: l) ++ u ":" ++ sp ++ t) with (c :: (l ++ 58%N :: sp ++ t)).
  apply yields_chr; [done|]. intros b1. apply yields_rep; [done|done|simpl; lia|]. intros b2.
  change (c :: l ++ 58%N :: sp ++ t) with ((c :: l) ++ (58%N :: sp ++ t)). rewrite capture_app.
  apply yields_cat, (yields_rep u_space 0 b2 [] (58%N :: sp ++ t)); [by constructor|done|simpl; lia|]. intros b3.
  apply yields_cat, yields_chr; [done|]. intros b4.
  apply yields_cat, yields_rep; [done|done|lia|]. intros b5.
  apply yields_cat, yields_grp, yields_rest; [by apply any_one_line|lia|]. intros b6. rewrite capture_rest.
  apply yields_end. eexists. split; [done|]. split; reflexivity.
Qed.
Lemma item_line_match i : plain i ->
  exists m, re_match ITEM_RE (item_line i) = Some m /\ group 1 m = Some i.
Proof.
  intros (Hne & Hl & Hends). unfold item_line.
  apply yields_cat, yields_start, yields_cat.
  apply (yields_rep u_space 0 None (u "  ") (u "- " ++ i)); [by repeat constructor|done|vm_compute; lia|]. intros b1.
  apply yields_cat. change (u "- " ++ i) with (45%N :: [32%N] ++ i). apply yields_chr; [done|]. intros b2.
  apply yields_cat, yields_rep; [by repeat constructor| |simpl; lia|].
  { destruct i as [|c i]; [done|]. apply Hends. by left. }
  intros b3. apply yields_cat, yields_grp, yields_rest; [by apply any_one_line|destruct i; [done|simpl; lia]|].
  intros b4. rewrite capture_rest.
  apply yields_end. eexists. split; [done|]. reflexivity.
Qed.

Lemma plain_strip i : plain i -> ustrip i = i /\ ustrip_of is_quote i = i.
Proof. intros (_ & _ & He). split; apply strip_keep; intros c Hc; by apply He. Qed.
Lemma letter_head c : (ascii_letter c || (c =? 95)%N) = true ->
  u_space c = false /\ line_break c = false /\ c <> 35%N /\ c <> 32%N /\ c <> 9%N /\ c <> 45%N.
Proof.
  unfold ascii_letter, u_space, line_break, within.
  rewrite !orb_true_iff, !andb_true_iff, !N.leb_le, N.eqb_eq. intros Hc.
  split_and!; try lia; repeat (apply orb_false_iff; split);
    first [apply andb_false_iff; rewrite !N.leb_gt; lia | apply bool_decide_eq_false; set_unfold; lia].
Qed.

Lemma key_line_head k rest : key_ok k ->
  exists c l l', k ++ rest = c :: l /\ (ascii_letter c || (c =? 95)%N) = true /\
    ustrip (k ++ rest) = c :: l' /\ ulstrip (k ++ rest) = k ++ rest.
Proof.
  intros Hk. destruct k as [|c l]; [done|]. destruct Hk as [Hc _]. pose proof (letter_head c Hc) as (Hs & _).
  destruct (strip_head u_space c (l ++ rest) Hs) as [l' E]. exists c, (l ++ rest), l'. split_and!; [done..|].
  unfold ulstrip. simpl. by rewrite Hs.
Qed.
Lemma meta_line_key meta cur k sp t :
  key_ok k -> Forall (fun c => u_space c = true) sp -> one_line t -> stops u_space t ->
  meta_line (meta, cur) (k ++ u ":" ++ sp ++ t) =
  (dset k (if decide (ustrip t = []) then MList []
           else if ustartswith (u "{") (ustrip t) && uendswith (u "}") (ustrip t) then MText (ustrip t)
           else MText (ustrip_of is_quote (ustrip t))) meta, Some k).
Proof.
  intros Hk Hsp Ht Hst. destruct (key_line_match k sp t Hk Hsp Ht Hst) as (m & Em & E1 & E2).
  destruct (key_line_head k (u ":" ++ sp ++ t) Hk) as (c & l & l' & El & Hc & Es & Eu).
  pose proof (letter_head c Hc) as (_ & _ & H35 & H32 & H9 & _).
  unfold meta_line. rewrite Es, Eu, El. rewrite bool_decide_eq_false_2 by done.
  change (u "#") with [35%N]. change (u " ") with [32%N]. cbn [ustartswith].
  rewrite !(proj2 (N.eqb_neq _ _)) by congruence. cbn [orb andb]. rewrite <- El, Em, E1, E2. done.
Qed.
Lemma meta_line_item meta k l i :
  plain i -> dget k meta = Some (MList l) ->
  meta_line (meta, Some k) (item_line i) = (dset k (MList (l ++ [i])) meta, Some k).
Proof.
  intros Hi Hk. destruct (item_line_match i Hi) as (m & Em & E1).
  destruct (strip_head u_space 45 (32%N :: i) eq_refl) as [l' Es].
  assert (ustrip (item_line i) = 45%N :: l') as Es' by (rewrite <- Es; reflexivity).
  unfold meta_line. rewrite Es', Em, E1, Hk.
  change (ustartswith (u "#") (ulstrip (item_line i))) with false.
  change (ustartswith (u " ") (item_line i)) with true. simpl.
  destruct (plain_strip i Hi) as [E2 E3]. by rewrite E2, E3.
Qed.

Lemma dset_snoc (meta : meta_map) k v w : k ∉ dkeys meta -> dset k w (meta ++ [(k, v)]) = meta ++ [(k, w)].
Proof.
  unfold dkeys. induction meta as [|[k' v'] meta IH]; csimpl; intros Hk; [by rewrite decide_True|].
  rewrite decide_False by set_solver. by rewrite IH by set_solver.
Qed.
Lemma dget_last (meta : meta_map) k v : k ∉ dkeys meta -> dget k (meta ++ [(k, v)]) = Some v.
Proof.
  unfold dkeys. induction meta as [|[k' v'] meta IH]; csimpl; intros Hk; [by rewrite decide_True|].
  rewrite decide_False by set_solver. apply IH. set_solver.
Qed.
Lemma fold_items meta k l items :
  k ∉ dkeys meta -> Forall plain items ->
  foldl meta_line (meta ++ [(k, MList l)], Some k) (item_line <$> items) =
  (meta ++ [(k, MList (l ++ items))], Some k).
Proof.
  intros Hk Hi. revert l. induction Hi as [|i items Hi _ IH]; intros l; [by rewrite app_nil_r|].
  cbn [fmap list_fmap foldl]. rewrite (meta_line_item _ k l i Hi) by (by apply dget_last).
  by rewrite dset_snoc, IH, <- app_assoc by done.
Qed.
Lemma fold_entry meta cur kv :
  kv.1 ∉ dkeys meta -> entry_ok kv -> foldl meta_line (meta, cur) (entry_lines kv) = (meta ++ [kv], Some kv.1).
Proof.
  destruct kv as [k v]. intros Hk [Hkey Hv]. unfold entry_lines. cbn [fst snd] in *. destruct v as [t|items]; cbn [foldl].
  - pose proof (plain_strip t Hv) as [E1 E2]. destruct Hv as (Hne & Hl & He).
    etrans; [apply (meta_line_key meta cur k [32%N] t); [done|by repeat constructor|done|]|].
    { destruct t as [|c t]; [done|]. apply He. by left. }
    rewrite E1, E2, decide_False by done. rewrite dset_fresh by done. by destruct (_ && _).
  - assert (meta_line (meta, cur) (k ++ u ":") = (meta ++ [(k, MList [])], Some k)) as ->.
    { etrans; [apply (meta_line_key meta cur k [] []); [done|constructor..|done]|]. by rewrite dset_fresh. }
    by rewrite (fold_items meta k []).
Qed.
Lemma fold_entries meta cur m :
  Forall entry_ok m -> dict_wf (meta ++ m) -> (foldl meta_line (meta, cur) (m ≫= entry_lines)).1 = meta ++ m.
Proof.
  intros Hm. revert meta cur. induction Hm as [|kv m Hkv _ IH]; intros meta cur Hwf; simpl; [by rewrite app_nil_r|].
  rewrite foldl_app, fold_entry; [|..|done].
  - rewrite (cons_middle kv meta m), app_assoc in *. by apply IH.
  - unfold dict_wf, dkeys in *. rewrite fmap_app in Hwf. apply NoDup_app in Hwf as (_ & Hd & _).
    intros Hin. apply (Hd kv.1 Hin). csimpl. left.
Qed.

(** No line of an entry is taken for the end, and each is one line. *)
Lemma entry_line_ok kv l : entry_ok kv -> l ∈ entry_lines kv -> one_line l /\ ustrip l <> fence.
Proof.
  destruct kv as [k v]. intros [Hk Hv] Hl. cbn [fst snd] in *.
  assert (forall rest, one_line rest -> one_line (k ++ rest) /\ ustrip (k ++ rest) <> fence) as Hline.
  { intros rest Hr. split.
    - apply Forall_app. split; [|done]. destruct k as [|c k]; [done|]. destruct Hk as [Hc Hk].
      constructor; [by apply letter_head|]. eapply Forall_impl; [exact Hk|]. intros x Hx.
      unfold key_char, alnum in Hx. rewrite !orb_true_iff in Hx. destruct Hx as [[Hx|Hx]|Hx].
      + apply letter_head. by rewrite Hx.
      + unfold ascii_digit, within, line_break in *. rewrite andb_true_iff, !N.leb_le in Hx. unfold within.
        repeat (apply orb_false_iff; split);
          first [apply andb_false_iff; rewrite !N.leb_gt; lia | apply bool_decide_eq_false; set_unfold; lia].
      + unfold char_in in Hx. rewrite bool_decide_eq_true in Hx.
        change (u "_-") with [95; 45]%N in Hx. set_unfold in Hx. by destruct Hx as [->|[->|[]]].
    - destruct (key_line_head k rest Hk) as (c & ? & l' & _ & Hc & -> & _).
      pose proof (letter_head c Hc) as (_ & _ & _ & _ & _ & H45). change fence with [45; 45; 45]%N. congruence. }
  assert (forall i, plain i -> one_line (item_line i) /\ ustrip (item_line i) <> fence) as Hitem.
  { intros i (Hne & Ho & He). split; [by repeat constructor|].
    assert (ustrip (item_line i) = ustrip_of u_space (45%N :: 32%N :: i)) as -> by reflexivity.
    rewrite strip_keep; [done|]. intros c [[= <-]|Hl']; [done|]. destruct i as [|d i]; [done|].
    apply He. right. exact Hl'. }
  destruct v as [t|items]; simpl in Hl.
  - apply list_elem_of_singleton in Hl as ->. apply Hline. apply Forall_app. split; [by repeat constructor|apply Hv].
  - apply elem_of_cons in Hl as [->|Hl]; [apply Hline; by repeat constructor|].
    apply list_elem_of_fmap in Hl as (i & -> & Hi). rewrite Forall_forall in Hv. by apply Hitem, Hv.
Qed.
Lemma find_fence_app i ls rest :
  Forall (fun l => ustrip l <> fence) ls -> find_fence i (ls ++ fence :: rest) = Some (i + zlen ls).
Proof.
  intros Hl. revert i. induction Hl as [|l ls Hl _ IH]; intros i; simpl; unfold zlen in *; [f_equal; simpl; lia|].
  rewrite decide_False by done. rewrite IH. f_equal. simpl. lia.
Qed.

(** [C39] Front matter is read back as it was written: for entries with distinct
    keys whose values are plain texts or lists of plain texts, the parser gives
    back the same entries in order, the line at which the body starts and the
    number of lines, whatever the body is. *)
Theorem frontmatter_roundtrip m body :
  dict_wf m -> Forall entry_ok m -> Forall one_line body ->
  parse_frontmatter (text_of (header m ++ body)) = (m, zlen (header m), zlen (header m ++ body)).
Proof.
  intros Hwf Hm Hbody.
  assert (Forall (fun l => one_line l /\ ustrip l <> fence) (m ≫= entry_lines)) as Hlines.
  { apply Forall_forall. intros l (kv & Hl & Hkv)%list_elem_of_bind. rewrite Forall_forall in Hm.
    eapply entry_line_ok; [by apply Hm|done]. }
  unfold parse_frontmatter. rewrite splitlines_text.
  2: { unfold header. simpl. constructor; [by repeat constructor|]. rewrite !Forall_app. split_and!; [|by repeat constructor|done].
       eapply Forall_impl; [exact Hlines|]. by intros ? []. }
  unfold header. cbn [app]. rewrite decide_False by (intros Hn; by apply Hn).
  rewrite <- app_assoc. cbn [app].
  rewrite find_fence_app by (eapply Forall_impl; [exact Hlines|]; by intros ? []).
  f_equal. f_equal.
  - replace (Z.to_nat (1 + zlen (m ≫= entry_lines) - 1)) with (length (m ≫= entry_lines)) by (unfold zlen; lia).
    rewrite take_app_length. by apply (fold_entries []).
  - unfold zlen. simpl. rewrite length_app. simpl. lia.
Qed.
End roundtrip.

(** ** Concrete runs *)

Section examples.
#[local] Existing Instance cjk_unicode.

(** Tests for the hypotheses of the round trip. *)
Definition plainb (t : utext) : bool :=
  bool_decide (t <> []) && forallb (fun c => negb (line_break c)) t &&
  forallb (fun o => match o with Some c => negb (u_space c || is_quote c) | None => true end) [head t; last t].
Definition entry_okb (kv : utext * meta_val) : bool :=
  match kv.1 with c :: l => (ascii_letter c || (c =? 95)%N) && forallb key_char l | [] => false end &&
  match kv.2 with MText t => plainb t | MList l => forallb plainb l end.
Lemma plainb_ok t : plainb t = true -> plain t.
Proof.
  unfold plainb, plain. simpl. rewrite !andb_true_iff, bool_decide_eq_true, forallb_forall. intros [[Hne Hl] (Hh & Ht & _)].
  split_and!; [done| |].
  - apply Forall_forall. intros c Hc. apply negb_true_iff, Hl. by apply list_elem_of_In.
  - intros c [Hc|Hc]; rewrite Hc in *; by apply orb_false_iff, negb_true_iff.
Qed.
Lemma entry_okb_ok kv : entry_okb kv = true -> entry_ok kv.
Proof.
  unfold entry_okb, entry_ok, key_ok. rewrite andb_true_iff. intros [Hk Hv]. split.
  - destruct kv.1 as [|c l]; [done|]. apply andb_true_iff in Hk as [Hc Hl]. split; [done|].
    apply Forall_forall. intros x Hx. rewrite forallb_forall in Hl. by apply Hl, list_elem_of_In.
  - destruct kv.2 as [t|l]; [by apply plainb_ok|]. apply Forall_forall. intros x Hx.
    rewrite forallb_forall in Hv. by apply plainb_ok, Hv, list_elem_of_In.
Qed.

Definition w_meta : meta_map :=
  [(u "doc_id", MText (u "p/readme")); (u "product", MText (u "p")); (u "class", MText (u "core"));
   (u "entry", MText (u "service")); (u "doc_type", MText (u "readme")); (u "title", MText (u "{ zh: 说明, en: b }"));
   (u "audience", MList [u "dev"]); (u "status", MText (u "stable")); (u "version", MText (u "1"));
   (u "updated", MText (u "2024-01-01")); (u "owner", MText (u "@me"));
   (u "source_of_truth", MList [u "README.md#L1-L3"; u "docs"])].
Definition w_body : list utext := [u "# hi"; u "[x](docs/a.md#top) `<T>` 说明"].
Definition w_readme : utext := text_of (header w_meta ++ w_body).
Definition w_fs : node :=
  DirNode [(u "r", DirNode [(u "README.md", FileNode (Ok w_readme));
                            (u "docs", DirNode [(u "a.md", FileNode (Ok (text_of (header w_meta ++ [u "[up](../README.md)"]))))]);
                            (u "build", DirNode [(u "b.md", FileNode (Ok []))])])].
Definition w_args : Args := mkArgs (u "r") None None None false false false (u "build, dist").

Lemma frontmatter_roundtrip_witness :
  parse_frontmatter w_readme = (w_meta, zlen (header w_meta), zlen (header w_meta ++ w_body)).
Proof.
  apply frontmatter_roundtrip.
  - apply (bool_decide_unpack _). vm_compute. exact I.
  - apply Forall_forall. intros kv Hkv. apply entry_okb_ok.
    assert (forallb entry_okb w_meta = true) as Hall by (vm_compute; reflexivity).
    rewrite forallb_forall in Hall. by apply Hall, list_elem_of_In.
  - vm_compute. repeat constructor.
Defined.

Definition w_outcome : Outcome :=
  match docs_main w_fs (u "/") w_args with Ok o => o | Raise _ => mkOutcome 9 [] [] end.
Lemma passing_docs_ok_witness :
  iter_docs w_fs (u "/r") (skip_list (u "build, dist")) = u <$> ["/r/README.md"; "/r/docs/a.md"] /\
  exists doc text, load_doc w_fs (u "/r/docs/a.md") = Ok doc /\ read_file w_fs (u "/r/docs/a.md") = Ok text /\
    doc_ok w_fs (abspath (u "/") (u "r")) (u "/r/docs/a.md") text doc.
Proof.
  split; [vm_compute; reflexivity|].
  apply (passing_docs_ok w_fs (u "/") w_args w_outcome (u "/r/docs/a.md")).
  - vm_compute. reflexivity.
  - vm_compute. reflexivity.
  - apply (bool_decide_unpack _). vm_compute. exact I.
Defined.
End examples.
