(* ===== verification/Routing.v ===== *)
(** * The HTTP surface (the routers of routes/, build_app in app.py)

    The route table: every decorator of every router with its path, its
    endpoint and the guard among its dependencies, in the order build_app
    includes the routers. Choosing a route is Starlette's work: [Starlette] is
    that function, [StarletteLaws] its documented behaviour: the first route
    that matches path and method, where [{name}] stands for one segment that is
    not empty; else 405 when a route has the path; else, with
    [redirect_slashes], a 307 to the path with the last slash added or taken
    away when a route has that; else 404. The routes that fusion_core's
    create_app puts in front of the table (/health, /docs and the like) are a
    parameter too: build_app puts no guard before them. A request reaches the
    router when the middlewares pass it on; FastAPI answers a body that is not
    JSON with 422 before it runs a dependency. *)
From S2P Require Import Prelude PyText StoreState Prims AuditLog Tenants Rbac Users Tokens.
From S2P Require Import Crypto Jwt Jwks Auth StoreSteps Invariants AuditProps AuthLemmas Deps.
From S2P Require Import MemberRoutes RouteProps Redis DataPlane AuditRoutes.

(** ** The table *)

(** The guard of a route: the dependency that carries [__fusion_guard__]. *)
Inductive Guard : Type :=
  | Public | Bearer | ServiceToken | TenantAdmin | AdminOrService | Permission (resource action : string).
#[export] Instance Guard_eq_dec : EqDecision Guard.
Proof. solve_decision. Defined.
(** [__fusion_guard__] *)
Definition fusion_guard (g : Guard) : option (string * string) :=
  match g with
  | Public => None
  | Bearer => Some ("*", "bearer")
  | ServiceToken => Some ("*", "service")
  | TenantAdmin => Some ("*", "admin")
  | AdminOrService => Some ("audit", "read")
  | Permission resource action => Some (resource, action)
  end.

Record Route : Type := mkRoute {
  rt_method : string; rt_path : string; rt_endpoint : string; rt_guard : Guard
}.
#[export] Instance Route_eq_dec : EqDecision Route.
Proof. solve_decision. Defined.
(** [@router.get(path)] and the like, and [APIRouter(prefix=...)]. *)
Definition on (method path endpoint : string) (g : Guard) : Route := mkRoute method path endpoint g.
Definition under (prefix : string) (rs : list Route) : list Route :=
  (fun r => mkRoute (rt_method r) (prefix +:+ rt_path r) (rt_endpoint r) (rt_guard r)) <$> rs.

Definition auth_router : list Route := under "/api/v1/auth"
  [on "POST" "/login" "login" Public;
   on "GET" "/verify" "verify" ServiceToken;
   on "POST" "/verify" "verify_post" ServiceToken;
   on "POST" "/refresh" "refresh" Public;
   on "POST" "/revoke" "revoke" Bearer;
   on "POST" "/logout" "logout" Bearer;
   on "POST" "/password" "change_password" Bearer;
   on "POST" "/session" "issue_session" ServiceToken;
   on "DELETE" "/sessions" "revoke_user_sessions" ServiceToken;
   on "POST" "/session/verify" "verify_session" ServiceToken;
   on "POST" "/introspect" "introspect" ServiceToken;
   on "POST" "/ticket" "issue_sso_ticket" Bearer;
   on "POST" "/ticket/exchange" "exchange_sso_ticket" Public;
   on "POST" "/password/forgot" "forgot_password" Public;
   on "POST" "/password/reset" "reset_password" Public].
Definition health_router : list Route := under ""
  [on "GET" "/ready" "ready" Public].
Definition tenants_router : list Route := under "/api/v1/tenants"
  [on "GET" "" "list_tenants_self" (Permission "tenants" "read");
   on "GET" "/{tenant_id}" "get_tenant" (Permission "tenants" "read");
   on "PATCH" "/{tenant_id}" "update_tenant" (Permission "tenants" "write")].
Definition members_router : list Route := under "/api/v1/tenants/{tenant_id}/members"
  [on "GET" "" "list_members" (Permission "members" "read");
   on "POST" "" "add_or_create_member" (Permission "members" "write");
   on "POST" "/by-proof" "add_existing_member_by_proof" (Permission "members" "write");
   on "PATCH" "/{user_id}" "update_member_role" (Permission "members" "write");
   on "PATCH" "/{user_id}/status" "update_member_status" (Permission "members" "write");
   on "POST" "/{user_id}/password" "reset_member_password" (Permission "members" "write");
   on "DELETE" "/{user_id}" "remove_member" (Permission "members" "delete")].
Definition api_keys_router : list Route := under "/api/v1/tenants/{tenant_id}/api-keys"
  [on "GET" "" "list_api_keys" (Permission "api_keys" "read");
   on "POST" "" "create_api_key" (Permission "api_keys" "write");
   on "DELETE" "/{key_id}" "revoke_api_key" (Permission "api_keys" "delete")].
Definition quotas_router : list Route := under "/api/v1/tenants/{tenant_id}/quotas"
  [on "GET" "" "get_quota" (Permission "quotas" "read");
   on "PUT" "" "put_quota" (Permission "quotas" "write")].
Definition audit_router : list Route := under "/api/v1/tenants/{tenant_id}/audit"
  [on "GET" "" "list_audit" (Permission "audit" "read");
   on "GET" "/verify" "verify_audit" (Permission "audit" "read");
   on "POST" "/events" "ingest_event" ServiceToken;
   on "POST" "/business-events" "append_business_event" ServiceToken;
   on "GET" "/business-events" "list_business_events" (Permission "audit" "read");
   on "GET" "/export" "export_audit" AdminOrService;
   on "GET" "/otlp" "export_otlp" AdminOrService].
Definition departments_router : list Route := under "/api/v1/tenants/{tenant_id}/departments"
  [on "POST" "" "create_department" (Permission "departments" "write");
   on "GET" "" "list_departments" (Permission "departments" "read");
   on "GET" "/{dept_id}" "get_department" (Permission "departments" "read");
   on "PATCH" "/{dept_id}" "update_department" (Permission "departments" "write");
   on "DELETE" "/{dept_id}" "delete_department" (Permission "departments" "delete")].
Definition rbac_router : list Route := under "/api/v1/tenants/{tenant_id}"
  [on "GET" "/roles" "list_roles" (Permission "rbac" "read");
   on "POST" "/roles" "create_role" (Permission "rbac" "write");
   on "PATCH" "/roles/{role_id}" "update_role" (Permission "rbac" "write");
   on "DELETE" "/roles/{role_id}" "delete_role" (Permission "rbac" "delete");
   on "GET" "/roles/{role_id}/menus" "get_role_menus" (Permission "rbac" "read");
   on "PUT" "/roles/{role_id}/menus" "set_role_menus" (Permission "rbac" "write");
   on "POST" "/roles/{role_id}/menus/reset" "reset_role_menus" (Permission "rbac" "write");
   on "GET" "/menus" "list_menus" (Permission "rbac" "read");
   on "POST" "/menus" "add_menus" (Permission "rbac" "write");
   on "POST" "/approvals/validate" "validate_approval" (Permission "rbac" "read")].
Definition usage_router : list Route := under "/api/v1/tenants/{tenant_id}"
  [on "POST" "/usage" "emit_usage" ServiceToken;
   on "GET" "/usage" "get_usage" (Permission "usage" "read");
   on "GET" "/usage/summary" "get_usage_summary" (Permission "usage" "read");
   on "GET" "/config" "get_tenant_config" (Permission "usage" "read");
   on "GET" "/export" "export_tenant" (Permission "usage" "read")].
Definition metrics_router : list Route := under ""
  [on "GET" "/metrics" "metrics" Public].
Definition jwks_router : list Route := under ""
  [on "GET" "/.well-known/jwks.json" "get_jwks" Public;
   on "POST" "/.well-known/jwks/rotate" "rotate_keys" ServiceToken].
Definition idps_router : list Route := under "/api/v1/tenants/{tenant_id}/idps"
  [on "GET" "" "list_idps" (Permission "idps" "read");
   on "POST" "" "create_idp" (Permission "idps" "write");
   on "GET" "/{idp_id}" "get_idp" (Permission "idps" "read");
   on "PATCH" "/{idp_id}" "update_idp" (Permission "idps" "write");
   on "DELETE" "/{idp_id}" "delete_idp" (Permission "idps" "delete")].
Definition oidc_router : list Route := under "/api/v1/auth/oidc"
  [on "GET" "/{idp_id}/login" "oidc_login" Public;
   on "POST" "/{idp_id}/callback" "oidc_callback" Public].
Definition scim_router : list Route := under "/scim/v2"
  [on "GET" "/Users" "list_users" ServiceToken;
   on "POST" "/Users" "create_user" ServiceToken;
   on "GET" "/Users/{user_id}" "get_user" ServiceToken;
   on "PATCH" "/Users/{user_id}" "patch_user" ServiceToken;
   on "DELETE" "/Users/{user_id}" "delete_user" ServiceToken;
   on "GET" "/Groups" "list_groups" ServiceToken;
   on "GET" "/Groups/{group_id}" "get_group" ServiceToken].
Definition mfa_router : list Route := under "/api/v1/auth/mfa"
  [on "POST" "/enroll" "enroll_mfa" Bearer;
   on "POST" "/verify" "verify_mfa" Bearer;
   on "GET" "" "list_mfa" Bearer;
   on "DELETE" "/{method}" "delete_mfa" Bearer].
Definition admin_router : list Route := under "/api/v1/admin"
  [on "GET" "/tenants" "admin_list_tenants" ServiceToken;
   on "POST" "/tenants" "admin_create_tenant" ServiceToken;
   on "PUT" "/tenants/{tenant_id}" "admin_update_tenant" ServiceToken;
   on "GET" "/tenants/{tenant_id}/quota" "admin_get_tenant_quota" ServiceToken;
   on "POST" "/tenants/{tenant_id}/api-keys" "admin_create_api_key" ServiceToken;
   on "POST" "/tenants/{tenant_id}/keys" "admin_create_api_key_alias" ServiceToken;
   on "DELETE" "/tenants/{tenant_id}/api-keys/{key_id}" "admin_revoke_api_key" ServiceToken;
   on "DELETE" "/tenants/{tenant_id}/keys/{key_id}" "admin_revoke_api_key_alias" ServiceToken;
   on "GET" "/tenants/{tenant_id}/usage/today" "admin_usage_today" ServiceToken;
   on "GET" "/tenants/{tenant_id}/members/summary" "admin_member_summary" ServiceToken;
   on "GET" "/tenants/{tenant_id}/idps/summary" "admin_idp_summary" ServiceToken;
   on "GET" "/app-secrets" "admin_app_secret_inventory" ServiceToken;
   on "POST" "/kek/reencrypt" "admin_kek_reencrypt" ServiceToken].
Definition app_secrets_router : list Route := under "/api/v1/apps"
  [on "POST" "/{app_id}/secrets" "issue_app_secret" ServiceToken;
   on "GET" "/{app_id}/secrets" "list_app_secrets" ServiceToken;
   on "POST" "/{app_id}/secrets/rotate" "rotate_app_secret" ServiceToken;
   on "DELETE" "/{app_id}/secrets/{version}" "revoke_app_secret_version" ServiceToken].
Definition app_credentials_router : list Route := under "/api/v1/apps"
  [on "PUT" "/{app_id}/credentials/{name}" "put_app_credential" ServiceToken;
   on "GET" "/{app_id}/credentials/{name}" "get_app_credential" ServiceToken].
Definition provisioning_router : list Route := under "/api/v1/admin"
  [on "POST" "/tenants/provision" "provision_tenant" ServiceToken;
   on "GET" "/plan-templates" "list_plan_templates" ServiceToken;
   on "GET" "/plan-templates/{plan}" "get_plan_template" ServiceToken;
   on "PUT" "/plan-templates/{plan}" "put_plan_template" ServiceToken;
   on "GET" "/events" "list_events" ServiceToken].
Definition registration_router : list Route := under "/api/v1/auth"
  [on "POST" "/register" "register" Public;
   on "POST" "/register-tenant" "register_tenant" Public;
   on "POST" "/verify-email" "verify_email" Public;
   on "POST" "/verify-email/resend" "resend_verification" Public].
Definition join_router : list Route := under ""
  [on "POST" "/api/v1/tenants/{tenant_id}/invites" "create_invite" TenantAdmin;
   on "GET" "/api/v1/tenants/{tenant_id}/invites" "list_invites" TenantAdmin;
   on "POST" "/api/v1/auth/invites/redeem" "redeem_invite" Bearer;
   on "POST" "/api/v1/auth/tenants/{tenant_id}/join" "self_join" Bearer;
   on "POST" "/api/v1/tenants/{tenant_id}/join-requests" "submit_join_request" Bearer;
   on "GET" "/api/v1/tenants/{tenant_id}/join-requests" "list_join_requests" TenantAdmin;
   on "POST" "/api/v1/tenants/{tenant_id}/join-requests/{request_id}/approve" "approve_join_request" TenantAdmin;
   on "POST" "/api/v1/tenants/{tenant_id}/join-requests/{request_id}/reject" "reject_join_request" TenantAdmin].

Definition app_routes : list Route :=
  auth_router ++ health_router ++ tenants_router ++ members_router ++ api_keys_router ++ quotas_router ++ audit_router ++ departments_router ++ rbac_router ++ usage_router ++ metrics_router ++ jwks_router ++ idps_router ++ oidc_router ++ scim_router ++ mfa_router ++ admin_router ++ app_secrets_router ++ app_credentials_router ++ provisioning_router ++ registration_router ++ join_router.


(** ** Choosing the route *)

Definition Params : Type := list (string * string).
(** The name in [{name}]. *)
Definition param_name (seg : string) : option string :=
  match chars seg with
  | "{"%char :: rest => Some (of_chars (filter (fun c => c <> "}"%char) rest))
  | _ => None
  end.
Fixpoint match_segments (template path : list string) : option Params :=
  match template, path with
  | [], [] => Some []
  | seg :: template, x :: path =>
      match param_name seg with
      | Some name => if str_true x then ((name, x) ::.) <$> match_segments template path else None
      | None => if decide (seg = x) then match_segments template path else None
      end
  | _, _ => None
  end.
Definition path_params (r : Route) (path : string) : option Params :=
  match_segments (split "/" (rt_path r)) (split "/" path).

(** What becomes of a request: its endpoint with the path parameters, or an
    answer of the router itself. *)
Inductive Routed : Type := ToEndpoint (r : Route) (ps : Params) | NotRouted (status : Z).
Definition takes (method path : string) (r : Route) : option Params :=
  if decide (rt_method r = method) then path_params r path else None.
Fixpoint first_route (rs : list Route) (method path : string) : option (Route * Params) :=
  match rs with
  | [] => None
  | r :: rs => match takes method path r with
               | Some ps => Some (r, ps)
               | None => first_route rs method path
               end
  end.
Definition path_known (rs : list Route) (path : string) : bool :=
  existsb (fun r => bool_decide (is_Some (path_params r path))) rs.
(** [path.rstrip("/")] or [path + "/"] *)
Fixpoint drop_slashes (l : list ascii) : list ascii :=
  match l with "/"%char :: l' => drop_slashes l' | _ => l end.
Definition toggled (path : string) : string :=
  match reverse (chars path) with
  | "/"%char :: l => of_chars (reverse (drop_slashes l))
  | _ => path +:+ "/"
  end.
Definition documented_route (redirect : bool) (rs : list Route) (method path : string) : Routed :=
  match first_route rs method path with
  | Some (r, ps) => ToEndpoint r ps
  | None =>
      NotRouted (if path_known rs path then 405
                 else if redirect && bool_decide (path <> "/") && path_known rs (toggled path) then 307
                 else 404)
  end.

(** The router and the application that create_app returns: method and path of
    its own routes. The patterns of the router end in [$], which a line feed at
    the end of a path also satisfies, so the law is about paths without one. *)
Class Starlette := {
  core_routes : list (string * string);
  redirect_slashes : bool;
  route_of : list Route -> string -> string -> Routed
}.
Class StarletteLaws `{Starlette} := {
  route_of_first : forall rs method path, newline ∉ chars path ->
    route_of rs method path = documented_route redirect_slashes rs method path;
  core_routes_fixed : Forall (fun mp => omap param_name (split "/" mp.2) = []) core_routes
}.
Definition core_table `{Starlette} : list Route :=
  (fun mp => on mp.1 mp.2 "create_app" Public) <$> core_routes.
Definition route_table `{Starlette} : list Route := core_table ++ app_routes.

(** ** Guard, then endpoint *)

Section surface.
Context `{HashLib, Argon2Lib, JwtLib, Starlette}.
Variables (cfg : AuthConfig) (ring : KeyRing) (now : Z) (hdr : Headers).
Variables (service_token : string) (service_token_prev : option string).

(** The dependencies of a route, run before its body. *)
Definition run_guard (g : Guard) (ps : Params) : M Store (option Claims) :=
  match g with
  | Public => ret None
  | Bearer => let! c := require_bearer cfg ring now (hd_authorization hdr) in ret (Some c)
  | ServiceToken => service_only hdr service_token service_token_prev ;;; ret None
  | TenantAdmin =>
      let! c := require_tenant_admin_of cfg ring now (hd_tenant hdr) (hd_authorization hdr)
                  (dget "tenant_id" ps) in ret (Some c)
  | AdminOrService =>
      require_admin_or_service cfg ring now hdr service_token (default "" (dget "tenant_id" ps))
  | Permission resource action =>
      let! c := require_permission_of cfg ring now resource action (hd_tenant hdr)
                  (hd_authorization hdr) (dget "tenant_id" ps) in ret (Some c)
  end.
Definition router_text (status : Z) : string :=
  if decide (status = 405) then "Method Not Allowed"
  else if decide (status = 307) then "Temporary Redirect" else "Not Found".
(** The route of a request and the caller, once the guard has let it in. *)
Definition enter (method path : string) : M Store (Route * Params * option Claims) :=
  match route_of route_table method path with
  | NotRouted status => raise (http status (router_text status))
  | ToEndpoint r ps => let! c := run_guard (rt_guard r) ps in ret (r, ps, c)
  end.
(** A request: [body] is what the endpoints do. *)
Definition serve {A} (body : Route -> Params -> option Claims -> M Store A) (method path : string)
    : M Store A :=
  let! x := enter method path in body x.1.1 x.1.2 x.2.
End surface.

(** The routes that answer without credentials. *)
Definition public_routes : list (string * string) :=
  [("POST", "/api/v1/auth/login"); ("POST", "/api/v1/auth/refresh");
   ("POST", "/api/v1/auth/ticket/exchange"); ("POST", "/api/v1/auth/password/forgot");
   ("POST", "/api/v1/auth/password/reset"); ("GET", "/ready"); ("GET", "/metrics");
   ("GET", "/.well-known/jwks.json"); ("GET", "/api/v1/auth/oidc/{idp_id}/login");
   ("POST", "/api/v1/auth/oidc/{idp_id}/callback"); ("POST", "/api/v1/auth/register");
   ("POST", "/api/v1/auth/register-tenant"); ("POST", "/api/v1/auth/verify-email");
   ("POST", "/api/v1/auth/verify-email/resend")].
(** The two by which an outsider asks to enter a tenant. *)
Definition join_routes : list (string * string) :=
  [("POST", "/api/v1/auth/tenants/{tenant_id}/join"); ("POST", "/api/v1/tenants/{tenant_id}/join-requests")].
Definition rt_key (r : Route) : string * string := (rt_method r, rt_path r).

(** ** The table is unambiguous *)

(** Some path could match both templates. *)
Fixpoint overlap (a b : list string) : bool :=
  match a, b with
  | [], [] => true
  | x :: a, y :: b =>
      (bool_decide (is_Some (param_name x)) || bool_decide (is_Some (param_name y)) || bool_decide (x = y))
      && overlap a b
  | _, _ => false
  end.
Definition apart (r1 r2 : Route) : bool :=
  bool_decide (r1 = r2) ||
  negb (bool_decide (rt_method r1 = rt_method r2) && overlap (split "/" (rt_path r1)) (split "/" (rt_path r2))).
Definition unambiguous (rs : list Route) : Prop := forall r1 r2 method path,
  r1 ∈ rs -> r2 ∈ rs -> is_Some (takes method path r1) -> is_Some (takes method path r2) -> r1 = r2.

Lemma match_names t : forall path ps, match_segments t path = Some ps -> ps.*1 = omap param_name t.
Proof.
  induction t as [|x t IH]; intros [|y path] ps; simpl; try done; [by intros [= <-]|].
  destruct (param_name x) as [name|].
  - destruct (str_true y); [|done]. intros (l & Hl & ->)%fmap_Some. simpl. f_equal. by eapply IH.
  - case_decide; [|done]. apply IH.
Qed.
Lemma overlap_complete a : forall b path,
  is_Some (match_segments a path) -> is_Some (match_segments b path) -> overlap a b = true.
Proof.
  induction a as [|x a IH]; intros [|y b] [|z path]; simpl; try done;
    try (by intros [? ?]); try (by intros ? [? ?]).
  intros Hx Hy. apply andb_true_iff. split; [|eapply (IH b path)].
  - destruct (param_name x) eqn:Ex; [by rewrite bool_decide_true|]. destruct (param_name y) eqn:Ey.
    { rewrite (bool_decide_true (is_Some (Some _))) by done. by rewrite orb_true_r. }
    destruct (decide (x = z)); [|by destruct Hx]. destruct (decide (y = z)); [|by destruct Hy].
    rewrite (bool_decide_true (x = y)) by congruence. by rewrite orb_true_r.
  - destruct (param_name x); [destruct (str_true z); [|by destruct Hx]; by apply fmap_is_Some in Hx|].
    destruct (decide (x = z)); [done|by destruct Hx].
  - destruct (param_name y); [destruct (str_true z); [|by destruct Hy]; by apply fmap_is_Some in Hy|].
    destruct (decide (y = z)); [done|by destruct Hy].
Qed.
Lemma apart_unambiguous rs : forallb (fun r1 => forallb (apart r1) rs) rs = true -> unambiguous rs.
Proof.
  intros Hall r1 r2 method path H1 H2 T1 T2. rewrite forallb_forall in Hall.
  specialize (Hall r1 (proj1 (list_elem_of_In _ _) H1)). rewrite forallb_forall in Hall.
  specialize (Hall r2 (proj1 (list_elem_of_In _ _) H2)). unfold apart in Hall.
  case_bool_decide as E; [done|]. unfold takes, path_params in *. exfalso.
  destruct (decide (rt_method r1 = method)) as [<-|]; [|by destruct T1].
  destruct (decide (rt_method r2 = _)) as [M|]; [|by destruct T2].
  rewrite bool_decide_true, (overlap_complete _ _ _ T1 T2) in Hall by done. done.
Qed.
Lemma app_routes_unambiguous : unambiguous app_routes.
Proof. apply apart_unambiguous. by vm_compute. Qed.

Lemma first_route_some rs method path r ps :
  first_route rs method path = Some (r, ps) -> r ∈ rs /\ takes method path r = Some ps.
Proof.
  induction rs as [|r0 rs IH]; simpl; [done|]. destruct (takes method path r0) eqn:E.
  - intros [= -> ->]. split; [left|done].
  - intros [? ?]%IH. split; [by right|done].
Qed.
Lemma first_route_none rs method path r :
  first_route rs method path = None -> r ∈ rs -> takes method path r = None.
Proof.
  induction rs as [|r0 rs IH]; simpl; intros Hf Hr; [by apply elem_of_nil in Hr|].
  destruct (takes method path r0) eqn:E; [done|]. apply elem_of_cons in Hr as [->|Hr]; auto.
Qed.
Lemma path_known_perm rs rs' path : rs ≡ₚ rs' -> path_known rs path = path_known rs' path.
Proof.
  intros Hp. apply eq_true_iff_eq. unfold path_known. rewrite !existsb_exists.
  split; intros (r & Hr & Hm); exists r; (split; [|done]); rewrite <- list_elem_of_In in *.
  - by rewrite <- Hp.
  - by rewrite Hp.
Qed.
Lemma first_route_perm rs rs' method path :
  unambiguous rs' -> rs ≡ₚ rs' -> first_route rs method path = first_route rs' method path.
Proof.
  intros Hu Hp. destruct (first_route rs method path) as [[r ps]|] eqn:E1.
  - apply first_route_some in E1 as [Hr Ht]. rewrite Hp in Hr.
    destruct (first_route rs' method path) as [[r' ps']|] eqn:E2.
    + apply first_route_some in E2 as [Hr' Ht'].
      assert (r = r') as <- by (by eapply Hu; [..|eexists|eexists]). congruence.
    + by rewrite (first_route_none _ _ _ _ E2 Hr) in Ht.
  - destruct (first_route rs' method path) as [[r' ps']|] eqn:E2; [|done].
    apply first_route_some in E2 as [Hr' Ht']. rewrite <- Hp in Hr'.
    by rewrite (first_route_none _ _ _ _ E1 Hr') in Ht'.
Qed.

Lemma first_route_app rs1 rs2 method path :
  first_route (rs1 ++ rs2) method path =
  match first_route rs1 method path with Some x => Some x | None => first_route rs2 method path end.
Proof. induction rs1 as [|r rs1 IH]; simpl; [done|]. by destruct (takes method path r). Qed.

(** [C40] The order in which build_app includes the routers, and each router
    its routes, does not matter, whatever routes are in front of them: a request
    goes to the same endpoint with the same path parameters, or gets the same
    307, 404 or 405, under every order. *)
Theorem routes_order_free `{StarletteLaws} front rs method path :
  rs ≡ₚ app_routes -> newline ∉ chars path ->
  route_of (front ++ rs) method path = route_of (front ++ app_routes) method path.
Proof.
  intros Hp Hn. rewrite !route_of_first by done. unfold documented_route.
  assert (front ++ rs ≡ₚ front ++ app_routes) as Hp' by by rewrite Hp.
  by rewrite !first_route_app, (first_route_perm _ _ _ _ app_routes_unambiguous Hp), !(path_known_perm _ _ _ Hp').
Qed.

(** ** What the guards let in *)

Lemma table_fact (P : Route -> Prop) `{forall r, Decision (P r)} :
  bool_decide (Forall P app_routes) = true -> forall r, r ∈ app_routes -> P r.
Proof. intros HP. apply Forall_forall. by apply bool_decide_eq_true in HP. Qed.
Lemma public_listed r : r ∈ app_routes -> rt_guard r = Public -> rt_key r ∈ public_routes.
Proof. revert r. refine (table_fact (fun r => _ -> _) _). by vm_compute. Qed.
Definition names_tenant (r : Route) : Prop := "tenant_id" ∈ omap param_name (split "/" (rt_path r)).
#[export] Instance names_tenant_dec r : Decision (names_tenant r).
Proof. unfold names_tenant. apply _. Defined.
Lemma public_names_none r : r ∈ app_routes -> rt_guard r = Public -> ~ names_tenant r.
Proof. revert r. refine (table_fact (fun r => _ -> _) _). by vm_compute. Qed.
Lemma bearer_tenant_joins r :
  r ∈ app_routes -> rt_guard r = Bearer -> names_tenant r -> rt_key r ∈ join_routes.
Proof. revert r. refine (table_fact (fun r => _ -> _ -> _) _). by vm_compute. Qed.
Lemma endpoint_in_table `{StarletteLaws} method path r ps :
  newline ∉ chars path -> route_of route_table method path = ToEndpoint r ps ->
  (r ∈ core_table \/ r ∈ app_routes) /\ path_params r path = Some ps.
Proof.
  intros Hn. rewrite route_of_first by done. unfold documented_route.
  destruct (first_route _ _ _) as [[r' ps']|] eqn:E; [|done]. intros [= -> ->].
  apply first_route_some in E as [Hr Ht]. apply elem_of_app in Hr. split; [done|].
  unfold takes in Ht. by case_decide.
Qed.
Lemma core_names_none `{StarletteLaws} r : r ∈ core_table -> ~ names_tenant r.
Proof.
  intros (mp & -> & Hmp)%list_elem_of_fmap. pose proof core_routes_fixed as Hf.
  rewrite Forall_forall in Hf. unfold names_tenant. simpl. rewrite (Hf mp Hmp). apply not_elem_of_nil.
Qed.
Lemma tenant_in_template r path ps tid :
  path_params r path = Some ps -> dget "tenant_id" ps = Some tid -> names_tenant r.
Proof.
  intros Hp Hd. unfold names_tenant. rewrite <- (match_names _ _ _ Hp). apply dget_elem_of in Hd.
  apply list_elem_of_fmap. by eexists (_, _).
Qed.

Section admission.
Context `{HashLib, Argon2Lib, JwtLib, StarletteLaws}.
Variables (cfg : AuthConfig) (ring : KeyRing) (now : Z) (hdr : Headers).
Variables (token : string) (token_prev : option string).
#[local] Abbreviation run_guard := (run_guard cfg ring now hdr token token_prev).
#[local] Abbreviation enter := (enter cfg ring now hdr token token_prev).
#[local] Abbreviation serve := (serve cfg ring now hdr token token_prev).

Lemma headers_anonymous s :
  hd_authorization hdr = "" ->
  exists d, resolve_headers cfg ring now (hd_tenant hdr) (hd_authorization hdr) s = (Raise (http 401 d), s).
Proof. intros ->. unfold resolve_headers. destruct (str_true (hd_tenant hdr)); simpl; by eexists. Qed.
(** Without credentials every guard but [Public] refuses with 401. *)
Lemma guard_anonymous g ps s :
  hd_authorization hdr = "" -> g <> Public ->
  exists d, run_guard g ps s = (Raise (http 401 d), s).
Proof.
  intros Ha Hg. destruct (headers_anonymous s Ha) as [d Hd].
  assert (Hp : forall res act t, require_permission_of cfg ring now res act (hd_tenant hdr)
    (hd_authorization hdr) t s = (Raise (http 401 d), s)).
  { intros. unfold require_permission_of. by rewrite (bind_eq_raise _ _ _ _ _ Hd). }
  destruct g; simpl; [done|..].
  - unfold require_bearer. rewrite Ha. by eexists.
  - unfold service_only, require_service_token. rewrite Ha. by eexists.
  - exists d. unfold bind at 1, require_tenant_admin_of, resolve_admin.
    by rewrite (bind_eq_raise _ _ _ _ _ (bind_eq_raise _ _ _ _ _ Hd)).
  - exists d. unfold require_admin_or_service, guard. rewrite Ha. simpl. rewrite <- Ha.
    by rewrite (bind_eq_raise _ _ _ _ _ (Hp _ _ _)).
  - exists d. by rewrite (bind_eq_raise _ _ _ _ _ (Hp _ _ _)).
Qed.

(** [C9] What a stranger reaches: whatever the endpoints do, a request without
    an Authorization header that the middlewares pass on is answered by one of
    the routes of create_app, by one of the fourteen public routes, or by a
    307, 401, 404 or 405 with no effect on the store. *)
Theorem anonymous_surface {A} (body : Route -> Params -> option Claims -> M Store A) method path s :
  newline ∉ chars path -> hd_authorization hdr = "" ->
  (exists r ps, route_of route_table method path = ToEndpoint r ps /\
     (r ∈ core_table \/ rt_key r ∈ public_routes)) \/
  (exists code d, serve body method path s = (Raise (http code d), s) /\ code ∈ [307; 401; 404; 405]).
Proof.
  intros Hn Ha. unfold Routing.serve, Routing.enter.
  destruct (route_of route_table method path) as [r ps|st] eqn:Er.
  - destruct (endpoint_in_table _ _ _ _ Hn Er) as [[Hin|Hin] _]; [left; by eauto|].
    destruct (decide (rt_guard r = Public)).
    { left. exists r, ps. split; [done|]. right. by apply public_listed. }
    destruct (guard_anonymous (rt_guard r) ps s Ha) as [d Hd]; [done|]. right. exists 401, d.
    split; [|set_solver]. by rewrite (bind_eq_raise _ _ _ _ _ (bind_eq_raise _ _ _ _ _ Hd)).
  - right. eexists st, _. split; [done|]. rewrite route_of_first in Er by done.
    unfold documented_route in Er. destruct (first_route _ _ _) as [[??]|]; [done|].
    repeat case_match; injection Er as <-; set_solver.
Qed.

(** A verified access token of an authorized member, and the member's role. *)
Definition member_bearer (s : Store) (c0 : Claims) (role : string) : Prop :=
  exists tok, extract_bearer (hd_authorization hdr) = Ok tok /\
    verify_ cfg ring now tok (Some "access") = Ok c0 /\ access_ok now c0 role s.
(** What a guard asks of the role. *)
Definition role_passes (g : Guard) (tid role : string) (s : Store) : Prop :=
  match g with
  | TenantAdmin => role = "tenant_admin"
  | AdminOrService => role_allows tid role "audit" "read" s = true
  | Permission resource action => role_allows tid role resource action s = true
  | Public | Bearer | ServiceToken => False
  end.

Lemma permission_ok res act t s c s' :
  store_wf s -> require_permission_of cfg ring now res act (hd_tenant hdr) (hd_authorization hdr) (Some t) s
    = (Ok c, s') ->
  exists c0 role, member_bearer s c0 role /\ c_tid c0 = t /\ role_allows t role res act s = true.
Proof.
  intros Hwf Hr. unfold require_permission_of in Hr. apply bind_ok in Hr as (c1 & s1 & Hh & Hr).
  apply resolve_headers_ok in Hh as (-> & Hx & tok & c0 & role & ? & ? & ? & Hrole & ? & ?); [|done].
  apply bind_ok in Hr as ([] & s2 & Hp & Hr). unfold check_path in Hp. case_decide as Hc; [done|].
  unfold ret in Hp. simplify_eq. rewrite bind_gets in Hr. unfold claim_role in Hr. rewrite Hrole in Hr.
  simpl in Hr. destruct (role_allows _ _ _ _ _) eqn:Ea; [|done]. simplify_eq.
  exists c0, role. split_and!; [by exists tok|congruence|done].
Qed.
Lemma admin_ok t s c s' :
  store_wf s -> require_tenant_admin_of cfg ring now (hd_tenant hdr) (hd_authorization hdr) (Some t) s
    = (Ok c, s') ->
  exists c0 role, member_bearer s c0 role /\ c_tid c0 = t /\ role = "tenant_admin".
Proof.
  intros Hwf Hr. unfold require_tenant_admin_of, resolve_admin in Hr.
  apply bind_ok in Hr as (c1 & s1 & Hh & Hr). apply bind_ok in Hh as (c2 & s2 & Hh & Ha).
  apply resolve_headers_ok in Hh as (-> & Hx & tok & c0 & role & ? & ? & ? & Hrole & ? & ?); [|done].
  case_decide as Hadm; [done|]. unfold ret in Ha. simplify_eq/=.
  apply bind_ok in Hr as ([] & s2 & Hp & Hr). unfold check_path in Hp. case_decide as Hc; [done|].
  simplify_eq.
  eexists c0, _. split_and!; [by exists tok|congruence|done].
Qed.

Lemma admin_or_service_ok t s c s' :
  store_wf s -> require_admin_or_service cfg ring now hdr token t s = (Ok c, s') ->
  require_service_token token token_prev (hd_authorization hdr) = Ok tt \/
  exists c0 role, member_bearer s c0 role /\ c_tid c0 = t /\ role_allows t role "audit" "read" s = true.
Proof.
  intros Hwf. unfold require_admin_or_service. case_match eqn:Et.
  - intros _. left. unfold require_service_token. destruct (str_true (hd_authorization hdr)); [|done].
    destruct (extract_bearer _); [|done]. by apply andb_true_iff in Et as [_ ->].
  - intros Hg. apply bind_ok in Hg as (c1 & s1 & Hb & _). right. by eapply permission_ok.
Qed.

(** [C8] The tenant in a path is a boundary: a request whose path names a
    tenant is let in only with the service token, or with the verified token of
    an authorized member of that very tenant whose stored role passes the
    route's guard; any other member enters only the two routes by which one
    asks to join. *)
Theorem tenant_paths_confined method path s r ps c s' tid :
  reachable s -> newline ∉ chars path -> enter method path s = (Ok (r, ps, c), s') ->
  dget "tenant_id" ps = Some tid ->
  require_service_token token token_prev (hd_authorization hdr) = Ok tt \/
  exists c0 role, member_bearer s c0 role /\
    (c_tid c0 = tid /\ role_passes (rt_guard r) tid role s \/ rt_key r ∈ join_routes).
Proof.
  intros Hs%reach_wf Hn Hadm Htid. unfold Routing.enter in Hadm.
  destruct (route_of route_table method path) as [r' ps'|] eqn:Er; [|done].
  destruct (endpoint_in_table _ _ _ _ Hn Er) as [Hin Hps].
  apply bind_ok in Hadm as (c1 & s1 & Hg & Hr). unfold ret in Hr. simplify_eq.
  pose proof (tenant_in_template _ _ _ _ Hps Htid) as Hnames.
  destruct Hin as [Hin|Hin]; [by destruct (core_names_none _ Hin)|].
  destruct (rt_guard r) as [| | | | |res act] eqn:G; simpl in Hg; rewrite ?Htid in Hg; simpl in Hg.
  - by destruct (public_names_none r Hin G).
  - right. apply bind_ok in Hg as (c1 & s1 & Hb & Hr). unfold require_bearer in Hb.
    destruct (str_true _); [|done]. simpl in Hb.
    apply resolve_bearer_ok in Hb as (tok & c0 & role & ? & ? & ? & _ & _); [|done].
    exists c0, role. split; [by exists tok|]. right. by apply bearer_tenant_joins.
  - left. apply bind_ok in Hg as ([] & s1 & Hb & Hr). unfold service_only, lift in Hb. by simplify_eq.
  - right. apply bind_ok in Hg as (c1 & s1 & Hb & Hr).
    apply admin_ok in Hb as (c0 & role & ? & ? & ?); [|done]. exists c0, role. by auto.
  - apply admin_or_service_ok in Hg as [?|(c0 & role & ? & ? & ?)]; [by left| |done].
    right. exists c0, role. by auto.
  - right. apply bind_ok in Hg as (c1 & s1 & Hb & _).
    apply permission_ok in Hb as (c0 & role & ? & ? & ?); [|done]. exists c0, role. by auto.
Qed.
End admission.
