(* ===== verification/Witnesses.v ===== *)
(** * Concrete runs

    The definitions evaluated with the stand-in libraries of [Prims], [Jwt],
    [Crypto], [Jwks] and [Auth]: for every property with hypotheses, inputs at
    which they hold. *)
From Stdlib Require Import QArith.
From S2P Require Import Prelude PyText StoreState Prims AuditLog Tenants Rbac Users Keys.
From S2P Require Import Tokens Ledger Crypto Jwt Jwks Auth StoreSteps Invariants.
From S2P Require Import RbacProps KeyProps TableProps AuditProps AuthLemmas AuthProps.
From S2P Require Import TokenProps StoreProps JwksProps Scenarios Deps MemberRoutes.
From S2P Require Import RateLimit JoinRoutes RouteProps.
Open Scope Z_scope.

#[local] Existing Instances toy_hashlib toy_argon2 toy_jwt toy_aead toy_rsa toy_totp
  toy_hash_laws toy_argon2_laws toy_jwt_laws toy_aead_laws.

(** Evaluate both sides. *)
Ltac run := vm_compute; reflexivity.

(** The answer of a run that is known to succeed. *)
Definition answer {A} (dflt : A) (r : res A * Store) : A :=
  match r.1 with Ok a => a | Raise _ => dflt end.

(** ** The bootstrapped service *)
Definition w_cfg : AuthConfig :=
  mkAuthConfig "fusion-identity" "fusion-cluster" 3600 1209600 "kek" None false false 60.
Definition w_ring : KeyRing := hs256 "signing-key".
Definition t0 : Z := sec 1000.
Definition w_s0 : Store := (bootstrap t0 "salt" (Some "admin") (Some "pw") None init_store).2.
Definition w_req : LoginRequest := mkLoginRequest "admin" "pw" None None.
Definition w_draws : LoginDraws := mkLoginDraws "salt2" "jti1" "rjti1" "fam1".
Definition w_login := login w_cfg w_ring (sec 2000) w_draws w_req false w_s0.
Definition w_tr : TokenResponse := answer (mkTokenResponse "" "" 0 false false) w_login.
Definition w_s1 : Store := w_login.2.

Lemma w_s0_reachable : reachable w_s0.
Proof. eapply safe_reachable; [apply safe_bootstrap|constructor]. Qed.
Lemma w_s1_reachable : reachable w_s1.
Proof. eapply safe_reachable; [apply safe_login|apply w_s0_reachable]. Qed.

Lemma login_sound_witness :
  w_login = (Ok w_tr, w_s1) /\
  exists u tid role, found "admin" u w_s0 /\ password_ok "pw" u = true /\
    get_member_role tid (u_user_id u) w_s0 = Some role.
Proof.
  assert (w_login = (Ok w_tr, w_s1)) as Hl by run. split; [exact Hl|].
  destruct (login_sound w_cfg w_ring (sec 2000) w_draws w_req false w_s0 w_tr w_s1
    w_s0_reachable Hl ltac:(run)) as (u & tid & role & Hu & _ & _ & Hp & _ & _ & Hr & _).
  exists u, tid, role. split; [exact Hu|]. split; [exact Hp|exact Hr].
Defined.

Lemma service_keeps_invariants_witness : store_wf w_s1 /\ rbac_inv w_s1 /\ join_inv w_s1.
Proof.
  destruct (service_keeps_invariants w_s1) as (Hwf & Hrb & _ & _ & Hj & _).
  - apply (rtc_l _ _ w_s0); [apply sv_bootstrap|]. apply rtc_once. apply sv_login.
  - split; [exact Hwf|]. split; [exact Hrb|exact Hj].
Defined.

Definition w_claims : Claims :=
  issued_claims w_cfg (sec 2000) "jti1" "usr_admin" "default" "tenant_admin" 3600 "access".

Lemma authorize_exact_witness : access_ok (sec 2100) w_claims "tenant_admin" w_s1.
Proof.
  destruct (authorize_exact (sec 2100) w_claims w_s1 w_s1_reachable) as [Hok _].
  apply (Hok "tenant_admin" w_claims (swept (sec 2100) w_s1)). run.
Defined.

(** Four wrong passwords, a fifth, then the right one. *)
Definition w_bad : LoginRequest := mkLoginRequest "admin" "guess" None None.
Definition w_attempt (t : Z) : attempt := (sec t, w_draws, w_bad).
Definition w_user : User :=
  default (mkUser "" "" None None "" "" "" "" "" 0 None false None false None None None None 0)
    (dget "usr_admin" (users w_s0)).
Lemma lockout_after_five_witness :
  let s5 := try_logins w_cfg w_ring (map w_attempt [2000; 2001; 2002; 2003] ++ [w_attempt 2004]) w_s0 in
  login w_cfg w_ring (sec 2500) w_draws w_req false s5 = (Raise locked_exn, s5).
Proof.
  apply (lockout_after_five w_cfg w_ring "admin" w_user w_s0 (map w_attempt [2000; 2001; 2002; 2003])
    (sec 2004) w_draws w_bad (sec 2500) w_draws w_req false w_s0_reachable); try run; try done.
  unfold wrong_attempts. simpl.
  repeat (apply Forall_cons; split; [split; [reflexivity|]; split; [run|done]|]). constructor.
Defined.

(** ** The audit ledger *)
Lemma audit_chain_verifies_witness : verify_audit_chain "default" w_s1 = None /\ audit w_s1 <> [].
Proof.
  split; [|by vm_compute].
  apply (audit_chain_verifies w_s1 "default" w_s1_reachable). vm_compute. discriminate.
Defined.

Definition w_call : AuditCall := mkAuditCall t0 None None None "ping" None JNull.
Lemma audit_cap_breaks_chain_witness : exists calls, zlen calls = AUDIT_CAP + 1 /\
  (verify_audit_chain "t" (audit_after "t" calls) = Some 2 \/
   exists b prev, head (audit (audit_after "t" calls)) = Some b /\ prev = a_prev_hash b /\
    collision_among ["genesis" +:+ audit_text (a_fields b); prev +:+ audit_text (a_fields b)]).
Proof.
  set (calls := replicate (Z.to_nat (AUDIT_CAP + 1)) w_call).
  assert (zlen calls = AUDIT_CAP + 1) as Hl.
  { unfold calls, zlen. rewrite length_replicate. apply Z2Nat.id. by vm_compute. }
  clearbody calls. exists calls. split; [exact Hl|]. exact (audit_cap_breaks_chain "t" calls Hl).
Defined.

(** The rows of a tenant do not depend on what happens to others. *)
Definition w_s1' : Store := (append_audit (sec 9000) "other" None None None "x" None JNull w_s1).2.
Lemma audit_tamper_evident_witness :
  let rows s := sort_by (fun a b => a_id a <=? a_id b) (tenant_rows "default" (audit s)) in
  (audit_text ∘ a_fields) <$> rows w_s1 = (audit_text ∘ a_fields) <$> rows w_s1' \/
  collision_among (hashed_texts "genesis" (rows w_s1) ++ hashed_texts "genesis" (rows w_s1')).
Proof. apply (audit_tamper_evident "default" w_s1 w_s1'); run. Defined.

Lemma audit_listing_witness :
  list_audit "default" 1 None None None w_s1 =
  py_take 1 (reverse (filter (audit_selected "default" None None None) (audit w_s1))).
Proof. apply (audit_listing w_s1 "default" 1 None None None w_s1_reachable). Defined.

(** ** Tokens *)
Definition w_refresh := refresh w_cfg w_ring (sec 2100) "jti2" "rjti2" (tr_refresh_token w_tr) w_s1.
Definition w_tr2 : TokenResponse := answer (mkTokenResponse "" "" 0 false false) w_refresh.
Definition w_s2 : Store := w_refresh.2.
Definition w_rclaims : Claims :=
  issued_claims w_cfg (sec 2000) "rjti1" "usr_admin" "default" "tenant_admin" 1209600 "refresh".
Definition w_rt : RefreshToken :=
  mkRefreshToken "rjti1" "fam1" "default" "usr_admin" "active" (sec 2000) (sec 1211600) None.
Definition w_later : list store_op := [OpAppendEvent (sec 2150) "e" "x" "default" JNull].

Lemma w_refresh_run :
  refresh w_cfg w_ring (sec 2100) "jti2" "rjti2" (tr_refresh_token w_tr) w_s1 = (Ok w_tr2, w_s2).
Proof. run. Qed.

Lemma refresh_replay_revokes_family_witness :
  exists s3, refresh w_cfg w_ring (sec 2200) "jti3" "rjti3" (tr_refresh_token w_tr) (exec_all w_later w_s2) =
      (Raise (unauthorized "refresh token reuse detected"), s3) /\
    forall jti r, dget jti (refresh_tokens s3) = Some r -> rt_family_id r = "fam1" ->
      rt_status r = "revoked".
Proof.
  destruct (refresh_replay_revokes_family w_cfg w_ring (sec 2100) "jti2" "rjti2" (tr_refresh_token w_tr)
    w_s1 w_tr2 w_s2 w_later w_cfg w_ring (sec 2200) "jti3" "rjti3" w_rclaims w_rclaims w_rt w_refresh_run)
    as [_ (rt2 & s3 & Hrt & [(_ & Hr & Hf)|(Hs & _)])].
  - run.
  - discriminate.
  - run.
  - apply Forall_cons; split; [exact I|constructor].
  - run.
  - run.
  - exists s3. split; [exact Hr|exact Hf].
  - exfalso. revert Hrt Hs. vm_compute. intros [= <-]. discriminate.
Defined.

Lemma refresh_sound_witness :
  exists c rt role, verify_ w_cfg w_ring (sec 2100) (tr_refresh_token w_tr) (Some "refresh") = Ok c /\
    dget (c_jti c) (refresh_tokens w_s1) = Some rt /\ rt_status rt = "active" /\
    get_member_role (c_tid c) (c_sub c) w_s1 = Some role.
Proof.
  destruct (refresh_sound w_cfg w_ring (sec 2100) "jti2" "rjti2" (tr_refresh_token w_tr) w_s1 w_tr2 w_s2
    w_refresh_run) as (c & rt & role & H1 & H2 & H3 & _ & _ & H4 & _).
  exists c, rt, role. split; [exact H1|]. split; [exact H2|]. split; [exact H3|exact H4].
Defined.

Lemma revoke_cross_tenant_denied_witness :
  revoke (sec 2100) "jti1" "acme" (Some "usr_x") w_s1 =
    (Raise (forbidden "jti does not belong to caller tenant"), w_s1).
Proof. apply (revoke_cross_tenant_denied (sec 2100) "jti1" "acme" (Some "usr_x") w_s1). by vm_compute. Defined.

Lemma revoke_effective_witness :
  exists s2, revoke (sec 2100) "jti1" "default" (Some "usr_admin") w_s1 = (Ok true, s2) /\
    authorize (sec 2200) w_claims s2 = (Raise (unauthorized "revoked token"), swept (sec 2200) s2).
Proof.
  apply (revoke_effective (sec 2100) "jti1" "default" (Some "usr_admin") w_s1 (Some "usr_admin") w_claims
    (sec 2200) w_s1_reachable); [run|reflexivity|by vm_compute].
Defined.

Lemma logout_effective_witness :
  exists s2, logout w_cfg w_ring (sec 2100) w_claims (Some (tr_refresh_token w_tr)) w_s1 = (Ok true, s2) /\
    authorize (sec 2200) w_claims s2 = (Raise (unauthorized "revoked token"), swept (sec 2200) s2).
Proof.
  destruct (logout_effective w_cfg w_ring (sec 2100) w_claims (Some (tr_refresh_token w_tr)) w_s1
    w_s1_reachable) as (s2 & H1 & H2 & _); [by vm_compute|].
  exists s2. split; [exact H1|]. apply H2. by vm_compute.
Defined.

Definition w_ticket := issue_sso_ticket w_cfg (sec 2100) "tick" "usr_admin" "default" "tenant_admin" w_s1.
Definition w_exchange :=
  exchange_sso_ticket w_cfg w_ring (sec 2110) w_draws (answer ("", 0) w_ticket).1 w_ticket.2.
Lemma sso_ticket_single_use_witness :
  exchange_sso_ticket w_cfg w_ring (sec 2120) w_draws (answer ("", 0) w_ticket).1 (exec_all w_later w_exchange.2) =
    (Raise (unauthorized "invalid ticket"), exec_all w_later w_exchange.2).
Proof.
  apply (sso_ticket_single_use w_cfg w_ring (sec 2110) w_draws (answer ("", 0) w_ticket).1 w_ticket.2
    (answer (mkTokenResponse "" "" 0 false false) w_exchange) w_exchange.2); [run|].
  apply Forall_cons; split; [exact I|constructor].
Defined.

Definition w_reset : Store := exec (OpSetPasswordResetToken "usr_admin" "rhash" (sec 5000)) w_s0.
Lemma reset_token_single_use_witness :
  let s1 := (consume_password_reset_token (sec 3000) "rhash" w_reset).2 in
  (consume_password_reset_token (sec 3001) "rhash" s1).1 <> Ok (Some "usr_admin").
Proof.
  apply (reset_token_single_use (sec 3000) (sec 3001) "rhash" w_reset "usr_admin"); [|run].
  apply reach_step; [apply w_s0_reachable|exact I].
Defined.

Lemma change_password_effective_witness :
  exists s2 u1, change_password (sec 2100) "salt3" "usr_admin" "pw" "pw2" "default" w_s1 = (Ok true, s2) /\
     dget "usr_admin" (users s2) = Some u1 /\ password_ok "pw2" u1 = true.
Proof.
  destruct (change_password_effective (sec 2100) "salt3" "usr_admin" "pw" "pw2" "default"
    (default w_user (dget "usr_admin" (users w_s1))) w_s1 w_s1_reachable) as [Hok _]; [run|].
  destruct Hok as (s2 & u1 & H1 & H2 & H3 & _); [run|].
  exists s2, u1. split; [exact H1|]. split; [exact H2|exact H3].
Defined.

(** ** Scenarios *)
Definition w_session :=
  issue_session_token w_cfg w_ring (sec 2000) "sjti" "usr_admin" "default" "tenant_admin" None w_s0.
Definition w_si : SessionIssue := answer (mkSessionIssue "" "" 0 "") w_session.
Definition w_revoke := revoke_user_sessions_and_tokens (sec 3000) "usr_admin" "default" w_session.2.
(** Revoked at 3000 s, refused at 4000 s, accepted again at 40000 s. *)
Lemma revoked_session_resurrects_witness :
  (exists s3, verify_session_token w_cfg w_ring (sec 4000) (si_access_token w_si) w_revoke.2 =
                (Raise (unauthorized "revoked token"), s3)) /\
  (exists c s3, verify_session_token w_cfg w_ring (sec 40000) (si_access_token w_si) w_revoke.2 = (Ok c, s3)).
Proof.
  destruct (revoked_session_resurrects w_cfg w_ring (sec 2000) "sjti" "usr_admin" "default" "tenant_admin"
    w_s0 w_si w_session.2 (sec 3000) (answer (0, 0) w_revoke) w_revoke.2 w_s0_reachable) as [H1 H2].
  - by left.
  - by vm_compute.
  - run.
  - run.
  - run.
  - split; [apply H1; by vm_compute|].
    destruct (H2 (sec 40000)) as (c & s3 & H3 & _); [by vm_compute..|]. exists c, s3. exact H3.
Defined.

Lemma refresh_ignores_revocation_witness :
  exists s2, revoke (sec 2050) "rjti1" "default" (Some "usr_admin") w_s1 = (Ok true, s2) /\
    (refresh w_cfg w_ring (sec 2100) "jti2" "rjti2" (tr_refresh_token w_tr) s2).1 = Ok w_tr2.
Proof.
  destruct (refresh_ignores_revocation (sec 2050) "rjti1" "default" (Some "usr_admin") w_s1 w_rt w_cfg w_ring
    (sec 2100) "jti2" "rjti2" (tr_refresh_token w_tr)) as (s2 & H1 & _ & H2).
  - run.
  - reflexivity.
  - reflexivity.
  - apply w_s1_reachable.
  - run.
  - run.
  - exists s2. split; [exact H1|]. rewrite H2. run.
Defined.

Lemma bootstrap_login_verify_witness :
  exists tr s2 vr s3, login w_cfg w_ring (sec 2000) w_draws w_req false w_s0 = (Ok tr, s2) /\
    verify w_cfg w_ring (sec 2100) (tr_access_token tr) s2 = (Ok vr, s3) /\ vr_role vr = "tenant_admin".
Proof.
  destruct (bootstrap_login_verify w_cfg w_ring "salt" "admin" "pw" t0 (sec 2000) w_draws (sec 2100))
    as (s1 & tr & s2 & vr & s3 & H1 & H2 & H3 & _ & H4 & _).
  - by left.
  - discriminate.
  - discriminate.
  - reflexivity.
  - by vm_compute.
  - by vm_compute.
  - exists tr, s2, vr, s3. split; [|split; [exact H3|exact H4]]. unfold w_s0. rewrite H1. exact H2.
Defined.

(** ** Guards and handlers *)
Definition w_hdr : Headers := mkHeaders "default" ("Bearer " +:+ tr_access_token w_tr).
Definition w_guard := guard w_cfg w_ring (sec 2100) w_hdr "members" "write" "default" w_s1.
Lemma w_guard_run :
  guard w_cfg w_ring (sec 2100) w_hdr "members" "write" "default" w_s1 = (Ok (answer w_claims w_guard), w_guard.2).
Proof. run. Qed.

Lemma guard_sound_witness :
  exists tok c0 role, extract_bearer (hd_authorization w_hdr) = Ok tok /\
    verify_ w_cfg w_ring (sec 2100) tok (Some "access") = Ok c0 /\
    role_allows "default" role "members" "write" w_s1 = true.
Proof.
  destruct (guard_sound w_cfg w_ring (sec 2100) w_hdr "members" "write" "default" w_s1
    (answer w_claims w_guard) w_guard.2 w_s1_reachable w_guard_run)
    as (_ & _ & tok & c0 & role & H1 & H2 & _ & _ & _ & H3).
  exists tok, c0, role. split; [exact H1|]. split; [exact H2|exact H3].
Defined.

Lemma last_admin_preserved_witness :
  has_admin "default"
    (update_member_role_route w_cfg w_ring (sec 2100) w_hdr "default" "usr_admin" "member" w_s1).2 /\
  has_admin "default" (remove_member_route w_cfg w_ring (sec 2100) w_hdr "default" "usr_admin" w_s1).2.
Proof.
  apply (last_admin_preserved w_cfg w_ring (sec 2100) w_hdr "default" "default" "usr_admin" "member" w_s1
    w_s1_reachable).
  exists "usr_admin", (mkMember "default" "usr_admin" "tenant_admin" None t0 t0). split; run.
Defined.

Lemma last_admin_can_be_locked_witness :
  (update_member_status w_cfg w_ring (sec 2100) w_hdr "default" "usr_admin" "disabled" w_s1).1 =
    Raise (forbidden "cannot disable last tenant_admin") /\
  exists s2, update_member_status w_cfg w_ring (sec 2100) w_hdr "default" "usr_admin" "locked" w_s1 =
    (Ok tt, s2) /\ get_user_status "usr_admin" s2 = Some "locked".
Proof.
  destruct (last_admin_can_be_locked w_cfg w_ring (sec 2100) w_hdr "default" "usr_admin" w_s1
    (answer w_claims w_guard) w_guard.2 (default w_user (dget "usr_admin" (users w_s1))) w_s1_reachable
    w_guard_run) as [H1 (s2 & H2 & H3 & _)].
  - run.
  - run.
  - split; [exact H1|]. exists s2. split; [exact H2|exact H3].
Defined.

(** A second user, an invite for it and an open tenant. *)
Definition w_join : Store :=
  exec_all [OpCreateUser t0 "s" "usr_bob" "bob" "pw" None false true None;
            OpCreateInvite t0 "inv1" "default" (hash_token "tok") "member" (sec 9000) None None;
            OpCreateTenant t0 "acme" "Acme" "team" "open"] w_s1.
Lemma exec_all_reachable ops s : reachable s -> reachable (exec_all ops s).
Proof.
  revert s. induction ops as [|op ops IH]; intros s Hs; [done|]. apply (IH (exec op s)). by constructor.
Qed.
Lemma w_join_reachable : reachable w_join.
Proof. apply exec_all_reachable, w_s1_reachable. Qed.

Definition w_redeem := redeem_body (sec 2200) "tok" "usr_bob" w_join.
Lemma invite_single_use_witness :
  get_member_role "default" "usr_bob" w_redeem.2 = Some "member" /\
  redeem_body (sec 2300) "tok" "usr_eve" w_redeem.2 = (Raise invalid_invite, w_redeem.2).
Proof.
  destruct (invite_single_use (sec 2200) "tok" "usr_bob" w_join "default" "member" w_redeem.2 "usr_eve"
    (sec 2300) w_join_reachable) as (_ & H1 & _ & H2); [run|]. split; [exact H1|exact H2].
Defined.

Definition w_self := self_join_body (sec 2200) "acme" "usr_bob" w_join.
Lemma self_join_member_only_witness : get_member_role "acme" "usr_bob" w_self.2 = Some "member".
Proof.
  destruct (self_join_member_only (sec 2200) "acme" "usr_bob" w_join ("acme", "member") w_self.2)
    as (_ & _ & _ & H1 & _); [run|]. exact H1.
Defined.

(** ** The login throttle *)
Definition w_limiter : Limiter := mkLimiter 2 60 [].
(** Guesses at one account from two addresses. *)
Definition w_attempts : list Attempt :=
  [mkAttempt 0 "t" "10.0.0.1" (Some "bob"); mkAttempt 1 "t" "10.0.0.2" (Some "bob");
   mkAttempt 2 "t" "10.0.0.1" (Some "Bob"); mkAttempt 3 "t" "10.0.0.2" None].
Lemma rate_limit_bound_witness :
  (allows w_attempts w_limiter).1 = [true; true; false; true] /\
  (inject_Z (admitted "u:t:bob" w_attempts (allows w_attempts w_limiter).1) <=
   inject_Z 2 + seconds 3 * refill_rate w_limiter)%Q.
Proof.
  split; [run|].
  apply (rate_limit_bound "u:t:bob" w_attempts w_limiter 0 3); [by vm_compute|constructor|reflexivity|by vm_compute|].
  simpl. lia.
Defined.
Lemma rate_limit_recovers_witness :
  (consume "k" (sec 31) (mkLimiter 2 60 [("k", mkBucket 0 (sec 1))])).1 = true.
Proof.
  apply (rate_limit_recovers "k" (mkLimiter 2 60 [("k", mkBucket 0 (sec 1))]) (mkBucket 0 (sec 1)) (sec 31));
    by vm_compute.
Defined.
Lemma rate_limit_memory_witness :
  zlen (lm_buckets (allow (sec 5) "default" "10.0.0.1" (Some "bob") w_limiter).2) <= MAX_BUCKETS.
Proof. apply (rate_limit_memory (sec 5) "default" "10.0.0.1" (Some "bob") w_limiter). by vm_compute. Defined.

(** ** The store's tables *)
Lemma api_key_lifecycle_witness :
  exists raw k s1, create_api_key t0 "r" "i" "default" None ["chat"] init_store = (Ok (raw, k), s1) /\
    get_api_key_by_hash (sha256 raw) s1 = Some k /\
    get_api_key_by_hash (sha256 raw) (revoke_api_key t0 (k_key_id k) s1).2 = None.
Proof.
  destruct (api_key_lifecycle t0 "r" "i" "default" None ["chat"] init_store (reach_init _))
    as (raw & k & s1 & H1 & H2 & _ & _ & H3).
  - split; [reflexivity|]. intros k r. discriminate.
  - exists raw, k, s1. split; [exact H1|]. split; [exact H2|].
    apply (H3 t0); [discriminate|apply rtc_refl].
Defined.

Lemma delete_tenant_isolates_witness :
  exists s2, delete_tenant (sec 2300) "acme" w_join = (Ok true, s2) /\
    get_tenant_status "acme" s2 = Some "deleted" /\ get_tenant "default" s2 = get_tenant "default" w_join.
Proof.
  destruct (delete_tenant_isolates (sec 2300) "acme"
    (mkTenant "acme" "Acme" "active" "team" "open" t0 None None) w_join w_join_reachable)
    as (s2 & H1 & H2 & _ & _ & _ & _ & H3).
  - run.
  - discriminate.
  - exists s2. split; [exact H1|]. split; [exact H2|]. apply H3. discriminate.
Defined.

Definition w_secrets : Store := exec_all [OpIssueAppSecret t0 "a" "one" "app" 60] w_s1.
Lemma app_secret_rotation_witness :
  exists raw rec prev s2,
    issue_app_secret (sec 2300) "b" "two" "app" 60 w_secrets = (Ok (raw, rec, prev), s2) /\
    get_current_app_secret "app" s2 = Some rec.
Proof.
  destruct (app_secret_rotation (sec 2300) "b" "two" "app" 60 w_secrets) as (raw & rec & prev & s2 & H1 & H2 & _).
  - apply exec_all_reachable, w_s1_reachable.
  - run.
  - exists raw, rec, prev, s2. split; [exact H1|exact H2].
Defined.

Definition w_request : Store := exec_all [OpCreateJoinRequest t0 "req" "default" "usr_bob"] w_s1.
Definition w_decided := decide_join_request (sec 2300) "req" "approved" "usr_admin" w_request.
Definition w_jr : JoinRequest :=
  mkJoinRequest "req" "default" "usr_bob" "approved" (Some "usr_admin") (Some (sec 2300)) t0.
Lemma join_decision_final_witness :
  get_join_request "req" (exec_all w_later w_decided.2) = Some w_jr /\
  exists m, decide_join_request (sec 2400) "req" "rejected" "usr_eve" (exec_all w_later w_decided.2) =
              (Raise (StoreConflict m), exec_all w_later w_decided.2).
Proof.
  destruct (join_decision_final (sec 2300) "req" "approved" "usr_admin" w_request w_jr w_decided.2 w_later
    (sec 2400) "rejected" "usr_eve") as (_ & _ & _ & _ & H1 & H2).
  - apply exec_all_reachable, w_s1_reachable.
  - run.
  - apply Forall_cons; split; [exact I|constructor].
  - split; [exact H1|exact H2].
Defined.

Definition w_events : Store :=
  exec_all [OpAppendEvent t0 "a" "x" "default" JNull; OpAppendEvent t0 "b" "x" "default" JNull;
            OpAppendEvent t0 "c" "y" "acme" JNull] w_s1.
Lemma event_paging_witness :
  list_events 0 (2 + 5) w_events = list_events 0 2 w_events ++ list_events 2 5 w_events.
Proof.
  apply (event_paging w_events 0 2 5); [apply exec_all_reachable, w_s1_reachable|by vm_compute..].
Defined.

(** ** Keys and secrets *)
Definition w_key (kid : string) (t : Z) : RsaKey := mkRsaKey kid "pem-a" "pem-a" t.
Definition w_rs : KR :=
  (mkKeyRing "RS256" "" (Some (w_key "k1" t0)) [] [("k1", w_key "k1" t0)] "/var/keys.json", Missing).
Lemma w_rs_inv : ring_inv w_rs.1.
Proof.
  constructor.
  - reflexivity.
  - by eexists.
  - repeat constructor; discriminate.
  - apply NoDup_singleton.
  - intros k ->%list_elem_of_singleton. reflexivity.
Qed.
Definition w_ring_ops : list ring_op := [RotateOp NoTempFile (w_key "k2" (sec 5000)); PruneOp Written (sec 6000)].

Lemma rotation_survives_restart_witness :
  let st := ring_run (w_ring_ops ++ [RotateOp Written (w_key "k3" (sec 7000))]) w_rs in
  exists ring, rs256 (sec 9000) (w_key "gen" (sec 9000)) None None "/var/keys.json" st.2 = Ok ring /\
    verify_key_for (Some "k1") ring = Ok "pem-a".
Proof.
  destruct (rotation_survives_restart w_rs w_ring_ops (w_key "k3" (sec 7000)) (sec 9000)
    (w_key "gen" (sec 9000)) None None w_rs_inv) as (ring & H1 & _ & _ & H2).
  - discriminate.
  - simpl. split_and!; try done.
  - repeat constructor.
  - exists ring. split; [exact H1|]. apply (H2 (w_key "k1" t0)). apply list_elem_of_In. vm_compute. tauto.
Defined.

Lemma rotation_keeps_tokens_witness :
  verify_ w_cfg (ring_run w_ring_ops w_rs).1 (sec 6500)
    (issue w_cfg w_rs.1 (sec 4000) "j" "usr_admin" "default" "member" 3600 "access").1 (Some "access") =
  Ok (issued_claims w_cfg (sec 4000) "j" "usr_admin" "default" "member" 3600 "access").
Proof.
  apply (rotation_keeps_tokens w_cfg w_rs (w_key "k1" t0) w_ring_ops (sec 4000) (sec 6500) "j" "usr_admin"
    "default" "member" 3600 "access" w_rs_inv).
  - reflexivity.
  - reflexivity.
  - simpl. split_and!; try done.
  - apply Forall_cons; split; [exact I|]. apply Forall_cons; split; [by vm_compute|constructor].
  - by vm_compute.
  - by vm_compute.
Defined.

(** The key of [w_rs] is two days old when it is rotated away. *)
Lemma grace_counts_from_generation_witness :
  exists m, verify_ w_cfg
    (get_jwks Written (sec 180000) (rotate Written (w_key "k2" (sec 180000)) w_rs).2).2.1 (sec 180001)
    (issue w_cfg w_rs.1 (sec 180000) "j" "usr_admin" "default" "member" 3600 "access").1 (Some "access") =
  Raise (JwtError m).
Proof.
  apply (grace_counts_from_generation w_cfg w_rs (w_key "k1" t0) Written (w_key "k2" (sec 180000)) Written
    (sec 180000) (sec 180001) "j" "usr_admin" "default" "member" 3600 "access" w_rs_inv).
  - reflexivity.
  - split; [split; discriminate|reflexivity].
  - by vm_compute.
Defined.

Lemma kek_dual_window_witness :
  decrypt_secret (encrypt_secret "nonce-123456" "s3cret" "old") "new" (Some "old") = Ok "s3cret".
Proof.
  destruct (kek_dual_window "nonce-123456" "s3cret" "old" "new" None) as [_ H1].
  - reflexivity.
  - discriminate.
  - apply H1. run.
Defined.

Lemma decrypt_only_crypto_errors_witness :
  exists m, CryptoError "malformed ciphertext blob" = CryptoError m.
Proof. apply (decrypt_only_crypto_errors "?" "kek" None (CryptoError "malformed ciphertext blob")). run. Defined.
