(* ===== verification/SurfaceWitnesses.v ===== *)
(** * Concrete runs of the outer surfaces

    Inputs at which the hypotheses of the properties of leases, data plane,
    handlers, signup, identity providers, SCIM and configuration hold, with the
    stand-in libraries. *)
From S2P Require Import Prelude PyText StoreState Prims AuditLog Tenants Rbac Users Keys.
From S2P Require Import Tokens Ledger Crypto Jwt Jwks Auth StoreSteps Invariants KeyProps AuthLemmas.
From S2P Require Import Deps MemberRoutes RateLimit JoinRoutes Redis Leases Cache CacheProps DataPlane PlaneProps.
From S2P Require Import Webhook TenantRoutes AdminRoutes PlaneRouteProps SecretProps Email AuthRoutes.
From S2P Require Import AuditRoutes Config Provision ProvisionProps Registration.
From S2P Require Import Oidc OidcProps Scim ScimProps Client Routing Witnesses.
Open Scope Z_scope.

#[local] Existing Instances toy_hashlib toy_argon2 toy_jwt toy_aead toy_rsa toy_totp toy_hmac toy_redis
  toy_hash_laws toy_argon2_laws toy_jwt_laws toy_aead_laws toy_redis_laws.

(** The answer of a run that is known to succeed. *)
Definition got {A S} (dflt : A) (r : res A * S) : A := match r.1 with Ok a => a | Raise _ => dflt end.
Lemma got_ok {A S} (dflt : A) (x : res A * S) : is_ok x.1 = true -> x = (Ok (got dflt x), x.2).
Proof. by destruct x as [[]]. Qed.
(** No key in Redis. *)
Definition w_redis : redis := (∅ : gmap string rentry).
Lemma w_no_leases t : no_leases t w_redis.
Proof. intros tid. reflexivity. Qed.

(** ** Leases and the data plane *)

Definition w_leases : list (Z * lease_call) :=
  [(sec 1000, Acquire "a" "acme" 1); (sec 1001, Acquire "b" "acme" 1); (sec 1002, Release "acme" "acme:a")].
Lemma leases_refine_semaphore_witness :
  exists A, history_allowed 120 w_leases (lease_run 120 w_leases w_redis).1 sem_empty A.
Proof.
  apply (leases_refine_semaphore 120 (sec 1000)).
  - lia.
  - unfold sec. lia.
  - apply w_no_leases.
  - simpl. unfold sec. lia.
Defined.

(** A tenant with an administrator and an API key. *)
Definition w_team : Store :=
  exec (OpAddMember t0 "default" "usr_admin" "tenant_admin" None)
    (exec (OpCreateUser t0 "salt" "usr_admin" "admin" "pw" None false true None)
       (exec (OpCreateTenant t0 "default" "Default" "team" "invite") init_store)).
Definition w_keyed : Store := exec (OpCreateApiKey t0 "raw" "one" "default" None []) w_team.
Lemma w_keyed_reach : reach key_draws_ok w_keyed.
Proof.
  apply reach_step.
  - repeat (apply reach_step; [|exact I]). apply reach_init.
  - split; [reflexivity|]. intros k r. discriminate.
Qed.
Definition w_env (cache : bool) : Env := mkEnv (sec 3000) "1970-01-01" "uuid" "ns" 120 cache.
Definition w_plane : Plane := mkPlane w_keyed w_redis.
Definition w_authreq : AuthorizeRequest := mkAuthorizeRequest "fmu_raw" "default" "chat" "m1".
#[local] Abbreviation w_authorized := (_authorize (w_env false) w_authreq w_plane).
#[local] Abbreviation w_resp := (got (_refuse INVALID_API_KEY "") w_authorized).
Lemma w_sem : sem_rel 120 (sec 3000) w_redis sem_empty.
Proof. apply sem_rel_empty, w_no_leases. Qed.
Lemma w_fresh c : fresh_lease (w_env c) sem_empty.
Proof. intros tid. reflexivity. Qed.

Lemma authorize_sound_witness :
  w_authorized = (Ok w_resp, w_authorized.2) /\
  exists k, get_api_key_by_hash (sha256 "fmu_raw") w_keyed = Some k /\ as_lease_id w_resp = "default:uuid".
Proof.
  assert (w_authorized = (Ok w_resp, w_authorized.2)) as Ha by (apply got_ok; run). split; [exact Ha|].
  destruct (authorize_sound (w_env false) w_authreq w_plane w_plane w_resp w_authorized.2 sem_empty)
    as (k & tenant & H1 & _).
  - unfold w_env, sec. simpl. lia.
  - simpl. lia.
  - apply w_sem.
  - apply w_fresh.
  - reflexivity.
  - exact Ha.
  - run.
  - exists k. split; [exact H1|run].
Defined.

(** The same key for a module the tenant may not use. *)
Definition w_otherreq : AuthorizeRequest := mkAuthorizeRequest "fmu_raw" "other" "chat" "m1".
#[local] Abbreviation w_refused := (_authorize (w_env false) w_otherreq w_plane).
Lemma refusal_keeps_leases_witness :
  w_refused = (Ok (got w_resp w_refused), w_refused.2) /\
  as_is_allowed (got w_resp w_refused) = false /\ sem_rel 120 (sec 3000) (pl_redis w_refused.2) sem_empty.
Proof.
  assert (w_refused = (Ok (got w_resp w_refused), w_refused.2)) as Ha by (apply got_ok; run). split; [exact Ha|].
  split; [run|].
  apply (refusal_keeps_leases (w_env false) w_otherreq w_plane (got w_resp w_refused) w_refused.2 sem_empty).
  - unfold w_env, sec. simpl. lia.
  - simpl. lia.
  - apply w_sem.
  - apply w_fresh.
  - exact Ha.
  - run.
Defined.

#[local] Abbreviation w_revoked :=
  (revoke_api_key_route w_cfg w_ring (ev_cache (w_env true)) (sec 2200) w_hdr "ev" "default" "key_one" w_plane).
Definition w_api_key : ApiKey := default (mkApiKey "" "" None "" "" [] 0 None) (dget "key_one" (api_keys w_keyed)).
Lemma w_revoked_ok : is_ok w_revoked.1 = true.
Proof. run. Qed.
(** Between the revocation and the call: another call with the key, and a new key. *)
Definition w_between : list plane_event :=
  [EvAuthorize (w_env true) w_authreq; EvStore (sec 3000) (OpCreateApiKey (sec 3000) "new" "two" "default" None [])].
Lemma revoked_key_refused_witness :
  exists p'', AuthorizeAndAcquire (w_env true) w_authreq (foldl (fun p e => event_run e p) w_revoked.2 w_between) =
    (Ok (Reply (_refuse INVALID_API_KEY "invalid or revoked api key")), p'').
Proof.
  apply (revoked_key_refused w_cfg w_ring (sec 2200) w_hdr "ev" "default" "key_one" w_plane w_api_key
    (got false w_revoked) w_revoked.2 w_between).
  - apply w_keyed_reach.
  - run.
  - run.
  - run.
  - exact (got_ok false w_revoked w_revoked_ok).
  - repeat constructor. by vm_compute.
  - unfold w_between, w_env, sec. simpl. lia.
Defined.

(** A call that had read the key before the revocation and caches its row after
    it: the next call with the revoked key is let in. *)
Definition w_late : Plane :=
  match get_tenant "default" (pl_store w_plane) with
  | Some tenant =>
      (in_redis (set_api_key (sec 2200) "fmu_raw"
        (tenant_info_of "default" tenant (get_quota "default" (pl_store w_plane))) 300) w_revoked.2).2
  | None => w_revoked.2
  end.
Lemma in_flight_refills :
  get_api_key_by_hash (sha256 "fmu_raw") (pl_store w_late) = None /\
  match (AuthorizeAndAcquire (mkEnv (sec 2210) "day" "uuid" "ns" 120 true) w_authreq w_late).1 with
  | Ok (Reply resp) => as_is_allowed resp
  | _ => false
  end = true.
Proof. split; run. Qed.

Definition w_quota : QuotaFields := mkQuotaFields (Some 5) None None None None None None.
#[local] Abbreviation w_put_quota :=
  (put_quota_route w_cfg w_ring true (sec 2200) w_hdr "ev" "default" w_quota w_plane).
#[local] Abbreviation w_tq := (got (mkTenantQuota "" 0 DEFAULT_QUOTA) w_put_quota).
Lemma w_put_quota_ok : is_ok w_put_quota.1 = true.
Proof. run. Qed.
Lemma quota_change_drops_cache_witness :
  get_quota "default" (pl_store w_put_quota.2) = Some w_tq /\
  not_cached (sec 2200) (k_key_hash w_api_key) (pl_redis w_put_quota.2).
Proof.
  destruct (quota_change_drops_cache w_cfg w_ring (sec 2200) w_hdr "ev" "default" w_quota w_plane w_tq w_put_quota.2)
    as [H1 H2].
  - apply (reach_wf _ _ w_keyed_reach).
  - exact (got_ok _ w_put_quota w_put_quota_ok).
  - split; [exact H1|]. apply H2; [|discriminate]. apply list_elem_of_In. vm_compute. left. reflexivity.
Defined.

Lemma login_window_exact_witness :
  exists l r', login_run "k" 2 60 [sec 1000; sec 1001; sec 1002] w_redis = (Ok l, r') /\ foldr Z.add 0 l = 2.
Proof.
  apply (login_window_exact "k" 2 60 ltac:(lia) (sec 1000) [sec 1001; sec 1002] w_redis).
  - lia.
  - simpl. unfold sec. lia.
  - reflexivity.
Defined.

(** ** Outbox *)

Definition w_outbox : Store := exec_all [OpAppendEvent t0 "a" "tenant.created" "acme" JNull] w_s0.
Definition w_worker : Worker := mkWorker "secret" 2 10.
Definition w_down : Endpoint := fun _ _ _ => Raise (OSError "down").
Definition w_ticks : list (Z * nat) := [(sec 3000, 1%nat); (sec 3005, 1%nat)].
Lemma webhook_worker_drains_witness :
  exists s', _run w_worker w_down w_ticks w_outbox = (Ok tt, s') /\
    forall e, e ∈ events s' -> e_status e <> EVENT_STATUS_PENDING.
Proof.
  destruct (webhook_worker_drains w_worker w_down w_ticks w_outbox) as (s' & H1 & H2 & _).
  - apply (bool_decide_unpack _). run.
  - simpl. lia.
  - repeat constructor.
  - apply (bool_decide_unpack _). run.
  - exists s'. split; [exact H1|exact H2].
Defined.

(** ** Key rotation, password reset, business events *)

Lemma kek_rotation_lossless_witness :
  exists ci cm p', admin_kek_reencrypt "tok" None (sec 3000) "Bearer tok" "kek2" (Some "kek")
    (fun _ => "123456789012") (mkPlane w_s1 w_redis) = (Ok (ci, cm), p') /\ counted ci /\ counted cm.
Proof.
  destruct (kek_rotation_lossless "tok" None (sec 3000) "Bearer tok" "kek2" "kek" (fun _ => "123456789012")
    (mkPlane w_s1 w_redis)) as (ci & cm & p' & H1 & _ & H2 & _ & H3 & _).
  - apply w_s1_reachable.
  - reflexivity.
  - reflexivity.
  - intros _. reflexivity.
  - exists ci, cm, p'. split; [exact H1|]. split; [exact H2|exact H3].
Defined.

Definition w_mail : MailSettings := mkMailSettings "" "https://id.example" 86400 3600.
Definition w_smtp : Smtp := fun _ _ _ => Ok tt.
Definition w_rate : RateView := mkRateView "10.0.0.1" None 0.
Definition w_lim : Limiter := mkLimiter 10 60 [].
Lemma forgot_password_uniform_witness :
  (forgot_password (sec 3000) w_rate w_mail w_smtp "tok" "a@b.c" (w_s0, w_lim)).1 =
  (forgot_password (sec 3000) w_rate w_mail w_smtp "tok" "a@b.c" (init_store, w_lim)).1 /\
  (forgot_password (sec 3000) w_rate w_mail w_smtp "tok" "a@b.c" (w_s0, w_lim)).1 = Ok true.
Proof.
  destruct (forgot_password_uniform (sec 3000) w_rate w_mail w_smtp "tok" "a@b.c" w_s0 init_store w_lim)
    as [H1 H2].
  - intros to_email subject body e. discriminate.
  - split; [exact H1|]. apply H2. run.
Defined.

Definition w_armed : Store := exec (OpSetPasswordResetToken "usr_admin" (hash_token "reset") (sec 5000)) w_s0.
#[local] Abbreviation w_reset_run :=
  (reset_password (sec 4000) w_rate "salt3" "reset" "newpassword1" (w_armed, w_lim)).
Lemma w_reset_ok : is_ok w_reset_run.1 = true.
Proof. run. Qed.
Lemma w_reset_true : got false w_reset_run = true.
Proof. run. Qed.
Lemma password_reset_effective_witness :
  exists uid u', dget uid (users w_reset_run.2.1) = Some u' /\ password_ok "newpassword1" u' = true.
Proof.
  destruct (password_reset_effective (sec 4000) w_rate "salt3" "reset" "newpassword1" w_armed w_lim w_reset_run.2)
    as (uid & u & u' & _ & _ & _ & H1 & H2 & _).
  - apply reach_step; [apply w_s0_reachable|exact I].
  - rewrite (got_ok false w_reset_run w_reset_ok) at 1. rewrite w_reset_true. reflexivity.
  - exists uid, u'. split; [exact H1|exact H2].
Defined.

Definition w_any : BizFilter := mkBizFilter None None None None.
Lemma biz_query_exact_witness :
  (_biz_query w_any "default" None None 10 w_s1).1 =
  take (Z.to_nat 10) (filter (fun a => _biz_match w_any a = true)
    (py_take 20000 (reverse (filter (audit_selected "default" None None None) (audit w_s1))))).
Proof.
  rewrite (biz_query_exact w_any "default" None None 10 w_s1 w_s1_reachable).
  - reflexivity.
  - lia.
Defined.

(** ** Configuration *)

Definition w_core : string -> Z -> Environ -> res Z := fun _ d _ => Ok d.
Definition w_environ : Environ :=
  [("FUSION_IDENTITY_JWT_KEY", "0123456789abcdef0123456789abcdef");
   ("FUSION_IDENTITY_SERVICE_TOKEN", "service-token-0123456789");
   ("FUSION_IDENTITY_KEK", "another key"); ("FUSION_IDENTITY_WEBHOOK_TICK", "7")].
#[local] Abbreviation w_loaded := (load_settings w_core w_environ).
Lemma w_loaded_ok : is_ok w_loaded.1 = true.
Proof. run. Qed.
Lemma load_settings_fails_closed_witness : exists st, w_loaded = (Ok st, w_environ) /\ settings_ok st.
Proof.
  destruct (load_settings_fails_closed w_core ltac:(intros; exact I) w_environ) as [H1 H2].
  destruct w_loaded as [[st|e] env] eqn:E.
  - exists st. simpl in H1, H2. subst env. split; [reflexivity|exact H2].
  - pose proof w_loaded_ok as Hok. rewrite E in Hok. discriminate.
Defined.

(** ** Provisioning and signup *)

Definition w_pd : ProvisionDraws := mkProvisionDraws "t1" "generated" "u1" "salt" "raw1" "k1" "e1" "e2".
Definition w_spec (hook : option string) : ProvisionRequest :=
  mkProvisionRequest (Some "acme") "Acme" "free" None None
    (Some (mkSeedAdminSpec "root" None (Some "root@acme.example") true)) (Some (mkApiKeySpec None ["chat"])) hook.
Definition w_ep : string := "/api/v1/admin/tenants/provision".
Definition w_base : Plane := mkPlane w_s0 w_redis.
#[local] Abbreviation w_prov := (provision_core true (sec 3000) w_pd "secret" true (w_spec None) w_ep (Some "idem") None w_base).
Lemma w_prov_ok : is_ok w_prov.1 = true.
Proof. run. Qed.
Lemma provision_replays_witness :
  provision_core false (sec 4000) w_pd "other" false (w_spec None) w_ep (Some "idem") None w_prov.2 =
    (Ok (dset "idempotent_replay" (JBool true) (got [] w_prov)), w_prov.2).
Proof.
  apply (provision_replays true (sec 3000) w_pd "secret" true (w_spec None) w_ep "idem" None w_base
    (got [] w_prov) w_prov.2).
  - discriminate.
  - exact (got_ok [] w_prov w_prov_ok).
Defined.
Lemma provision_all_or_nothing_witness :
  (exists msg, w_prov = (Raise (http 409 msg), w_base)) \/
  (exists o p', w_prov = (o, p') /\ provisioned (sec 3000) w_pd "acme" (w_spec None) w_s0 (pl_store p')).
Proof.
  destruct (provision_all_or_nothing true (sec 3000) w_pd "secret" true (w_spec None) w_ep (Some "idem") None w_base)
    as [H1|(o & p' & H1 & H2 & _)].
  - run.
  - run.
  - intros k [= <-]. run.
  - left. exact H1.
  - right. exists o, p'. split; [exact H1|exact H2].
Defined.
Lemma provision_hook_fails_witness :
  (exists msg, provision_core true (sec 3000) w_pd "secret" true (w_spec (Some "https://h")) w_ep None None w_base =
     (Raise (http 409 msg), w_base)) \/
  (exists e p', provision_core true (sec 3000) w_pd "secret" true (w_spec (Some "https://h")) w_ep None None w_base =
     (Raise (AttributeError e), p') /\ provisioned (sec 3000) w_pd "acme" (w_spec (Some "https://h")) w_s0 (pl_store p')).
Proof.
  destruct (provision_hook_fails true (sec 3000) w_pd "secret" true (w_spec (Some "https://h")) w_ep None None
    w_base "acme") as [H1|(e & p' & H1 & H2 & _)].
  - reflexivity.
  - reflexivity.
  - reflexivity.
  - run.
  - intros k. discriminate.
  - left. exact H1.
  - right. exists e, p'. split; [exact H1|exact H2].
Defined.

Definition w_sg : SignupSettings := mkSignupSettings true true "community" "secret" w_mail.
Definition w_gated : AuthConfig :=
  mkAuthConfig "fusion-identity" "fusion-cluster" 3600 1209600 "kek" None false true 60.
Definition w_sd : SignupDraws := mkSignupDraws "u2" "salt" "verify" w_draws.
Definition w_signup : RegisterRequest := mkRegisterRequest "newbie" "password12" None (Some "n@b.c").
#[local] Abbreviation w_registered := (register_body w_gated w_ring w_sg w_smtp (sec 3000) w_sd w_signup w_s0).
Lemma w_registered_ok : is_ok w_registered.1 = true.
Proof. run. Qed.
(** A profile edit and a new mail; a profile edit alone. *)
Definition w_resent : list store_op :=
  [OpUpdateUser "usr_u2" (display_name_field "New"); OpSetEmailVerifyToken "usr_u2" "other" (sec 9000)].
Definition w_edited : list store_op := [OpUpdateUser "usr_u2" (display_name_field "New")].
Lemma register_gated_witness :
  ro_tokens (got (mkRegistered "" "" "" false None) w_registered) = None /\
  (exists e, login w_gated w_ring (sec 3100) w_draws (mkLoginRequest "newbie" "password12" None None) false
    (exec_all w_resent w_registered.2) = (Raise e, exec_all w_resent w_registered.2)) /\
  exists s2, verify_email (sec 3100) "verify" (exec_all w_edited w_registered.2) = (Ok "usr_u2", s2).
Proof.
  assert (forall ops, _) as Hg by exact (fun ops => register_gated w_gated w_sg w_smtp w_ring (sec 3000) w_sd w_signup w_s0
    (got (mkRegistered "" "" "" false None) w_registered) w_registered.2 ops eq_refl eq_refl w_s0_reachable
    ltac:(run) (got_ok _ w_registered w_registered_ok)).
  destruct (Hg w_resent) as (H1 & _ & H2 & _). destruct (Hg w_edited) as (_ & _ & _ & H3).
  split; [exact H1|]. split; [apply H2; run|].
  destruct H3 with (now' := sec 3100) as (s2 & u & Hs & _); [run| |by vm_compute|by exists s2].
  intros k u Hk. apply dget_elem_of in Hk. revert Hk.
  assert (Forall (fun kv => u_email_verify_token_hash kv.2 <> Some (hash_token "verify")) (users w_s0)) as Hall
    by (apply (bool_decide_unpack _); by vm_compute).
  intros Hk. rewrite Forall_forall in Hall. by apply (Hall _ Hk).
Defined.

(** ** Identity providers and SCIM *)

Definition w_net : IdpNet := {|
  http_get url headers := Ok (200, Ok (JObj [("sub", JStr "idp-user"); ("email", JStr "bob@acme.example")]));
  http_post url data := Ok (200, Ok (JObj [("access_token", JStr "at")]));
  id_token_decode _ _ _ _ := Raise (ValueError "no id token")
|}.
#[local] Existing Instance w_net.
Definition w_idp_store : Store :=
  exec (OpCreateIdp t0 "idp1" "default" "oidc" (Some "https://idp") (Some "client") None None true) w_s0.
Definition w_oidc : OidcApp := mkOidcApp (mkPlane w_idp_store w_redis) [] [].
Definition w_started : OidcApp :=
  (oidc_login true (sec 3000) "https://id" "st1" "verifier" "nonce" "idp1" w_oidc).2.
Definition w_cb : CallbackDraws := mkCallbackDraws "u3" "pw" "salt" w_draws.
#[local] Abbreviation w_callback :=
  (oidc_callback w_cfg w_ring true (sec 3010) "https://id" w_cb "idp1" "code" (Some "st1") w_started).
Lemma w_callback_ok : is_ok w_callback.1 = true.
Proof. run. Qed.
Definition no_tokens : OidcTokens := mkOidcTokens "" "" 0.
Lemma oidc_members_only_witness :
  exists idp username uid role, get_idp "idp1" (st_store w_started) = Some idp /\
    get_member_role (ip_tenant_id idp) uid (st_store w_callback.2) = Some role /\
    signed_in idp username uid (st_store w_started) (st_store w_callback.2).
Proof.
  destruct (oidc_members_only w_cfg w_ring true (sec 3010) "https://id" w_cb "idp1" "code" (Some "st1") w_started
    (got no_tokens w_callback) w_callback.2)
    as (idp & x & info & secret & disc & ui & username & uid & role & H1 & _ & _ & _ & _ & _ & _ & _ & _ & H2 & _ & H3).
  - apply (bool_decide_unpack _). vm_compute. exact I.
  - exact (got_ok _ w_callback w_callback_ok).
  - exists idp, username, uid, role. split; [exact H1|]. split; [exact H2|exact H3].
Defined.
Lemma oidc_state_spent_witness :
  exists e st'', oidc_callback w_cfg w_ring true (sec 3020) "https://id" w_cb "idp1" "code2" (Some "st1") w_callback.2 =
    (Raise e, st'') /\ st_store st'' = st_store w_callback.2.
Proof.
  destruct (oidc_state_spent w_cfg w_ring true (sec 3010) "https://id" w_cb "idp1" "code" "st1" w_started
    (got no_tokens w_callback) w_callback.2 (sec 3020) "https://id" w_cb "idp1" "code2") as (e & st'' & H1 & _ & H2).
  - unfold sec. lia.
  - exact (got_ok _ w_callback w_callback_ok).
  - exists e, st''. split; [exact H1|exact H2].
Defined.

#[local] Abbreviation w_deleted := (delete_user "tok" None (sec 3000) "Bearer tok" "default" "usr_admin" w_s0).
Lemma w_deleted_ok : is_ok w_deleted.1 = true.
Proof. run. Qed.
Lemma scim_delete_bars_witness :
  get_member "default" "usr_admin" w_deleted.2 = None /\
  exists e s'', authorize (sec 3100) w_claims w_deleted.2 = (Raise e, s'').
Proof.
  destruct (scim_delete_bars "tok" None (sec 3000) "Bearer tok" w_cfg "default" "usr_admin" w_s0
    (got "" w_deleted) w_deleted.2) as (_ & H1 & H2 & _).
  - exact (got_ok _ w_deleted w_deleted_ok).
  - split; [exact H1|]. apply H2. reflexivity.
Defined.
Lemma scim_isolated_witness :
  exists e, scim_do "tok" None (sec 3000) "Bearer tok" "ghost" (DeleteUser "usr_admin") w_s0 = (Raise e, w_s0).
Proof.
  apply (scim_isolated "tok" None (sec 3000) "Bearer tok" "ghost" (DeleteUser "usr_admin") w_s0).
  intros t. vm_compute. discriminate.
Defined.

(** ** The client *)

Definition w_call (md : list (string * string)) : Call := mkCall (w_env false) "token" md Delivered "rpc error".
Definition w_md : list (string * string) := [("user-agent", "grpc"); (SERVICE_TOKEN_METADATA_KEY, "token")].
Definition w_boom : AuthorizeResponse -> M Plane unit := fun _ => raise (ValueError "boom").

Lemma client_needs_channel_token_witness :
  lease_guard (w_call []) (w_call []) "fmu_raw" "chat" "m1" w_boom w_plane
  = (Raise (LeaseDenied 0 "rpc error"), w_plane).
Proof.
  apply (client_needs_channel_token (w_call []) (w_call []) "fmu_raw" "chat" "m1" "" "" "" 0 0 false w_boom w_plane).
  reflexivity.
Defined.

#[local] Abbreviation w_acquired := (authorize_and_acquire (w_call w_md) "fmu_raw" "chat" "m1" "" w_plane).
#[local] Abbreviation w_reply := (got (_refuse INVALID_API_KEY "") w_acquired).
Lemma w_acquired_ok : w_acquired = (Ok w_reply, w_acquired.2).
Proof. apply got_ok. run. Qed.
Lemma w_acquired_held : exists S2, sem_rel 120 (sec 3000) (pl_redis w_acquired.2) S2.
Proof.
  pose proof w_acquired_ok as E. assert (as_is_allowed w_reply = true) as Hall by run. revert E Hall.
  generalize w_acquired.2, w_reply. intros p1 resp E Hall.
  destruct (granted_reply (w_call w_md) "fmu_raw" "chat" "m1" "" w_plane resp p1 sem_empty ltac:(unfold w_call, w_env, sec; simpl; lia)
    ltac:(simpl; lia) w_sem (w_fresh false) E Hall) as [_ [mx HR]]. eexists. exact HR.
Qed.
Lemma lease_guard_frees_witness :
  as_lease_id w_reply = "default:uuid" /\
  exists S2 p3, lease_guard (w_call w_md) (w_call w_md) "fmu_raw" "chat" "m1" w_boom w_plane
    = (Raise (ValueError "boom"), p3) /\
    sem_rel 120 (sec 3000) (pl_redis p3) (sem_release (context_tenant w_reply) (as_lease_id w_reply) S2).
Proof.
  split; [run|]. destruct w_acquired_held as [S2 HS2]. exists S2.
  apply (lease_guard_frees (w_call w_md) (w_call w_md) "fmu_raw" "chat" "m1" w_boom w_plane w_reply w_acquired.2
           (Raise (ValueError "boom")) w_acquired.2 sem_empty S2).
  - unfold w_call, w_env, sec. simpl. lia.
  - simpl. lia.
  - apply w_sem.
  - apply w_fresh.
  - apply w_acquired_ok.
  - run.
  - reflexivity.
  - split; [discriminate|reflexivity].
  - discriminate.
  - exact HS2.
  - reflexivity.
Defined.

(** ** The HTTP surface: Starlette as its documentation describes it *)
#[local] Instance w_starlette : Starlette := {|
  core_routes := [("GET", "/health"); ("GET", "/openapi.json"); ("GET", "/docs"); ("GET", "/redoc")];
  redirect_slashes := true;
  route_of := documented_route true
|}.
#[local] Instance w_starlette_laws : StarletteLaws.
Proof. split; [done|]. apply (bool_decide_unpack _). by vm_compute. Qed.
Example w_routed :
  (route_of route_table "GET" "/health", route_of route_table "GET" "/ready/",
   route_of route_table "POST" "/ready", route_of route_table "GET" "/readyz") =
  (ToEndpoint (on "GET" "/health" "create_app" Public) [], NotRouted 307, NotRouted 405, NotRouted 404).
Proof. by vm_compute. Qed.
Definition w_members_path : string := "/api/v1/tenants/default/members".
Definition w_members_route : Route :=
  mkRoute "GET" "/api/v1/tenants/{tenant_id}/members" "list_members" (Permission "members" "read").
Definition w_admitted :=
  enter w_cfg w_ring (sec 2100) w_hdr "svc" None "GET" w_members_path w_s1.

Lemma routes_order_free_witness :
  route_of (reverse app_routes) "DELETE" "/api/v1/tenants/t1/roles/r1" =
  ToEndpoint (mkRoute "DELETE" "/api/v1/tenants/{tenant_id}/roles/{role_id}" "delete_role"
              (Permission "rbac" "delete")) [("tenant_id", "t1"); ("role_id", "r1")].
Proof.
  rewrite <- (app_nil_l (reverse app_routes)).
  rewrite (routes_order_free [] (reverse app_routes) "DELETE" "/api/v1/tenants/t1/roles/r1").
  - by vm_compute.
  - apply reverse_Permutation.
  - by apply (bool_decide_unpack _).
Defined.
Lemma anonymous_surface_witness :
  exists code d, serve w_cfg w_ring (sec 2100) (mkHeaders "default" "") "svc" None
    (fun _ _ _ => modify (fun _ => init_store)) "PATCH" "/api/v1/tenants/default" w_s1 =
    (Raise (http code d), w_s1).
Proof.
  destruct (anonymous_surface w_cfg w_ring (sec 2100) (mkHeaders "default" "") "svc" None
    (fun _ _ _ => modify (fun _ => init_store)) "PATCH" "/api/v1/tenants/default" w_s1)
    as [(r & ps & Hr & Hp)|(code & d & Hs & _)].
  - by apply (bool_decide_unpack _).
  - reflexivity.
  - exfalso. vm_compute in Hr. injection Hr as <- _.
    destruct Hp as [Hp|Hp]; revert Hp; apply (bool_decide_unpack _); by vm_compute.
  - exists code, d. exact Hs.
Defined.
Lemma tenant_paths_confined_witness :
  exists c0 role, member_bearer w_cfg w_ring (sec 2100) w_hdr w_s1 c0 role /\ c_tid c0 = "default".
Proof.
  destruct (tenant_paths_confined w_cfg w_ring (sec 2100) w_hdr "svc" None "GET" w_members_path w_s1
    w_members_route [("tenant_id", "default")]
    (got (w_members_route, [("tenant_id", "default")], None) w_admitted).2 w_admitted.2 "default"
    w_s1_reachable)
    as [Ht|(c0 & role & Hm & [[Ht _]|Hj])].
  - by apply (bool_decide_unpack _).
  - run.
  - reflexivity.
  - exfalso. revert Ht. by vm_compute.
  - exists c0, role. split; [exact Hm|exact Ht].
  - exfalso. revert Hj. apply (bool_decide_unpack _). by vm_compute.
Defined.
