(* ===== verification/PgWitnesses.v ===== *)
(** * Concrete runs of the PostgreSQL store, the migrations and the client

    The definitions evaluated on the migrated schema with the stand-in
    libraries: for every property with hypotheses, inputs at which they hold. *)
From S2P Require Import Prelude PyText Json StoreState Prims AuditLog Sql Migrations Schema.
From S2P Require Import PgBase Users Tenants Ledger PgTenants PgUsers PgTokens PgLedger PgSteps PgProps.
From S2P Require Import PgSingleUse PgAudit PgGaps Sessions.

#[local] Existing Instances toy_hashlib toy_argon2 toy_hash_laws default_asyncpg default_asyncpg_laws.

Definition wp_pe (now : Z) : PgEnv := mkPgEnv None (sec now) AppRole id "0".
Definition wp_for (tid : string) (now : Z) : PgEnv := mkPgEnv (Some tid) (sec now) AppRole id "0".
Definition wp_calls (l : list (PgEnv * pg_op)) (db : Db) : Db :=
  foldl (fun db c => (exec (pg_call c.1 c.2) db).2) db l.

Lemma wp_evolves (ok : PgEnv -> Prop) l db : Forall (fun c => ok c.1) l -> evolve ok db (wp_calls l db).
Proof.
  intros Hl. revert db. induction Hl as [|[pe op] l Hok _ IH]; intros db; [apply rtc_refl|].
  unfold evolve. etransitivity; [by apply (exec_evolves ok pe op)|apply IH].
Qed.

(** Two tenants with a user, a ticket, an invite, tokens and an audit record. *)
Definition wp_setup : list (PgEnv * pg_op) :=
  [(wp_pe 100, PgCreateTenant "acme" "Acme" "team" "invite");
   (wp_pe 100, PgCreateTenant "other" "Other" "team" "invite");
   (wp_pe 101, PgCreateUser "salt" "u1" "ann" "pw" None false true None);
   (wp_pe 102, PgCreateSsoTicket "h1" "u1" "acme" (sec 500));
   (wp_pe 103, PgInsertRefreshToken "j1" "f1" "acme" "u1" (sec 9000) None "active");
   (wp_pe 104, PgUpdateUser "u1" (mkUserFields None None None None None (Some 5) (Some (sec 99999)) None None None None));
   (wp_pe 105, PgAppendAudit "acme" (Some "u1") None None "auth.login" None (JObj [("n", JInt 1)]))].
Definition wp_db : Db := wp_calls wp_setup (fresh_db 0).

Ltac wp_all := repeat (apply Forall_cons; split; [first [done | by intros ? | by split]|]); apply Forall_nil; exact I.

Lemma wp_reached : evolve scans (fresh_db 0) wp_db.
Proof. apply wp_evolves. wp_all. Qed.
Lemma wp_ok : db_ok schema wp_db.
Proof. exact (evolve_ok _ _ _ wp_reached (fresh_ok 0)). Qed.

Ltac run := vm_compute; reflexivity.

(** A worker for one tenant, and the rows of the other. *)
Definition wp_acme : list (PgEnv * pg_op) :=
  [(wp_for "acme" 200, PgUpdateTenant "other" (mkTenantFields (Some "Taken") None None None));
   (wp_for "acme" 201, PgDeleteTenant "other");
   (wp_for "acme" 202, PgUpdateTenant "acme" (mkTenantFields (Some "Acme2") None None None))].
Lemma pg_rls_isolates_witness :
  others "acme" "tenants" (wp_calls wp_acme wp_db) = others "acme" "tenants" wp_db /\
  rows "tenants" (wp_calls wp_acme wp_db) <> rows "tenants" wp_db.
Proof.
  split; [|by vm_compute].
  apply (pg_rls_isolates "acme" wp_db); [done|done| |].
  - apply wp_evolves. wp_all.
  - apply (bool_decide_unpack _). vm_compute. exact I.
Defined.

(** The ticket is consumed, then consumed again after other calls. *)
Definition wp_spent : res (option prow) * Db := exec (pg_consume_sso_ticket (wp_pe 110) "h1") wp_db.
Lemma pg_ticket_single_use_witness :
  (exists r, wp_spent = (Ok (Some r), wp_spent.2)) /\
  exists db3, exec (pg_consume_sso_ticket (wp_pe 112) "h1") (wp_calls wp_acme wp_spent.2) = (Ok None, db3).
Proof.
  split; [eexists; run|].
  eapply (pg_ticket_single_use (wp_pe 110) _ (fun _ => True) "h1"); [exact wp_ok|run|].
  apply wp_evolves. wp_all.
Defined.

Definition wp_invite : list (PgEnv * pg_op) :=
  [(wp_pe 106, PgCreateInvite "i1" "acme" "th" "member" (sec 900) None None)].
Lemma pg_invite_single_use_witness :
  let db := wp_calls wp_invite wp_db in
  let db1 := (exec (pg_mark_invite_used (wp_pe 110) "i1" "u1") db).2 in
  exists db3, exec (pg_mark_invite_used (wp_pe 111) "i1" "u1") db1 = (Ok false, db3).
Proof.
  eapply (pg_invite_single_use (wp_pe 110) _ (fun _ => True) "i1" "u1" "u1" (wp_calls wp_invite wp_db));
    [|run|apply rtc_refl].
  eapply (evolve_ok scans); [|exact wp_ok]. apply wp_evolves. wp_all.
Defined.

Definition wp_token : row := default [] (head (rows "refresh_tokens" wp_db)).
Definition wp_revoked : Db := (exec (pg_revoke_refresh_family (wp_pe 110) "f1") wp_db).2.
Lemma pg_family_revoked_witness :
  exists db3, exec (pg_rotate_refresh_token (wp_pe 111) "j1" "j1") wp_revoked = (Ok false, db3).
Proof.
  eapply (pg_family_revoked (wp_pe 110) _ (fun _ => True) "f1" "j1" "j1" 1 wp_token wp_db wp_revoked);
    [exact wp_ok|run| |run|run|run|apply rtc_refl].
  apply (bool_decide_unpack _). vm_compute. exact I.
Defined.

Definition wp_jti : Db := (exec (pg_revoke_jti (wp_pe 110) "a1" "acme" (Some "u1") "logout" None) wp_db).2.
Lemma pg_revocation_permanent_witness :
  exec (pg_is_jti_revoked (wp_pe 111) "a1") wp_jti = (Ok true, wp_jti).
Proof.
  eapply (pg_revocation_permanent (wp_pe 110) (wp_pe 111) (fun _ => True) "a1" "acme" (Some "u1") "logout"
            None wp_db wp_jti wp_jti); [run|apply rtc_refl|done|by intros l].
Defined.

(** The same calls by a pool of workers, one after the other. *)
Fixpoint wp_finish (fuel i : nat) (w : World) : list event :=
  match fuel with
  | O => []
  | S fuel' => match pool_step (Run i) w with Some w' => Run i :: wp_finish fuel' i w' | None => [] end
  end.
Definition wp_world0 : World := mkWorld (fresh_db 0) [].
Definition wp_after (evs : list event) (w : World) : World := default w (pool_run evs w).
Fixpoint wp_events (i : nat) (l : list (PgEnv * pg_op)) (w : World) : list event :=
  match l with
  | [] => []
  | (pe, op) :: l' =>
      let w1 := wp_after [Start pe op] w in
      let evs := wp_finish 20 i w1 in
      Start pe op :: evs ++ wp_events (S i) l' (wp_after evs w1)
  end.
Definition wp_world : World := wp_after (wp_events 0 wp_setup wp_world0) wp_world0.
Lemma wp_after_rel evs w :
  Forall (event_ok scans) evs -> bool_decide (is_Some (pool_run evs w)) = true ->
  rtc (pool_rel scans) w (wp_after evs w).
Proof.
  intros Hok [w' E]%bool_decide_eq_true. unfold wp_after. rewrite E. by eapply pool_run_rel.
Qed.
Lemma wp_finish_ok n i w : Forall (event_ok scans) (wp_finish n i w).
Proof. revert w. induction n as [|n IH]; intros w; cbn [wp_finish]; [constructor|]. case_match; by constructor. Qed.
Lemma wp_events_ok i l w : Forall (fun c => scans c.1) l -> Forall (event_ok scans) (wp_events i l w).
Proof.
  intros Hl. revert i w. induction Hl as [|[pe op] l Hs _ IH]; intros i w; cbn [wp_events]; [constructor|].
  constructor; [exact Hs|]. apply Forall_app. split; [apply wp_finish_ok|apply IH].
Qed.
Lemma wp_world_reached : rtc (pool_rel scans) wp_world0 wp_world.
Proof. apply wp_after_rel; [|run]. apply wp_events_ok. wp_all. Qed.
Lemma wp_world_db : w_db wp_world = wp_db.
Proof. run. Qed.

(** Two workers append for one tenant. The second asks for the lock when the first
    has read the last digest; it waits, and goes on when the first is done. *)
Definition wp_append (now : Z) (action_ : string) : event :=
  Start (wp_pe now) (PgAppendAudit "acme" (Some "u1") None None action_ None JNull).
Definition wp_race : list event :=
  [wp_append 106 "first"; wp_append 106 "second"; Run 7; Run 7].
Definition wp_raced : World := wp_after wp_race wp_world.
Definition wp_rest : list event :=
  [Run 7; Run 7; Run 7; Run 8; Run 8; Run 8; Run 8; Run 8].
Lemma pg_audit_chain_witness :
  bool_decide (is_Some (pool_step (Run 8) wp_raced)) = false /\
  pg_linked "genesis" (of_tenant "acme" (rows "audit_log" (w_db (wp_after wp_rest wp_raced)))) /\
  col "action" <$> rows "audit_log" (w_db (wp_after wp_rest wp_raced)) =
    [VText "auth.login"; VText "first"; VText "second"].
Proof.
  split; [run|]. split; [|run]. apply (pg_audit_chain 0 (wp_after wp_rest wp_raced) "acme").
  transitivity wp_world; [exact wp_world_reached|]. transitivity wp_raced; apply wp_after_rel; try run.
  - apply Forall_cons; split; [by intros l|]. apply Forall_cons; split; [by intros l|]. by repeat constructor.
  - by repeat constructor.
Defined.

Definition wp_fields : AuditFields :=
  mkAuditFields "acme" (Some "u1") None None "auth.login" None (JObj [("n", JInt 1)]) (sec 105).
Definition wp_record : row := default [] (head (rows "audit_log" wp_db)).
Lemma pg_verify_rejects_witness :
  exec (pg_verify_audit_chain (wp_pe 120) "acme") wp_db = (Ok (Some (vint (col "id" wp_record))), wp_db) \/
  collision_among ["genesis" +:+ audit_text wp_fields; "genesis" +:+ audit_text (as_read wp_fields)].
Proof.
  apply (pg_verify_rejects (wp_pe 120) "acme" wp_fields wp_record [] wp_db); [|run| |done|done|by intros l].
  - rewrite <- wp_world_db. exact (pool_audit_ok 0 _ wp_world_reached).
  - split; run.
Defined.

Lemma pg_rotate_before_insert_witness :
  exec (pg_rotate_refresh_token (wp_pe 110) "j1" "j2") wp_db = (Raise (PgError ForeignKeyViolationError), wp_db).
Proof.
  apply (pg_rotate_before_insert (wp_pe 110) "j1" "j2" wp_token wp_db); [exact wp_ok|done| |run|run|].
  - apply (bool_decide_unpack _). vm_compute. exact I.
  - intros r Hr. revert r Hr. apply Forall_forall. apply (bool_decide_unpack _). vm_compute. exact I.
Defined.

Definition wp_user : prow :=
  match exec (pg_get_user (wp_pe 120) "u1") wp_db with (Ok (Some u), _) => u | _ => [] end.
Lemma pg_lockout_ignored_witness :
  pget "locked_until" wp_user = PDatetime (sec 99999) /\ _is_locked_row (sec 120) wp_user = false.
Proof.
  split; [run|]. apply (pg_lockout_ignored (wp_pe 120) "u1" wp_user (sec 120) wp_db wp_db); [exact wp_ok|by intros l|run].
Defined.

Definition wp_resp : json := JObj [("tenant", JStr "acme"); ("id", JInt 7)].
Definition wp_kept : Db := (exec (pg_put_idempotency (wp_pe 110) "k1" "/provision" wp_resp) wp_db).2.
Definition wp_again : list (PgEnv * pg_op) := [(wp_pe 111, PgPutIdempotency "k1" "/other" JNull)].
Lemma pg_idempotency_replays_witness :
  jsonb_norm wp_resp = JObj [("id", JInt 7); ("tenant", JStr "acme")] /\
  exists row, exec (pg_get_idempotency (wp_pe 112) "k1") (wp_calls wp_again wp_kept)
    = (Ok (Some row), wp_calls wp_again wp_kept) /\
    pget "response" row = PJson (jsonb_norm wp_resp) /\ pget "endpoint" row = PStr "/provision".
Proof.
  split; [run|].
  apply (pg_idempotency_replays (wp_pe 110) (wp_pe 112) (fun _ => True) "k1" "/provision" wp_resp wp_db wp_kept);
    [exact wp_ok| |run| |by intros l].
  - intros r Hr. revert r Hr. apply Forall_forall. apply (bool_decide_unpack _). vm_compute. exact I.
  - apply wp_evolves. wp_all.
Defined.

(** ** Migrations *)

Lemma migrations_idempotent_witness :
  run_migrations (operator 7) (Some migration_files) (migrated 0).2 = (Ok [], (migrated 0).2).
Proof.
  eapply (migrations_idempotent (operator 0) (operator 7) (Some migration_files) empty_cluster). run.
Defined.

(** A third file that adds a policy twice. *)
Definition wp_bad_files : list (string * list ddl) :=
  [("0001_baseline", m0001_baseline); ("0002_idp_mfa", m0002_idp_mfa);
   ("0003_bad", [CreatePolicy "users"; CreatePolicy "users"])].
Definition wp_failed : res (list string) * Cluster :=
  run_migrations (operator 0) (Some wp_bad_files) empty_cluster.
Lemma migrations_fail_prefix_witness :
  wp_failed.1 = Raise (PgError DuplicateObjectError) /\
  exists pre mig post,
    load_migrations (Some wp_bad_files) = pre ++ mig :: post /\
    (mig_version <$> pre) ⊆ applied_versions wp_failed.2 /\ mig_version mig ∉ applied_versions wp_failed.2 /\
    run_migrations (operator 7) (Some wp_bad_files) wp_failed.2 =
      apply_pending (operator 7) (applied_versions wp_failed.2) (mig :: post) wp_failed.2.
Proof.
  split; [run|].
  destruct (migrations_fail_prefix (operator 0) (Some wp_bad_files) empty_cluster
           (PgError DuplicateObjectError) wp_failed.2)
    as (pre & mig & post & d & st1 & H1 & H2 & H3 & _ & _ & _ & H4).
  - apply (bool_decide_unpack _). vm_compute. exact I.
  - apply (bool_decide_unpack _). vm_compute. exact I.
  - run.
  - exists pre, mig, post. split; [exact H1|]. split; [exact H2|]. split; [exact H3|exact (H4 (operator 7))].
Defined.

(** ** Sessions over both stores *)

Definition wp_history : list (PgEnv * session_op) :=
  [(wp_pe 200, InsertToken "j2" "f1" "acme" "u1" (sec 9000) None "active");
   (wp_pe 201, InsertToken "j3" "f1" "nowhere" "u1" (sec 9000) None "active");
   (wp_pe 202, RotateToken "j1" "j2");
   (wp_pe 203, RotateToken "j1" "j2");
   (wp_pe 204, RevokeFamily "f1");
   (wp_pe 205, RotateToken "j2" "j1");
   (wp_pe 206, GetToken "j1")].
Definition wp_mem : Store :=
  set_refresh_tokens [("j1", mkRefreshToken "j1" "f1" "acme" "u1" "active" (sec 103) (sec 9000) None)] init_store.
Definition wp_calls_mem : list (Z * session_op) :=
  [(sec 202, RotateToken "j1" "j2"); (sec 203, RotateToken "j1" "j2")].
Definition wp_ran : list (option session_answer) * Db := session_run wp_history wp_db.

Ltac wp_able := split; [done|by intros ?].

Lemma rotates_once_witness :
  rotations "j1" wp_history wp_ran.1 = 1%nat /\
  (rotations "j1" wp_history wp_ran.1 <= 1)%nat /\
  (rotations "j1" wp_calls_mem (session_run wp_calls_mem wp_mem).1 <= 1)%nat.
Proof.
  split; [run|]. split.
  - apply (proj2 (rotates_once "j1") wp_history wp_db _ wp_ran.2); [exact wp_ok| |run].
    unfold wp_history. repeat (apply Forall_cons; split; [split; [wp_able|done]|]). by apply Forall_nil.
  - apply (proj1 (rotates_once "j1") wp_calls_mem wp_mem _ (session_run wp_calls_mem wp_mem).2).
    + apply (bool_decide_unpack _). vm_compute. exact I.
    + unfold wp_calls_mem. repeat (apply Forall_cons; split; [done|]). by apply Forall_nil.
    + apply surjective_pairing.
Defined.

Lemma stores_agree_witness :
  wp_ran.1 !! 1%nat = Some None /\
  exists s', session_run (answered_calls wp_history wp_ran.1) wp_mem = (Some <$> omap id wp_ran.1, s') /\
    session_view s' = session_view wp_ran.2.
Proof.
  split; [run|]. apply (stores_agree wp_history wp_db).
  - exact wp_ok.
  - unfold wp_history. repeat (apply Forall_cons; split; [wp_able|]). by apply Forall_nil.
  - apply (bool_decide_unpack _). vm_compute. exact I.
  - assert (token_rows wp_db = refresh_tokens wp_mem) as E by run.
    cbn [session_view mem_sessions pg_sessions]. by rewrite E.
  - apply surjective_pairing.
Defined.
